(* ===== verification/_CoqProject ===== *)
-Q . S2P
Prelude.v
Float64.v
FloatError.v
PyValue.v
States.v
Routing.v
Retry.v
Models.v
Quotas.v
Canonical.v
Base64.v
Safety.v
Engine.v
Telemetry.v
Observability.v
Credentials.v
Settings.v
RateLimiter.v
Boundary.v
BodyLimit.v
AuditRetention.v
Ddl.v
Migrations.v
Envelope.v
RunService.v
RunPort.v
ExecutionService.v
Providers.v
Lifecycle.v
Refinement.v
Messaging.v
Regression.v
RegressionGate.v
RunnerLemmas.v
ResourceExecutor.v
Commands.v
Schemas.v
Api.v
ApiTheorems.v
Client.v
Demo.v
System.v
Simulator.v
Guarantees.v
ExecutionTheorems.v
Moves.v
Progress.v
Settlement.v
Topology.v
Processes.v
Tracing.v
ApiTracing.v
Application.v
Entrypoints.v
Integrity.v
Witnesses.v
