(* ===== verification/Prelude.v ===== *)
(** * Agent Reliability Runtime: a verification development

    The Agent Reliability Runtime ([src/src/agent_runtime/]) accepts requests to run an agent,
    stores each as a durable run, and executes it exactly as its immutable policy says: with a
    chosen provider, a bounded number of attempts, a lease that makes one worker responsible,
    quotas, and an evaluation of the result.  This library models the program's Python code in
    Rocq and proves what makes it correct.

    ** The parts and how they interact

    A request passes the body limit and the security boundary (credential, rate limit, audit
    record), is validated by the request models, and a handler calls the run service.  The run
    service writes the run and an outbox row in one transaction.  The dispatcher publishes outbox
    rows to the broker; a worker receives the message, claims the run, which opens an attempt
    under a lease, lets the resource executor do the job (one provider call, a regression over a
    dataset, or an evaluation of an earlier result), and completes the attempt.  Failures are
    retried with backoff or dead-lettered; recovery frees expired leases; the scheduler queues
    due retries.  Operators migrate the database, issue keys, purge old audit rows, erase the keys
    of tenants and gate releases on a regression.  Traces, metrics, logs and heartbeats say what
    happens.

    ** Files

    Foundations:
    - [Prelude]: Python exceptions and results, lists, tactics, hint databases.
    - [Float64]: binary64 floats, exact, as integers scaled by [2^1074], and Python numbers;
      [FloatError]: how far each rounded operation is from the exact one.
    - [PyValue]: text, JSON values and dictionaries.  [Base64]: the base64 codec.

    Domain ([domain/]):
    - [States]: statuses and the transition table ([states.py]).
    - [Routing]: provider order ([routing.py]).  [Retry]: policies, backoff, error codes
      ([retry.py], [policy.py]).

    Persistence ([infrastructure/database/], [application/]):
    - [Models]: the tables ([models.py]).  [Quotas]: admission and charging ([quotas.py]).
    - [Ddl], [Migrations]: a catalogue with its constraints, the meaning of the DDL statements on
      it and its rows, every migration script ([src/migrations/versions/]), and the catalogue
      [models.py] declares.
    - [Canonical]: the canonical text of a request and its hash ([runs.py]).
    - [RunService]: submit, replay, evaluate, regression jobs, reads ([run_service.py]).
    - [RunPort]: the protocol [RunSubmissionService] of [application/runs.py] as a class of
      operations over a state, the contract its clients rely on ([RunServiceContract]: an operation
      acts for one tenant only, and raises only what it declares), and [SqlAlchemyRunService] as an
      instance that keeps it.  [Api], [Application] and [Client] are written against the class.
    - [ExecutionService]: claim, completion, retry, recovery, scheduling
      ([execution_service.py]).

    Messaging ([infrastructure/messaging/]): [Messaging] has the dispatcher, the publisher and the
    worker's handling of one delivery; [Topology] the exchanges, queues and bindings both declare.

    Evaluation and execution:
    - [Safety], [Engine]: limits of evaluation inputs and the rule engine ([evaluation/]).
    - [Regression], [RunnerLemmas]: the regression runner ([evaluation/regression.py]);
      [RegressionGate]: what its flags say of the cases they are computed from.
    - [Providers]: the adapters and their registry ([providers/]).
    - [ResourceExecutor]: what a worker does with a claimed job
      ([execution/resource_executor.py]).

    Security and API:
    - [Credentials], [Settings], [RateLimiter] ([security/credentials.py], [settings.py],
      [infrastructure/redis/rate_limiter.py]): issuing keys, exporting and reading registry entries,
      the checks of a start, the fixed window.
    - [Boundary]: authentication, audit records and the middleware ([security/], [api/main.py]).
    - [BodyLimit], [Schemas], [Api]: body limit, request and response models, handlers and
      exception handlers ([api/]).
    - [AuditRetention]: the audit table, its trigger and the purge.
    - [Envelope]: tenant keys, sealed fields and key erasure.

    Observability ([observability/]):
    - [Telemetry]: the trace-context sanitizer ([telemetry.py]).
    - [Observability]: metrics, the JSON log formatter, safe exception contexts, heartbeats and the
      health check.
    - [Tracing]: injection and extraction of trace contexts, spans, timed service calls, the
      tracing middleware, and the context a message carries ([telemetry.py], [run_service.py],
      [api/main.py], [dispatcher.py], [worker.py]).
    - [ApiTracing]: what the boundary, the routes and the run service measure and record inside the
      span of a request ([api/main.py], [run_service.py], [quotas.py]).

    Processes and commands:
    - [Processes]: the loops of dispatcher, scheduler and worker monitor with their connections
      ([processes.py], [publisher.py], [worker.py]).
    - [Commands]: the commands for regression, credentials and retention ([evaluation/cli.py],
      [security/cli.py], [security/retention_cli.py]).
    - [Application]: what [create_app] assembles, and a request through all middlewares
      ([api/main.py]).
    - [Entrypoints]: what each process builds from the settings, takes and releases, and the
      set-up of telemetry, logging and the database pools ([processes.py], [session.py],
      [audit_retention.py]).
    - [Client]: the Python client and the wire format of the answers ([client.py]).  [Demo]: the
      tour of a local stack ([src/examples/recruiter_demo.py]).

    The whole system:
    - [Lifecycle]: the abstract machine of runs and attempts; [Refinement]: every transaction of
      the services is a sequence of its changes; [System]: database and broker as a step relation
      in which all processes interleave; [Simulator]: an executable interpreter of its schedules.
    - [Guarantees], [ExecutionTheorems], [ApiTheorems]: the theorems on the system, on the
      execution service and on the API; [Moves]: the moves one step can make on a run; [Progress]: from every reachable state every run can
      finish; [Settlement]: how a delivery ends, for every outcome of the executor; [Integrity]: the
      tables as rows of cells, against the catalogue of [Migrations]; [Witnesses]: the theorems
      applied to concrete schedules.

    ** How code becomes definitions

    A function that may raise returns [result]; the exception is a value of [exn].  A transaction
    is a function on [db] that returns its result and the new database, unchanged when it raises:
    row and advisory locks make transactions atomic with respect to each other.  Where the
    interleaving inside a method matters it is explicit: the lookup before a concurrent insert is
    an argument of the [_seeing] variants in [RunService], the rows skipped by SKIP LOCKED are
    excluded by the argument [visible] in [ExecutionService], and [ResourceExecutor] lets other
    processes change the database arbitrarily between its transactions.  Clocks, random bytes and
    new identifiers are arguments.  Integers are Python's unbounded ones ([Z]); floats are
    binary64, with the rounding of every operation.

    Parameters stand for code that is not in the repository: SHA-256, HMAC, PBKDF2, the text of a
    float ([repr]), JSON Schema validation, AES-GCM, [json.loads], Pydantic's JSON parser, lax coercions and
    reader of times, Redis commands, the broker's answers, the HTTP transport, the platform of the client, the
    OpenTelemetry propagator, and FastAPI's routing.  What a theorem needs of them is a
    field of a class ([Host], [FloatRepr], [Crypto], [Redis], [Aead], [KeyWrapper], [Pydantic],
    [RegistryReader], [Platform], [Timely]) that states documented behaviour, and each class has a concrete instance in a witness.

    ** What the theorems show

    - No run is lost, one worker at a time, finished runs are final, attempts are numbered without
      gap within the budget, and concurrency quotas hold: in every reachable state, under every
      interleaving with crashes (also of a dispatcher between a publication and its commit) and
      redelivery ([Guarantees], by refinement to [Lifecycle]); a step makes at most one move of the
      lifecycle on each run, under the condition the code makes it ([Moves]); and from every
      reachable state every run can still finish, with positive limits ([Progress]).
    - A claim takes an exclusive lease, an attempt is completed at most once, failures are retried
      or finished as the policy says, recovery and scheduling make progress
      ([ExecutionTheorems]).  Whatever the executor returns or raises, a worker that holds a claim
      answers the broker and records exactly that outcome, or nothing if the attempt is no longer
      its own ([Settlement]).
    - In every reachable state the rows satisfy the catalogue the migrations leave, foreign keys
      included: no statement of the services is refused by a constraint ([Integrity]).
    - Submission is idempotent for ever, also when it loses a race, and creates exactly one run
      with its outbox row and its history rows;
      reading the history page by page is complete ([Guarantees], [RunService]); equal hashes mean
      equal requests ([Canonical]).
    - Provider calls stay within the budgets of principal and tenant ([Quotas]) and are made only
      under a live lease after a charge ([ResourceExecutor]).
    - Nothing reaches the application without a proven identity, tenants are confined to their
      rows end to end, sensitive reads are audited, issued keys authenticate, the rate is bounded,
      exactly the bodies within the limit are forwarded, answers have their declared shape, and an
      admitted regression is one the worker can run ([Boundary], [RateLimiter], [BodyLimit],
      [ApiTheorems]).
    - Accepted policies are within the server's limits, backoff is bounded and monotone, routing
      orders providers as its strategy says; a configuration that loads meets the assumptions of
      the rest ([Retry], [Routing], [Settings]).
    - The bounded traversal decides its limits, validated rules evaluate without error, reports
      are complete and gates never reject a candidate that did no worse ([Safety], [Engine],
      [Regression]); provider outcomes get their error codes ([Providers]).
    - From any revision, whatever the rows, the migrations reach the head and the declared catalogue
      and keep every row; each upgrade is undone by its downgrade with
      the rows intact, and the history tables are append-only ([Migrations]).
    - Publisher and workers declare the same topology, and every message has one queue
      ([Topology]); the dispatcher drains the outbox and a scheduler pass clears what is due
      ([Processes]); every message about a run carries the trace it was submitted in ([Tracing]).
    - A line of the log depends on the allowlisted fields only; labels of metrics are bounded, a
      heartbeat is never read torn ([Observability]); a request is measured once, with the status
      its client got and the route that was matched, if any ([Application]).
    - The regression command succeeds only on a complete comparison in which the candidate keeps the
      given limits on the cases themselves, up to the rounding ([RegressionGate], [Commands]); the
      entry printed for a new key is read back by the settings, and the key then authenticates
      ([Credentials], [Settings], [Commands]).
    - A production process is assembled with every guard ([Application]), the processes of one
      deployment fit together and release what they take ([Entrypoints]).
    - The client reads every answer of the API for what it is, and waiting for a run ends
      ([Client]).
    - A purge terminates and deletes exactly the expired rows; sealed fields open again, in their
      context only, until the key is erased, which is guarded and final ([AuditRetention],
      [Envelope]).

    ** Fuel and bounds

    The traversals of [Safety] run on fuel [max_nodes + 1], which is enough because each iteration
    counts a node and the count is bounded; [Safety.bounded_value_decides_limits] is stated
    without fuel.  The purge loop takes as fuel the number of eligible rows plus one, and
    [AuditRetention.purge_terminates_exact] proves that this is enough; the polling loop of the
    client takes [timeout / poll] plus a logarithm, which
    [Client.wait_for_terminal_terminates] proves to be enough.  A batch of the dispatcher is
    bounded by its size, as in the code; its loop takes as fuel the number of unpublished rows plus
    one, which [Processes.dispatcher_drains_outbox] proves to be enough.  The upgrade of
    [Migrations] takes the number of scripts, with which [Migrations.migrations_build_models]
    reaches the head.  All other recursion is structural.

    ** Not modelled

    - Characters with code points above 255; messages of exceptions that no code inspects.
    - The event loop, the sockets of aio_pika, httpx, redis and SQLAlchemy, the exporters of
      OpenTelemetry, uvicorn and Alembic ([migrations/env.py]): library code that calls, or is called
      by, the modelled operations in an order that [System] leaves free.
    - FastAPI's routing and parameter parsing, and the bytes that compression produces.
    - [_run_idle_process], which nothing calls.
    - The lengths of string columns and the width of integer columns are not enforced on the rows of
      [Models]; [Integrity.quota_window_fits_column] says until when the window of a quota fits.  The
      counter [version], which SQLAlchemy keeps for optimistic locking, is an argument of
      [Integrity.rows_of_db]. *)

From stdpp Require Export base gmap sets list list_numbers strings sorting.
From stdpp Require Import fin_maps.
From Stdlib Require Export ZArith Lia.

(** ** Python exceptions and results

    A Python function that may raise returns a [result]; the constructor of
    [exn] is the class of the exception.  [is_value_error] is the subclass
    test behind the code's [except ValueError] clauses. *)

Inductive exn :=
| ValueError (msg : string)
| TypeError
| KeyError
| OverflowError
| RuntimeError (msg : string)
| TimeoutError
| InvalidExecutionTransition
| QuotaExceededError (msg : string)
| IdempotencyConflictError
| InvalidCursorError
| RunNotFoundError
| RunNotSucceededError
| EvaluationConfigurationError (msg : string)
| ProviderConfigurationError
| ProviderHttpError (status_code : Z)
| PublishNotConfirmedError
| OtherException (name : string).

#[export] Instance exn_eq_dec : EqDecision exn.
Proof. solve_decision. Defined.

Definition is_value_error (e : exn) : bool :=
  match e with
  | ValueError _ | InvalidExecutionTransition | QuotaExceededError _
  | IdempotencyConflictError | InvalidCursorError | RunNotSucceededError
  | EvaluationConfigurationError _ => true
  | _ => false
  end.

Inductive result (A : Type) :=
| Ok (a : A)
| Err (e : exn).
Arguments Ok {A} a.
Arguments Err {A} e.

#[export] Instance result_eq_dec {A} `{!EqDecision A} : EqDecision (result A).
Proof. solve_decision. Defined.

#[export] Instance result_ret : MRet result := λ A a, Ok a.
#[export] Instance result_bind : MBind result := λ A B f m,
  match m with Ok a => f a | Err e => Err e end.
#[export] Instance result_fmap : FMap result := λ A B f m,
  match m with Ok a => Ok (f a) | Err e => Err e end.

(** The exceptions a computation may raise. *)
Definition raises {A} (P : exn → Prop) (r : result A) : Prop :=
  match r with Ok _ => True | Err e => P e end.

Definition is_ok {A} (r : result A) : bool :=
  match r with Ok _ => true | Err _ => false end.

Lemma result_bind_ok {A B} (f : A → result B) (m : result A) (b : B) :
  m ≫= f = Ok b ↔ ∃ a, m = Ok a ∧ f a = Ok b.
Proof. destruct m; cbn; naive_solver. Qed.

(** [raise_unless b e] is the guard [if not b: raise e]. *)
Definition raise_unless (b : bool) (e : exn) : result unit :=
  if b then Ok tt else Err e.

Lemma raise_unless_ok b e u : raise_unless b e = Ok u ↔ b = true.
Proof. destruct b, u; cbn; naive_solver. Qed.

(** [mapM]-style traversal in the result monad: Python list comprehensions
    whose element expression may raise. *)
Fixpoint result_map {A B} (f : A → result B) (l : list A) : result (list B) :=
  match l with
  | [] => Ok []
  | x :: l' => y ← f x; ys ← result_map f l'; Ok (y :: ys)
  end.

Lemma result_map_ok {A B} (f : A → result B) l ys :
  result_map f l = Ok ys ↔ Forall2 (λ x y, f x = Ok y) l ys.
Proof.
  revert ys; induction l as [|x l IH]; intros ys; cbn.
  - split; [by intros [= <-]|]. by inversion 1.
  - rewrite result_bind_ok. setoid_rewrite result_bind_ok. split.
    + intros (y & Hy & ys' & Hys & [= <-]). constructor; [done|]. by apply IH.
    + inversion 1; subst. eexists; split; [done|]. eexists; split; [|done]. by apply IH.
Qed.

Lemma raises_bind {A B} P (m : result A) (f : A → result B) :
  raises P m → (∀ a, m = Ok a → raises P (f a)) → raises P (m ≫= f).
Proof. destruct m; cbn; auto. Qed.
Lemma raises_unless P b e : (b = false → P e) → raises P (raise_unless b e).
Proof. destruct b; cbn; auto. Qed.
Lemma raises_map {A B} P (f : A → result B) l : (∀ x, raises P (f x)) → raises P (result_map f l).
Proof.
  intros Hf. induction l as [|x l IH]; [done|]. apply raises_bind; [done|intros y _].
  apply raises_bind; [done|]. done.
Qed.

(** ** Tactics *)

(** Split every [match]/[if] of the hypotheses on its scrutinee. *)
Ltac split_match_in H :=
  match type of H with
  | context [match ?x with _ => _ end] => destruct x eqn:?
  end.

Ltac split_match :=
  match goal with
  | |- context [match ?x with _ => _ end] => destruct x eqn:?
  end.

(** Invert a monadic success: [m ≫= f = Ok b] and guards. *)
Ltac inv_result :=
  repeat match goal with
  | H : mbind _ _ = Ok _ |- _ =>
      apply result_bind_ok in H; destruct H as (? & ? & ?)
  | H : raise_unless _ _ = Ok _ |- _ => apply raise_unless_ok in H
  | H : Ok _ = Ok _ |- _ => injection H as H; subst
  | H : Err _ = Ok _ |- _ => discriminate H
  | H : mret _ = Ok _ |- _ => unfold mret, result_ret in H
  end.

(** Turn boolean tests in the context and the goal into propositions. *)
Ltac bool_to_prop :=
  repeat match goal with
  | H : (_ && _)%bool = true |- _ => apply andb_true_iff in H; destruct H
  | H : (_ || _)%bool = false |- _ => apply orb_false_iff in H; destruct H
  | H : negb _ = true |- _ => apply negb_true_iff in H
  | H : negb _ = false |- _ => apply negb_false_iff in H
  | H : bool_decide _ = true |- _ => apply bool_decide_eq_true in H
  | H : bool_decide _ = false |- _ => apply bool_decide_eq_false in H
  | H : (_ <? _)%Z = true |- _ => apply Z.ltb_lt in H
  | H : (_ <? _)%Z = false |- _ => apply Z.ltb_ge in H
  | H : (_ <=? _)%Z = true |- _ => apply Z.leb_le in H
  | H : (_ <=? _)%Z = false |- _ => apply Z.leb_gt in H
  | H : (_ =? _)%Z = true |- _ => apply Z.eqb_eq in H
  | H : (_ =? _)%Z = false |- _ => apply Z.eqb_neq in H
  end.

(** Reduce [raises P r] to the exceptions [r] names. *)
Create HintDb raises discriminated.
Ltac solve_raises :=
  repeat first
  [ progress auto with raises nocore
  | apply raises_bind; [|intros ? ?]
  | apply raises_unless; intros _
  | apply raises_map; intros ?
  | progress cbn [raises]
  | done
  | case_match ].

Create HintDb arr discriminated.

(** [len(l)]. *)
Definition len {A} (l : list A) : Z := Z.of_nat (length l).

Lemma len_nonneg {A} (l : list A) : (0 ≤ len l)%Z.
Proof. apply Nat2Z.is_nonneg. Qed.
Lemma len_cons {A} (x : A) l : len (x :: l) = (len l + 1)%Z.
Proof. unfold len. rewrite length_cons. lia. Qed.
Lemma len_app {A} (l k : list A) : len (l ++ k) = (len l + len k)%Z.
Proof. unfold len. rewrite length_app. lia. Qed.

Lemma foldl_max_spec n l :
  foldl Z.max n l ∈ n :: l ∧ ∀ x, x ∈ n :: l → (x ≤ foldl Z.max n l)%Z.
Proof.
  revert n. induction l as [|m l IH]; intros n; cbn.
  - split; [by left|]. intros x ->%list_elem_of_singleton. done.
  - destruct (IH (Z.max n m)) as [Hin Hle]. split.
    + apply elem_of_cons in Hin as [->|Hin]; [|set_solver]. destruct (Z.max_dec n m); set_solver.
    + intros x Hx. specialize (Hle (Z.max n m)) as H1. rewrite elem_of_cons in H1.
      apply elem_of_cons in Hx as [->|[->|Hx]%elem_of_cons]; [lia..|].
      apply Hle. set_solver.
Qed.

(** ** Counting rows of a table

    [count_where P m] is [SELECT count( * ) FROM m WHERE P]. *)

Section Count.
Context {K : Type} `{Countable K} {A : Type}.
Implicit Types (m : gmap K A) (P : A → bool).

Definition count_where P m : nat :=
  size (filter (λ kv : K * A, P kv.2 = true) m).

Lemma count_where_fresh P m k x :
  m !! k = None →
  count_where P (<[k:=x]> m) = count_where P m + (if P x then 1 else 0).
Proof.
  intros Hk. unfold count_where. destruct (P x) eqn:HP.
  - rewrite map_filter_insert_True by done.
    rewrite map_size_insert_None; [lia|].
    apply map_lookup_filter_None. by left.
  - rewrite map_filter_insert_False by (cbn; congruence).
    rewrite delete_id by done. lia.
Qed.

Lemma count_where_update P m k x y :
  m !! k = Some x →
  count_where P (<[k:=y]> m) + (if P x then 1 else 0)
  = count_where P m + (if P y then 1 else 0).
Proof.
  intros Hk.
  assert (m = <[k:=x]> (delete k m)) as Hm by (by rewrite insert_delete_eq, insert_id).
  rewrite Hm at 1 2. rewrite insert_insert_eq.
  rewrite !count_where_fresh by apply lookup_delete_eq. lia.
Qed.

Lemma count_where_pos P m k x :
  m !! k = Some x → P x = true → 0 < count_where P m.
Proof.
  intros Hk HP. pose proof (count_where_update P m k x x Hk) as Hc.
  destruct (count_where P m) eqn:E; [|lia].
  unfold count_where in E. apply map_size_empty_iff in E.
  assert (filter (λ kv : K * A, P kv.2 = true) m !! k = Some x) as Hf.
  { apply map_lookup_filter_Some. by split. }
  by rewrite E, lookup_empty in Hf.
Qed.

Lemma count_where_empty P : count_where P ∅ = 0.
Proof. unfold count_where. by rewrite map_filter_empty, map_size_empty. Qed.
End Count.

(** The rows of a table that satisfy a predicate. *)
Definition rows_where {K} `{Countable K} {A} (P : A → bool) (m : gmap K A) : list A :=
  (map_to_list (filter (λ kv : K * A, P kv.2 = true) m)).*2.

Lemma elem_of_rows_where {K} `{Countable K} {A} (P : A → bool) (m : gmap K A) x :
  x ∈ rows_where P m ↔ ∃ k, m !! k = Some x ∧ P x = true.
Proof.
  unfold rows_where. rewrite list_elem_of_fmap. split.
  - intros ([k y] & -> & Hin). apply elem_of_map_to_list in Hin.
    apply map_lookup_filter_Some in Hin. naive_solver.
  - intros (k & Hk & HP). exists (k, x); split; [done|].
    apply elem_of_map_to_list, map_lookup_filter_Some. by split.
Qed.

(** One row of a table apart from the others. *)
Lemma rows_where_insert {K} `{Countable K} {A} (P : A → bool) (m : gmap K A) k x :
  rows_where P (<[k:=x]> m) ≡ₚ (if P x then [x] else []) ++ rows_where P (delete k m).
Proof.
  rewrite <- insert_delete_eq. unfold rows_where. destruct (P x) eqn:HP.
  - rewrite map_filter_insert_True by done. rewrite map_to_list_insert; [done|].
    apply map_lookup_filter_None. left. apply lookup_delete_eq.
  - rewrite map_filter_insert_False by (cbn; congruence). by rewrite delete_delete_eq.
Qed.

Lemma rows_where_split {K} `{Countable K} {A} (P : A → bool) (m : gmap K A) k x :
  m !! k = Some x →
  rows_where P m ≡ₚ (if P x then [x] else []) ++ rows_where P (delete k m).
Proof. intros Hk. rewrite <- (insert_id m k x Hk) at 1. apply rows_where_insert. Qed.

Lemma rows_where_fresh {K} `{Countable K} {A} (P : A → bool) (m : gmap K A) k x :
  m !! k = None → rows_where P (<[k:=x]> m) ≡ₚ (if P x then [x] else []) ++ rows_where P m.
Proof. intros Hk. by rewrite rows_where_insert, delete_id. Qed.

Lemma rows_where_irrelevant {K} `{Countable K} {A} (P : A → bool) (m : gmap K A) k x y :
  m !! k = Some x → P x = false → P y = false → rows_where P (<[k:=y]> m) ≡ₚ rows_where P m.
Proof. intros Hk Hx Hy. by rewrite rows_where_insert, (rows_where_split _ _ _ _ Hk), Hx, Hy. Qed.

Lemma Forall_filter {A} (P Q : A → Prop) `{∀ x, Decision (Q x)} (l : list A) :
  Forall P l → Forall P (filter Q l).
Proof. rewrite !Forall_forall. intros HP x [_ Hx]%list_elem_of_filter. by apply HP. Qed.

Lemma filter_id {A} (Q : A → Prop) `{∀ x, Decision (Q x)} (l : list A) :
  Forall Q l → filter Q l = l.
Proof. induction 1; [done|]. rewrite filter_cons, decide_True by done. by f_equal. Qed.

Lemma StronglySorted_filter {A} (R : A → A → Prop) (Q : A → Prop) `{∀ x, Decision (Q x)} l :
  StronglySorted R l → StronglySorted R (filter Q l).
Proof.
  induction 1 as [|x l Hl IH Hx]; [constructor|]. rewrite filter_cons. case_decide; [|done].
  constructor; [done|]. by apply Forall_filter.
Qed.

Lemma NoDup_fmap_inj_elem {A B} (f : A → B) (l : list A) x y :
  NoDup (f <$> l) → x ∈ l → y ∈ l → f x = f y → x = y.
Proof.
  intros Hnd [i Hi]%list_elem_of_lookup [j Hj]%list_elem_of_lookup Hf.
  assert (i = j) as ->; [|congruence].
  eapply (NoDup_lookup (f <$> l)); [done|by rewrite list_lookup_fmap, Hi|].
  rewrite list_lookup_fmap, Hj. cbn. by rewrite Hf.
Qed.

Lemma NoDup_fmap_filter {A B} (f : A → B) (Q : A → Prop) `{∀ x, Decision (Q x)} (l : list A) :
  NoDup (f <$> l) → NoDup (f <$> filter Q l).
Proof.
  induction l as [|x l IH]; [done|]. rewrite fmap_cons, NoDup_cons. intros [Hx Hl].
  rewrite filter_cons. case_decide; [|auto]. rewrite fmap_cons, NoDup_cons. split; [|auto].
  intros (y & Hf & Hy)%list_elem_of_fmap. apply Hx. rewrite list_elem_of_filter in Hy.
  rewrite Hf. apply list_elem_of_fmap_2, Hy.
Qed.

(** ** A stable sort

    [sort_by lt] is Python's [list.sort] and an SQL [ORDER BY] on the strict
    comparison [lt]: an element is inserted after the elements it is not
    smaller than, so equal keys keep their order. *)

Section SortBy.
Context {A : Type} (lt : A → A → bool).

Fixpoint insert_by (x : A) (l : list A) : list A :=
  match l with
  | [] => [x]
  | y :: l' => if lt x y then x :: l else y :: insert_by x l'
  end.

Definition sort_by (l : list A) : list A :=
  foldl (λ acc x, insert_by x acc) [] l.

Lemma insert_by_perm x l : insert_by x l ≡ₚ x :: l.
Proof.
  induction l as [|y l IH]; cbn; [done|].
  destruct (lt x y); [done|]. rewrite IH. apply Permutation_swap.
Qed.

Lemma sort_by_acc_perm l acc :
  foldl (λ acc x, insert_by x acc) acc l ≡ₚ l ++ acc.
Proof.
  revert acc; induction l as [|x l IH]; intros acc; cbn; [done|].
  rewrite IH, insert_by_perm. by rewrite Permutation_middle.
Qed.

Lemma sort_by_perm l : sort_by l ≡ₚ l.
Proof. unfold sort_by. by rewrite sort_by_acc_perm, app_nil_r. Qed.

(** [x] may stand before [y]: [y] is not smaller. *)
Definition not_after (x y : A) : Prop := lt y x = false.

(** [lt] is a strict weak order on the elements of [D]. *)
Class StrictWeak (D : A → Prop) := {
  sw_trans : ∀ x y z, D x → D y → D z → not_after x y → not_after y z → not_after x z;
  sw_asym : ∀ x y, D x → D y → lt x y = true → lt y x = false;
}.

Context (D : A → Prop) `{!StrictWeak D}.

Lemma insert_by_sorted x l :
  D x → Forall D l →
  StronglySorted not_after l → StronglySorted not_after (insert_by x l).
Proof.
  intros Hx HD. induction 1 as [|y l Hl IH Hy]; cbn; [by repeat constructor|].
  apply Forall_cons in HD as [HDy HDl].
  destruct (lt x y) eqn:E.
  - constructor; [by constructor|].
    assert (not_after x y) by (by apply sw_asym).
    constructor; [done|].
    rewrite Forall_forall in Hy, HDl |- *. intros z Hz.
    eapply (sw_trans x y z); eauto.
  - constructor; [by apply IH|].
    rewrite insert_by_perm. by constructor.
Qed.

Lemma sort_by_sorted l : Forall D l → StronglySorted not_after (sort_by l).
Proof.
  unfold sort_by. assert (StronglySorted not_after (@nil A)) as Hacc by constructor.
  assert (Forall D (@nil A)) as HDacc by constructor.
  revert Hacc HDacc. generalize (@nil A) as acc.
  induction l as [|x l IH]; intros acc Hacc HDacc HD; cbn; [done|].
  apply Forall_cons in HD as [??].
  apply IH; [by apply insert_by_sorted| |done].
  rewrite insert_by_perm. by constructor.
Qed.
End SortBy.

(** ** Three-way comparisons

    [GoodCmp cmp D]: on the elements of [D], [cmp] is antisymmetric and "not
    greater" is transitive.  Lexicographic comparison of lists inherits it; it
    is the order of Python tuples and strings. *)

Class GoodCmp {A} (cmp : A → A → comparison) (D : A → Prop) := {
  cmp_antisym : ∀ x y, D x → D y → cmp y x = CompOpp (cmp x y);
  cmp_trans : ∀ x y z, D x → D y → D z → cmp x y ≠ Gt → cmp y z ≠ Gt → cmp x z ≠ Gt;
}.

Arguments cmp_antisym {A} cmp D {_}.
Arguments cmp_trans {A} cmp D {_}.

Definition cmp_lt {A} (cmp : A → A → comparison) (x y : A) : bool :=
  match cmp x y with Lt => true | _ => false end.

Lemma cmp_eq_l {A} (cmp : A → A → comparison) D `{!GoodCmp cmp D} x y z :
  D x → D y → D z → cmp x y = Eq → cmp x z = cmp y z.
Proof.
  intros Hx Hy Hz Hxy.
  assert (cmp y x = Eq) as Hyx by (by rewrite (cmp_antisym cmp D x y), Hxy).
  pose proof (cmp_trans cmp D x y z Hx Hy Hz) as T1. pose proof (cmp_trans cmp D y x z Hy Hx Hz) as T2.
  pose proof (cmp_trans cmp D z x y Hz Hx Hy) as T3. pose proof (cmp_trans cmp D z y x Hz Hy Hx) as T4.
  rewrite (cmp_antisym cmp D x z), (cmp_antisym cmp D y z) in T3, T4 by done.
  destruct (cmp x z) eqn:E1, (cmp y z) eqn:E2; cbn in *; try done; exfalso; naive_solver congruence.
Qed.

Section Lex.
Context {A} (cmp : A → A → comparison) (D : A → Prop) `{!GoodCmp cmp D}.

Fixpoint lex_cmp (l1 l2 : list A) : comparison :=
  match l1, l2 with
  | [], [] => Eq
  | [], _ => Lt
  | _, [] => Gt
  | x :: l1', y :: l2' =>
      match cmp x y with Eq => lex_cmp l1' l2' | c => c end
  end.

#[export] Instance lex_cmp_good : GoodCmp lex_cmp (Forall D).
Proof.
  split.
  - intros l1; induction l1 as [|x l1 IH]; intros [|y l2] H1 H2; cbn; try done.
    apply Forall_cons in H1 as [??], H2 as [??].
    rewrite (cmp_antisym cmp D x y) by done. destruct (cmp x y); cbn; auto.
  - intros l1; induction l1 as [|x l1 IH]; intros [|y l2] [|z l3] H1 H2 H3; cbn; try done.
    apply Forall_cons in H1 as [??], H2 as [??], H3 as [??].
    pose proof (cmp_trans cmp D x y z) as Ht.
    destruct (cmp x y) eqn:Exy; [| |done].
    + rewrite (cmp_eq_l cmp D x y z) by done. destruct (cmp y z); try done. eauto.
    + destruct (cmp y z) eqn:Eyz; [| |done].
      * assert (cmp x z = Lt) as ->; [|done].
        rewrite (cmp_antisym cmp D z x), <- (cmp_eq_l cmp D y z x) by done.
        by rewrite (cmp_antisym cmp D x y), Exy.
      * intros _ _. destruct (cmp x z) eqn:Exz; try done; [|exfalso; by apply Ht].
        exfalso. pose proof (cmp_eq_l cmp D x z y) as Hq.
        rewrite Exy, (cmp_antisym cmp D y z), Eyz in Hq by done. cbn in Hq. naive_solver congruence.
Qed.
End Lex.

(** A good comparison gives the strict weak order [sort_by] needs. *)
#[export] Instance cmp_strict_weak {A B} (cmp : B → B → comparison) (D : B → Prop)
    (key : A → B) `{!GoodCmp cmp D} :
  StrictWeak (λ x y, cmp_lt cmp (key x) (key y)) (λ x, D (key x)).
Proof.
  split; unfold not_after, cmp_lt.
  - intros x y z Hx Hy Hz H1 H2.
    pose proof (cmp_trans cmp D _ _ _ Hx Hy Hz) as Ht.
    rewrite (cmp_antisym cmp D (key x) (key y)) in H1 by done.
    rewrite (cmp_antisym cmp D (key y) (key z)) in H2 by done.
    rewrite (cmp_antisym cmp D (key x) (key z)) by done.
    destruct (cmp (key x) (key y)), (cmp (key y) (key z)), (cmp (key x) (key z)); cbn in *;
      naive_solver congruence.
  - intros x y Hx Hy. rewrite (cmp_antisym cmp D (key x) (key y)) by done.
    by destruct (cmp (key x) (key y)).
Qed.

#[export] Instance Z_compare_good : GoodCmp Z.compare (λ _, True).
Proof.
  split; [intros; apply Z.compare_antisym|].
  intros x y z _ _ _.
  destruct (Z.compare_spec x y), (Z.compare_spec y z), (Z.compare_spec x z); try done; lia.
Qed.
