(* ===== verification/Float64.v ===== *)
(** * Binary64 floating point and Python numbers

    Python's [float] is IEEE binary64.  Every finite binary64 value is an
    integer multiple of [2^-1074], so a finite float is modelled by that
    integer: [Fin m] has the value [m * 2^-1074].  Comparison of finite floats
    is then comparison of integers, and every arithmetic operation is the exact
    rational result rounded by [f64_round] (round to nearest, ties to even).

    [num] is the union of [int] and [float] that the policy code compares with
    [min], [max] and [<]; Python compares the two kinds exactly. *)

From S2P Require Import Prelude.
Local Open Scope Z_scope.

Inductive f64 :=
| Fin (m : Z)
| PInf
| NInf
| NaN.

#[export] Instance f64_eq_dec : EqDecision f64.
Proof. solve_decision. Defined.

(** The integer that represents 1.0. *)
Definition unit64 : Z := Eval vm_compute in 2 ^ 1074.
(** The first magnitude that rounds to infinity, [2^1024]. *)
Definition limit64 : Z := Eval vm_compute in 2 ^ 2098.

Lemma unit64_eq : unit64 = 2 ^ 1074.
Proof. vm_compute. reflexivity. Qed.
Lemma limit64_eq : limit64 = 2 ^ 1024 * 2 ^ 1074.
Proof. vm_compute. reflexivity. Qed.
Lemma unit64_pos : 0 < unit64.
Proof. reflexivity. Qed.

(** Integer division rounded to nearest, ties to even; [0 < b]. *)
Definition rhe_div (a b : Z) : Z :=
  let q := a / b in
  let r := a mod b in
  if 2 * r <? b then q
  else if b <? 2 * r then q + 1
  else if Z.even q then q else q + 1.

(** The same for the divisor [d * 2^k], by shifting first: [rhe_div_pow_spec]. *)
Definition rhe_div_pow (a d k : Z) : Z :=
  let h := Z.shiftr a k in
  let q := h / d in
  let r := Z.shiftl (h mod d) k + (a - Z.shiftl h k) in
  let b := Z.shiftl d k in
  if 2 * r <? b then q
  else if b <? 2 * r then q + 1
  else if Z.even q then q else q + 1.

(** The magnitude, in units of [2^-1074], of [a / (d * 2^s)] such units rounded to
    53 significant bits; [0 <= a], [0 < d], [0 <= s]. *)
Definition round53 (a d s : Z) : Z :=
  let k := Z.max 0 (Z.log2 (Z.shiftr a s / d) - 52) in
  Z.shiftl (rhe_div_pow a d (s + k)) k.

(** A magnitude with its sign, or infinity when it is out of range. *)
Definition signed64 (sgn m : Z) : f64 :=
  if m <? limit64 then Fin (sgn * m) else if 0 <? sgn then PInf else NInf.

(** The binary64 value nearest to [n / d], [0 < d]. *)
Definition f64_round (n d : Z) : f64 := signed64 (Z.sgn n) (round53 (Z.abs n * unit64) d 0).

#[global] Arguments unit64 : simpl never.
#[global] Arguments limit64 : simpl never.
#[global] Arguments rhe_div : simpl never.
#[global] Arguments rhe_div_pow : simpl never.
#[global] Arguments round53 : simpl never.
#[global] Arguments signed64 : simpl never.
#[global] Arguments f64_round : simpl never.

(** ** Integer rounding *)

Lemma rhe_div_exact a b : 0 < b → rhe_div (a * b) b = a.
Proof.
  intros Hb. unfold rhe_div. rewrite Z.div_mul, Z.mod_mul by lia.
  by rewrite (proj2 (Z.ltb_lt _ _)) by lia.
Qed.

Lemma rhe_div_floor a b : 0 < b → a / b <= rhe_div a b <= a / b + 1.
Proof. intros Hb. unfold rhe_div. repeat case_match; lia. Qed.

(** Rounding is within half a unit of the exact quotient. *)
Lemma rhe_div_error a b : 0 < b → Z.abs (2 * (rhe_div a b * b - a)) <= b.
Proof.
  intros Hb. unfold rhe_div.
  pose proof (Z.div_mod a b ltac:(lia)) as Hdm.
  pose proof (Z.mod_pos_bound a b Hb) as Hm.
  repeat case_match; bool_to_prop; nia.
Qed.

Lemma rhe_div_mono a a' b : 0 < b → a <= a' → rhe_div a b <= rhe_div a' b.
Proof.
  intros Hb Ha.
  pose proof (rhe_div_error a b Hb). pose proof (rhe_div_error a' b Hb).
  destruct (Z.lt_ge_cases (rhe_div a' b) (rhe_div a b)) as [Hlt|]; [|lia].
  (* both roundings would be ties of the same quotient *)
  assert (a = a') as -> by nia. lia.
Qed.

Lemma rhe_div_pow_spec a d k : 0 < d → 0 <= k → rhe_div_pow a d k = rhe_div a (d * 2 ^ k).
Proof.
  intros Hd Hk. unfold rhe_div_pow, rhe_div.
  assert (0 < 2 ^ k) as Hp by (apply Z.pow_pos_nonneg; lia).
  rewrite !Z.shiftl_mul_pow2, !Z.shiftr_div_pow2 by lia.
  rewrite (Z.mul_comm d (2 ^ k)), <- Z.div_div by lia.
  rewrite (Z.rem_mul_r a (2 ^ k) d) by lia.
  pose proof (Z.div_mod a (2 ^ k) ltac:(lia)) as Hdm.
  replace ((a / 2 ^ k) mod d * 2 ^ k + (a - a / 2 ^ k * 2 ^ k))
    with (a mod 2 ^ k + 2 ^ k * ((a / 2 ^ k) mod d)) by lia.
  by rewrite (Z.mul_comm (2 ^ k) d).
Qed.

(** ** Conversion of integers *)

(** [float(z)]: raises [OverflowError] when [z] is too large. *)
Definition float_of_int (z : Z) : result f64 :=
  match f64_round z 1 with
  | Fin m => Ok (Fin m)
  | _ => Err OverflowError
  end.

Lemma f64_round_small z : Z.abs z <= 2 ^ 53 → f64_round z 1 = Fin (z * unit64).
Proof.
  intros Hz. unfold f64_round, round53. rewrite Z.shiftr_0_r, Z.div_1_r, Z.add_0_l.
  set (k := Z.max 0 (Z.log2 (Z.abs z * unit64) - 52)).
  assert (0 <= k) by lia.
  rewrite rhe_div_pow_spec, Z.shiftl_mul_pow2, Z.mul_1_l by lia.
  assert (∃ c, Z.abs z * unit64 = c * 2 ^ k) as [c Hc].
  { destruct (decide (z = 0)) as [->|Hz0]; [by exists 0|].
    assert (Z.log2 (Z.abs z * unit64) = Z.log2 (Z.abs z) + 1074) as Hlog.
    { rewrite unit64_eq, Z.log2_mul_pow2 by lia. lia. }
    destruct (decide (Z.abs z = 2 ^ 53)) as [He|Hne].
    - exists (2 ^ 52). unfold k. rewrite He. reflexivity.
    - assert (Z.log2 (Z.abs z) < 53) by (apply Z.log2_lt_pow2; lia).
      assert (0 <= k <= 1074) by lia.
      exists (Z.abs z * 2 ^ (1074 - k)). rewrite unit64_eq.
      rewrite <- Z.mul_assoc, <- Z.pow_add_r by lia. do 2 f_equal. lia. }
  rewrite Hc, rhe_div_exact by (apply Z.pow_pos_nonneg; lia). rewrite <- Hc.
  assert (Z.abs z * unit64 < limit64) as Hlim.
  { rewrite unit64_eq, limit64_eq.
    apply Z.mul_lt_mono_pos_r; [reflexivity|].
    eapply Z.le_lt_trans; [exact Hz|]. reflexivity. }
  unfold signed64. rewrite (proj2 (Z.ltb_lt _ _) Hlim). f_equal. rewrite Z.mul_assoc. f_equal. lia.
Qed.

Lemma float_of_int_small z : Z.abs z <= 2 ^ 53 → float_of_int z = Ok (Fin (z * unit64)).
Proof. intros Hz. unfold float_of_int. by rewrite f64_round_small. Qed.

(** ** Arithmetic used by the code *)

Definition f64_neg (f : f64) : f64 :=
  match f with Fin m => Fin (- m) | PInf => NInf | NInf => PInf | NaN => NaN end.

(** Sum and product of finite floats; the operands of the code are finite. *)
Definition f64_add (a b : f64) : f64 :=
  match a, b with
  | Fin m, Fin n => signed64 (Z.sgn (m + n)) (round53 (Z.abs (m + n)) 1 0)
  | NaN, _ | _, NaN | PInf, NInf | NInf, PInf => NaN
  | PInf, _ | _, PInf => PInf
  | NInf, _ | _, NInf => NInf
  end.
Definition f64_sub (a b : f64) : f64 := f64_add a (f64_neg b).

Definition f64_mul (a b : f64) : f64 :=
  match a, b with
  | Fin m, Fin n => signed64 (Z.sgn (m * n)) (round53 (Z.abs (m * n)) 1 1074)
  | NaN, _ | _, NaN => NaN
  | Fin m, i | i, Fin m =>
      if m =? 0 then NaN else if 0 <? m then i else f64_neg i
  | PInf, PInf | NInf, NInf => PInf
  | PInf, NInf | NInf, PInf => NInf
  end.

(** [f * 2^k]: scaling by a power of two keeps the significand, so the product
    is exact unless it overflows. *)
Definition f64_mul_pow2 (f : f64) (k : Z) : f64 :=
  match f with
  | Fin m =>
      if Z.abs (m * 2 ^ k) <? limit64 then Fin (m * 2 ^ k)
      else if 0 <? m then PInf else NInf
  | other => other
  end.

(** [round(f, ndigits)] of a finite float: the exact value rounded to [ndigits]
    decimals, ties to even, then converted back. *)
Definition f64_round_digits (f : f64) (ndigits : Z) : f64 :=
  match f with
  | Fin m => f64_round (Z.sgn m * rhe_div_pow (Z.abs m * 10 ^ ndigits) 1 1074) (10 ^ ndigits)
  | other => other
  end.

#[global] Arguments f64_round_digits : simpl never.
#[global] Arguments f64_mul : simpl never.
#[global] Arguments f64_add : simpl never.

(** [int(f)]: truncation toward zero of a finite float. *)
Definition int_of_f64 (f : f64) : result Z :=
  match f with
  | Fin m => Ok (Z.quot m unit64)
  | NaN => Err (ValueError "cannot convert float NaN to integer")
  | _ => Err OverflowError
  end.

Definition isfinite (f : f64) : bool := match f with Fin _ => true | _ => false end.

(** Rounding at most doubles a magnitude (plus one unit). *)
Lemma round53_bound a s : 0 <= a → 0 <= s → round53 a 1 s <= 2 * (a / 2 ^ s) + 1.
Proof.
  intros Ha Hs. unfold round53. rewrite Z.div_1_r, Z.shiftr_div_pow2 by lia.
  set (q := a / 2 ^ s). assert (0 <= q) by (apply Z.div_pos; [lia|apply Z.pow_pos_nonneg; lia]).
  set (k := Z.max 0 (Z.log2 q - 52)).
  assert (0 < 2 ^ k) as Hk by (apply Z.pow_pos_nonneg; lia).
  rewrite Z.shiftl_mul_pow2, rhe_div_pow_spec, Z.mul_1_l by lia.
  assert (0 < 2 ^ (s + k)) as Hsk by (apply Z.pow_pos_nonneg; lia).
  pose proof (rhe_div_floor a (2 ^ (s + k)) Hsk) as [_ Hf].
  rewrite Z.pow_add_r, <- Z.div_div in Hf by (lia || apply Z.pow_pos_nonneg; lia). fold q in Hf.
  rewrite <- Z.pow_add_r in Hf by lia.
  pose proof (Z.mul_div_le q (2 ^ k) Hk).
  assert (2 ^ k <= q + 1).
  { destruct (decide (q = 0)) as [Hq|Hq]; [unfold k; rewrite Hq; done|].
    destruct (Z.log2_spec q) as [Hl _]; [lia|].
    destruct (Z.le_ge_cases (Z.log2 q) 52); [replace k with 0 by lia; lia|].
    etrans; [|etrans; [exact Hl|lia]]. apply Z.pow_le_mono_r; lia. }
  nia.
Qed.

Lemma round53_nonneg a s : 0 <= a → 0 <= s → 0 <= round53 a 1 s.
Proof.
  intros Ha Hs. unfold round53. apply Z.shiftl_nonneg. rewrite rhe_div_pow_spec by lia.
  set (k := s + _). assert (0 < 1 * 2 ^ k) by (rewrite Z.mul_1_l; apply Z.pow_pos_nonneg; lia).
  pose proof (rhe_div_floor a (1 * 2 ^ k) ltac:(lia)) as [Hf _].
  etrans; [|exact Hf]. apply Z.div_pos; lia.
Qed.

(** ** Numbers: [int] or [float] *)

Inductive num := NInt (z : Z) | NFloat (f : f64).

#[export] Instance num_eq_dec : EqDecision num.
Proof. solve_decision. Defined.

Definition num_value (n : num) : f64 :=
  match n with NInt z => Fin (z * unit64) | NFloat f => f end.

Definition f64_lt (a b : f64) : bool :=
  match a, b with
  | Fin m, Fin n => m <? n
  | NaN, _ | _, NaN => false
  | NInf, NInf | PInf, _ | _, NInf => false
  | NInf, _ | _, PInf => true
  end.

Definition f64_eqb (a b : f64) : bool :=
  match a, b with
  | NaN, _ | _, NaN => false
  | Fin m, Fin n => m =? n
  | PInf, PInf | NInf, NInf => true
  | _, _ => false
  end.

(** [a < b], [a == b] and [a <= b] between Python numbers (exact). *)
Definition num_lt (a b : num) : bool := f64_lt (num_value a) (num_value b).
Definition num_eqb (a b : num) : bool := f64_eqb (num_value a) (num_value b).
Definition num_le (a b : num) : bool := num_lt a b || num_eqb a b.

(** [min(a, b)] and [max(a, b)]: the first argument wins ties. *)
Definition num_min (a b : num) : num := if num_lt b a then b else a.
Definition num_max (a b : num) : num := if num_lt a b then b else a.

(** The interpreter's [repr(float)], used in messages and canonical JSON text.
    Only the canonical-hash theorem needs facts about it, stated there as a class. *)
Class FloatRepr := repr_float : f64 → string.

(** ** Finite numbers in a range *)

(** [n] is a finite number between the integers [lo] and [hi]. *)
Definition num_in (lo hi : Z) (n : num) : Prop :=
  ∃ m, num_value n = Fin m ∧ lo * unit64 <= m <= hi * unit64.

Lemma num_lt_fin a b m n :
  num_value a = Fin m → num_value b = Fin n → num_lt a b = (m <? n).
Proof. intros Ha Hb. unfold num_lt. by rewrite Ha, Hb. Qed.

Lemma num_le_fin a b m n :
  num_value a = Fin m → num_value b = Fin n → num_le a b = (m <=? n).
Proof.
  intros Ha Hb. unfold num_le, num_lt, num_eqb. rewrite Ha, Hb. cbn.
  destruct (Z.ltb_spec m n), (Z.eqb_spec m n), (Z.leb_spec m n); cbn; lia || done.
Qed.

Lemma num_min_fin a b m n :
  num_value a = Fin m → num_value b = Fin n → num_value (num_min a b) = Fin (Z.min m n).
Proof.
  intros Ha Hb. unfold num_min. rewrite (num_lt_fin _ _ _ _ Hb Ha).
  destruct (Z.ltb_spec n m); [rewrite Hb|rewrite Ha]; f_equal; lia.
Qed.

Lemma num_max_fin a b m n :
  num_value a = Fin m → num_value b = Fin n → num_value (num_max a b) = Fin (Z.max m n).
Proof.
  intros Ha Hb. unfold num_max. rewrite (num_lt_fin _ _ _ _ Ha Hb).
  destruct (Z.ltb_spec m n); [rewrite Hb|rewrite Ha]; f_equal; lia.
Qed.

(** An integer of that range is converted exactly. *)
Lemma float_of_int_in lo hi z :
  0 <= lo → hi <= 2 ^ 53 → num_in lo hi (NInt z) → float_of_int z = Ok (num_value (NInt z)).
Proof.
  intros Hlo Hhi (m & Hm & Hr). cbn in Hm. injection Hm as <-.
  pose proof unit64_pos. apply float_of_int_small. nia.
Qed.

(** ** Division and rounding that can fail *)

Definition ZeroDivisionError : exn := OtherException "ZeroDivisionError".

(** [a / b] of two integers. *)
Definition int_div (a b : Z) : result f64 :=
  if b =? 0 then Err ZeroDivisionError
  else match f64_round (Z.sgn b * a) (Z.abs b) with Fin m => Ok (Fin m) | _ => Err OverflowError end.

(** [a / b] of two floats. *)
Definition f64_div (a b : f64) : result f64 :=
  match a, b with
  | _, Fin 0 => Err ZeroDivisionError
  | Fin m, Fin n => Ok (signed64 (Z.sgn (m * n)) (round53 (Z.abs m * unit64) (Z.abs n) 0))
  | NaN, _ | _, NaN => Ok NaN
  | Fin _, _ => Ok (Fin 0)
  | i, Fin n => Ok (if 0 <? n then i else f64_neg i)
  | _, _ => Ok NaN
  end.

(** [round(f, ndigits)]: raises when the rounded value is out of range. *)
Definition py_round (f : f64) (ndigits : Z) : result f64 :=
  match f with
  | Fin _ => match f64_round_digits f ndigits with Fin m => Ok (Fin m) | _ => Err OverflowError end
  | other => Ok other
  end.

(** [round(f)] to an integer. *)
Definition py_round_int (f : f64) : result Z :=
  match f with
  | Fin m => Ok (Z.sgn m * rhe_div_pow (Z.abs m) 1 1074)
  | NaN => Err (ValueError "cannot convert float NaN to integer")
  | _ => Err OverflowError
  end.

(** Rounding to 53 bits keeps the order. *)
Lemma round53_mono a a' d s : 0 <= a <= a' → 0 < d → 0 <= s → round53 a d s <= round53 a' d s.
Proof.
  intros Ha Hd Hs. unfold round53. rewrite !Z.shiftr_div_pow2 by lia.
  assert (0 < 2 ^ s) as Hps by (apply Z.pow_pos_nonneg; lia).
  rewrite !Z.div_div by lia. set (D := 2 ^ s * d) in *. assert (0 < D) as HD by lia.
  set (q := a / D). set (q' := a' / D).
  assert (0 <= q <= q') as Hq by (split; [apply Z.div_pos; lia|apply Z.div_le_mono; lia]).
  set (k := Z.max 0 (Z.log2 q - 52)). set (k' := Z.max 0 (Z.log2 q' - 52)).
  assert (Z.log2 q <= Z.log2 q') as Hlog by (apply Z.log2_le_mono; lia).
  assert (0 <= k <= k') as Hk by lia.
  rewrite !Z.shiftl_mul_pow2, !rhe_div_pow_spec by lia.
  assert (∀ j, 0 <= j → d * 2 ^ (s + j) = D * 2 ^ j) as HDj
    by (intros j Hj; unfold D; rewrite Z.pow_add_r by lia; lia).
  rewrite !HDj by lia. assert (∀ j, 0 <= j → 0 < 2 ^ j) as Hp by (intros; apply Z.pow_pos_nonneg; lia).
  pose proof (Hp k ltac:(lia)). pose proof (Hp k' ltac:(lia)).
  destruct (decide (k = k')) as [->|Hne].
  { apply Z.mul_le_mono_nonneg_r; [lia|]. apply rhe_div_mono; lia. }
  assert (q + 1 <= 2 ^ (53 + k)) as Hup.
  { destruct (decide (q = 0)) as [->|Hq0]; [pose proof (Hp (53 + k) ltac:(lia)); lia|].
    pose proof (Z.log2_spec q ltac:(lia)) as [_ Hl].
    pose proof (Z.pow_le_mono_r 2 (Z.succ (Z.log2 q)) (53 + k) ltac:(lia) ltac:(lia)). lia. }
  assert (2 ^ (52 + k') <= q') as Hlow.
  { destruct (Z.log2_spec q') as [Hl _]; [destruct (decide (q' = 0)) as [E|]; [|lia]|].
    - unfold k', k in *. rewrite E in *. change (Z.log2 0) with 0 in *. lia.
    - replace (52 + k') with (Z.log2 q') by lia. done. }
  pose proof (Z.mul_succ_div_gt a D HD) as Hgt. pose proof (Z.mul_div_le a' D HD) as Hle.
  fold q in Hgt. fold q' in Hle.
  trans (2 ^ (53 + k)); [|trans (2 ^ (52 + k')); [apply Z.pow_le_mono_r; lia|]].
  - rewrite Z.pow_add_r in * by lia. apply Z.mul_le_mono_nonneg_r; [lia|].
    rewrite <- (rhe_div_exact (2 ^ 53) (D * 2 ^ k)) by lia. apply rhe_div_mono; nia.
  - rewrite Z.pow_add_r in * by lia. apply Z.mul_le_mono_nonneg_r; [lia|].
    rewrite <- (rhe_div_exact (2 ^ 52) (D * 2 ^ k')) by lia. apply rhe_div_mono; nia.
Qed.

Lemma round53_0 d s : 0 < d → 0 <= s → round53 0 d s = 0.
Proof.
  intros Hd Hs. unfold round53. rewrite Z.shiftr_0_l, Z.div_0_l by lia. cbn [Z.log2 Z.max].
  change (Z.max 0 (0 - 52)) with 0. rewrite Z.shiftl_0_r, rhe_div_pow_spec by lia.
  replace 0 with (0 * (d * 2 ^ (s + 0))) at 1 by lia. apply rhe_div_exact.
  apply Z.mul_pos_pos; [lia|]. apply Z.pow_pos_nonneg; lia.
Qed.

Lemma round53_pos a d s : 0 <= a → 0 < d → 0 <= s → 0 <= round53 a d s.
Proof. intros. rewrite <- (round53_0 d s) by lia. by apply round53_mono. Qed.

(** Rounding keeps more than half of a positive magnitude. *)
Lemma round53_half a : 1 <= a → 1 <= round53 a 1 0 ∧ a <= 2 * round53 a 1 0.
Proof.
  intros Ha. unfold round53. rewrite Z.shiftr_0_r, Z.div_1_r, Z.add_0_l.
  set (k := Z.max 0 (Z.log2 a - 52)). assert (0 <= k) by lia.
  rewrite rhe_div_pow_spec, Z.mul_1_l, Z.shiftl_mul_pow2 by lia.
  assert (2 ^ k <= a) as Hka.
  { destruct (Z.log2_spec a ltac:(lia)) as [Hl _]. pose proof (Z.log2_nonneg a).
    transitivity (2 ^ Z.log2 a); [apply Z.pow_le_mono_r; lia|done]. }
  assert (0 < 2 ^ k) as Hk by (apply Z.pow_pos_nonneg; lia).
  pose proof (rhe_div_floor a (2 ^ k) Hk) as [Hf _].
  pose proof (Z.div_mod a (2 ^ k) ltac:(lia)). pose proof (Z.mod_pos_bound a (2 ^ k) Hk).
  assert (1 <= a / 2 ^ k) by (apply Z.div_le_lower_bound; lia). nia.
Qed.

(** The sign and the order of rounded values. *)
Lemma signed64_sign sgn m x : 0 <= m → signed64 sgn m = Fin x → (0 <= sgn → 0 <= x) ∧ (sgn <= 0 → x <= 0).
Proof. unfold signed64. intros Hm. destruct (m <? limit64); [intros [= <-]; nia|destruct (0 <? sgn); done]. Qed.

Lemma f64_round_mono n n' d m m' :
  0 <= n <= n' → 0 < d → f64_round n d = Fin m → f64_round n' d = Fin m' → 0 <= m <= m'.
Proof.
  intros Hn Hd. unfold f64_round, signed64. pose proof unit64_pos as Hu.
  assert (round53 (Z.abs n * unit64) d 0 <= round53 (Z.abs n' * unit64) d 0) by (apply round53_mono; nia).
  pose proof (round53_pos (Z.abs n * unit64) d 0 ltac:(nia) Hd ltac:(lia)).
  destruct (_ <? _); [|destruct (0 <? _); done]. intros [= <-].
  destruct (_ <? _); [|destruct (0 <? _); done]. intros [= <-].
  destruct (decide (n = 0)) as [->|]; [cbn; nia|].
  rewrite !Z.sgn_pos by lia. lia.
Qed.

Lemma py_round_mono f f' nd m m' x x' :
  f = Fin x → f' = Fin x' → 0 <= x <= x' → 0 <= nd →
  py_round f nd = Ok (Fin m) → py_round f' nd = Ok (Fin m') → 0 <= m <= m'.
Proof.
  intros -> -> Hx Hnd. assert (0 < 10 ^ nd) as Hp by (apply Z.pow_pos_nonneg; lia).
  unfold py_round, f64_round_digits.
  assert (∀ y, 0 <= y → Z.sgn y * rhe_div_pow (Z.abs y * 10 ^ nd) 1 1074 = rhe_div (y * 10 ^ nd) (2 ^ 1074)) as Hr.
  { intros y Hy. rewrite rhe_div_pow_spec, Z.mul_1_l, Z.abs_eq by lia.
    destruct (decide (y = 0)) as [->|]; [reflexivity|]. rewrite Z.sgn_pos by lia. lia. }
  rewrite !Hr by lia.
  destruct (f64_round (rhe_div (x * 10 ^ nd) _) _) as [a| | |] eqn:E; try done. intros [= <-].
  destruct (f64_round (rhe_div (x' * 10 ^ nd) _) _) as [b| | |] eqn:E'; try done. intros [= <-].
  eapply f64_round_mono; [|exact Hp|exact E|exact E'].
  assert (0 < 2 ^ 1074) by (apply Z.pow_pos_nonneg; lia). split.
  - rewrite <- (rhe_div_exact 0 (2 ^ 1074)) by lia. apply rhe_div_mono; nia.
  - apply rhe_div_mono; nia.
Qed.
#[global] Arguments f64_div : simpl never.
#[global] Arguments int_div : simpl never.
#[global] Arguments py_round : simpl never.
#[global] Arguments py_round_int : simpl never.
