(* ===== verification/FloatError.v ===== *)
(** * Rounding errors

    How far the binary64 operations of [Float64] are from the exact result: half a unit in the
    last of 53 bits, or half of [2^-1074] for a result that small; and [round(f, ndigits)], which
    rounds twice.  The bounds are multiplied by [2^53] and by the divisor, so they are statements
    on integers. *)

From S2P Require Import Prelude Float64.
Local Open Scope Z_scope.

(** [2^53 |z - t| <= |t| + 2^52 w]: [z] is [t] rounded, with [w] the weight of [2^-1074]. *)
Definition rounds_to (t w z : Z) : Prop := 2 ^ 53 * Z.abs (z - t) <= Z.abs t + 2 ^ 52 * w.

Lemma round53_error a d s :
  0 <= a → 0 < d → 0 <= s → rounds_to a (d * 2 ^ s) (round53 a d s * (d * 2 ^ s)).
Proof.
  intros Ha Hd Hs. unfold rounds_to, round53. rewrite Z.shiftr_div_pow2 by lia.
  assert (0 < 2 ^ s) as Hps by (apply Z.pow_pos_nonneg; lia).
  rewrite Z.div_div, (Z.mul_comm (2 ^ s) d) by lia. set (D := d * 2 ^ s). assert (0 < D) as HD by (unfold D; nia).
  set (q := a / D). assert (0 <= q) as Hq by (apply Z.div_pos; lia).
  set (k := Z.max 0 (Z.log2 q - 52)). assert (0 <= k) as Hk by lia.
  rewrite Z.shiftl_mul_pow2, rhe_div_pow_spec, Z.pow_add_r, Z.mul_assoc by lia. fold D.
  assert (0 < 2 ^ k) as Hpk by (apply Z.pow_pos_nonneg; lia).
  pose proof (rhe_div_error a (D * 2 ^ k) ltac:(nia)) as He. set (r := rhe_div a (D * 2 ^ k)) in *.
  replace (r * 2 ^ k * D) with (r * (D * 2 ^ k)) by ring.
  assert (2 ^ 52 * (D * 2 ^ k) <= a + 2 ^ 52 * D) as Hb; [|lia].
  destruct (decide (Z.log2 q <= 52)) as [Hl|Hl].
  - replace k with 0 by lia. lia.
  - assert (2 ^ 52 * 2 ^ k <= q) as Hkq.
    { rewrite <- Z.pow_add_r by lia. replace (52 + k) with (Z.log2 q) by lia.
      apply Z.log2_spec. destruct (Z.eq_dec q 0) as [E|]; [rewrite E in Hl; cbn in Hl; lia|lia]. }
    pose proof (Z.mul_div_le a D HD) as Hle. fold q in Hle.
    assert (D * (2 ^ 52 * 2 ^ k) <= D * q) by (apply Z.mul_le_mono_nonneg_l; lia). lia.
Qed.

(** The value rounded with the sign of [t]. *)
Lemma signed_round t d s z :
  0 < d → 0 <= s → signed64 (Z.sgn t) (round53 (Z.abs t) d s) = Fin z → rounds_to t (d * 2 ^ s) (z * (d * 2 ^ s)).
Proof.
  intros Hd Hs. unfold signed64. destruct (_ <? _); [|destruct (0 <? _); done]. intros [= <-].
  pose proof (round53_error (Z.abs t) d s ltac:(lia) Hd Hs) as He. unfold rounds_to in *.
  set (m := round53 _ _ _) in *. set (D := d * 2 ^ s) in *.
  destruct (Z.lt_trichotomy t 0) as [Ht|[->|Ht]].
  - rewrite Z.sgn_neg by lia. replace (-1 * m * D - t) with (- (m * D - Z.abs t)) by lia. rewrite Z.abs_opp. lia.
  - cbn in *. lia.
  - rewrite Z.sgn_pos, Z.mul_1_l by lia. replace (m * D - t) with (m * D - Z.abs t) by lia. lia.
Qed.

Lemma f64_round_error n d z : 0 < d → f64_round n d = Fin z → rounds_to (n * unit64) d (z * d).
Proof.
  intros Hd Hr. pose proof unit64_pos.
  rewrite <- (Z.mul_1_r d), <- (Z.pow_0_r 2) at 1 2. apply signed_round; [done|lia|].
  rewrite <- Hr. unfold f64_round. by rewrite Z.abs_mul, (Z.abs_eq unit64), Z.sgn_mul, (Z.sgn_pos unit64), Z.mul_1_r by lia.
Qed.

(** A sum is exact in its weight, so its error is relative only. *)
Lemma round53_sum_error a : 0 <= a → 2 ^ 53 * Z.abs (round53 a 1 0 - a) <= a.
Proof.
  intros Ha. unfold round53. rewrite Z.shiftr_0_r, Z.div_1_r, Z.add_0_l.
  set (k := Z.max 0 (Z.log2 a - 52)). assert (0 <= k) as Hk by lia.
  rewrite Z.shiftl_mul_pow2, rhe_div_pow_spec, Z.mul_1_l by lia.
  assert (0 < 2 ^ k) as Hpk by (apply Z.pow_pos_nonneg; lia).
  pose proof (rhe_div_error a (2 ^ k) Hpk) as He.
  destruct (decide (Z.log2 a <= 52)) as [Hl|Hl].
  - replace k with 0 in * by lia. rewrite Z.pow_0_r in *. pose proof (rhe_div_exact a 1 ltac:(lia)) as Hx.
    rewrite Z.mul_1_r in Hx. rewrite Hx. lia.
  - assert (2 ^ 52 * 2 ^ k <= a); [|lia].
    rewrite <- Z.pow_add_r by lia. replace (52 + k) with (Z.log2 a) by lia.
    apply Z.log2_spec. destruct (Z.eq_dec a 0) as [E|]; [rewrite E in Hl; cbn in Hl; lia|lia].
Qed.

Lemma f64_sub_error a b z : f64_sub (Fin a) (Fin b) = Fin z → 2 ^ 53 * Z.abs (z - (a - b)) <= Z.abs (a - b).
Proof.
  unfold f64_sub, f64_add, f64_neg, signed64. replace (a + - b) with (a - b) by lia. set (t := a - b).
  destruct (_ <? _); [|destruct (0 <? _); done]. intros [= <-].
  pose proof (round53_sum_error (Z.abs t) ltac:(lia)) as He. set (m := round53 _ _ _) in *.
  destruct (Z.lt_trichotomy t 0) as [Ht|[->|Ht]].
  - rewrite Z.sgn_neg by lia. replace (-1 * m - t) with (- (m - Z.abs t)) by lia. rewrite Z.abs_opp. lia.
  - cbn in *. lia.
  - rewrite Z.sgn_pos, Z.mul_1_l by lia. replace (m - t) with (m - Z.abs t) by lia. lia.
Qed.

Lemma f64_mul_error a b z : f64_mul (Fin a) (Fin b) = Fin z → rounds_to (a * b) unit64 (z * unit64).
Proof.
  intros Hz. replace unit64 with (1 * 2 ^ 1074) by (rewrite Z.mul_1_l; symmetry; apply unit64_eq).
  apply signed_round; [lia|lia|exact Hz].
Qed.

Lemma f64_div_error a b z : 0 < b → f64_div (Fin a) (Fin b) = Ok (Fin z) → rounds_to (a * unit64) b (z * b).
Proof.
  intros Hb Hz. pose proof unit64_pos. rewrite <- (Z.mul_1_r b), <- (Z.pow_0_r 2) at 1 2.
  apply signed_round; [done|lia|]. unfold f64_div in Hz. destruct b; try lia. injection Hz as Hz.
  rewrite <- Hz, Z.abs_mul, (Z.abs_eq unit64), !Z.sgn_mul, (Z.sgn_pos unit64), (Z.sgn_pos (Z.pos p)), (Z.abs_eq (Z.pos p)) by lia.
  by rewrite !Z.mul_1_r.
Qed.

Lemma int_div_error a b z : 0 < b → int_div a b = Ok (Fin z) → rounds_to (a * unit64) b (z * b).
Proof.
  intros Hb. unfold int_div. rewrite (proj2 (Z.eqb_neq b 0)), Z.sgn_pos, Z.mul_1_l, Z.abs_eq by lia.
  destruct (f64_round a b) eqn:E; try done. intros [= <-]. by apply f64_round_error.
Qed.

(** [round(f, nd)]: first to the nearest multiple [r / 10^nd], then to the nearest float. *)
Lemma py_round_error a nd z :
  0 <= nd → py_round (Fin a) nd = Ok (Fin z) →
  ∃ r, 2 * Z.abs (r * unit64 - a * 10 ^ nd) <= unit64 ∧ rounds_to (r * unit64) (10 ^ nd) (z * 10 ^ nd).
Proof.
  intros Hnd. assert (0 < 10 ^ nd) as Hp by (apply Z.pow_pos_nonneg; lia). pose proof unit64_pos as Hu.
  unfold py_round, f64_round_digits.
  rewrite rhe_div_pow_spec by lia. replace (1 * 2 ^ 1074) with unit64 by (rewrite Z.mul_1_l; apply unit64_eq).
  set (r := Z.sgn a * _). destruct (f64_round r (10 ^ nd)) as [m| | |] eqn:E; try done. intros [= <-].
  exists r. split; [|by apply f64_round_error].
  pose proof (rhe_div_error (Z.abs a * 10 ^ nd) unit64 Hu) as He.
  destruct (Z.lt_trichotomy a 0) as [Ht|[->|Ht]].
  - unfold r. rewrite Z.sgn_neg by lia. set (x := rhe_div _ _) in *.
    replace (-1 * x * unit64 - a * 10 ^ nd) with (- (x * unit64 - Z.abs a * 10 ^ nd)) by lia. lia.
  - unfold r. cbn. lia.
  - unfold r. rewrite Z.sgn_pos, Z.mul_1_l by lia. rewrite (Z.abs_eq a) in * by lia. lia.
Qed.

(** A product of moderate size is finite. *)
Lemma f64_mul_finite a b : Z.abs (a * b) < 2 ^ 2000 * unit64 → isfinite (f64_mul (Fin a) (Fin b)) = true.
Proof.
  intros Hab. unfold f64_mul, signed64.
  pose proof (round53_bound (Z.abs (a * b)) 1074 ltac:(lia) ltac:(lia)) as Hr.
  rewrite <- unit64_eq in Hr. pose proof unit64_pos as Hu.
  assert (Z.abs (a * b) / unit64 < 2 ^ 2000) as Hq by (apply Z.div_lt_upper_bound; lia).
  rewrite (proj2 (Z.ltb_lt _ _)); [done|].
  assert (2 * 2 ^ 2000 < limit64) by (vm_compute; reflexivity). lia.
Qed.

#[global] Arguments rounds_to : simpl never.
