(* ===== verification/PyValue.v ===== *)
(** * Python values: text, JSON values and dictionaries

    A Python [str] is a sequence of code points.  The model keeps the code
    points below 256, one per character of a Rocq [string], so that [len],
    [strip], [isdigit] and the length of the UTF-8 encoding are exact on them;
    code points above 255 (surrogates included) are outside the model.

    [json] is what [JSONB] columns and parsed request bodies hold.  A [dict] is
    an association list in insertion order, as in Python; [NoDup] of its keys is
    the well-formedness condition [dict_wf]. *)

From S2P Require Import Prelude Float64.

(** ** Text *)

Module Text.
Definition code (c : Ascii.ascii) : Z := Z.of_N (Ascii.N_of_ascii c).

Fixpoint to_list (s : string) : list Ascii.ascii :=
  match s with
  | EmptyString => []
  | String c s' => c :: to_list s'
  end.

Fixpoint of_list (l : list Ascii.ascii) : string :=
  match l with
  | [] => EmptyString
  | c :: l' => String c (of_list l')
  end.

Lemma of_to_list s : of_list (to_list s) = s.
Proof. induction s as [|c s IH]; cbn; [done|]. by rewrite IH. Qed.
Lemma to_of_list l : to_list (of_list l) = l.
Proof. induction l as [|c l IH]; cbn; [done|]. by rewrite IH. Qed.

(** [str.isspace] of one character, code points below 256. *)
Definition is_space (c : Ascii.ascii) : bool :=
  let z := code c in
  ((9 <=? z) && (z <=? 13) || (28 <=? z) && (z <=? 32) || (z =? 133) || (z =? 160))%Z.

Fixpoint drop_spaces (l : list Ascii.ascii) : list Ascii.ascii :=
  match l with
  | c :: l' => if is_space c then drop_spaces l' else l
  | [] => []
  end.

(** [s.strip()]. *)
Definition strip (s : string) : string :=
  of_list (reverse (drop_spaces (reverse (drop_spaces (to_list s))))).

(** [bool(s.strip())]: some character is not white space. *)
Definition nonblank (s : string) : bool :=
  negb (bool_decide (strip s = EmptyString)).

(** [s.split(sep)] for a one-character separator with code [sep]. *)
Fixpoint split_on (sep : Z) (l : list Ascii.ascii) : list (list Ascii.ascii) :=
  match l with
  | [] => [[]]
  | c :: l' =>
      if (code c =? sep)%Z then [] :: split_on sep l'
      else match split_on sep l' with
           | [] => [[c]]
           | p :: ps => (c :: p) :: ps
           end
  end.

(** [len(s.encode("utf-8"))]. *)
Definition utf8_len (s : string) : Z :=
  foldr (λ c acc, (acc + if code c <? 128 then 1 else 2)%Z) 0%Z (to_list s).

Lemma drop_spaces_nil l : drop_spaces l = [] ↔ Forall (λ c, is_space c = true) l.
Proof.
  induction l as [|c l IH]; cbn; [done|].
  rewrite Forall_cons, <- IH. destruct (is_space c); naive_solver.
Qed.

Lemma drop_spaces_suffix l : ∃ pre, l = pre ++ drop_spaces l ∧ Forall (λ c, is_space c = true) pre.
Proof.
  induction l as [|c l (pre & Hl & Hpre)]; cbn; [by exists []|].
  destruct (is_space c) eqn:E; [|by exists []].
  exists (c :: pre). split; [cbn; by f_equal|]. by constructor.
Qed.

Lemma of_list_nil l : of_list l = EmptyString ↔ l = [].
Proof. by destruct l. Qed.

Lemma nonblank_false s :
  nonblank s = false ↔ Forall (λ c, is_space c = true) (to_list s).
Proof.
  unfold nonblank. rewrite negb_false_iff, bool_decide_eq_true. unfold strip.
  rewrite of_list_nil. split.
  - intros Hr. apply (f_equal reverse) in Hr. rewrite reverse_involutive in Hr.
    apply drop_spaces_nil in Hr. rewrite Forall_reverse in Hr.
    destruct (drop_spaces_suffix (to_list s)) as (pre & Heq & Hpre).
    rewrite Heq. by apply Forall_app_2.
  - intros Hs. apply drop_spaces_nil in Hs. by rewrite Hs.
Qed.
End Text.

Lemma code_range c : (0 ≤ Text.code c < 256)%Z.
Proof. unfold Text.code. pose proof (Ascii.N_ascii_bounded c). lia. Qed.

(** [text.rstrip("/")]: 47 is the code of the slash. *)
Fixpoint drop_slashes (l : list Ascii.ascii) : list Ascii.ascii :=
  match l with c :: l' => if (Text.code c =? 47)%Z then drop_slashes l' else l | [] => [] end.
Definition rstrip_slash (s : string) : string := Text.of_list (reverse (drop_slashes (reverse (Text.to_list s)))).

(** ** JSON values *)

Inductive json :=
| JNull
| JBool (b : bool)
| JNum (n : num)
| JStr (s : string)
| JArr (l : list json)
| JObj (d : list (string * json)).

Abbreviation dict := (list (string * json)).

(** Induction that reaches the elements of arrays and objects. *)
Section JsonInd.
Context (P : json → Prop).
Context (Hnull : P JNull) (Hbool : ∀ b, P (JBool b)) (Hnum : ∀ n, P (JNum n))
        (Hstr : ∀ s, P (JStr s))
        (Harr : ∀ l, Forall P l → P (JArr l))
        (Hobj : ∀ d : dict, Forall (λ kv, P kv.2) d → P (JObj d)).

Fixpoint json_rect' (v : json) : P v :=
  match v with
  | JNull => Hnull
  | JBool b => Hbool b
  | JNum n => Hnum n
  | JStr s => Hstr s
  | JArr l =>
      Harr l ((fix go l : Forall P l :=
        match l with
        | [] => Forall_nil_2 _
        | x :: l' => Forall_cons_2 _ _ _ (json_rect' x) (go l')
        end) l)
  | JObj d =>
      Hobj d ((fix go (d : dict) : Forall (λ kv, P kv.2) d :=
        match d with
        | [] => Forall_nil_2 _
        | kv :: d' => Forall_cons_2 _ _ _ (json_rect' kv.2) (go d')
        end) d)
  end.
End JsonInd.

Definition json_eq_dec_aux : ∀ x y : json, {x = y} + {x ≠ y}.
Proof.
  fix IH 1. intros x y.
  assert (∀ a b : list json, {a = b} + {a ≠ b}) as Hl.
  { fix IHl 1. intros [|a l] [|b l']; [by left|by right|by right|].
    destruct (IH a b) as [->|Hn]; [|right; congruence].
    destruct (IHl l l') as [->|Hn]; [by left|right; congruence]. }
  assert (∀ a b : dict, {a = b} + {a ≠ b}) as Hd.
  { fix IHd 1. intros [|[k a] l] [|[k' b] l']; [by left|by right|by right|].
    destruct (decide (k = k')) as [->|Hn]; [|right; congruence].
    destruct (IH a b) as [->|Hn]; [|right; congruence].
    destruct (IHd l l') as [->|Hn]; [by left|right; congruence]. }
  destruct x, y; try (right; congruence).
  - by left.
  - destruct (decide (b = b0)); [left|right]; congruence.
  - destruct (decide (n = n0)); [left|right]; congruence.
  - destruct (decide (s = s0)); [left|right]; congruence.
  - destruct (Hl l l0); [left|right]; congruence.
  - destruct (Hd d d0); [left|right]; congruence.
Defined.

#[export] Instance json_eq_dec : EqDecision json := json_eq_dec_aux.

(** ** Dictionaries *)

Fixpoint dget (k : string) (d : dict) : option json :=
  match d with
  | [] => None
  | (k', v) :: d' => if bool_decide (k = k') then Some v else dget k d'
  end.

(** [d[k] = v]: replaces in place, appends a new key. *)
Fixpoint dset (k : string) (v : json) (d : dict) : dict :=
  match d with
  | [] => [(k, v)]
  | (k', v') :: d' =>
      if bool_decide (k = k') then (k', v) :: d' else (k', v') :: dset k v d'
  end.

(** [d.get(k, default)]. *)
Definition dget_or (k : string) (default : json) (d : dict) : json :=
  from_option id default (dget k d).

(** [d1 | d2] and [{**d1, **d2}]. *)
Definition dmerge (d1 d2 : dict) : dict := foldl (λ acc kv, dset kv.1 kv.2 acc) d1 d2.

Definition dkeys (d : dict) : list string := d.*1.
Definition dict_wf (d : dict) : Prop := NoDup (dkeys d).

Lemma dget_dset k k' v d :
  dget k (dset k' v d) = if decide (k = k') then Some v else dget k d.
Proof.
  induction d as [|[k0 v0] d IH]; cbn.
  - repeat case_bool_decide; case_decide; congruence.
  - repeat (case_bool_decide || case_decide); subst; cbn;
      repeat (case_bool_decide || case_decide); subst; try congruence;
      rewrite IH; by case_decide.
Qed.

Lemma dget_dset_eq k v d : dget k (dset k v d) = Some v.
Proof. rewrite dget_dset. by rewrite decide_True. Qed.
Lemma dget_dset_ne k k' v d : k ≠ k' → dget k (dset k' v d) = dget k d.
Proof. intros. rewrite dget_dset. by rewrite decide_False. Qed.

Lemma dget_dmerge_not_in k d1 d2 : k ∉ dkeys d2 → dget k (dmerge d1 d2) = dget k d1.
Proof.
  unfold dmerge. revert d1; induction d2 as [|[k' v] d2 IH]; intros d1; cbn; [done|].
  rewrite not_elem_of_cons. intros [Hne Hk]. rewrite IH by done. by rewrite dget_dset_ne.
Qed.

Lemma dget_dmerge k d1 d2 :
  dict_wf d2 → dget k (dmerge d1 d2) = match dget k d2 with Some v => Some v | None => dget k d1 end.
Proof.
  unfold dict_wf. revert d1; induction d2 as [|[k' v] d2 IH]; intros d1; [done|].
  change (dkeys ((k', v) :: d2)) with (k' :: dkeys d2).
  rewrite NoDup_cons. intros [Hk Hd].
  change (dmerge d1 ((k', v) :: d2)) with (dmerge (dset k' v d1) d2). cbn [dget].
  case_bool_decide as Heq; [subst|].
  - by rewrite dget_dmerge_not_in, dget_dset_eq.
  - rewrite IH by done. destruct (dget k d2); [done|]. by apply dget_dset_ne.
Qed.

Lemma dget_in k v d : dget k d = Some v → k ∈ dkeys d.
Proof.
  induction d as [|[k' v'] d IH]; cbn; [done|].
  case_bool_decide; subst; [by left|]. intros. right. by apply IH.
Qed.

(** ** Type tests and truth *)

Definition as_str (v : json) : option string := match v with JStr s => Some s | _ => None end.
Definition as_obj (v : json) : option dict := match v with JObj d => Some d | _ => None end.
Definition as_arr (v : json) : option (list json) := match v with JArr l => Some l | _ => None end.

(** [all(isinstance(x, str) for x in l)] together with the strings. *)
Definition all_strings (l : list json) : option (list string) := mapM as_str l.

Lemma all_strings_map (l : list string) : all_strings (JStr <$> l) = Some l.
Proof. unfold all_strings. induction l as [|s l IH]; [done|]. cbn. by rewrite IH. Qed.

(** [bool(v)]. *)
Definition truthy (v : json) : bool :=
  match v with
  | JNull => false
  | JBool b => b
  | JNum n => negb (num_eqb n (NInt 0))
  | JStr s => negb (bool_decide (s = EmptyString))
  | JArr l => negb (bool_decide (l = []))
  | JObj d => negb (bool_decide (d = []))
  end.

(** Read a key through a chain of assignments. *)
Ltac dget_simpl :=
  repeat first
    [ rewrite dget_dset_eq
    | rewrite dget_dset_ne by (intros ?; discriminate) ].
