(* ===== verification/States.v ===== *)
(** * Execution and evaluation statuses

    [src/src/agent_runtime/domain/states.py]: the two status enumerations, the
    terminal set, the table of allowed execution transitions and the two
    functions over it. *)

From S2P Require Import Prelude.

Inductive ExecutionStatus :=
| QUEUED | RUNNING | RETRY_SCHEDULED | SUCCEEDED | FAILED | DEAD_LETTERED.

Inductive EvaluationStatus := EVAL_NOT_RUN | EVAL_PENDING | EVAL_PASSED | EVAL_FAILED | EVAL_ERROR.

#[export] Instance ExecutionStatus_eq_dec : EqDecision ExecutionStatus.
Proof. solve_decision. Defined.
#[export] Instance EvaluationStatus_eq_dec : EqDecision EvaluationStatus.
Proof. solve_decision. Defined.

(** The enumeration values, which are the strings stored in the database. *)
Definition status_value (s : ExecutionStatus) : string :=
  match s with
  | QUEUED => "QUEUED" | RUNNING => "RUNNING" | RETRY_SCHEDULED => "RETRY_SCHEDULED"
  | SUCCEEDED => "SUCCEEDED" | FAILED => "FAILED" | DEAD_LETTERED => "DEAD_LETTERED"
  end.

Definition evaluation_value (s : EvaluationStatus) : string :=
  match s with
  | EVAL_NOT_RUN => "NOT_RUN" | EVAL_PENDING => "PENDING" | EVAL_PASSED => "PASSED"
  | EVAL_FAILED => "FAILED" | EVAL_ERROR => "ERROR"
  end.

Definition TERMINAL_EXECUTION_STATUSES : list ExecutionStatus :=
  [SUCCEEDED; FAILED; DEAD_LETTERED].

Definition ALLOWED_EXECUTION_TRANSITIONS (s : ExecutionStatus) : list ExecutionStatus :=
  match s with
  | QUEUED => [RUNNING; FAILED]
  | RUNNING => [SUCCEEDED; FAILED; RETRY_SCHEDULED; DEAD_LETTERED]
  | RETRY_SCHEDULED => [QUEUED; FAILED; DEAD_LETTERED]
  | SUCCEEDED | FAILED | DEAD_LETTERED => []
  end.

Definition ensure_execution_transition (current target : ExecutionStatus) : result unit :=
  if bool_decide (target ∈ ALLOWED_EXECUTION_TRANSITIONS current)
  then Ok tt else Err InvalidExecutionTransition.

Definition is_terminal_execution_status (s : ExecutionStatus) : bool :=
  bool_decide (s ∈ TERMINAL_EXECUTION_STATUSES).

(** Statuses that count as active work: the strings of [check_admission]. *)
Definition is_active (s : ExecutionStatus) : bool :=
  match s with QUEUED | RUNNING | RETRY_SCHEDULED => true | _ => false end.

Lemma is_active_terminal s : is_active s = negb (is_terminal_execution_status s).
Proof. by destruct s. Qed.

Lemma terminal_iff s :
  is_terminal_execution_status s = true ↔ s = SUCCEEDED ∨ s = FAILED ∨ s = DEAD_LETTERED.
Proof. destruct s; vm_compute; naive_solver. Qed.

(** A transition the table allows, as a relation. *)
Definition allowed (s t : ExecutionStatus) : Prop := t ∈ ALLOWED_EXECUTION_TRANSITIONS s.
#[export] Instance allowed_dec s t : Decision (allowed s t).
Proof. unfold allowed. apply _. Defined.

Lemma ensure_ok_iff s t : ensure_execution_transition s t = Ok tt ↔ allowed s t.
Proof. unfold ensure_execution_transition, allowed. case_bool_decide; naive_solver. Qed.
