(* ===== verification/Routing.v ===== *)
(** * Provider routing

    [src/src/agent_runtime/domain/routing.py]: the catalogue of historical
    metrics, the ranking key of each strategy and [resolve_routing_decision],
    which turns the requested candidates into a provider order.

    The float arithmetic of the balanced score is carried out in binary64
    ([Float64]); the comparison of sort keys is Python's tuple comparison. *)

From stdpp Require Import pretty.
From S2P Require Import Prelude Float64 PyValue.
Local Open Scope Z_scope.

Inductive RoutingStrategy := LOWEST_LATENCY | LOWEST_COST | QUALITY_FIRST | BALANCED.

#[export] Instance RoutingStrategy_eq_dec : EqDecision RoutingStrategy.
Proof. solve_decision. Defined.

Definition strategy_value (s : RoutingStrategy) : string :=
  match s with
  | LOWEST_LATENCY => "lowest_latency"
  | LOWEST_COST => "lowest_cost"
  | QUALITY_FIRST => "quality_first"
  | BALANCED => "balanced"
  end.

(** [RoutingStrategy(raw)]: [None] stands for the [ValueError]. *)
Definition strategy_of (raw : json) : option RoutingStrategy :=
  match raw with
  | JStr s =>
      list_find (λ st, strategy_value st = s) [LOWEST_LATENCY; LOWEST_COST; QUALITY_FIRST; BALANCED]
        ≫= λ '(_, st), Some st
  | _ => None
  end.

Record ProviderHistoricalMetrics := {
  provider : string;
  median_latency_ms : Z;
  estimated_cost_microusd : Z;
  evaluation_pass_rate : f64;
  availability_rate : f64;
}.

(** The decimal literals of the source, as the floats nearest to them. *)
Definition f_1_0 : f64 := Eval vm_compute in f64_round 1 1.
Definition f_0_80 : f64 := Eval vm_compute in f64_round 80 100.
Definition f_0_96 : f64 := Eval vm_compute in f64_round 96 100.
Definition f_0_995 : f64 := Eval vm_compute in f64_round 995 1000.
Definition f_0_35 : f64 := Eval vm_compute in f64_round 35 100.
Definition f_0_30 : f64 := Eval vm_compute in f64_round 30 100.
Definition f_0_25 : f64 := Eval vm_compute in f64_round 25 100.
Definition f_0_10 : f64 := Eval vm_compute in f64_round 10 100.

Definition metrics_as_snapshot (m : ProviderHistoricalMetrics) (available : bool) : dict :=
  [("provider", JStr (provider m));
   ("median_latency_ms", JNum (NInt (median_latency_ms m)));
   ("estimated_cost_microusd", JNum (NInt (estimated_cost_microusd m)));
   ("evaluation_pass_rate", JNum (NFloat (evaluation_pass_rate m)));
   ("availability_rate", JNum (NFloat (if available then availability_rate m else Fin 0)));
   ("available", JBool available)].

Definition CATALOG_VERSION : string := "provider-catalog.v1".

Abbreviation catalog_t := (list (string * ProviderHistoricalMetrics)).

Definition DEFAULT_PROVIDER_CATALOG : catalog_t :=
  [("deterministic",
    {| provider := "deterministic"; median_latency_ms := 5; estimated_cost_microusd := 0;
       evaluation_pass_rate := f_0_80; availability_rate := f_1_0 |});
   ("openai",
    {| provider := "openai"; median_latency_ms := 800; estimated_cost_microusd := 1500;
       evaluation_pass_rate := f_0_96; availability_rate := f_0_995 |})].

Fixpoint catalog_get (k : string) (c : catalog_t) : option ProviderHistoricalMetrics :=
  match c with
  | [] => None
  | (k', m) :: c' => if bool_decide (k = k') then Some m else catalog_get k c'
  end.

(** ** Sort keys *)

Inductive key_item := KNum (n : num) | KStr (s : string).

Definition str_codes (s : string) : list Z := Text.code <$> Text.to_list s.

Definition num_cmp (a b : num) : comparison :=
  if num_eqb a b then Eq else if num_lt a b then Lt else Gt.

(** Comparison of two positions of a key.  Keys of one strategy have the same
    shape, so a number never meets a string. *)
Definition item_cmp (a b : key_item) : comparison :=
  match a, b with
  | KNum m, KNum n => num_cmp m n
  | KStr s, KStr t => lex_cmp Z.compare (str_codes s) (str_codes t)
  | KNum _, KStr _ => Lt
  | KStr _, KNum _ => Gt
  end.

Definition key_cmp : list key_item → list key_item → comparison := lex_cmp item_cmp.

Record Ranked := {
  ranked_provider : string;
  ranked_metrics : dict;
  ranked_score : f64;
  ranked_sort_key : list key_item;
}.

Definition _ranked_candidate (m : ProviderHistoricalMetrics) (strategy : RoutingStrategy)
    (available : bool) : result Ranked :=
  let snapshot := metrics_as_snapshot m available in
  let latency := KNum (NInt (median_latency_ms m)) in
  let cost := KNum (NInt (estimated_cost_microusd m)) in
  let pass := KNum (NFloat (f64_neg (evaluation_pass_rate m))) in
  let avail := KNum (NFloat (f64_neg (availability_rate m))) in
  let name := KStr (provider m) in
  let ranked score key :=
    {| ranked_provider := provider m; ranked_metrics := snapshot;
       ranked_score := score; ranked_sort_key := key |} in
  match strategy with
  | LOWEST_LATENCY =>
      score ← float_of_int (median_latency_ms m);
      Ok (ranked score [latency; cost; pass; avail; name])
  | LOWEST_COST =>
      score ← float_of_int (estimated_cost_microusd m);
      Ok (ranked score [cost; latency; pass; avail; name])
  | QUALITY_FIRST =>
      Ok (ranked (f64_round_digits (f64_sub f_1_0 (evaluation_pass_rate m)) 6)
            [pass; avail; latency; cost; name])
  | BALANCED =>
      let score :=
        f64_round_digits
          (f64_add
             (f64_add
                (f64_add
                   (f64_mul (f64_round (estimated_cost_microusd m) 2000) f_0_35)
                   (f64_mul (f64_round (median_latency_ms m) 1000) f_0_30))
                (f64_mul (f64_sub f_1_0 (evaluation_pass_rate m)) f_0_25))
             (f64_mul (f64_sub f_1_0 (availability_rate m)) f_0_10))
          6 in
      Ok (ranked score [KNum (NFloat score); name])
  end.

Record RoutingDecision := {
  rd_strategy : RoutingStrategy;
  rd_metrics_source : string;
  rd_selected_provider : string;
  rd_provider_order : list string;
  rd_reason : string;
  rd_ranked_candidates : list Ranked;
}.

(** [f"{x:.3f}"] of a finite float. *)
Definition format_3f (f : f64) : string :=
  match f with
  | Fin m =>
      let n := rhe_div_pow (Z.abs m * 1000) 1 1074 in
      let frac := pretty (n mod 1000) in
      let pad := if n mod 1000 <? 10 then "00" else if n mod 1000 <? 100 then "0" else "" in
      (if m <? 0 then "-" else "") +:+ pretty (n / 1000) +:+ "." +:+ pad +:+ frac
  | PInf => "inf" | NInf => "-inf" | NaN => "nan"
  end.

Section Resolve.
Context `{FloatRepr}.

Definition metric_int (k : string) (d : dict) : string :=
  match dget k d with Some (JNum (NInt z)) => pretty z | _ => "" end.
Definition metric_3f (k : string) (d : dict) : string :=
  match dget k d with Some (JNum n) => format_3f (num_value n) | _ => "" end.

Definition _reason (strategy : RoutingStrategy) (selected : Ranked) (candidate_count : nat)
    : string :=
  let metrics := ranked_metrics selected in
  let basis :=
    match strategy with
    | LOWEST_LATENCY =>
        "lowest historical median latency (" +:+ metric_int "median_latency_ms" metrics +:+ " ms)"
    | LOWEST_COST =>
        "lowest estimated cost (" +:+ metric_int "estimated_cost_microusd" metrics
          +:+ " micro-USD)"
    | QUALITY_FIRST =>
        "highest historical evaluation pass rate ("
          +:+ metric_3f "evaluation_pass_rate" metrics +:+ ")"
    | BALANCED =>
        "lowest balanced cost/latency/quality/availability score ("
          +:+ repr_float (ranked_score selected) +:+ ")"
    end in
  "Selected " +:+ ranked_provider selected +:+ " using " +:+ strategy_value strategy
    +:+ ": " +:+ basis +:+ " among " +:+ pretty candidate_count
    +:+ " available candidate(s).".

(** The candidate names a request asks for, with every check of the code. *)
Definition requested_candidates (requested routing : dict) : result (list string) :=
  let raw := dget_or "candidates"
               (dget_or "provider_order" (JArr [JStr "deterministic"]) requested) routing in
  let bad := ValueError "routing.candidates must be a non-empty list of provider names" in
  match raw with
  | JArr l =>
      match all_strings l with
      | Some names =>
          raise_unless (negb (bool_decide (names = []))
                        && forallb Text.nonblank names) bad;;
          raise_unless (bool_decide (NoDup names))
            (ValueError "routing.candidates must not contain duplicates");;
          Ok names
      | None => Err bad
      end
  | _ => Err bad
  end.

Definition rank_lt (a b : Ranked) : bool :=
  cmp_lt key_cmp (ranked_sort_key a) (ranked_sort_key b).

Definition resolve_routing_decision (requested : dict)
    (available_providers : option (list string)) (catalog : catalog_t)
    : result RoutingDecision :=
  match dget_or "routing" (JObj []) requested with
  | JObj routing =>
      match strategy_of (dget_or "strategy" (JStr "balanced") routing) with
      | None => Err (ValueError "routing.strategy must be one of the strategies")
      | Some strategy =>
          candidates ← requested_candidates requested routing;
          raise_unless (forallb (λ c, bool_decide (is_Some (catalog_get c catalog))) candidates)
            (ValueError "routing.candidates contains unknown providers");;
          let available := default (catalog.*1) available_providers in
          ranked ← result_map
            (λ m, _ranked_candidate m strategy true)
            (omap (λ c, catalog_get c catalog)
               (filter (λ c, c ∈ available) candidates));
          let ordered := sort_by rank_lt ranked in
          match ordered with
          | [] => Err (ValueError "routing.candidates has no currently available provider")
          | selected :: _ =>
              Ok {| rd_strategy := strategy;
                    rd_metrics_source := CATALOG_VERSION;
                    rd_selected_provider := ranked_provider selected;
                    rd_provider_order := ranked_provider <$> ordered;
                    rd_reason := _reason strategy selected (length ordered);
                    rd_ranked_candidates := ordered |}
          end
      end
  | _ => Err (ValueError "routing must be an object")
  end.
End Resolve.

(** The decision as the dictionary the code returns. *)
Definition decision_dict (rd : RoutingDecision) : dict :=
  [("strategy", JStr (strategy_value (rd_strategy rd)));
   ("metrics_source", JStr (rd_metrics_source rd));
   ("selected_provider", JStr (rd_selected_provider rd));
   ("provider_order", JArr (JStr <$> rd_provider_order rd));
   ("reason", JStr (rd_reason rd));
   ("ranked_candidates",
    JArr ((λ r, JObj [("provider", JStr (ranked_provider r));
                      ("score", JNum (NFloat (ranked_score r)));
                      ("metrics", JObj (ranked_metrics r))])
            <$> rd_ranked_candidates rd))].

(** ** Order of the keys *)

Definition item_finite (i : key_item) : Prop :=
  match i with KNum n => ∃ m, num_value n = Fin m | KStr _ => True end.

Lemma num_cmp_finite a b m n :
  num_value a = Fin m → num_value b = Fin n → num_cmp a b = Z.compare m n.
Proof.
  intros Ha Hb. unfold num_cmp, num_eqb, num_lt. rewrite Ha, Hb. cbn.
  destruct (Z.eqb_spec m n) as [->|]; [by rewrite Z.compare_refl|].
  destruct (Z.ltb_spec m n) as [Hlt|]; [by rewrite (proj2 (Z.compare_lt_iff _ _))|].
  rewrite (proj2 (Z.compare_gt_iff _ _)); [done|lia].
Qed.

#[export] Instance item_cmp_good : GoodCmp item_cmp item_finite.
Proof.
  pose proof (lex_cmp_good Z.compare (λ _, True)) as Hstr.
  assert (∀ s, Forall (λ _ : Z, True) (str_codes s)) as HT by (intros; by apply Forall_true).
  split.
  - intros [a|s] [b|t] Ha Hb; cbn in *; try done.
    + destruct Ha as [m Hm], Hb as [n Hn].
      rewrite (num_cmp_finite b a n m), (num_cmp_finite a b m n) by done.
      apply Z.compare_antisym.
    + by apply (cmp_antisym _ (Forall (λ _, True))).
  - intros [a|s] [b|t] [c|u] Ha Hb Hc; cbn in *; try done.
    + destruct Ha as [m Hm], Hb as [n Hn], Hc as [p Hp].
      rewrite (num_cmp_finite a b m n), (num_cmp_finite b c n p), (num_cmp_finite a c m p) by done.
      by apply (cmp_trans Z.compare (λ _, True)).
    + by apply (cmp_trans _ (Forall (λ _, True))).
Qed.

Lemma str_codes_inj s t : str_codes s = str_codes t → s = t.
Proof.
  unfold str_codes. intros Heq.
  rewrite <- (Text.of_to_list s), <- (Text.of_to_list t). f_equal.
  revert Heq. generalize (Text.to_list s) (Text.to_list t).
  intros l; induction l as [|c l IH]; intros [|c' l']; cbn; try done.
  intros [= Hc Hl]. f_equal; [|by apply IH].
  apply N2Z.inj in Hc. rewrite <- (Ascii.ascii_N_embedding c), <- (Ascii.ascii_N_embedding c').
  by rewrite Hc.
Qed.

Lemma lex_cmp_Z_eq l1 l2 : lex_cmp Z.compare l1 l2 = Eq → l1 = l2.
Proof.
  revert l2; induction l1 as [|x l1 IH]; intros [|y l2]; cbn; try done.
  destruct (Z.compare_spec x y) as [->| |]; try done. intros. f_equal. by apply IH.
Qed.

(** Equal keys end in equal provider names. *)
Lemma key_cmp_eq_last k1 k2 s t :
  length k1 = length k2 → key_cmp (k1 ++ [KStr s]) (k2 ++ [KStr t]) = Eq → s = t.
Proof.
  unfold key_cmp. revert k2; induction k1 as [|x k1 IH]; intros [|y k2] Hlen; cbn in *; try done.
  - destruct (lex_cmp Z.compare (str_codes s) (str_codes t)) eqn:E; try done.
    intros _. by apply str_codes_inj, lex_cmp_Z_eq.
  - destruct (item_cmp x y); try done. apply IH. lia.
Qed.

(** ** The ranking *)

Section Ranking.
Context `{FloatRepr}.

(** A catalogue whose entries are named by their key and whose sort keys are
    made of finite numbers under [strategy]. *)
Definition catalog_ok (strategy : RoutingStrategy) (catalog : catalog_t) : Prop :=
  ∀ c m r, catalog_get c catalog = Some m → _ranked_candidate m strategy true = Ok r →
    provider m = c ∧ Forall item_finite (ranked_sort_key r).

Lemma ranked_candidate_provider m st av r :
  _ranked_candidate m st av = Ok r → ranked_provider r = provider m.
Proof. destruct st; cbn; intros; inv_result; done. Qed.

(** All keys of one strategy have the same length and end in the name. *)
Lemma ranked_candidate_key m st av r :
  _ranked_candidate m st av = Ok r →
  ∃ k, ranked_sort_key r = k ++ [KStr (ranked_provider r)]
       ∧ length k = match st with BALANCED => 1%nat | _ => 4%nat end.
Proof.
  destruct st; cbn; intros; inv_result; cbn;
    solve [by eexists [_; _; _; _] | by eexists [_]].
Qed.

Definition ranking_of (catalog : catalog_t) (st : RoutingStrategy) (names : list string)
    : result (list Ranked) :=
  result_map (λ m, _ranked_candidate m st true) (omap (λ c, catalog_get c catalog) names).

Lemma ranking_of_spec catalog st names ranked :
  catalog_ok st catalog →
  Forall (λ c, is_Some (catalog_get c catalog)) names →
  ranking_of catalog st names = Ok ranked →
  ranked_provider <$> ranked = names
  ∧ Forall (λ r, Forall item_finite (ranked_sort_key r)) ranked
  ∧ Forall (λ r, ∃ m, catalog_get (ranked_provider r) catalog = Some m
                      ∧ _ranked_candidate m st true = Ok r) ranked.
Proof.
  intros Hcat Hknown. unfold ranking_of. rewrite result_map_ok.
  revert ranked. induction Hknown as [|c names [m Hm] Hknown IH]; intros ranked; cbn.
  - inversion 1; subst. by repeat constructor.
  - rewrite Hm. cbn. inversion 1 as [|? r ? rs Hr Hrs]; subst.
    destruct (IH _ Hrs) as (Hnames & Hfin & Hex).
    destruct (Hcat _ _ _ Hm Hr) as [Hc Hf].
    pose proof (ranked_candidate_provider _ _ _ _ Hr) as Hp.
    cbn. rewrite Hp, Hc, Hnames. repeat split; constructor; try done.
    exists m. by rewrite Hp, Hc.
Qed.

Lemma ranking_of_perm catalog st n1 n2 r1 r2 :
  n1 ≡ₚ n2 → ranking_of catalog st n1 = Ok r1 → ranking_of catalog st n2 = Ok r2 → r1 ≡ₚ r2.
Proof.
  unfold ranking_of. rewrite !result_map_ok. intros Hp H1 H2.
  assert (omap (λ c, catalog_get c catalog) n1 ≡ₚ omap (λ c, catalog_get c catalog) n2) as Ho.
  { clear H1 H2. induction Hp; cbn; repeat case_match; auto using Permutation_swap.
    by etransitivity. }
  destruct (Permutation_Forall2 Ho H1) as (r2' & Hr & H2').
  replace r2 with r2'; [done|].
  clear -H2 H2'. revert r2 H2. induction H2' as [|? ? ? ? Hx ? IH]; inversion 1; subst; [done|].
  f_equal; [congruence|]. by apply IH.
Qed.
End Ranking.

Definition item_finiteb (i : key_item) : bool :=
  match i with KNum n => isfinite (num_value n) | KStr _ => true end.

Lemma item_finiteb_sound l : forallb item_finiteb l = true → Forall item_finite l.
Proof.
  induction l as [|i l IH]; cbn; [constructor|]. intros; bool_to_prop. constructor; [|auto].
  destruct i as [n|s]; cbn in *; [|done]. destruct (num_value n); try done. by eexists.
Qed.

Definition finite_key (m : ProviderHistoricalMetrics) (st : RoutingStrategy) : bool :=
  match _ranked_candidate m st true with
  | Ok r => forallb item_finiteb (ranked_sort_key r)
  | Err _ => true
  end.

Lemma default_catalog_finite :
  forallb (λ st, forallb (λ '(_, m), finite_key m st) DEFAULT_PROVIDER_CATALOG)
    [LOWEST_LATENCY; LOWEST_COST; QUALITY_FIRST; BALANCED] = true.
Proof. vm_compute. reflexivity. Qed.

Lemma catalog_get_in c catalog m : catalog_get c catalog = Some m → (c, m) ∈ catalog.
Proof.
  induction catalog as [|[k m'] cat IH]; cbn; [done|].
  case_bool_decide; intros; simplify_eq; [by left|]. right. by apply IH.
Qed.

Lemma default_catalog_ok st : catalog_ok st DEFAULT_PROVIDER_CATALOG.
Proof.
  intros c m r Hm Hr. pose proof default_catalog_finite as Hf.
  rewrite forallb_forall in Hf. specialize (Hf st).
  assert (In st [LOWEST_LATENCY; LOWEST_COST; QUALITY_FIRST; BALANCED]) as Hst
    by (destruct st; cbn; tauto).
  specialize (Hf Hst). rewrite forallb_forall in Hf.
  pose proof (catalog_get_in _ _ _ Hm) as Hin. apply list_elem_of_In in Hin.
  specialize (Hf _ Hin). cbn in Hf. unfold finite_key in Hf. rewrite Hr in Hf.
  split; [|by apply item_finiteb_sound].
  clear -Hm. unfold DEFAULT_PROVIDER_CATALOG in Hm. cbn [catalog_get] in Hm.
  repeat case_bool_decide; simplify_eq; reflexivity.
Qed.

(** ** Properties of [resolve_routing_decision] *)

Section Properties.
Context `{FloatRepr}.

(** What a success says about the intermediate values of the function. *)
Lemma resolve_inv requested avail catalog rd :
  resolve_routing_decision requested avail catalog = Ok rd →
  ∃ routing candidates ranked,
    dget_or "routing" (JObj []) requested = JObj routing
    ∧ strategy_of (dget_or "strategy" (JStr "balanced") routing) = Some (rd_strategy rd)
    ∧ requested_candidates requested routing = Ok candidates
    ∧ Forall (λ c, is_Some (catalog_get c catalog)) candidates
    ∧ ranking_of catalog (rd_strategy rd)
        (filter (λ c, c ∈ default (catalog.*1) avail) candidates) = Ok ranked
    ∧ rd_ranked_candidates rd = sort_by rank_lt ranked
    ∧ rd_provider_order rd = ranked_provider <$> sort_by rank_lt ranked
    ∧ head (rd_provider_order rd) = Some (rd_selected_provider rd).
Proof.
  unfold resolve_routing_decision. intros Hr.
  destruct (dget_or "routing" _ requested) as [| | | | |routing]; try discriminate.
  destruct (strategy_of _) as [st|] eqn:Hst; [|discriminate].
  apply result_bind_ok in Hr as (cands & Hc & Hr).
  apply result_bind_ok in Hr as ([] & Hk & Hr). apply raise_unless_ok in Hk.
  apply result_bind_ok in Hr as (ranked & Hrank & Hr).
  destruct (sort_by rank_lt ranked) as [|sel rest] eqn:Hs; [discriminate|].
  inv_result. exists routing, cands, ranked. cbn. rewrite Hs. repeat split; try done.
  rewrite Forall_forall. intros c Hin. apply list_elem_of_In in Hin.
  rewrite forallb_forall in Hk. specialize (Hk _ Hin). by bool_to_prop.
Qed.

Lemma requested_candidates_nodup requested routing names :
  requested_candidates requested routing = Ok names → NoDup names ∧ names ≠ [].
Proof.
  unfold requested_candidates. destruct (dget_or "candidates" _ _); try discriminate.
  destruct (all_strings _) as [l'|]; [|discriminate].
  intros; inv_result. by bool_to_prop.
Qed.

(** The order chosen for a request: a duplicate-free rearrangement of the
    available candidates, sorted by the strategy's key. *)
Lemma resolve_order_spec requested avail catalog rd :
  (∀ st, catalog_ok st catalog) →
  resolve_routing_decision requested avail catalog = Ok rd →
  ∃ routing candidates,
    dget_or "routing" (JObj []) requested = JObj routing
    ∧ requested_candidates requested routing = Ok candidates
    ∧ rd_provider_order rd ≡ₚ filter (λ c, c ∈ default (catalog.*1) avail) candidates
    ∧ NoDup (rd_provider_order rd)
    ∧ rd_provider_order rd = ranked_provider <$> rd_ranked_candidates rd
    ∧ StronglySorted (not_after rank_lt) (rd_ranked_candidates rd)
    ∧ head (rd_provider_order rd) = Some (rd_selected_provider rd).
Proof.
  intros Hcat Hr.
  destruct (resolve_inv _ _ _ _ Hr)
    as (routing & cands & ranked & Hrt & Hst & Hc & Hknown & Hrank & Hsorted & Hord & Hhd).
  exists routing, cands.
  assert (Forall (λ c, is_Some (catalog_get c catalog))
            (filter (λ c, c ∈ default (catalog.*1) avail) cands)) as Hk'
    by (by apply Forall_filter).
  destruct (ranking_of_spec _ _ _ _ (Hcat _) Hk' Hrank) as (Hnames & Hfin & _).
  assert (rd_provider_order rd ≡ₚ filter (λ c, c ∈ default (catalog.*1) avail) cands) as Hp.
  { rewrite Hord, <- Hnames. apply fmap_Permutation, sort_by_perm. }
  repeat split; try done.
  - rewrite Hp. apply NoDup_filter. by eapply requested_candidates_nodup.
  - congruence.
  - rewrite Hsorted. by eapply (sort_by_sorted _ (λ r, Forall item_finite (ranked_sort_key r))).
Qed.

Lemma rank_lt_antisym catalog st r1 r2 m1 m2 :
  catalog_ok st catalog →
  catalog_get (ranked_provider r1) catalog = Some m1 →
  catalog_get (ranked_provider r2) catalog = Some m2 →
  _ranked_candidate m1 st true = Ok r1 → _ranked_candidate m2 st true = Ok r2 →
  not_after rank_lt r1 r2 → not_after rank_lt r2 r1 → r1 = r2.
Proof.
  intros Hcat Hm1 Hm2 H1 H2 Ha Hb.
  destruct (Hcat _ _ _ Hm1 H1) as [_ Hf1], (Hcat _ _ _ Hm2 H2) as [_ Hf2].
  assert (key_cmp (ranked_sort_key r1) (ranked_sort_key r2) = Eq) as Heq.
  { unfold not_after, rank_lt, cmp_lt in Ha, Hb.
    rewrite (cmp_antisym key_cmp (Forall item_finite) (ranked_sort_key r1)) in Ha by done.
    by destruct (key_cmp (ranked_sort_key r1) (ranked_sort_key r2)). }
  destruct (ranked_candidate_key _ _ _ _ H1) as (k1 & Hk1 & Hl1).
  destruct (ranked_candidate_key _ _ _ _ H2) as (k2 & Hk2 & Hl2).
  rewrite Hk1, Hk2 in Heq. apply key_cmp_eq_last in Heq; [|congruence].
  rewrite Heq in Hm1. congruence.
Qed.

(** For the shipped catalogue, a routing decision orders exactly the
    requested candidates that are available, without duplicates, sorted by the
    strategy's key, and selects the first of that order. *)
Theorem routing_decision_order requested avail rd :
  resolve_routing_decision requested avail DEFAULT_PROVIDER_CATALOG = Ok rd →
  ∃ routing candidates,
    dget_or "routing" (JObj []) requested = JObj routing
    ∧ requested_candidates requested routing = Ok candidates
    ∧ rd_provider_order rd
        ≡ₚ filter (λ c, c ∈ default ["deterministic"; "openai"] avail) candidates
    ∧ NoDup (rd_provider_order rd)
    ∧ rd_provider_order rd = ranked_provider <$> rd_ranked_candidates rd
    ∧ StronglySorted (not_after rank_lt) (rd_ranked_candidates rd)
    ∧ head (rd_provider_order rd) = Some (rd_selected_provider rd).
Proof. intros Hr. by eapply (resolve_order_spec _ _ _ _ default_catalog_ok) in Hr. Qed.

(** The decision does not depend on the order in which the caller lists
    the candidates: two requests for the same strategy whose candidate lists
    are permutations of each other get the same provider order. *)
Theorem routing_order_insensitive req1 req2 avail rt1 rt2 c1 c2 rd1 rd2 :
  dget_or "routing" (JObj []) req1 = JObj rt1 →
  dget_or "routing" (JObj []) req2 = JObj rt2 →
  requested_candidates req1 rt1 = Ok c1 →
  requested_candidates req2 rt2 = Ok c2 →
  c1 ≡ₚ c2 →
  resolve_routing_decision req1 avail DEFAULT_PROVIDER_CATALOG = Ok rd1 →
  resolve_routing_decision req2 avail DEFAULT_PROVIDER_CATALOG = Ok rd2 →
  rd_strategy rd1 = rd_strategy rd2 →
  rd_ranked_candidates rd1 = rd_ranked_candidates rd2
  ∧ rd_provider_order rd1 = rd_provider_order rd2.
Proof.
  intros Hrt1 Hrt2 Hc1 Hc2 Hp H1 H2 Hst.
  destruct (resolve_inv _ _ _ _ H1) as (rt1' & c1' & r1 & Hrt1' & _ & Hc1' & Hk1 & Hr1 & Hs1 & Ho1 & _).
  destruct (resolve_inv _ _ _ _ H2) as (rt2' & c2' & r2 & Hrt2' & _ & Hc2' & Hk2 & Hr2 & Hs2 & Ho2 & _).
  assert (rt1' = rt1) as -> by congruence. assert (rt2' = rt2) as -> by congruence.
  assert (c1' = c1) as -> by congruence. assert (c2' = c2) as -> by congruence.
  rewrite Hst in Hr1.
  set (P := λ c, c ∈ default (DEFAULT_PROVIDER_CATALOG.*1) avail) in *.
  assert (r1 ≡ₚ r2) as Hrp by (eapply ranking_of_perm; [|exact Hr1|exact Hr2]; by rewrite Hp).
  destruct (ranking_of_spec _ _ _ _ (default_catalog_ok _)
              (Forall_filter _ P _ Hk1) Hr1) as (_ & Hf1 & He1).
  destruct (ranking_of_spec _ _ _ _ (default_catalog_ok _)
              (Forall_filter _ P _ Hk2) Hr2) as (_ & Hf2 & He2).
  assert (sort_by rank_lt r1 = sort_by rank_lt r2) as Heq.
  { apply (StronglySorted_unique_strong (not_after rank_lt)).
    - intros x y Hx Hy. rewrite sort_by_perm in Hx, Hy.
      rewrite Forall_forall in He1, He2.
      destruct (He1 _ Hx) as (? & ? & ?), (He2 _ Hy) as (? & ? & ?).
      by eapply (rank_lt_antisym _ _ _ _ _ _ (default_catalog_ok _)).
    - by eapply (sort_by_sorted _ (λ r, Forall item_finite (ranked_sort_key r))).
    - by eapply (sort_by_sorted _ (λ r, Forall item_finite (ranked_sort_key r))).
    - by rewrite !sort_by_perm. }
  split; congruence.
Qed.
End Properties.
