(* ===== verification/Retry.v ===== *)
(** * Retry policy

    [src/src/agent_runtime/domain/retry.py] and [domain/policy.py]: the error
    codes and their classification, the immutable [RetryPolicy] with its backoff,
    the request schema [RunPolicyRequest] and [build_policy_snapshot], which
    merges a request with the server's limits. *)

From S2P Require Import Prelude Float64 PyValue Routing.
Local Open Scope Z_scope.

(** ** Error codes *)

Inductive ExecutionErrorCode :=
| PROVIDER_TIMEOUT | PROVIDER_RATE_LIMITED | PROVIDER_UNAVAILABLE | PROVIDER_SERVER_ERROR
| PROVIDER_AUTH_FAILED | PROVIDER_BAD_REQUEST | EXECUTION_ERROR | EXECUTION_LEASE_EXPIRED
| RESOURCE_QUOTA_EXCEEDED.

#[export] Instance ExecutionErrorCode_eq_dec : EqDecision ExecutionErrorCode.
Proof. solve_decision. Defined.

Definition error_code_value (c : ExecutionErrorCode) : string :=
  match c with
  | PROVIDER_TIMEOUT => "PROVIDER_TIMEOUT"
  | PROVIDER_RATE_LIMITED => "PROVIDER_RATE_LIMITED"
  | PROVIDER_UNAVAILABLE => "PROVIDER_UNAVAILABLE"
  | PROVIDER_SERVER_ERROR => "PROVIDER_SERVER_ERROR"
  | PROVIDER_AUTH_FAILED => "PROVIDER_AUTH_FAILED"
  | PROVIDER_BAD_REQUEST => "PROVIDER_BAD_REQUEST"
  | EXECUTION_ERROR => "EXECUTION_ERROR"
  | EXECUTION_LEASE_EXPIRED => "EXECUTION_LEASE_EXPIRED"
  | RESOURCE_QUOTA_EXCEEDED => "RESOURCE_QUOTA_EXCEEDED"
  end.

Definition all_error_codes : list ExecutionErrorCode :=
  [PROVIDER_TIMEOUT; PROVIDER_RATE_LIMITED; PROVIDER_UNAVAILABLE; PROVIDER_SERVER_ERROR;
   PROVIDER_AUTH_FAILED; PROVIDER_BAD_REQUEST; EXECUTION_ERROR; EXECUTION_LEASE_EXPIRED;
   RESOURCE_QUOTA_EXCEEDED].

Definition RETRYABLE_ERROR_CODES : list ExecutionErrorCode :=
  [PROVIDER_TIMEOUT; PROVIDER_RATE_LIMITED; PROVIDER_UNAVAILABLE; PROVIDER_SERVER_ERROR;
   EXECUTION_ERROR; EXECUTION_LEASE_EXPIRED].

(** [ExecutionErrorCode(error_code)]; [None] stands for the [ValueError]. *)
Definition error_code_of (error_code : string) : option ExecutionErrorCode :=
  list_find (λ c, error_code_value c = error_code) all_error_codes ≫= λ '(_, c), Some c.

Definition is_retryable_error (error_code : string) : bool :=
  match error_code_of error_code with
  | Some c => bool_decide (c ∈ RETRYABLE_ERROR_CODES)
  | None => false
  end.

(** [getattr(exc, "status_code", None)]. *)
Definition status_code_of (e : exn) : option Z :=
  match e with
  | ProviderHttpError c => Some c
  | ProviderConfigurationError => Some 400
  | _ => None
  end.

Definition classify_exception (e : exn) : ExecutionErrorCode :=
  match e with
  | QuotaExceededError _ => RESOURCE_QUOTA_EXCEEDED
  | TimeoutError => PROVIDER_TIMEOUT
  | _ =>
      match status_code_of e with
      | None => EXECUTION_ERROR
      | Some c =>
          if c =? 429 then PROVIDER_RATE_LIMITED
          else if (c =? 401) || (c =? 403) then PROVIDER_AUTH_FAILED
          else if (500 <=? c) && (c <=? 599) then PROVIDER_SERVER_ERROR
          else if (400 <=? c) && (c <=? 499) then PROVIDER_BAD_REQUEST
          else EXECUTION_ERROR
      end
  end.

(** ** The policy *)

Record RetryPolicy := {
  max_attempts : Z;
  attempt_timeout_seconds : f64;
  initial_backoff_seconds : f64;
  max_backoff_seconds : f64;
  provider_order : list string;
}.

#[export] Instance RetryPolicy_eq_dec : EqDecision RetryPolicy.
Proof. solve_decision. Defined.

Definition f64_le0 (f : f64) : bool := num_le (NFloat f) (NInt 0).

Definition RetryPolicy_post_init (p : RetryPolicy) : result unit :=
  raise_unless ((1 <=? max_attempts p) && (max_attempts p <=? 20))
    (ValueError "max_attempts must be between 1 and 20");;
  raise_unless (isfinite (attempt_timeout_seconds p) && isfinite (initial_backoff_seconds p)
                && isfinite (max_backoff_seconds p))
    (ValueError "retry values must be finite");;
  raise_unless (negb (f64_le0 (attempt_timeout_seconds p)))
    (ValueError "attempt_timeout_seconds must be greater than 0");;
  raise_unless (negb (f64_le0 (initial_backoff_seconds p)))
    (ValueError "initial_backoff_seconds must be greater than 0");;
  raise_unless (negb (f64_lt (max_backoff_seconds p) (initial_backoff_seconds p)))
    (ValueError "max_backoff_seconds must be at least initial_backoff_seconds");;
  raise_unless (negb (bool_decide (provider_order p = []))
                && forallb Text.nonblank (provider_order p))
    (ValueError "provider_order must contain at least one non-empty provider").

(** The dataclass constructor: the fields, then [__post_init__]. *)
Definition mk_RetryPolicy (ma : Z) (timeout initial maxb : f64) (order : list string)
    : result RetryPolicy :=
  let p := {| max_attempts := ma; attempt_timeout_seconds := timeout;
              initial_backoff_seconds := initial; max_backoff_seconds := maxb;
              provider_order := order |} in
  RetryPolicy_post_init p;; Ok p.

Definition f64_min (a b : f64) : f64 := if f64_lt b a then b else a.
Definition f64_max (a b : f64) : f64 := if f64_lt a b then b else a.

Definition delay_after_attempt (p : RetryPolicy) (attempt_number : Z) : result f64 :=
  if attempt_number <? 1 then Err (ValueError "attempt_number must be at least 1")
  else
    Ok (f64_max (Fin unit64)
          (f64_min (max_backoff_seconds p)
             (f64_mul_pow2 (initial_backoff_seconds p) (Z.min (attempt_number - 1) 20)))).

Definition as_snapshot (p : RetryPolicy) : dict :=
  [("max_attempts", JNum (NInt (max_attempts p)));
   ("attempt_timeout_seconds", JNum (NFloat (attempt_timeout_seconds p)));
   ("initial_backoff_seconds", JNum (NFloat (initial_backoff_seconds p)));
   ("max_backoff_seconds", JNum (NFloat (max_backoff_seconds p)));
   ("provider_order", JArr (JStr <$> provider_order p))].

Definition _positive_int (v : json) (name : string) : result Z :=
  match v with
  | JNum (NInt z) =>
      if z <? 1 then Err (ValueError (name +:+ " must be a positive integer")) else Ok z
  | _ => Err (ValueError (name +:+ " must be a positive integer"))
  end.

(** [math.isfinite] and [float] raise [OverflowError] on an integer that does
    not fit a float; the sign is only tested after [isfinite]. *)
Definition _positive_float (v : json) (name : string) : result f64 :=
  let bad := Err (ValueError (name +:+ " must be a positive number")) in
  match v with
  | JNum (NInt z) => f ← float_of_int z; if z <=? 0 then bad else Ok f
  | JNum (NFloat f) => if negb (isfinite f) || f64_le0 f then bad else Ok f
  | _ => bad
  end.

Definition from_snapshot (value : dict) : result RetryPolicy :=
  match dget_or "provider_order" (JArr [JStr "deterministic"]) value with
  | JArr l =>
      match all_strings l with
      | None => Err (ValueError "provider_order must be a list of strings")
      | Some order =>
          ma ← _positive_int (dget_or "max_attempts" (JNum (NInt 3)) value) "max_attempts";
          timeout ← _positive_float
            (dget_or "attempt_timeout_seconds" (JNum (NInt 60)) value) "attempt_timeout_seconds";
          initial ← _positive_float
            (dget_or "initial_backoff_seconds" (JNum (NInt 1)) value) "initial_backoff_seconds";
          maxb ← _positive_float
            (dget_or "max_backoff_seconds" (JNum (NInt 60)) value) "max_backoff_seconds";
          mk_RetryPolicy (Z.min 20 ma) timeout initial maxb order
      end
  | _ => Err (ValueError "provider_order must be a list of strings")
  end.

(** ** The request schema *)

Record RoutingRequest := {
  req_strategy : string;
  req_candidates : option (list string);
}.

Record RunPolicyRequest := {
  req_max_attempts : option Z;
  req_attempt_timeout_seconds : option f64;
  req_initial_backoff_seconds : option f64;
  req_max_backoff_seconds : option f64;
  req_provider_order : option (list string);
  req_routing : option RoutingRequest;
  req_model : option string;
  req_instructions : option string;
  req_max_output_tokens : option Z;
}.

Definition invalid {A} : result A := Err (ValueError "validation error").

(** An optional field: absent and [null] are both [None]. *)
Definition opt_field {A} (k : string) (d : dict) (parse : json → result A) : result (option A) :=
  match dget k d with
  | None | Some JNull => Ok None
  | Some v => a ← parse v; Ok (Some a)
  end.

(** [Field(ge=lo, le=hi, strict=True)] on [int] and on [float]; strict mode
    refuses booleans, and a strict float accepts an integer. *)
Definition strict_int (lo hi : Z) (v : json) : result Z :=
  match v with
  | JNum (NInt z) => if (lo <=? z) && (z <=? hi) then Ok z else invalid
  | _ => invalid
  end.

Definition strict_float (lo hi : Z) (v : json) : result f64 :=
  let check f := if isfinite f && num_le (NInt lo) (NFloat f) && num_le (NFloat f) (NInt hi)
                 then Ok f else invalid in
  match v with
  | JNum (NInt z) => match float_of_int z with Ok f => check f | Err _ => invalid end
  | JNum (NFloat f) => check f
  | _ => invalid
  end.

Definition bounded_str (lo hi : nat) (v : json) : result string :=
  match v with
  | JStr s => if bool_decide (lo ≤ String.length s ∧ String.length s ≤ hi)%nat then Ok s else invalid
  | _ => invalid
  end.

(** [list[Literal["deterministic", "openai"]]], one or two items. *)
Definition provider_list (v : json) : result (list string) :=
  match v with
  | JArr l =>
      match all_strings l with
      | Some names =>
          if bool_decide (1 ≤ length names ∧ length names ≤ 2)%nat
             && forallb (λ s, bool_decide (s ∈ ["deterministic"; "openai"])) names
          then Ok names else invalid
      | None => invalid
      end
  | _ => invalid
  end.

(** [ConfigDict(extra="forbid")]. *)
Definition no_extra (d : dict) (fields : list string) : result unit :=
  if forallb (λ k, bool_decide (k ∈ fields)) (dkeys d) then Ok tt else invalid.

Definition RoutingRequest_validate (v : json) : result RoutingRequest :=
  match v with
  | JObj d =>
      no_extra d ["strategy"; "candidates"];;
      strategy ← match dget "strategy" d with
                 | None => Ok "balanced"
                 | Some (JStr s) =>
                     if bool_decide (s ∈ ["balanced"; "lowest_latency"; "lowest_cost"; "quality_first"])
                     then Ok s else invalid
                 | Some _ => invalid
                 end;
      candidates ← opt_field "candidates" d provider_list;
      Ok {| req_strategy := strategy; req_candidates := candidates |}
  | _ => invalid
  end.

Definition RunPolicyRequest_validate (d : dict) : result RunPolicyRequest :=
  no_extra d ["max_attempts"; "attempt_timeout_seconds"; "initial_backoff_seconds";
              "max_backoff_seconds"; "provider_order"; "routing"; "model"; "instructions";
              "max_output_tokens"];;
  ma ← opt_field "max_attempts" d (strict_int 1 20);
  at_ ← opt_field "attempt_timeout_seconds" d (strict_float 1 600);
  ib ← opt_field "initial_backoff_seconds" d (strict_float 1 3600);
  mb ← opt_field "max_backoff_seconds" d (strict_float 1 86400);
  po ← opt_field "provider_order" d provider_list;
  rt ← opt_field "routing" d RoutingRequest_validate;
  md ← opt_field "model" d (bounded_str 1 128);
  ins ← opt_field "instructions" d (bounded_str 1 4096);
  mt ← opt_field "max_output_tokens" d (strict_int 1 8192);
  Ok {| req_max_attempts := ma; req_attempt_timeout_seconds := at_;
        req_initial_backoff_seconds := ib; req_max_backoff_seconds := mb;
        req_provider_order := po; req_routing := rt; req_model := md;
        req_instructions := ins; req_max_output_tokens := mt |}.

(** [model_dump(exclude_none=True)]. *)
Definition opt_entry {A} (k : string) (enc : A → json) (o : option A) : dict :=
  match o with Some a => [(k, enc a)] | None => [] end.

Definition names_json (l : list string) : json := JArr (JStr <$> l).

Definition RunPolicyRequest_dump (r : RunPolicyRequest) : dict :=
  opt_entry "max_attempts" (λ z, JNum (NInt z)) (req_max_attempts r)
  ++ opt_entry "attempt_timeout_seconds" (λ f, JNum (NFloat f)) (req_attempt_timeout_seconds r)
  ++ opt_entry "initial_backoff_seconds" (λ f, JNum (NFloat f)) (req_initial_backoff_seconds r)
  ++ opt_entry "max_backoff_seconds" (λ f, JNum (NFloat f)) (req_max_backoff_seconds r)
  ++ opt_entry "provider_order" names_json (req_provider_order r)
  ++ opt_entry "routing"
       (λ rt, JObj (("strategy", JStr (req_strategy rt))
                      :: opt_entry "candidates" names_json (req_candidates rt))) (req_routing r)
  ++ opt_entry "model" JStr (req_model r)
  ++ opt_entry "instructions" JStr (req_instructions r)
  ++ opt_entry "max_output_tokens" (λ z, JNum (NInt z)) (req_max_output_tokens r).

(** ** Merging a request with the server's limits *)

(** The keyword arguments of [build_policy_snapshot]. *)
Record ServerPolicy := {
  srv_max_attempts : Z;
  srv_attempt_timeout_seconds : num;
  srv_initial_backoff_seconds : num;
  srv_max_backoff_seconds : num;
  srv_available_providers : option (list string);
  srv_max_output_tokens : Z;
}.

Definition num_or (o : option f64) (default : num) : num :=
  match o with Some f => NFloat f | None => default end.

Section Build.
Context `{FloatRepr}.

Definition build_policy_snapshot (requested : dict) (srv : ServerPolicy) : result dict :=
  r ← RunPolicyRequest_validate requested;
  let snapshot := RunPolicyRequest_dump r in
  let mb := num_or (req_max_backoff_seconds r) (srv_max_backoff_seconds srv) in
  let ib := num_or (req_initial_backoff_seconds r) (srv_initial_backoff_seconds srv) in
  raise_unless (negb (num_lt mb ib))
    (ValueError "max_backoff_seconds must be at least initial_backoff_seconds");;
  let ma := default (srv_max_attempts srv) (req_max_attempts r) in
  let at_ := num_or (req_attempt_timeout_seconds r) (srv_attempt_timeout_seconds srv) in
  let ma' := Z.min ma (srv_max_attempts srv) in
  let at' := num_min at_ (srv_attempt_timeout_seconds srv) in
  let ib' := num_min (srv_max_backoff_seconds srv)
               (num_max (num_max (NInt 1) (srv_initial_backoff_seconds srv)) ib) in
  let mb' := num_max ib' (num_min mb (srv_max_backoff_seconds srv)) in
  let mt' := Z.min (default (srv_max_output_tokens srv) (req_max_output_tokens r))
               (srv_max_output_tokens srv) in
  let snapshot := dset "max_attempts" (JNum (NInt ma')) snapshot in
  let snapshot := dset "attempt_timeout_seconds" (JNum at') snapshot in
  let snapshot := dset "initial_backoff_seconds" (JNum ib') snapshot in
  let snapshot := dset "max_backoff_seconds" (JNum mb') snapshot in
  let snapshot := dset "max_output_tokens" (JNum (NInt mt')) snapshot in
  decision ← resolve_routing_decision snapshot (srv_available_providers srv)
               DEFAULT_PROVIDER_CATALOG;
  let order := names_json (rd_provider_order decision) in
  let snapshot := dset "provider_order" order snapshot in
  let snapshot := dset "routing"
    (JObj [("strategy", JStr (strategy_value (rd_strategy decision)));
           ("candidates", order);
           ("decision", JObj (decision_dict decision))]) snapshot in
  policy ← from_snapshot snapshot;
  Ok (dmerge snapshot (as_snapshot policy)).
End Build.

(** ** Facts about valid policies *)

Lemma error_code_of_value c : error_code_of (error_code_value c) = Some c.
Proof. by destruct c. Qed.

Lemma is_retryable_value c :
  is_retryable_error (error_code_value c) = bool_decide (c ∈ RETRYABLE_ERROR_CODES).
Proof. unfold is_retryable_error. by rewrite error_code_of_value. Qed.

Lemma f64_le0_false f : isfinite f = true → f64_le0 f = false → ∃ m, f = Fin m ∧ 0 < m.
Proof.
  destruct f as [m| | |]; try discriminate. intros _.
  unfold f64_le0. rewrite (num_le_fin (NFloat (Fin m)) (NInt 0) m 0) by done.
  intros; bool_to_prop. by exists m.
Qed.

(** What [__post_init__] guarantees. *)
Lemma post_init_inv p :
  RetryPolicy_post_init p = Ok tt →
  1 <= max_attempts p <= 20
  ∧ (∃ t, attempt_timeout_seconds p = Fin t ∧ 0 < t)
  ∧ (∃ i m, initial_backoff_seconds p = Fin i ∧ max_backoff_seconds p = Fin m ∧ 0 < i <= m)
  ∧ provider_order p ≠ [] ∧ forallb Text.nonblank (provider_order p) = true.
Proof.
  unfold RetryPolicy_post_init. intros Hp. inv_result. bool_to_prop.
  edestruct (f64_le0_false (attempt_timeout_seconds p)) as (t & Ht & ?); [done..|].
  edestruct (f64_le0_false (initial_backoff_seconds p)) as (i & Hi & ?); [done..|].
  destruct (max_backoff_seconds p) as [m| | |]; try discriminate.
  repeat split; try done; [by exists t|]. exists i, m. repeat split; try done.
  match goal with Hl : f64_lt _ _ = false |- _ => rewrite Hi in Hl; cbn in Hl end. by bool_to_prop.
Qed.

Lemma post_init_intro p t i m :
  1 <= max_attempts p <= 20 →
  attempt_timeout_seconds p = Fin t → 0 < t →
  initial_backoff_seconds p = Fin i → max_backoff_seconds p = Fin m → 0 < i <= m →
  provider_order p ≠ [] → forallb Text.nonblank (provider_order p) = true →
  RetryPolicy_post_init p = Ok tt.
Proof.
  intros Hma Ht Ht0 Hi Hm Him Hne Hnb. unfold RetryPolicy_post_init, f64_le0.
  rewrite Ht, Hi, Hm, Hnb.
  rewrite (num_le_fin (NFloat (Fin t)) (NInt 0) t 0), (num_le_fin (NFloat (Fin i)) (NInt 0) i 0)
    by done.
  rewrite bool_decide_false by done. cbn.
  rewrite (proj2 (Z.leb_le 1 _)), (proj2 (Z.leb_le _ 20)), (proj2 (Z.leb_gt t 0)),
    (proj2 (Z.leb_gt i 0)), (proj2 (Z.ltb_ge m i)) by lia. done.
Qed.

Lemma mk_RetryPolicy_ok ma t i m order p :
  mk_RetryPolicy ma t i m order = Ok p →
  RetryPolicy_post_init p = Ok tt
  ∧ p = {| max_attempts := ma; attempt_timeout_seconds := t; initial_backoff_seconds := i;
           max_backoff_seconds := m; provider_order := order |}.
Proof. unfold mk_RetryPolicy. intros. inv_result. by destruct x. Qed.

Lemma from_snapshot_valid d p : from_snapshot d = Ok p → RetryPolicy_post_init p = Ok tt.
Proof.
  unfold from_snapshot. destruct (dget_or _ _ d); try discriminate.
  destruct (all_strings _); [|discriminate]. intros. inv_result. by eapply mk_RetryPolicy_ok.
Qed.

(** A positive finite float of a snapshot is read back as it is. *)
Lemma positive_float_fin m name :
  0 < m → _positive_float (JNum (NFloat (Fin m))) name = Ok (Fin m).
Proof.
  intros Hm. unfold _positive_float, f64_le0. cbn.
  rewrite (num_le_fin (NFloat (Fin m)) (NInt 0) m 0) by done.
  by rewrite (proj2 (Z.leb_gt m 0)).
Qed.

Lemma positive_float_in lo hi n name :
  1 <= lo → hi <= 2 ^ 53 → num_in lo hi n → _positive_float (JNum n) name = Ok (num_value n).
Proof.
  intros Hlo Hhi Hn. pose proof unit64_pos as Hu. destruct n as [z|f].
  - cbn [_positive_float]. rewrite (float_of_int_in lo hi) by (done || lia). cbn.
    destruct Hn as (m & Hm & Hr). cbn in Hm. injection Hm as <-.
    by rewrite (proj2 (Z.leb_gt z 0)) by nia.
  - destruct Hn as (m & Hm & Hr). cbn in Hm. subst f. cbn [num_value].
    apply positive_float_fin. nia.
Qed.

(** Reading a snapshot that holds these five fields. *)
Lemma from_snapshot_fields d ma at_ ib mb order t i m :
  dget "max_attempts" d = Some (JNum (NInt ma)) →
  dget "attempt_timeout_seconds" d = Some at_ →
  dget "initial_backoff_seconds" d = Some ib →
  dget "max_backoff_seconds" d = Some mb →
  dget "provider_order" d = Some (names_json order) →
  (∀ name, _positive_float at_ name = Ok t) →
  (∀ name, _positive_float ib name = Ok i) →
  (∀ name, _positive_float mb name = Ok m) →
  1 <= ma →
  from_snapshot d = mk_RetryPolicy (Z.min 20 ma) t i m order.
Proof.
  intros H1 H2 H3 H4 H5 Ht Hi Hm Hma. unfold from_snapshot, dget_or.
  rewrite H1, H2, H3, H4, H5. cbn [from_option id names_json].
  rewrite all_strings_map. cbn [_positive_int]. rewrite (proj2 (Z.ltb_ge ma 1)) by lia.
  unfold id. rewrite Ht, Hi, Hm. done.
Qed.

Lemma dict_wf_as_snapshot p : dict_wf (as_snapshot p).
Proof. unfold dict_wf. cbn. apply (bool_decide_unpack _). exact I. Qed.

(** The snapshot of a valid policy, possibly on top of other fields. *)
Lemma from_snapshot_merge d p :
  RetryPolicy_post_init p = Ok tt → from_snapshot (dmerge d (as_snapshot p)) = Ok p.
Proof.
  intros Hp. pose proof (post_init_inv _ Hp) as
    (Hma & (t & Ht & Ht0) & (i & m & Hi & Hm & Him) & Hne & Hnb).
  erewrite from_snapshot_fields
    with (order := provider_order p) (t := Fin t) (i := Fin i) (m := Fin m);
    try (rewrite (dget_dmerge _ _ _ (dict_wf_as_snapshot p)); reflexivity).
  - unfold mk_RetryPolicy. rewrite Z.min_r by lia.
    replace {| max_attempts := _ |} with p by (destruct p; cbn in *; congruence).
    by rewrite Hp.
  - intros name. rewrite Ht. by apply positive_float_fin.
  - intros name. rewrite Hi. apply positive_float_fin. lia.
  - intros name. rewrite Hm. apply positive_float_fin. lia.
  - lia.
Qed.

(** The exact value of the backoff. *)
Lemma delay_after_attempt_value p i m n :
  initial_backoff_seconds p = Fin i → max_backoff_seconds p = Fin m →
  0 < i → m < limit64 → 1 <= n →
  delay_after_attempt p n = Ok (Fin (Z.max unit64 (Z.min m (i * 2 ^ Z.min (n - 1) 20)))).
Proof.
  intros Hi Hm Hi0 Hlim Hn. unfold delay_after_attempt.
  rewrite (proj2 (Z.ltb_ge n 1)) by lia. rewrite Hi, Hm. cbn [f64_mul_pow2].
  set (v := i * 2 ^ Z.min (n - 1) 20).
  assert (0 < v) by (apply Z.mul_pos_pos; [lia|apply Z.pow_pos_nonneg; lia]).
  rewrite (proj2 (Z.ltb_lt 0 i)) by lia. rewrite Z.abs_eq by lia. do 2 f_equal.
  destruct (Z.ltb_spec v limit64); unfold f64_min; cbn [f64_lt].
  - destruct (Z.ltb_spec v m); unfold f64_max; cbn [f64_lt];
      (destruct (Z.ltb_spec unit64 v) || destruct (Z.ltb_spec unit64 m));
      repeat case_match; bool_to_prop; f_equal; lia.
  - unfold f64_max; cbn [f64_lt]. case_match; bool_to_prop; f_equal; lia.
Qed.

Lemma classify_quota e :
  classify_exception e = RESOURCE_QUOTA_EXCEEDED → ∃ msg, e = QuotaExceededError msg.
Proof.
  destruct e; cbn; try discriminate; intros Hc; [by eexists|]. repeat case_match; discriminate.
Qed.

(** The two non-retryable provider codes are the client errors but 429. *)
Lemma classify_client_error e :
  classify_exception e = PROVIDER_AUTH_FAILED ∨ classify_exception e = PROVIDER_BAD_REQUEST ↔
  ∃ c, status_code_of e = Some c ∧ 400 <= c <= 499 ∧ c ≠ 429.
Proof.
  destruct e as [| | | | | | | | | | | | | |c| |];
    try (cbn; split; [by intros []|by intros (? & ? & _)]).
  - split; [intros _; exists 400; by repeat split|by right].
  - cbn. split.
    + intros Hc. exists c. split; [done|].
      repeat case_match; bool_to_prop; destruct Hc; discriminate || lia.
    + intros (? & [= <-] & Hr & Hne). rewrite (proj2 (Z.eqb_neq c 429)) by done.
      destruct ((c =? 401) || (c =? 403)); [by left|].
      rewrite (proj2 (Z.leb_gt 500 c)), (proj2 (Z.leb_le 400 c)), (proj2 (Z.leb_le c 499)) by lia.
      by right.
Qed.

(** ** Properties *)

(** A failure is retried exactly when it is not a quota refusal and not a
    client error of the provider: every classified exception is retryable except
    [QuotaExceededError] and HTTP statuses 400-499 other than 429. *)
Theorem classify_retryable e :
  is_retryable_error (error_code_value (classify_exception e)) = false ↔
  (∃ msg, e = QuotaExceededError msg)
  ∨ (∃ c, status_code_of e = Some c ∧ 400 <= c <= 499 ∧ c ≠ 429).
Proof.
  rewrite is_retryable_value. split.
  - intros Hr. destruct (classify_exception e) eqn:Hc; try discriminate Hr.
    + right. by apply classify_client_error; left.
    + right. by apply classify_client_error; right.
    + left. by apply classify_quota.
  - intros [[msg ->]|(c & Hs & Hc & Hne)]; [reflexivity|].
    assert (classify_exception e = PROVIDER_AUTH_FAILED
            ∨ classify_exception e = PROVIDER_BAD_REQUEST) as [->| ->]; [|reflexivity..].
    apply classify_client_error. by exists c.
Qed.

(** (C40) The backoff of a valid policy is defined for every attempt number from
    one, is at least one second, never exceeds the larger of one second and the
    policy's maximum, and does not decrease from one attempt to a later one. *)
Theorem backoff_bounded_monotone p m n n' :
  RetryPolicy_post_init p = Ok tt →
  max_backoff_seconds p = Fin m → m < limit64 →
  1 <= n <= n' →
  ∃ d d', delay_after_attempt p n = Ok (Fin d) ∧ delay_after_attempt p n' = Ok (Fin d')
          ∧ unit64 <= d <= d' ∧ d' <= Z.max unit64 m.
Proof.
  intros Hp Hm Hlim Hn.
  destruct (post_init_inv _ Hp) as (_ & _ & (i & m' & Hi & Hm' & Him) & _).
  assert (m' = m) as -> by congruence.
  do 2 eexists. rewrite !(delay_after_attempt_value p i m) by (done || lia).
  split; [done|]. split; [done|].
  assert (2 ^ Z.min (n - 1) 20 <= 2 ^ Z.min (n' - 1) 20) by (apply Z.pow_le_mono_r; lia).
  assert (i * 2 ^ Z.min (n - 1) 20 <= i * 2 ^ Z.min (n' - 1) 20) by (apply Z.mul_le_mono_nonneg_l; lia).
  lia.
Qed.

Definition sample_policy : RetryPolicy :=
  {| max_attempts := 3; attempt_timeout_seconds := Fin (60 * unit64);
     initial_backoff_seconds := Fin unit64; max_backoff_seconds := Fin (60 * unit64);
     provider_order := ["openai"; "deterministic"] |}.

Lemma backoff_bounded_monotone_witness :
  ∃ d d', delay_after_attempt sample_policy 1 = Ok (Fin d)
          ∧ delay_after_attempt sample_policy 9 = Ok (Fin d')
          ∧ unit64 <= d <= d' ∧ d' <= Z.max unit64 (60 * unit64).
Proof.
  apply (backoff_bounded_monotone sample_policy (60 * unit64) 1 9);
    [vm_compute; reflexivity|reflexivity|vm_compute; reflexivity|lia].
Defined.

(** Storing a valid policy and reading it back gives the same policy, also
    when the snapshot carries other fields. *)
Theorem policy_snapshot_roundtrip d p :
  RetryPolicy_post_init p = Ok tt →
  from_snapshot (as_snapshot p) = Ok p ∧ from_snapshot (dmerge d (as_snapshot p)) = Ok p.
Proof.
  intros Hp. split; [|by apply from_snapshot_merge].
  change (as_snapshot p) with (dmerge [] (as_snapshot p)). by apply from_snapshot_merge.
Qed.

Lemma policy_snapshot_roundtrip_witness :
  from_snapshot (as_snapshot sample_policy) = Ok sample_policy
  ∧ from_snapshot (dmerge [("model", JStr "gpt-5")] (as_snapshot sample_policy)) = Ok sample_policy.
Proof. apply (policy_snapshot_roundtrip [("model", JStr "gpt-5")]). vm_compute; reflexivity. Defined.

(** ** Server limits *)

(** The limits [Settings] can produce: the bounds of its fields, with the attempt
    timeout cut to one second less than the lease. *)
Record server_ok (srv : ServerPolicy) : Prop := {
  so_attempts : 1 <= srv_max_attempts srv <= 20;
  so_timeout : num_in 1 3599 (srv_attempt_timeout_seconds srv);
  so_initial : num_in 1 3600 (srv_initial_backoff_seconds srv);
  so_max : num_in 1 86400 (srv_max_backoff_seconds srv);
  so_order : num_le (srv_initial_backoff_seconds srv) (srv_max_backoff_seconds srv) = true;
}.

Lemma strict_float_in lo hi v f : strict_float lo hi v = Ok f → num_in lo hi (NFloat f).
Proof.
  assert (∀ g, (if isfinite g && num_le (NInt lo) (NFloat g) && num_le (NFloat g) (NInt hi)
                then Ok g else invalid) = Ok f → num_in lo hi (NFloat f)) as Hc.
  { intros g. destruct (_ && _) eqn:E; [|discriminate]. intros [= ->]. bool_to_prop.
    destruct f as [m| | |]; try discriminate. exists m. split; [done|].
    rewrite (num_le_fin _ _ (lo * unit64) m), (num_le_fin _ _ m (hi * unit64)) in * by done.
    by bool_to_prop. }
  unfold strict_float. destruct v as [| |[z|g]| | |]; try discriminate; [|by apply Hc].
  destruct (float_of_int z); [by apply Hc|discriminate].
Qed.

Lemma opt_field_some {A} k d (parse : json → result A) a :
  opt_field k d parse = Ok (Some a) → ∃ v, parse v = Ok a.
Proof.
  unfold opt_field. destruct (dget k d) as [v|]; [|discriminate].
  destruct v; try discriminate; intros; inv_result; by eexists.
Qed.

(** A requested float, or the server's value, in range. *)
Lemma num_or_in lo hi hi' k d o default :
  opt_field k d (strict_float lo hi) = Ok o →
  num_in lo hi' default → num_in lo (Z.max hi hi') (num_or o default).
Proof.
  intros Ho (m & Hm & Hr). pose proof unit64_pos. destruct o as [f|]; cbn.
  - apply opt_field_some in Ho as [v Hv]. apply strict_float_in in Hv as (m' & Hm' & Hr').
    exists m'. split; [done|]. nia.
  - exists m. split; [done|]. nia.
Qed.

(** The numbers of a validated request, with the server's values for the absent
    ones, are finite and in range. *)
Lemma validated_ranges d r T I0 M :
  RunPolicyRequest_validate d = Ok r →
  num_in 1 3599 T → num_in 1 3600 I0 → num_in 1 86400 M →
  (∀ x, 1 <= x → 1 <= default x (req_max_attempts r))
  ∧ num_in 1 3599 (num_or (req_attempt_timeout_seconds r) T)
  ∧ num_in 1 3600 (num_or (req_initial_backoff_seconds r) I0)
  ∧ num_in 1 86400 (num_or (req_max_backoff_seconds r) M).
Proof.
  intros Hval HT HI HM. unfold RunPolicyRequest_validate in Hval. inv_result. cbn.
  repeat split.
  - intros y Hy. destruct x0 as [z|]; cbn; [|done].
    match goal with Hf : opt_field "max_attempts" _ _ = _ |- _ =>
      apply opt_field_some in Hf as [v Hv] end.
    unfold strict_int in Hv. repeat case_match; try discriminate. inv_result. by bool_to_prop.
  - by eapply (num_or_in 1 600 3599).
  - by eapply (num_or_in 1 3600 3600).
  - by eapply (num_or_in 1 86400 86400).
Qed.

Section Caps.
Context `{FloatRepr}.

(** Whatever a caller asks for, an accepted policy stays inside the
    server's limits: attempts, attempt timeout, backoff and output tokens are
    capped, the backoff never starts below the server's base delay, and only
    distinct available providers are used.  The stored snapshot is readable by
    [from_snapshot]. *)
Theorem accepted_policy_within_limits requested srv snapshot :
  server_ok srv →
  build_policy_snapshot requested srv = Ok snapshot →
  ∃ p mt, from_snapshot snapshot = Ok p
    ∧ 1 <= max_attempts p <= srv_max_attempts srv
    ∧ num_le (NInt 1) (NFloat (attempt_timeout_seconds p)) = true
    ∧ num_le (NFloat (attempt_timeout_seconds p)) (srv_attempt_timeout_seconds srv) = true
    ∧ num_le (srv_initial_backoff_seconds srv) (NFloat (initial_backoff_seconds p)) = true
    ∧ num_le (NFloat (initial_backoff_seconds p)) (NFloat (max_backoff_seconds p)) = true
    ∧ num_le (NFloat (max_backoff_seconds p)) (srv_max_backoff_seconds srv) = true
    ∧ provider_order p ≠ [] ∧ NoDup (provider_order p)
    ∧ (∀ c, c ∈ provider_order p →
         c ∈ default ["deterministic"; "openai"] (srv_available_providers srv))
    ∧ dget "max_output_tokens" snapshot = Some (JNum (NInt mt))
    ∧ mt <= srv_max_output_tokens srv.
Proof.
  intros [Hatt (T & HT & HTr) (I0 & HI & HIr) (M & HM & HMr) Hord] Hb.
  pose proof unit64_pos as Hu.
  rewrite (num_le_fin _ _ I0 M) in Hord by done. apply Z.leb_le in Hord.
  unfold build_policy_snapshot in Hb.
  apply result_bind_ok in Hb as (r & Hval & Hb).
  apply result_bind_ok in Hb as ([] & _ & Hb).
  apply result_bind_ok in Hb as (rd & Hrd & Hb).
  apply result_bind_ok in Hb as (p & Hp & Hb). injection Hb as <-.
  destruct (validated_ranges _ _ _ _ _ Hval (ex_intro _ T (conj HT HTr))
              (ex_intro _ I0 (conj HI HIr)) (ex_intro _ M (conj HM HMr)))
    as (Hma & (t & Ht & Htr) & (i & Hi & Hir) & (m & Hm & Hmr)).
  pose proof (num_min_fin _ _ _ _ Ht HT) as Hat.
  pose proof (num_min_fin _ _ _ _ HM (num_max_fin _ _ _ _
                (num_max_fin (NInt 1) _ _ _ eq_refl HI) Hi)) as Hib.
  pose proof (num_max_fin _ _ _ _ Hib (num_min_fin _ _ _ _ Hm HM)) as Hmb.
  erewrite from_snapshot_fields in Hp; try (dget_simpl; reflexivity);
    [|intros; eapply (positive_float_in 1 3599); [lia|done|]; eexists; split; [exact Hat|lia]
     |intros; eapply (positive_float_in 1 86400); [lia|done|]; eexists; split; [exact Hib|lia]
     |intros; eapply (positive_float_in 1 86400); [lia|done|]; eexists; split; [exact Hmb|lia]
     |specialize (Hma (srv_max_attempts srv)); lia].
  rewrite Hat, Hib, Hmb in Hp.
  apply mk_RetryPolicy_ok in Hp as [Hpost Hp].
  exists p. eexists. split; [by apply from_snapshot_merge|].
  dget_simpl.
  destruct (resolve_order_spec _ _ _ _ default_catalog_ok Hrd)
    as (routing & cands & _ & _ & Hperm & Hnd & _ & _ & Hhd).
  rewrite Hp. cbn [max_attempts attempt_timeout_seconds initial_backoff_seconds
                   max_backoff_seconds provider_order].
  rewrite (num_le_fin (NInt 1) (NFloat (Fin (Z.min t T))) (1 * unit64) (Z.min t T)) by done.
  rewrite (num_le_fin (NFloat (Fin (Z.min t T))) _ (Z.min t T) T) by done.
  erewrite (num_le_fin (srv_initial_backoff_seconds srv) (NFloat (Fin _))) by done.
  erewrite (num_le_fin (NFloat (Fin (Z.min M _))) (NFloat (Fin _))) by done.
  erewrite (num_le_fin (NFloat (Fin (Z.max _ _))) (srv_max_backoff_seconds srv)) by done.
  rewrite !Z.leb_le. specialize (Hma (srv_max_attempts srv)).
  repeat split; try lia.
  - intros Hnil. by rewrite Hnil in Hhd.
  - done.
  - intros c Hc. rewrite Hperm in Hc. by apply list_elem_of_filter in Hc as [? _].
Qed.
End Caps.

(** A server with the default settings and a request above its limits. *)
Definition sample_server : ServerPolicy :=
  {| srv_max_attempts := 3; srv_attempt_timeout_seconds := NInt 60;
     srv_initial_backoff_seconds := NInt 1; srv_max_backoff_seconds := NInt 60;
     srv_available_providers := Some ["deterministic"]; srv_max_output_tokens := 2048 |}.

Definition sample_request : dict :=
  [("max_attempts", JNum (NInt 20)); ("initial_backoff_seconds", JNum (NInt 100));
   ("max_backoff_seconds", JNum (NInt 3000)); ("max_output_tokens", JNum (NInt 8192));
   ("routing", JObj [("strategy", JStr "lowest_latency");
                     ("candidates", JArr [JStr "openai"; JStr "deterministic"])])].

Definition no_repr : FloatRepr := λ _, "".

Definition sample_snapshot : dict :=
  match @build_policy_snapshot no_repr sample_request sample_server with
  | Ok s => s
  | Err _ => []
  end.

Lemma sample_server_ok : server_ok sample_server.
Proof. pose proof unit64_pos. split; cbn; try lia; try (eexists; split; [reflexivity|lia]). reflexivity. Qed.

Lemma accepted_policy_within_limits_witness :
  ∃ p mt, from_snapshot sample_snapshot = Ok p
    ∧ 1 <= max_attempts p <= 3
    ∧ dget "max_output_tokens" sample_snapshot = Some (JNum (NInt mt)) ∧ mt <= 2048.
Proof.
  destruct (@accepted_policy_within_limits no_repr sample_request sample_server sample_snapshot
              sample_server_ok ltac:(vm_compute; reflexivity))
    as (p & mt & H1 & H2 & _ & _ & _ & _ & _ & _ & _ & _ & H3 & H4).
  exists p, mt. exact (conj H1 (conj H2 (conj H3 H4))).
Defined.
