(* ===== verification/Models.v ===== *)
(** * The database

    [src/src/agent_runtime/infrastructure/database/models.py]: the tables of the
    runtime as records, the whole database as [db], and the environment of the
    process ([Host]): identifiers, clocks' text form, hashing.

    A transaction is one function on [db].  PostgreSQL's row and advisory locks
    make the transactions of the runtime atomic with respect to each other, so
    an execution of the system is a sequence of such functions.  A transaction
    that raises is rolled back: [commit] keeps the old database.

    Times are microseconds since the epoch, the resolution of [datetime] and of
    PostgreSQL timestamps.  [now] is the application clock of the caller,
    [tx_now] the database's [now()] of the transaction. *)

From S2P Require Import Prelude Float64 PyValue States.
Local Open Scope Z_scope.

Abbreviation uuid := N.
Abbreviation time := Z.

(** What the program takes from its host.  [uuid4] is the sequence of random
    identifiers a process draws; distinct draws are distinct.  [str(uuid)] and
    [UUID(text)] are inverse on identifiers.  [sha256_hex] is a digest, and
    [isoformat] and [repr_float] are text conversions. *)
Class Host := {
  host_repr :: FloatRepr;
  uuid4 : nat → uuid;
  uuid4_inj : ∀ i j, uuid4 i = uuid4 j → i = j;
  uuid_str : uuid → string;
  uuid_parse : string → option uuid;
  uuid_parse_str : ∀ u, uuid_parse (uuid_str u) = Some u;
  isoformat : time → string;
  sha256_hex : string → string;
}.

(** ** Durations *)

(** [timedelta(seconds=f)] for a finite float, in microseconds. *)
Definition timedelta_us (f : f64) : Z :=
  match f with
  | Fin m =>
      let whole := Z.quot m unit64 in
      match f64_mul (Fin (m - whole * unit64)) (Fin (1000000 * unit64)) with
      | Fin p => whole * 1000000 + Z.sgn p * rhe_div_pow (Z.abs p) 1 1074
      | _ => 0
      end
  | _ => 0
  end.

Lemma timedelta_us_bound m n :
  0 <= m <= n * unit64 → timedelta_us (Fin m) <= n * 1000000 + 2000002.
Proof.
  intros Hm. pose proof unit64_pos as Hu. unfold timedelta_us.
  pose proof (Z.quot_rem' m unit64) as Hqr. pose proof (Z.rem_bound_pos m unit64 ltac:(lia) Hu) as Hr.
  set (w := Z.quot m unit64) in *.
  replace (m - w * unit64) with (Z.rem m unit64) by lia. set (x := Z.rem m unit64) in *.
  assert (w <= n) by nia. assert (0 <= n) by nia.
  destruct (f64_mul (Fin x) (Fin (1000000 * unit64))) as [p| | |] eqn:E; try lia.
  assert (Z.abs p <= 2 * (1000000 * x) + 1) as Hp.
  { unfold f64_mul, signed64 in E. destruct (_ <? _); [|by destruct (0 <? _)].
    injection E as <-. set (y := x * (1000000 * unit64)). assert (0 <= y) as Hy by nia.
    rewrite (Z.abs_eq y) by done.
    pose proof (round53_bound y 1074 Hy ltac:(lia)) as Hb.
    rewrite <- unit64_eq in Hb. replace y with (1000000 * x * unit64) in Hb at 2 by lia.
    rewrite Z.div_mul in Hb by lia. pose proof (round53_nonneg y 1074 Hy ltac:(lia)).
    destruct (Z.sgn_spec y) as [[_ ->]|[[_ ->]|[_ ->]]]; lia. }
  rewrite rhe_div_pow_spec, Z.mul_1_l, <- unit64_eq by lia.
  pose proof (rhe_div_floor (Z.abs p) unit64 Hu) as [Hlo Hf].
  assert (Z.abs p / unit64 <= 2000000) by (apply Z.lt_succ_r, Z.div_lt_upper_bound; lia).
  assert (0 <= Z.abs p / unit64) by (apply Z.div_pos; lia).
  destruct (Z.sgn_spec p) as [[_ ->]|[[_ ->]|[_ ->]]]; nia.
Qed.

(** The last instant of year 9999. *)
Definition max_datetime : time := 253402300799999999.

(** [now + timedelta(seconds=f)]; a result after year 9999 raises. *)
Definition add_seconds (now : time) (f : f64) : result time :=
  let t := now + timedelta_us f in
  if isfinite f && (t <=? max_datetime) then Ok t else Err OverflowError.

Definition seconds (n : Z) : Z := n * 1000000.

(** [int((a - b).total_seconds() * 1000)]. *)
Definition elapsed_ms (a b : time) : Z :=
  match f64_mul (f64_round (a - b) 1000000) (Fin (1000 * unit64)) with
  | Fin m => Z.quot m unit64
  | _ => 0
  end.

(** ** Tables *)

(** The check constraint [ck_runs_work_kind] leaves three kinds. *)
Inductive WorkKind := wk_execution | wk_evaluation | wk_regression.
#[export] Instance WorkKind_eq_dec : EqDecision WorkKind.
Proof. solve_decision. Defined.
Definition work_kind_value (k : WorkKind) : string :=
  match k with
  | wk_execution => "execution" | wk_evaluation => "evaluation" | wk_regression => "regression"
  end.

(** A row of [runs].  The optimistic [version] counter is not kept: every writer
    holds the row lock, so it never conflicts. *)
Module Run.
Record t := {
  id : uuid;
  client_id : string;
  principal_id : option string;
  work_kind : WorkKind;
  idempotency_key : string;
  request_hash : string;
  input_payload : dict;
  policy_snapshot : dict;
  trace_context : dict;
  execution_status : ExecutionStatus;
  evaluation_status : EvaluationStatus;
  result_payload : option dict;
  error_code : option string;
  created_at : time;
  started_at : option time;
  completed_at : option time;
  execution_lease_owner : option string;
  execution_lease_expires_at : option time;
  next_attempt_at : option time;
  replay_of_run_id : option uuid;
}.
#[export] Instance t_eq_dec : EqDecision t.
Proof. solve_decision. Defined.
Definition set_execution_status (x : ExecutionStatus) (r : t) : t :=
  {| id := id r; client_id := client_id r; principal_id := principal_id r; work_kind :=
     work_kind r; idempotency_key := idempotency_key r; request_hash := request_hash r;
     input_payload := input_payload r; policy_snapshot := policy_snapshot r;
     trace_context := trace_context r; execution_status := x; evaluation_status :=
     evaluation_status r; result_payload := result_payload r; error_code := error_code
     r; created_at := created_at r; started_at := started_at r; completed_at :=
     completed_at r; execution_lease_owner := execution_lease_owner r;
     execution_lease_expires_at := execution_lease_expires_at r; next_attempt_at :=
     next_attempt_at r; replay_of_run_id := replay_of_run_id r |}.
Definition set_evaluation_status (x : EvaluationStatus) (r : t) : t :=
  {| id := id r; client_id := client_id r; principal_id := principal_id r; work_kind :=
     work_kind r; idempotency_key := idempotency_key r; request_hash := request_hash r;
     input_payload := input_payload r; policy_snapshot := policy_snapshot r;
     trace_context := trace_context r; execution_status := execution_status r;
     evaluation_status := x; result_payload := result_payload r; error_code :=
     error_code r; created_at := created_at r; started_at := started_at r; completed_at
     := completed_at r; execution_lease_owner := execution_lease_owner r;
     execution_lease_expires_at := execution_lease_expires_at r; next_attempt_at :=
     next_attempt_at r; replay_of_run_id := replay_of_run_id r |}.
Definition set_result_payload (x : option dict) (r : t) : t :=
  {| id := id r; client_id := client_id r; principal_id := principal_id r; work_kind :=
     work_kind r; idempotency_key := idempotency_key r; request_hash := request_hash r;
     input_payload := input_payload r; policy_snapshot := policy_snapshot r;
     trace_context := trace_context r; execution_status := execution_status r;
     evaluation_status := evaluation_status r; result_payload := x; error_code :=
     error_code r; created_at := created_at r; started_at := started_at r; completed_at
     := completed_at r; execution_lease_owner := execution_lease_owner r;
     execution_lease_expires_at := execution_lease_expires_at r; next_attempt_at :=
     next_attempt_at r; replay_of_run_id := replay_of_run_id r |}.
Definition set_error_code (x : option string) (r : t) : t :=
  {| id := id r; client_id := client_id r; principal_id := principal_id r; work_kind :=
     work_kind r; idempotency_key := idempotency_key r; request_hash := request_hash r;
     input_payload := input_payload r; policy_snapshot := policy_snapshot r;
     trace_context := trace_context r; execution_status := execution_status r;
     evaluation_status := evaluation_status r; result_payload := result_payload r;
     error_code := x; created_at := created_at r; started_at := started_at r;
     completed_at := completed_at r; execution_lease_owner := execution_lease_owner r;
     execution_lease_expires_at := execution_lease_expires_at r; next_attempt_at :=
     next_attempt_at r; replay_of_run_id := replay_of_run_id r |}.
Definition set_started_at (x : option time) (r : t) : t :=
  {| id := id r; client_id := client_id r; principal_id := principal_id r; work_kind :=
     work_kind r; idempotency_key := idempotency_key r; request_hash := request_hash r;
     input_payload := input_payload r; policy_snapshot := policy_snapshot r;
     trace_context := trace_context r; execution_status := execution_status r;
     evaluation_status := evaluation_status r; result_payload := result_payload r;
     error_code := error_code r; created_at := created_at r; started_at := x;
     completed_at := completed_at r; execution_lease_owner := execution_lease_owner r;
     execution_lease_expires_at := execution_lease_expires_at r; next_attempt_at :=
     next_attempt_at r; replay_of_run_id := replay_of_run_id r |}.
Definition set_completed_at (x : option time) (r : t) : t :=
  {| id := id r; client_id := client_id r; principal_id := principal_id r; work_kind :=
     work_kind r; idempotency_key := idempotency_key r; request_hash := request_hash r;
     input_payload := input_payload r; policy_snapshot := policy_snapshot r;
     trace_context := trace_context r; execution_status := execution_status r;
     evaluation_status := evaluation_status r; result_payload := result_payload r;
     error_code := error_code r; created_at := created_at r; started_at := started_at r;
     completed_at := x; execution_lease_owner := execution_lease_owner r;
     execution_lease_expires_at := execution_lease_expires_at r; next_attempt_at :=
     next_attempt_at r; replay_of_run_id := replay_of_run_id r |}.
Definition set_execution_lease_owner (x : option string) (r : t) : t :=
  {| id := id r; client_id := client_id r; principal_id := principal_id r; work_kind :=
     work_kind r; idempotency_key := idempotency_key r; request_hash := request_hash r;
     input_payload := input_payload r; policy_snapshot := policy_snapshot r;
     trace_context := trace_context r; execution_status := execution_status r;
     evaluation_status := evaluation_status r; result_payload := result_payload r;
     error_code := error_code r; created_at := created_at r; started_at := started_at r;
     completed_at := completed_at r; execution_lease_owner := x;
     execution_lease_expires_at := execution_lease_expires_at r; next_attempt_at :=
     next_attempt_at r; replay_of_run_id := replay_of_run_id r |}.
Definition set_execution_lease_expires_at (x : option time) (r : t) : t :=
  {| id := id r; client_id := client_id r; principal_id := principal_id r; work_kind :=
     work_kind r; idempotency_key := idempotency_key r; request_hash := request_hash r;
     input_payload := input_payload r; policy_snapshot := policy_snapshot r;
     trace_context := trace_context r; execution_status := execution_status r;
     evaluation_status := evaluation_status r; result_payload := result_payload r;
     error_code := error_code r; created_at := created_at r; started_at := started_at r;
     completed_at := completed_at r; execution_lease_owner := execution_lease_owner r;
     execution_lease_expires_at := x; next_attempt_at := next_attempt_at r;
     replay_of_run_id := replay_of_run_id r |}.
Definition set_next_attempt_at (x : option time) (r : t) : t :=
  {| id := id r; client_id := client_id r; principal_id := principal_id r; work_kind :=
     work_kind r; idempotency_key := idempotency_key r; request_hash := request_hash r;
     input_payload := input_payload r; policy_snapshot := policy_snapshot r;
     trace_context := trace_context r; execution_status := execution_status r;
     evaluation_status := evaluation_status r; result_payload := result_payload r;
     error_code := error_code r; created_at := created_at r; started_at := started_at r;
     completed_at := completed_at r; execution_lease_owner := execution_lease_owner r;
     execution_lease_expires_at := execution_lease_expires_at r; next_attempt_at := x;
     replay_of_run_id := replay_of_run_id r |}.
End Run.

(** A row of [run_attempts]. *)
Module RunAttempt.
Record t := {
  id : uuid;
  run_id : uuid;
  attempt_number : Z;
  provider : string;
  worker_id : string;
  started_at : time;
  finished_at : option time;
  outcome : option string;
  error_code : option string;
  retryable : option bool;
  latency_ms : option Z;
  usage_metadata : option dict;
}.
#[export] Instance t_eq_dec : EqDecision t.
Proof. solve_decision. Defined.
Definition set_provider (x : string) (r : t) : t :=
  {| id := id r; run_id := run_id r; attempt_number := attempt_number r; provider := x;
     worker_id := worker_id r; started_at := started_at r; finished_at := finished_at r;
     outcome := outcome r; error_code := error_code r; retryable := retryable r;
     latency_ms := latency_ms r; usage_metadata := usage_metadata r |}.
Definition set_finished_at (x : option time) (r : t) : t :=
  {| id := id r; run_id := run_id r; attempt_number := attempt_number r; provider :=
     provider r; worker_id := worker_id r; started_at := started_at r; finished_at := x;
     outcome := outcome r; error_code := error_code r; retryable := retryable r;
     latency_ms := latency_ms r; usage_metadata := usage_metadata r |}.
Definition set_outcome (x : option string) (r : t) : t :=
  {| id := id r; run_id := run_id r; attempt_number := attempt_number r; provider :=
     provider r; worker_id := worker_id r; started_at := started_at r; finished_at :=
     finished_at r; outcome := x; error_code := error_code r; retryable := retryable r;
     latency_ms := latency_ms r; usage_metadata := usage_metadata r |}.
Definition set_error_code (x : option string) (r : t) : t :=
  {| id := id r; run_id := run_id r; attempt_number := attempt_number r; provider :=
     provider r; worker_id := worker_id r; started_at := started_at r; finished_at :=
     finished_at r; outcome := outcome r; error_code := x; retryable := retryable r;
     latency_ms := latency_ms r; usage_metadata := usage_metadata r |}.
Definition set_retryable (x : option bool) (r : t) : t :=
  {| id := id r; run_id := run_id r; attempt_number := attempt_number r; provider :=
     provider r; worker_id := worker_id r; started_at := started_at r; finished_at :=
     finished_at r; outcome := outcome r; error_code := error_code r; retryable := x;
     latency_ms := latency_ms r; usage_metadata := usage_metadata r |}.
Definition set_latency_ms (x : option Z) (r : t) : t :=
  {| id := id r; run_id := run_id r; attempt_number := attempt_number r; provider :=
     provider r; worker_id := worker_id r; started_at := started_at r; finished_at :=
     finished_at r; outcome := outcome r; error_code := error_code r; retryable :=
     retryable r; latency_ms := x; usage_metadata := usage_metadata r |}.
Definition set_usage_metadata (x : option dict) (r : t) : t :=
  {| id := id r; run_id := run_id r; attempt_number := attempt_number r; provider :=
     provider r; worker_id := worker_id r; started_at := started_at r; finished_at :=
     finished_at r; outcome := outcome r; error_code := error_code r; retryable :=
     retryable r; latency_ms := latency_ms r; usage_metadata := x |}.
End RunAttempt.

(** A row of the append-only [run_events]. *)
Module RunEvent.
Record t := {
  id : uuid;
  run_id : uuid;
  attempt_id : option uuid;
  event_type : string;
  metadata : option dict;
  created_at : time;
}.
#[export] Instance t_eq_dec : EqDecision t.
Proof. solve_decision. Defined.
End RunEvent.

(** A row of [outbox_events]. *)
Module OutboxEvent.
Record t := {
  id : uuid;
  aggregate_id : uuid;
  event_type : string;
  payload : dict;
  created_at : time;
  published_at : option time;
  publish_attempts : Z;
  last_error : option string;
}.
#[export] Instance t_eq_dec : EqDecision t.
Proof. solve_decision. Defined.
Definition set_published_at (x : option time) (r : t) : t :=
  {| id := id r; aggregate_id := aggregate_id r; event_type := event_type r; payload :=
     payload r; created_at := created_at r; published_at := x; publish_attempts :=
     publish_attempts r; last_error := last_error r |}.
Definition set_publish_attempts (x : Z) (r : t) : t :=
  {| id := id r; aggregate_id := aggregate_id r; event_type := event_type r; payload :=
     payload r; created_at := created_at r; published_at := published_at r;
     publish_attempts := x; last_error := last_error r |}.
Definition set_last_error (x : option string) (r : t) : t :=
  {| id := id r; aggregate_id := aggregate_id r; event_type := event_type r; payload :=
     payload r; created_at := created_at r; published_at := published_at r;
     publish_attempts := publish_attempts r; last_error := x |}.
End OutboxEvent.

(** A row of [evaluations]. *)
Module Evaluation.
Record t := {
  id : uuid;
  run_id : uuid;
  evaluator : string;
  job_run_id : option uuid;
  status : EvaluationStatus;
  score : option f64;
  result : option dict;
  details : option dict;
  created_at : time;
  completed_at : option time;
}.
#[export] Instance t_eq_dec : EqDecision t.
Proof. solve_decision. Defined.
Definition set_status (x : EvaluationStatus) (r : t) : t :=
  {| id := id r; run_id := run_id r; evaluator := evaluator r; job_run_id := job_run_id
     r; status := x; score := score r; result := result r; details := details r;
     created_at := created_at r; completed_at := completed_at r |}.
Definition set_result (x : option dict) (r : t) : t :=
  {| id := id r; run_id := run_id r; evaluator := evaluator r; job_run_id := job_run_id
     r; status := status r; score := score r; result := x; details := details r;
     created_at := created_at r; completed_at := completed_at r |}.
Definition set_details (x : option dict) (r : t) : t :=
  {| id := id r; run_id := run_id r; evaluator := evaluator r; job_run_id := job_run_id
     r; status := status r; score := score r; result := result r; details := x;
     created_at := created_at r; completed_at := completed_at r |}.
Definition set_completed_at (x : option time) (r : t) : t :=
  {| id := id r; run_id := run_id r; evaluator := evaluator r; job_run_id := job_run_id
     r; status := status r; score := score r; result := result r; details := details r;
     created_at := created_at r; completed_at := x |}.
End Evaluation.

(** A row of [provider_quotas]. *)
Module ProviderQuota.
Record t := {
  scope : string;
  window_start : Z;
  used : Z;
}.
#[export] Instance t_eq_dec : EqDecision t.
Proof. solve_decision. Defined.
Definition set_window_start (x : Z) (r : t) : t :=
  {| scope := scope r; window_start := x; used := used r |}.
Definition set_used (x : Z) (r : t) : t :=
  {| scope := scope r; window_start := window_start r; used := x |}.
End ProviderQuota.

(** ** The database *)

Record db := {
  runs : gmap uuid Run.t;
  attempts : gmap uuid RunAttempt.t;
  events : list RunEvent.t;
  outbox : gmap uuid OutboxEvent.t;
  evaluations : gmap uuid Evaluation.t;
  quotas : gmap string ProviderQuota.t;
  draws : nat;
}.

Definition empty_db : db :=
  {| runs := ∅; attempts := ∅; events := []; outbox := ∅; evaluations := ∅; quotas := ∅;
     draws := 0 |}.

Definition with_runs (m : gmap uuid Run.t) (d : db) : db :=
  {| runs := m; attempts := attempts d; events := events d; outbox := outbox d;
     evaluations := evaluations d; quotas := quotas d; draws := draws d |}.
Definition with_attempts (m : gmap uuid RunAttempt.t) (d : db) : db :=
  {| runs := runs d; attempts := m; events := events d; outbox := outbox d;
     evaluations := evaluations d; quotas := quotas d; draws := draws d |}.
Definition with_events (l : list RunEvent.t) (d : db) : db :=
  {| runs := runs d; attempts := attempts d; events := l; outbox := outbox d;
     evaluations := evaluations d; quotas := quotas d; draws := draws d |}.
Definition with_outbox (m : gmap uuid OutboxEvent.t) (d : db) : db :=
  {| runs := runs d; attempts := attempts d; events := events d; outbox := m;
     evaluations := evaluations d; quotas := quotas d; draws := draws d |}.
Definition with_evaluations (m : gmap uuid Evaluation.t) (d : db) : db :=
  {| runs := runs d; attempts := attempts d; events := events d; outbox := outbox d;
     evaluations := m; quotas := quotas d; draws := draws d |}.
Definition with_quotas (m : gmap string ProviderQuota.t) (d : db) : db :=
  {| runs := runs d; attempts := attempts d; events := events d; outbox := outbox d;
     evaluations := evaluations d; quotas := m; draws := draws d |}.
Definition bump_draws (d : db) : db :=
  {| runs := runs d; attempts := attempts d; events := events d; outbox := outbox d;
     evaluations := evaluations d; quotas := quotas d; draws := S (draws d) |}.

(** Assignment to the attributes of a loaded row. *)
Definition put_run (r : Run.t) (d : db) : db := with_runs (<[Run.id r := r]> (runs d)) d.
Definition put_attempt (a : RunAttempt.t) (d : db) : db :=
  with_attempts (<[RunAttempt.id a := a]> (attempts d)) d.
Definition put_outbox (o : OutboxEvent.t) (d : db) : db :=
  with_outbox (<[OutboxEvent.id o := o]> (outbox d)) d.
Definition put_evaluation (e : Evaluation.t) (d : db) : db :=
  with_evaluations (<[Evaluation.id e := e]> (evaluations d)) d.

(** The outcome of a transaction with its database: [raise] rolls back. *)
Definition commit {A} (old : db) (r : result (A * db)) : result A * db :=
  match r with
  | Ok (a, new) => (Ok a, new)
  | Err e => (Err e, old)
  end.

Lemma commit_inv {A} d (r : result (A * db)) res d' :
  commit d r = (res, d') →
  (∃ e, r = Err e ∧ res = Err e ∧ d' = d) ∨ (∃ a, r = Ok (a, d') ∧ res = Ok a).
Proof. destruct r as [[a n]|e]; intros [= <- <-]; eauto. Qed.

Section Insert.
Context `{Host}.

(** The next identifier. *)
Definition next_id (d : db) : uuid := uuid4 (draws d).

(** [session.add(RunEvent(...))]. *)
Definition add_event (tx_now : time) (run_id : uuid) (attempt_id : option uuid)
    (event_type : string) (metadata : dict) (d : db) : db :=
  bump_draws (with_events
    (events d ++ [{| RunEvent.id := next_id d; RunEvent.run_id := run_id;
                     RunEvent.attempt_id := attempt_id; RunEvent.event_type := event_type;
                     RunEvent.metadata := Some metadata; RunEvent.created_at := tx_now |}]) d).

(** [session.add(OutboxEvent(...))]. *)
Definition add_outbox (tx_now : time) (aggregate_id : uuid) (event_type : string)
    (payload : dict) (d : db) : db :=
  bump_draws (put_outbox
    {| OutboxEvent.id := next_id d; OutboxEvent.aggregate_id := aggregate_id;
       OutboxEvent.event_type := event_type; OutboxEvent.payload := payload;
       OutboxEvent.created_at := tx_now; OutboxEvent.published_at := None;
       OutboxEvent.publish_attempts := 0; OutboxEvent.last_error := None |} d).

(** ** Well-formed tables

    A row is stored under its identifier, identifiers come from the draws made so
    far, event identifiers do not repeat, and evaluations, outbox rows and events name
    stored rows. *)

Definition drawn (d : db) (u : uuid) : Prop := ∃ i, (i < draws d)%nat ∧ u = uuid4 i.

Definition table_ok {A} (d : db) (id : A → uuid) (m : gmap uuid A) : Prop :=
  map_Forall (λ k x, id x = k ∧ drawn d k) m.

(** The foreign keys of an event. *)
Definition event_refs (d : db) (e : RunEvent.t) : Prop :=
  is_Some (runs d !! RunEvent.run_id e) ∧ ∀ a, RunEvent.attempt_id e = Some a → is_Some (attempts d !! a).

(** A row of [provider_quotas]: its key, and the check [ck_provider_quota_used]. *)
Definition quota_ok (scope : string) (q : ProviderQuota.t) : Prop :=
  ProviderQuota.scope q = scope ∧ 0 ≤ ProviderQuota.used q.

Record db_wf (d : db) : Prop := {
  wf_runs : table_ok d Run.id (runs d);
  wf_attempts : table_ok d RunAttempt.id (attempts d);
  wf_outbox : table_ok d OutboxEvent.id (outbox d);
  wf_evaluations : table_ok d Evaluation.id (evaluations d);
  wf_events : NoDup (RunEvent.id <$> events d);
  wf_events_drawn : Forall (λ e, drawn d (RunEvent.id e)) (events d);
  wf_evaluation_refs : map_Forall (λ _ e, is_Some (runs d !! Evaluation.run_id e)) (evaluations d);
  wf_outbox_refs : map_Forall (λ _ o, is_Some (runs d !! OutboxEvent.aggregate_id o)) (outbox d);
  wf_event_refs : Forall (event_refs d) (events d);
  wf_quotas : map_Forall quota_ok (quotas d);
}.

Lemma drawn_next d u : drawn d u → u ≠ next_id d.
Proof. intros (i & Hi & ->) Heq%uuid4_inj. lia. Qed.
Lemma drawn_mono d d' u : (draws d ≤ draws d')%nat → drawn d u → drawn d' u.
Proof. intros Hle (i & Hi & ->). exists i. split; [lia|done]. Qed.
Lemma drawn_bump d : drawn (bump_draws d) (next_id d).
Proof. exists (draws d). split; [cbn; lia|done]. Qed.

Lemma table_ok_mono {A} d d' (id : A → uuid) m :
  (draws d ≤ draws d')%nat → table_ok d id m → table_ok d' id m.
Proof. intros Hle Hm k x Hk. destruct (Hm k x Hk). split; [done|]. by eapply drawn_mono. Qed.
Lemma table_ok_fresh {A} d (id : A → uuid) m : table_ok d id m → m !! next_id d = None.
Proof. intros Hm. apply eq_None_not_Some. intros [x Hx]. destruct (Hm _ _ Hx) as [_ Hd]. by apply drawn_next in Hd. Qed.
Lemma table_ok_id {A} d (id : A → uuid) m k x : table_ok d id m → m !! k = Some x → id x = k.
Proof. intros Hm Hk. by destruct (Hm _ _ Hk). Qed.
Lemma table_ok_insert {A} d (id : A → uuid) m x :
  table_ok d id m → drawn d (id x) → table_ok d id (<[id x := x]> m).
Proof. intros Hm Hd. by apply map_Forall_insert_2. Qed.

Lemma db_wf_empty : db_wf empty_db.
Proof. split; try apply map_Forall_empty; constructor. Qed.

Lemma db_wf_bump d : db_wf d → db_wf (bump_draws d).
Proof.
  intros []. assert (draws d ≤ draws (bump_draws d))%nat by (cbn; lia).
  split; try (by eapply table_ok_mono); try done.
  eapply Forall_impl; [exact wf_events_drawn0|]. intros e ?. by eapply drawn_mono.
Qed.

(** Rows are only added to the tables the references point to. *)
Lemma event_refs_mono d d' e :
  (∀ k, is_Some (runs d !! k) → is_Some (runs d' !! k)) →
  (∀ k, is_Some (attempts d !! k) → is_Some (attempts d' !! k)) → event_refs d e → event_refs d' e.
Proof. intros Hr Ha [? He]. split; eauto. Qed.

Lemma stored_insert {A} (m : gmap uuid A) k x j : is_Some (m !! j) → is_Some (<[k := x]> m !! j).
Proof. rewrite lookup_insert_is_Some'. auto. Qed.
Lemma stored_self {A} (m : gmap uuid A) k x : is_Some (<[k := x]> m !! k).
Proof. rewrite lookup_insert_eq. eauto. Qed.

Lemma db_wf_put_run d r : db_wf d → drawn d (Run.id r) → db_wf (put_run r d).
Proof.
  intros [] ?. split; try done; cbn.
  - by apply table_ok_insert.
  - intros k e He. by eapply stored_insert, wf_evaluation_refs0.
  - intros k o Ho. by eapply stored_insert, wf_outbox_refs0.
  - eapply Forall_impl; [exact wf_event_refs0|]. intros e. apply event_refs_mono; cbn; auto using stored_insert.
Qed.
Lemma db_wf_put_attempt d a : db_wf d → drawn d (RunAttempt.id a) → db_wf (put_attempt a d).
Proof.
  intros [] ?. split; try done; cbn; [by apply table_ok_insert|].
  eapply Forall_impl; [exact wf_event_refs0|]. intros e. apply event_refs_mono; cbn; auto using stored_insert.
Qed.
Lemma db_wf_put_outbox d o :
  db_wf d → drawn d (OutboxEvent.id o) → is_Some (runs d !! OutboxEvent.aggregate_id o) → db_wf (put_outbox o d).
Proof. intros [] ??. split; try done; [by apply table_ok_insert|]. by apply map_Forall_insert_2. Qed.
Lemma db_wf_put_evaluation d e :
  db_wf d → drawn d (Evaluation.id e) → is_Some (runs d !! Evaluation.run_id e) → db_wf (put_evaluation e d).
Proof. intros [] ??. split; try done; [by apply table_ok_insert|]. by apply map_Forall_insert_2. Qed.
Lemma db_wf_with_quotas d q : db_wf d → map_Forall quota_ok q → db_wf (with_quotas q d).
Proof. by intros []. Qed.

(** Inserting a row with the next identifier. *)
Lemma bump_put_run r d : bump_draws (put_run r d) = put_run r (bump_draws d).
Proof. done. Qed.
Lemma bump_put_attempt r d : bump_draws (put_attempt r d) = put_attempt r (bump_draws d).
Proof. done. Qed.
Lemma bump_put_outbox r d : bump_draws (put_outbox r d) = put_outbox r (bump_draws d).
Proof. done. Qed.
Lemma bump_put_evaluation r d : bump_draws (put_evaluation r d) = put_evaluation r (bump_draws d).
Proof. done. Qed.

Lemma db_wf_add_event tx_now run_id attempt_id type md d :
  db_wf d → is_Some (runs d !! run_id) →
  from_option (λ a, is_Some (attempts d !! a)) True attempt_id →
  db_wf (add_event tx_now run_id attempt_id type md d).
Proof.
  intros Hd Hr Ha. pose proof (db_wf_bump d Hd) as Hb. destruct Hd, Hb. split; try done; cbn.
  - rewrite fmap_app. apply NoDup_app. split_and!; [done| |apply NoDup_singleton].
    intros u (e & -> & He)%list_elem_of_fmap Hu%list_elem_of_singleton. cbn in Hu.
    rewrite Forall_forall in wf_events_drawn0. apply wf_events_drawn0, drawn_next in He. done.
  - apply Forall_app. split; [done|]. apply Forall_singleton. apply drawn_bump.
  - apply Forall_app. split; [done|]. apply Forall_singleton. split; [done|]. cbn. by intros a ->.
Qed.
Lemma db_wf_add_outbox tx_now agg type payload d :
  db_wf d → is_Some (runs d !! agg) → db_wf (add_outbox tx_now agg type payload d).
Proof.
  intros Hd Ha. unfold add_outbox. rewrite bump_put_outbox. apply db_wf_put_outbox; [by apply db_wf_bump| |done].
  apply drawn_bump.
Qed.

Lemma table_ids {A} d (id : A → uuid) (m : gmap uuid A) P :
  table_ok d id m → NoDup (id <$> rows_where P m).
Proof.
  intros Hm. unfold rows_where. rewrite <- list_fmap_compose.
  rewrite (list_fmap_ext _ fst).
  - apply NoDup_fst_map_to_list.
  - intros i [k x] Hk. apply list_elem_of_lookup_2, elem_of_map_to_list, map_lookup_filter_Some in Hk as [Hk _].
    by apply (Hm k x Hk).
Qed.
End Insert.

(** The rows a reference names, in a chain of updates. *)
Ltac stored := cbn; solve [repeat first [done | eauto; fail | apply stored_self | apply stored_insert]].
#[export] Hint Extern 1 (is_Some (_ !! _)) => stored : arr.
#[export] Hint Extern 1 (from_option _ True _) => stored : arr.

#[export] Hint Resolve db_wf_bump db_wf_put_run db_wf_put_attempt db_wf_put_outbox
  db_wf_put_evaluation db_wf_with_quotas db_wf_add_event db_wf_add_outbox drawn_bump : arr.

(** Project a table out of a chain of updates. *)
Ltac db_simpl :=
  cbn [runs attempts events outbox evaluations quotas draws with_runs with_attempts with_events
       with_outbox with_evaluations with_quotas bump_draws put_run put_attempt put_outbox
       put_evaluation add_event add_outbox] in *.
