(* ===== verification/Quotas.v ===== *)
(** * Quotas

    [src/src/agent_runtime/infrastructure/database/quotas.py]: the limits, the
    admission checks of new work and the authoritative charge of a provider call.
    [epoch] is the database clock in whole seconds ([_epoch_now]); the functions
    run under the identity locks of their caller. *)

From S2P Require Import Prelude Float64 PyValue States Models.
Local Open Scope Z_scope.

Record QuotaLimits := {
  principal_active : Z;
  tenant_active : Z;
  principal_calls : Z;
  tenant_calls : Z;
  window_seconds : Z;
  principal_running : Z;
  tenant_running : Z;
}.

(** The dataclass defaults. *)
Definition default_limits : QuotaLimits :=
  {| principal_active := 20; tenant_active := 40; principal_calls := 120; tenant_calls := 240;
     window_seconds := 3600; principal_running := 1; tenant_running := 2 |}.

Definition p_scope (principal : string) : string := "p:" +:+ principal.
Definition t_scope (tenant : string) : string := "t:" +:+ tenant.

(** The order in which [lock_identity] takes its two advisory locks: sorted. *)
Definition str_lt (s t : string) : bool :=
  cmp_lt (lex_cmp Z.compare) (Text.code <$> Text.to_list s) (Text.code <$> Text.to_list t).
Definition lock_identity (principal tenant : string) : list string :=
  sort_by str_lt [p_scope principal; t_scope tenant].

Definition _current_window (now window_seconds : Z) : Z := now / window_seconds * window_seconds.

(** ** Provider-call accounting *)

Definition quota_exceeded : exn := QuotaExceededError "Provider-call quota exceeded".

(** One iteration of the loop of [check_provider_budget]. *)
Definition check_scope (q : gmap string ProviderQuota.t) (window : Z) (scope : string) (limit : Z)
    : result unit :=
  match q !! scope with
  | None => Ok tt
  | Some row =>
      if negb (ProviderQuota.window_start row =? window) then Ok tt
      else if limit <=? ProviderQuota.used row then Err quota_exceeded
      else Ok tt
  end.

Definition check_provider_budget (q : gmap string ProviderQuota.t) (epoch : Z)
    (principal tenant : string) (limits : QuotaLimits) : result unit :=
  let window := _current_window epoch (window_seconds limits) in
  check_scope q window (p_scope principal) (principal_calls limits);;
  check_scope q window (t_scope tenant) (tenant_calls limits).

(** One iteration of the first loop of [charge_provider_call]: the row, created or
    reset for the window, unless it is spent. *)
Definition open_scope_row (q : gmap string ProviderQuota.t) (window : Z) (scope : string)
    (limit : Z) : result ProviderQuota.t :=
  let row :=
    match q !! scope with
    | None => {| ProviderQuota.scope := scope; ProviderQuota.window_start := window;
                 ProviderQuota.used := 0 |}
    | Some row =>
        if ProviderQuota.window_start row =? window then row
        else ProviderQuota.set_used 0 (ProviderQuota.set_window_start window row)
    end in
  if limit <=? ProviderQuota.used row then Err quota_exceeded else Ok row.

Definition charge_row (row : ProviderQuota.t) : ProviderQuota.t :=
  ProviderQuota.set_used (ProviderQuota.used row + 1) row.

(** [charge_provider_call]: both scopes are charged, or the exception rolls the
    transaction back and none is. *)
Definition charge_provider_call (q : gmap string ProviderQuota.t) (epoch : Z)
    (principal tenant : string) (limits : QuotaLimits) : result (gmap string ProviderQuota.t) :=
  let window := _current_window epoch (window_seconds limits) in
  prow ← open_scope_row q window (p_scope principal) (principal_calls limits);
  trow ← open_scope_row q window (t_scope tenant) (tenant_calls limits);
  Ok (<[t_scope tenant := charge_row trow]> (<[p_scope principal := charge_row prow]> q)).

(** ** Admission *)

Definition active_of_principal (principal : string) (r : Run.t) : bool :=
  bool_decide (Run.principal_id r = Some principal) && is_active (Run.execution_status r).
Definition active_of_tenant (tenant : string) (r : Run.t) : bool :=
  bool_decide (Run.client_id r = tenant) && is_active (Run.execution_status r).

Definition count_runs (P : Run.t → bool) (d : db) : Z := Z.of_nat (count_where P (runs d)).

Definition check_admission (d : db) (epoch : Z) (principal tenant : string) (limits : QuotaLimits)
    : result unit :=
  let refused := QuotaExceededError "Active work quota exceeded" in
  raise_unless (count_runs (active_of_principal principal) d <? principal_active limits) refused;;
  raise_unless (count_runs (active_of_tenant tenant) d <? tenant_active limits) refused;;
  check_provider_budget (quotas d) epoch principal tenant limits.

(** ** Lemmas *)

Lemma scopes_differ p t : p_scope p ≠ t_scope t.
Proof. discriminate. Qed.

Lemma p_scope_inj p p' : p_scope p = p_scope p' → p = p'.
Proof. by intros [= ?]. Qed.
Lemma t_scope_inj t t' : t_scope t = t_scope t' → t = t'.
Proof. by intros [= ?]. Qed.

(** The calls charged to [scope] in [window]. *)
Definition used_in (q : gmap string ProviderQuota.t) (window : Z) (scope : string) : Z :=
  match q !! scope with
  | Some row => if ProviderQuota.window_start row =? window then ProviderQuota.used row else 0
  | None => 0
  end.

Lemma open_scope_row_ok q w s l row :
  open_scope_row q w s l = Ok row →
  ProviderQuota.window_start row = w ∧ ProviderQuota.used row = used_in q w s
  ∧ used_in q w s < l.
Proof.
  unfold open_scope_row, used_in. destruct (q !! s) as [r|] eqn:E; cbn.
  - destruct (Z.eqb_spec (ProviderQuota.window_start r) w) as [<-|]; cbn;
      case_match; intros [= <-]; bool_to_prop; cbn; lia || done.
  - case_match; intros [= <-]; bool_to_prop; cbn; lia || done.
Qed.

Lemma open_scope_row_err q w s l : is_ok (open_scope_row q w s l) = (used_in q w s <? l).
Proof.
  unfold open_scope_row, used_in. destruct (q !! s) as [r|]; cbn.
  - destruct (ProviderQuota.window_start r =? w); cbn; case_match; bool_to_prop; cbn; symmetry;
      apply Z.ltb_ge || apply Z.ltb_lt; lia.
  - case_match; bool_to_prop; cbn; symmetry; apply Z.ltb_ge || apply Z.ltb_lt; lia.
Qed.

(** Charged rows keep their key and the check of the table. *)
Lemma open_scope_row_quota q w s l row :
  map_Forall quota_ok q → open_scope_row q w s l = Ok row → quota_ok s row.
Proof.
  intros Hq Ho. unfold open_scope_row in Ho. case_match; [done|]. injection Ho as <-.
  destruct (q !! s) as [r|] eqn:E; [|by split].
  destruct (Hq _ _ E) as [Hs Hu]. case_match; split; cbn; by try lia.
Qed.

Lemma charge_quotas_ok q epoch p t lim q' :
  map_Forall quota_ok q → charge_provider_call q epoch p t lim = Ok q' → map_Forall quota_ok q'.
Proof.
  intros Hq Hc. unfold charge_provider_call in Hc. inv_result.
  repeat match goal with Ho : open_scope_row _ _ _ _ = Ok _ |- _ =>
    apply open_scope_row_quota in Ho as [??]; [|done] end.
  apply map_Forall_insert_2; [split; cbn; by try lia|]. apply map_Forall_insert_2; [split; cbn; by try lia|done].
Qed.

(** What a successful charge does to the accounting of every scope. *)
Lemma charge_used q epoch p t lim q' :
  charge_provider_call q epoch p t lim = Ok q' →
  let w := _current_window epoch (window_seconds lim) in
  used_in q w (p_scope p) < principal_calls lim ∧ used_in q w (t_scope t) < tenant_calls lim
  ∧ used_in q' w (p_scope p) = used_in q w (p_scope p) + 1
  ∧ used_in q' w (t_scope t) = used_in q w (t_scope t) + 1
  ∧ ∀ s w', s ≠ p_scope p → s ≠ t_scope t → used_in q' w' s = used_in q w' s.
Proof.
  intros Hc w. unfold charge_provider_call in Hc. fold w in Hc. inv_result.
  repeat match goal with Ho : open_scope_row _ _ _ _ = Ok _ |- _ =>
    apply open_scope_row_ok in Ho as (? & ? & ?) end.
  repeat split; try done.
  - unfold used_in at 1. rewrite lookup_insert_ne by (by apply not_eq_sym, scopes_differ).
    rewrite lookup_insert_eq. cbn. rewrite (proj2 (Z.eqb_eq _ _)) by done. lia.
  - unfold used_in at 1. rewrite lookup_insert_eq. cbn. rewrite (proj2 (Z.eqb_eq _ _)) by done. lia.
  - intros s w' Hp Ht. unfold used_in. by rewrite !lookup_insert_ne by done.
Qed.

(** In another window than the current one a charged scope counts as unused. *)
Lemma charge_used_other q epoch p t lim q' w' s :
  charge_provider_call q epoch p t lim = Ok q' →
  w' ≠ _current_window epoch (window_seconds lim) →
  s = p_scope p ∨ s = t_scope t → used_in q' w' s = 0.
Proof.
  intros Hc Hw Hs. unfold charge_provider_call in Hc. inv_result.
  repeat match goal with Ho : open_scope_row _ _ _ _ = Ok _ |- _ =>
    apply open_scope_row_ok in Ho as (? & ? & ?) end.
  unfold used_in. destruct Hs as [->| ->].
  - rewrite lookup_insert_ne by (by apply not_eq_sym, scopes_differ). rewrite lookup_insert_eq. cbn.
    rewrite (proj2 (Z.eqb_neq _ _)) by congruence. done.
  - rewrite lookup_insert_eq. cbn. rewrite (proj2 (Z.eqb_neq _ _)) by congruence. done.
Qed.

(** ** A history of charges

    [charge_all] runs charge transactions one after the other; a refused one
    leaves the table as it was.  The result pairs each request with its outcome. *)

Record charge := { at_epoch : Z; by_principal : string; of_tenant : string }.

Fixpoint charge_all (lim : QuotaLimits) (q : gmap string ProviderQuota.t) (l : list charge)
    : list (charge * bool) :=
  match l with
  | [] => []
  | c :: l' =>
      match charge_provider_call q (at_epoch c) (by_principal c) (of_tenant c) lim with
      | Ok q' => (c, true) :: charge_all lim q' l'
      | Err _ => (c, false) :: charge_all lim q l'
      end
  end.

(** The accepted charges of a history that fall in window [w] and satisfy [P]. *)
Definition accepted_in (lim : QuotaLimits) (w : Z) (P : charge → bool)
    (h : list (charge * bool)) : Z :=
  Z.of_nat (length (filter
    (λ cb : charge * bool,
      cb.2 = true ∧ _current_window (at_epoch cb.1) (window_seconds lim) = w ∧ P cb.1 = true) h)).

Lemma accepted_in_cons lim w P c b h :
  accepted_in lim w P ((c, b) :: h)
  = (if bool_decide (b = true ∧ _current_window (at_epoch c) (window_seconds lim) = w
                     ∧ P c = true) then 1 else 0) + accepted_in lim w P h.
Proof.
  unfold accepted_in. rewrite filter_cons. cbn [fst snd].
  case_decide; [rewrite bool_decide_true by done; cbn [length]; lia|].
  rewrite bool_decide_false by done. lia.
Qed.

(** The table holds no row of a window after [w]. *)
Definition no_later_window (w : Z) (q : gmap string ProviderQuota.t) : Prop :=
  map_Forall (λ _ row, ProviderQuota.window_start row ≤ w) q.

(** The clock does not go back. *)
Definition clock_order : list charge → Prop := StronglySorted (λ c c', at_epoch c ≤ at_epoch c').

Lemma _current_window_mono s e e' : 0 < s → e ≤ e' → _current_window e s ≤ _current_window e' s.
Proof. intros. unfold _current_window. apply Z.mul_le_mono_nonneg_r; [lia|]. by apply Z.div_le_mono. Qed.

Lemma used_in_future q w w' s : no_later_window w q → w < w' → used_in q w' s = 0.
Proof.
  intros Hq Hw. unfold used_in. destruct (q !! s) as [row|] eqn:E; [|done].
  apply Hq in E. cbn in E. rewrite (proj2 (Z.eqb_neq _ _)); lia.
Qed.

Lemma charge_no_later q epoch p t lim q' :
  charge_provider_call q epoch p t lim = Ok q' →
  no_later_window (_current_window epoch (window_seconds lim)) q →
  no_later_window (_current_window epoch (window_seconds lim)) q'.
Proof.
  intros Hc Hq. unfold charge_provider_call in Hc. inv_result.
  repeat match goal with Ho : open_scope_row _ _ _ _ = Ok _ |- _ =>
    apply open_scope_row_ok in Ho as (? & ? & ?) end.
  do 2 (apply map_Forall_insert_2; [cbn; lia|]). done.
Qed.

(** One scope of a history: [key_of] is the identity a charge counts against,
    [scope] names its row and [limit] is its budget; the principal and the tenant
    are the two instances. *)
Section OneScope.
Context (lim : QuotaLimits) (key_of : charge → string) (scope : string → string) (limit : Z).
Context (Hwin : 0 < window_seconds lim) (Hinj : Inj (=) (=) scope).
Context (Hcharge : ∀ q c q',
  charge_provider_call q (at_epoch c) (by_principal c) (of_tenant c) lim = Ok q' →
  let w := _current_window (at_epoch c) (window_seconds lim) in
  used_in q w (scope (key_of c)) < limit
  ∧ used_in q' w (scope (key_of c)) = used_in q w (scope (key_of c)) + 1
  ∧ (∀ w', w' ≠ w → used_in q' w' (scope (key_of c)) = 0)
  ∧ ∀ k w', k ≠ key_of c → used_in q' w' (scope k) = used_in q w' (scope k)).

Lemma accepted_after w P e l : w < _current_window e (window_seconds lim) →
  Forall (λ c, e ≤ at_epoch c) l → ∀ q, accepted_in lim w P (charge_all lim q l) = 0.
Proof.
  intros Hw. induction 1 as [|c l Hc Hl IH]; intros q; [done|]. cbn.
  pose proof (_current_window_mono _ _ _ Hwin Hc).
  case_match; rewrite accepted_in_cons, IH, bool_decide_false; try done; intros (? & ? & _); lia || done.
Qed.

Lemma accepted_bounded w k l :
  clock_order l → ∀ q e, Forall (λ c, e ≤ at_epoch c) l →
  no_later_window (_current_window e (window_seconds lim)) q →
  accepted_in lim w (λ c, bool_decide (key_of c = k)) (charge_all lim q l)
  ≤ Z.max 0 (limit - used_in q w (scope k)).
Proof.
  induction 1 as [|c l Hl IH Hc]; intros q e He Hq; [apply Z.le_max_l|].
  apply Forall_cons in He as [Hec Hel].
  assert (no_later_window (_current_window (at_epoch c) (window_seconds lim)) q) as Hq'.
  { eapply map_Forall_impl; [exact Hq|]. intros ? ? ?. cbn in *.
    etrans; [done|]. by apply _current_window_mono. }
  cbn [charge_all].
  destruct (charge_provider_call q (at_epoch c) (by_principal c) (of_tenant c) lim) as [q'|x] eqn:E.
  2: { rewrite accepted_in_cons, bool_decide_false by naive_solver. eapply IH; eauto. }
  pose proof (charge_no_later _ _ _ _ _ _ E Hq') as Hq2.
  pose proof (IH _ _ Hc Hq2) as Hi.
  apply Hcharge in E as (Hlt & Hplus & Hother & Hsame). rewrite accepted_in_cons.
  destruct (decide (key_of c = k)) as [<-|Hne].
  - destruct (decide (_current_window (at_epoch c) (window_seconds lim) = w)) as [Hw|Hw].
    + rewrite bool_decide_true; [subst w; lia|]. split_and!; [done..|]. by apply bool_decide_true.
    + rewrite bool_decide_false by naive_solver. rewrite Hother in Hi by done.
      destruct (Z.lt_ge_cases w (_current_window (at_epoch c) (window_seconds lim))).
      * erewrite accepted_after by eauto. lia.
      * rewrite (used_in_future _ _ _ _ Hq') by lia. lia.
  - rewrite bool_decide_false; [|intros (_ & _ & Hd); by apply bool_decide_eq_true in Hd].
    rewrite Hsame in Hi by done. lia.
Qed.

Lemma key_within_budget w k l :
  0 ≤ limit → clock_order l →
  accepted_in lim w (λ c, bool_decide (key_of c = k)) (charge_all lim ∅ l) ≤ limit.
Proof.
  intros H0 Hl.
  assert (∃ e, Forall (λ c, e ≤ at_epoch c) l) as [e He].
  { destruct Hl as [|c l' _ Hc]; [by exists 0|]. exists (at_epoch c). by constructor. }
  etrans; [eapply accepted_bounded; eauto; apply map_Forall_empty|].
  unfold used_in. rewrite lookup_empty. lia.
Qed.
End OneScope.

(** Provider-call budgets hold over any history: however principals and tenants
    interleave their calls, as long as the database clock does not go back, the calls
    accepted in one quota window never exceed [principal_calls] for a principal nor
    [tenant_calls] for a tenant. *)
Theorem provider_calls_within_budget lim l w p t :
  0 < window_seconds lim → 0 ≤ principal_calls lim → 0 ≤ tenant_calls lim → clock_order l →
  let h := charge_all lim ∅ l in
  accepted_in lim w (λ c, bool_decide (by_principal c = p)) h ≤ principal_calls lim
  ∧ accepted_in lim w (λ c, bool_decide (of_tenant c = t)) h ≤ tenant_calls lim.
Proof.
  intros Hwin Hp Ht Hl h. split.
  - apply (key_within_budget lim by_principal p_scope); [done| |done..].
    intros q c q' Hc. pose proof (charge_used _ _ _ _ _ _ Hc) as (? & ? & ? & ? & Hs).
    split_and!; [done..| |].
    + intros w' Hw. eapply charge_used_other; eauto.
    + intros k w' Hne. apply Hs; [by intros ?%p_scope_inj|apply scopes_differ].
  - apply (key_within_budget lim of_tenant t_scope); [done| |done..].
    intros q c q' Hc. pose proof (charge_used _ _ _ _ _ _ Hc) as (? & ? & ? & ? & Hs).
    split_and!; [done..| |].
    + intros w' Hw. eapply charge_used_other; eauto.
    + intros k w' Hne. apply Hs; [apply not_eq_sym, scopes_differ|by intros ?%t_scope_inj].
Qed.

Definition sample_charges : list charge :=
  [ {| at_epoch := 10; by_principal := "alice"; of_tenant := "acme" |};
    {| at_epoch := 20; by_principal := "bob"; of_tenant := "acme" |};
    {| at_epoch := 30; by_principal := "alice"; of_tenant := "acme" |};
    {| at_epoch := 3700; by_principal := "alice"; of_tenant := "acme" |} ].
Definition tight_limits : QuotaLimits :=
  {| principal_active := 1; tenant_active := 2; principal_calls := 1; tenant_calls := 2;
     window_seconds := 3600; principal_running := 1; tenant_running := 2 |}.

(** Alice's second call of the first window is refused, the next window opens again. *)
Lemma provider_calls_within_budget_witness :
  (charge_all tight_limits ∅ sample_charges).*2 = [true; true; false; true]
  ∧ accepted_in tight_limits 0 (λ c, bool_decide (by_principal c = "alice"))
      (charge_all tight_limits ∅ sample_charges) ≤ 1
  ∧ accepted_in tight_limits 0 (λ c, bool_decide (of_tenant c = "acme"))
      (charge_all tight_limits ∅ sample_charges) ≤ 2.
Proof.
  split; [by vm_compute|].
  apply (provider_calls_within_budget tight_limits sample_charges); cbn; [lia..|].
  repeat constructor; cbn; lia.
Defined.

Lemma charge_is_ok q epoch p t lim :
  let w := _current_window epoch (window_seconds lim) in
  is_ok (charge_provider_call q epoch p t lim)
  = (used_in q w (p_scope p) <? principal_calls lim) && (used_in q w (t_scope t) <? tenant_calls lim).
Proof.
  intros w. unfold charge_provider_call. fold w. rewrite <- !open_scope_row_err.
  destruct (open_scope_row q w (p_scope p) _); [|done]. cbn.
  by destruct (open_scope_row q w (t_scope t) _).
Qed.

Lemma check_scope_is_ok q w s l :
  0 < l → is_ok (check_scope q w s l) = (used_in q w s <? l).
Proof.
  intros Hl. unfold check_scope, used_in. destruct (q !! s) as [r|]; cbn;
    [destruct (ProviderQuota.window_start r =? w); cbn; [case_match; bool_to_prop; cbn|]|];
    symmetry; apply Z.ltb_lt || apply Z.ltb_ge; lia.
Qed.

(** The admission check agrees with the authoritative charge: on the same table and
    at the same instant [check_provider_budget] admits exactly when
    [charge_provider_call] would succeed, and both refuse with the same exception. *)
Theorem admission_check_agrees_with_charge q epoch p t lim :
  0 < principal_calls lim → 0 < tenant_calls lim →
  is_ok (check_provider_budget q epoch p t lim) = is_ok (charge_provider_call q epoch p t lim)
  ∧ (∀ e, check_provider_budget q epoch p t lim = Err e ↔ charge_provider_call q epoch p t lim = Err e).
Proof.
  intros Hp Ht.
  assert (is_ok (check_provider_budget q epoch p t lim)
          = is_ok (charge_provider_call q epoch p t lim)) as Heq.
  { rewrite charge_is_ok. unfold check_provider_budget. rewrite <- !check_scope_is_ok by done.
    destruct (check_scope q _ (p_scope p) _); [|done]. done. }
  split; [done|]. intros e.
  assert (∀ A (r : result A), is_ok r = false ↔ ∃ e, r = Err e) as Hnot.
  { intros A [a|x]; cbn; naive_solver. }
  assert (∀ x, check_provider_budget q epoch p t lim = Err x → x = quota_exceeded) as H1.
  { unfold check_provider_budget, check_scope. intros x Hx. repeat split_match_in Hx; naive_solver. }
  assert (∀ x, charge_provider_call q epoch p t lim = Err x → x = quota_exceeded) as H2.
  { unfold charge_provider_call, open_scope_row. intros x Hx. repeat split_match_in Hx; naive_solver. }
  split; intros He.
  - destruct (proj1 (Hnot _ (charge_provider_call q epoch p t lim))) as [x Hx].
    { rewrite <- Heq. apply Hnot. eauto. }
    rewrite Hx. f_equal. rewrite (H2 _ Hx). symmetry. eauto.
  - destruct (proj1 (Hnot _ (check_provider_budget q epoch p t lim))) as [x Hx].
    { rewrite Heq. apply Hnot. eauto. }
    rewrite Hx. f_equal. rewrite (H1 _ Hx). symmetry. eauto.
Qed.

Lemma admission_check_agrees_with_charge_witness :
  is_ok (check_provider_budget ∅ 10 "alice" "acme" default_limits)
  = is_ok (charge_provider_call ∅ 10 "alice" "acme" default_limits)
  ∧ (∀ e, check_provider_budget ∅ 10 "alice" "acme" default_limits = Err e
          ↔ charge_provider_call ∅ 10 "alice" "acme" default_limits = Err e).
Proof. apply (admission_check_agrees_with_charge ∅ 10 "alice" "acme" default_limits); cbn; lia. Defined.

(** ** Identity locks

    A transaction that has taken the first [held] of its two identity locks. *)

Record locker := { l_principal : string; l_tenant : string; held : nat }.
Definition lock_order (x : locker) : list string := lock_identity (l_principal x) (l_tenant x).

(** [x] waits for a lock [y] holds. *)
Definition blocked_by (x y : locker) : Prop :=
  ∃ lock, lock_order x !! held x = Some lock ∧ lock ∈ take (held y) (lock_order y).

Lemma lock_identity_order p t : lock_identity p t = [p_scope p; t_scope t].
Proof. done. Qed.

Lemma blocked_by_held x y : blocked_by x y → (held x < held y)%nat.
Proof.
  unfold blocked_by, lock_order. rewrite !lock_identity_order. intros (lock & Hx & Hy).
  apply list_elem_of_lookup in Hy as [i Hi]. apply lookup_take_Some in Hi as [Hi Hlt].
  assert (i = held x) as ->; [|lia].
  destruct (held x) as [|[|?]], i as [|[|?]]; cbn in *; simplify_eq; try done;
    exfalso; first [by eapply scopes_differ | by eapply not_eq_sym, scopes_differ].
Qed.

(** [lock_identity] cannot deadlock: because every transaction takes its two
    identity locks in sorted order, no cycle of transactions, of any length and over any
    principals and tenants, can wait for each other's identity locks. *)
Theorem identity_locks_acyclic x : ¬ tc blocked_by x x.
Proof.
  assert (∀ y z, tc blocked_by y z → (held y < held z)%nat) as Htc.
  { induction 1 as [y z ?%blocked_by_held|y y' z ?%blocked_by_held ? IH]; lia. }
  intros ?%Htc. lia.
Qed.
