(* ===== verification/Canonical.v ===== *)
(** * Canonical request text

    [canonical_request_hash] of [src/src/agent_runtime/application/runs.py]:
    [json.dumps] with sorted keys, compact separators and non-ASCII characters
    kept, encoded in UTF-8 and hashed.  The theorems relate the canonical text to
    [same_json], equality of JSON values up to the order of object keys. *)

From S2P Require Import Prelude Float64 PyValue Models.
From Stdlib Require Import DecimalString DecimalZ.
Local Open Scope Z_scope.

Abbreviation chars := (list Ascii.ascii).
Local Notation "« s »" := (Text.to_list s) (at level 0, format "« s »").

(** ** [json.dumps] *)

Definition quote : Ascii.ascii := Ascii.ascii_of_nat 34.
Definition backslash : Ascii.ascii := Ascii.ascii_of_nat 92.

Definition hex_digit (n : Z) : Ascii.ascii :=
  Ascii.ascii_of_N (Z.to_N (if n <? 10 then 48 + n else 87 + n)).

(** One character of a JSON string, [ensure_ascii=False]: the short escapes,
    [\u00xx] for the other control characters, anything else as it is. *)
Definition escape_char (c : Ascii.ascii) : chars :=
  let z := Text.code c in
  if z =? 34 then [backslash; quote]
  else if z =? 92 then [backslash; backslash]
  else if z =? 10 then backslash :: «"n"»
  else if z =? 13 then backslash :: «"r"»
  else if z =? 9 then backslash :: «"t"»
  else if z =? 12 then backslash :: «"f"»
  else if z =? 8 then backslash :: «"b"»
  else if z <? 32 then backslash :: «"u00"» ++ [hex_digit (z / 16); hex_digit (z mod 16)]
  else [c].

Definition dumps_str (s : string) : chars := quote :: (« s » ≫= escape_char) ++ [quote].

(** [int.__repr__]. *)
Definition int_repr (z : Z) : chars := «NilEmpty.string_of_int (Z.to_int z)».

Section Dumps.
Context `{FloatRepr}.

Definition dumps_num (n : num) : chars :=
  match n with
  | NInt z => int_repr z
  | NFloat (Fin m) => «repr_float (Fin m)»
  | NFloat PInf => «"Infinity"»
  | NFloat NInf => «"-Infinity"»
  | NFloat NaN => «"NaN"»
  end.

Definition key_lt (x y : string * chars) : bool :=
  cmp_lt (lex_cmp Z.compare) (Text.code <$> «x.1») (Text.code <$> «y.1»).

(** [separators=(",", ":")]. *)
Fixpoint join_commas (l : list chars) : chars :=
  match l with
  | [] => []
  | [x] => x
  | x :: l' => x ++ «","» ++ join_commas l'
  end.

Definition dumps_member (kv : string * chars) : chars := dumps_str kv.1 ++ «":"» ++ kv.2.

Fixpoint dumps (v : json) : chars :=
  match v with
  | JNull => «"null"»
  | JBool true => «"true"»
  | JBool false => «"false"»
  | JNum n => dumps_num n
  | JStr s => dumps_str s
  | JArr l => «"["» ++ join_commas (map dumps l) ++ «"]"»
  | JObj d =>
      «"{"» ++ join_commas (dumps_member <$> sort_by key_lt (map (λ kv, (kv.1, dumps kv.2)) d))
      ++ «"}"»
  end.
End Dumps.

(** [str.encode("utf-8")] of code points below 256. *)
Definition utf8_char (c : Ascii.ascii) : chars :=
  let z := Text.code c in
  if z <? 128 then [c]
  else [Ascii.ascii_of_N (Z.to_N (192 + z / 64)); Ascii.ascii_of_N (Z.to_N (128 + z mod 64))].
Definition utf8 (l : chars) : chars := l ≫= utf8_char.

Definition canonical_payload `{FloatRepr} (input_payload policy_snapshot : dict) : chars :=
  utf8 (dumps (JObj [("input", JObj input_payload); ("policy", JObj policy_snapshot)])).

Definition canonical_request_hash `{Host} (input_payload policy_snapshot : dict) : string :=
  sha256_hex (Text.of_list (canonical_payload input_payload policy_snapshot)).

(** ** Equality up to the order of keys *)

Inductive same_json : json → json → Prop :=
| same_null : same_json JNull JNull
| same_bool b : same_json (JBool b) (JBool b)
| same_num n : same_json (JNum n) (JNum n)
| same_str s : same_json (JStr s) (JStr s)
| same_arr l l' : Forall2 same_json l l' → same_json (JArr l) (JArr l')
| same_obj d d1 d' :
    d ≡ₚ d1 → Forall2 (λ x y, x.1 = y.1 ∧ same_json x.2 y.2) d1 d' → same_json (JObj d) (JObj d').

(** Every object in the value has distinct keys. *)
Fixpoint json_wf (v : json) : Prop :=
  match v with
  | JArr l => foldr (λ x P, json_wf x ∧ P) True l
  | JObj d => dict_wf d ∧ foldr (λ kv P, json_wf kv.2 ∧ P) True d
  | _ => True
  end.

(** What the theorems rely on of [float.__repr__]: the text of a finite float
    determines it, uses the characters of a number, and is not the text of an
    integer. *)
Definition number_char (c : Ascii.ascii) : bool :=
  bool_decide (c ∈ «"0123456789.e+-"»).
Class FloatReprLaws `{FloatRepr} := {
  repr_float_inj m m' : repr_float (Fin m) = repr_float (Fin m') → m = m';
  repr_float_chars m : Forall (λ c, number_char c = true) «repr_float (Fin m)»;
  repr_float_dot m : Exists (λ c, c ∈ «".e"») «repr_float (Fin m)»;
}.

(** ** Sorting by distinct keys *)

Lemma code_inj c c' : Text.code c = Text.code c' → c = c'.
Proof.
  unfold Text.code. intros Heq%N2Z.inj.
  by rewrite <- (Ascii.ascii_N_embedding c), Heq, Ascii.ascii_N_embedding.
Qed.

Lemma lex_cmp_eq l l' : lex_cmp Z.compare l l' = Eq → l = l'.
Proof.
  revert l'. induction l as [|x l IH]; intros [|y l']; cbn; try done.
  destruct (Z.compare_spec x y); try done. intros ?%IH. by subst.
Qed.

Lemma key_cmp_eq (s t : string) :
  lex_cmp Z.compare (Text.code <$> «s») (Text.code <$> «t») = Eq → s = t.
Proof.
  intros Heq%lex_cmp_eq. apply (list_fmap_eq_inj _) in Heq; [|intros ??; apply code_inj].
  by rewrite <- (Text.of_to_list s), Heq, Text.of_to_list.
Qed.

Lemma sort_keys_unique l l' :
  NoDup l.*1 → l ≡ₚ l' → sort_by key_lt l = sort_by key_lt l'.
Proof.
  intros Hnd Hp.
  assert (∀ l0, StronglySorted (not_after key_lt) (sort_by key_lt l0)) as Hs.
  { intros l0. eapply (sort_by_sorted key_lt (λ x, Forall (λ _, True) (Text.code <$> «x.1»))).
    apply Forall_true. intros. by apply Forall_true. }
  apply (StronglySorted_unique_strong (not_after key_lt)); [|done..|].
  - intros x y Hx Hy H1 H2. rewrite sort_by_perm in Hx. rewrite sort_by_perm, <- Hp in Hy.
    assert (x.1 = y.1) as Hk.
    { apply key_cmp_eq. unfold not_after, key_lt, cmp_lt in H1, H2.
      pose proof (cmp_antisym (lex_cmp Z.compare) (Forall (λ _, True)) (Text.code <$> «x.1»)
        (Text.code <$> «y.1»)) as Ha.
      rewrite Ha in H1 by (by apply Forall_true).
      by destruct (lex_cmp _ _ _). }
    apply list_elem_of_lookup in Hx as [i Hi], Hy as [j Hj].
    assert (i = j) as ->; [|congruence].
    eapply (NoDup_lookup l.*1); [done|by rewrite list_lookup_fmap, Hi|].
    rewrite list_lookup_fmap, Hj. cbn. by rewrite Hk.
  - by rewrite !sort_by_perm.
Qed.

Lemma json_wf_arr l : json_wf (JArr l) → Forall json_wf l.
Proof. cbn. induction l; cbn; [done|]. intros [??]. constructor; auto. Qed.
Lemma json_wf_obj d : json_wf (JObj d) → dict_wf d ∧ Forall (λ kv, json_wf kv.2) d.
Proof. cbn. intros [? Hd]. split; [done|]. induction d; cbn in *; [done|]. 
  destruct Hd. constructor; [done|]. apply IHd; [by eapply NoDup_cons_1_2|done]. Qed.

Lemma same_dumps `{FloatRepr} v : ∀ w, same_json v w → json_wf v → dumps v = dumps w.
Proof.
  induction v as [| | | |l IH|d IH] using json_rect'; intros w Hs Hwf; inversion Hs; subst; try done.
  - cbn. do 2 f_equal. f_equal. apply json_wf_arr in Hwf.
    match goal with Hl : Forall2 _ _ _ |- _ => induction Hl as [|x y l l' Hxy Hl IHl] end; [done|].
    apply Forall_cons in IH as [IHx IH]. apply Forall_cons in Hwf as [Hwx Hwf].
    cbn. f_equal; [by apply IHx|]. apply IHl; [done|by constructor|done].
  - cbn. do 4 f_equal. apply json_wf_obj in Hwf as [Hnd Hwf].
    match goal with Hp : d ≡ₚ ?x |- _ => rename x into d1; rename Hp into Hperm end.
    transitivity (sort_by key_lt (map (λ kv : string * json, (kv.1, dumps kv.2)) d1)).
    { apply sort_keys_unique; [|by apply Permutation_map].
      unfold dict_wf, dkeys in Hnd. revert Hnd. clear.
      rewrite <- list_fmap_compose. done. }
    f_equal. rewrite Hperm in IH, Hwf.
    match goal with Hl : Forall2 _ _ _ |- _ => revert IH Hwf; clear - Hl; induction Hl as [|x y l l' Hxy Hl IHl] end; [done|].
    intros [IHx IH]%Forall_cons [Hwx Hwf]%Forall_cons. destruct Hxy as [Hk Hv].
    cbn. f_equal; [|by apply IHl]. by rewrite Hk, (IHx _ Hv).
Qed.

(** ** The canonical text determines the value *)

(** A decoder of one escaped character, the inverse of [escape_char]. *)
Definition hex_value (c : Ascii.ascii) : Z :=
  let z := Text.code c in if z <? 58 then z - 48 else z - 87.
Definition unescape (l : chars) : option (Ascii.ascii * chars) :=
  match l with
  | [] => None
  | c :: l1 =>
      if negb (Text.code c =? 92) then Some (c, l1)
      else match l1 with
      | [] => None
      | e :: l2 =>
          let z := Text.code e in
          if (z =? 117) then
            match l2 with
            | _ :: _ :: h :: l :: l3 =>
                Some (Ascii.ascii_of_N (Z.to_N (16 * hex_value h + hex_value l)), l3)
            | _ => None
            end
          else if z =? 110 then Some (Ascii.ascii_of_nat 10, l2)
          else if z =? 114 then Some (Ascii.ascii_of_nat 13, l2)
          else if z =? 116 then Some (Ascii.ascii_of_nat 9, l2)
          else if z =? 102 then Some (Ascii.ascii_of_nat 12, l2)
          else if z =? 98 then Some (Ascii.ascii_of_nat 8, l2)
          else Some (e, l2)
      end
  end.

Lemma unescape_escape c r : unescape (escape_char c ++ r) = Some (c, r).
Proof. destruct c as [[] [] [] [] [] [] [] []]; reflexivity. Qed.

Lemma escape_char_head c r r' : escape_char c ++ r ≠ quote :: r'.
Proof. destruct c as [[] [] [] [] [] [] [] []]; discriminate. Qed.

(** A string between quotes ends where it seems to, whatever decodable escapes it uses. *)
Lemma quoted_inj (esc : Ascii.ascii → chars) (s s' : string) (r r' : chars) :
  (∀ c r, unescape (esc c ++ r) = Some (c, r)) → (∀ c r r', esc c ++ r ≠ quote :: r') →
  (quote :: («s» ≫= esc) ++ [quote]) ++ r = (quote :: («s'» ≫= esc) ++ [quote]) ++ r' → s = s' ∧ r = r'.
Proof.
  intros Hun Hhead. cbn. rewrite <- !app_assoc. intros [= Heq].
  enough («s» = «s'» ∧ r = r') as [Hs ->].
  { by rewrite <- (Text.of_to_list s), Hs, Text.of_to_list. }
  revert Heq. generalize «s» as l, «s'» as l'. induction l as [|c l IH]; intros [|c' l']; cbn.
  - naive_solver.
  - rewrite <- app_assoc. by intros ?%eq_sym%Hhead.
  - rewrite <- app_assoc. by intros ?%Hhead.
  - rewrite <- !app_assoc. intros Heq. apply (f_equal unescape) in Heq.
    rewrite !Hun in Heq. injection Heq as -> Heq. naive_solver.
Qed.

Lemma dumps_str_inj s s' r r' :
  dumps_str s ++ r = dumps_str s' ++ r' → s = s' ∧ r = r'.
Proof. apply quoted_inj; [apply unescape_escape|apply escape_char_head]. Qed.

Definition delim_char (c : Ascii.ascii) : bool := bool_decide (c ∈ «",]}"»).
Definition delim (r : chars) : Prop := match r with [] => True | c :: _ => delim_char c = true end.

Lemma split_at_delim t t' r r' :
  Forall (λ c, delim_char c = false) t → Forall (λ c, delim_char c = false) t' →
  delim r → delim r' → t ++ r = t' ++ r' → t = t' ∧ r = r'.
Proof.
  intros Ht. revert t'. induction Ht as [|c t Hc Ht IH]; intros t' Ht' Hr Hr' Heq;
    destruct Ht' as [|c' t' Hc' Ht']; cbn in *.
  - done.
  - subst r. cbn in Hr. congruence.
  - subst r'. cbn in Hr'. congruence.
  - injection Heq as -> Heq. by destruct (IH t' Ht' Hr Hr' Heq) as [-> ->].
Qed.

Lemma number_char_not_delim c : number_char c = true → delim_char c = false.
Proof. by destruct c as [[] [] [] [] [] [] [] []]. Qed.

Section Join.
Context {A B} (f : A → chars) (g : B → chars) (R : A → B → Prop) (cl : Ascii.ascii).
Context (Hcl : delim_char cl = true) (Hcomma : cl ≠ Ascii.ascii_of_nat 44).
Context (Hf : ∀ x, ∃ c t, f x = c :: t ∧ delim_char c = false).
Context (Hg : ∀ y, ∃ c t, g y = c :: t ∧ delim_char c = false).

Lemma join_commas_cons x (l : list chars) :
  join_commas (x :: l) = x ++ (l ≫= λ y, «","» ++ y).
Proof.
  revert x. induction l as [|y l IH]; intros x; [cbn; by rewrite app_nil_r|].
  change (join_commas (x :: y :: l)) with (x ++ «","» ++ join_commas (y :: l)).
  by rewrite IH.
Qed.

Definition separable (x : A) : Prop := ∀ y r r',
  f x ++ r = g y ++ r' → delim r → delim r' → R x y ∧ r = r'.

Lemma tails_delim {C} (h : C → chars) (l : list C) r :
  delim ((map h l ≫= λ y, «","» ++ y) ++ cl :: r).
Proof. by destruct l. Qed.

Lemma tails_inj l : Forall separable l → ∀ l' r r',
  (map f l ≫= λ y, «","» ++ y) ++ cl :: r = (map g l' ≫= λ y, «","» ++ y) ++ cl :: r' →
  Forall2 R l l' ∧ r = r'.
Proof.
  induction 1 as [|x l Hx Hl IH]; intros [|y l'] r r'; cbn.
  - intros [= ->]. by split; [constructor|].
  - intros [= Hc _]. done.
  - intros [= Hc _]. by subst cl.
  - intros [= Heq]. rewrite <- !app_assoc in Heq.
    destruct (Hx _ _ _ Heq (tails_delim _ _ _) (tails_delim _ _ _)) as [HR Heq'].
    apply IH in Heq' as [HRl ->]. by split; [constructor|].
Qed.

Lemma join_inj l : Forall separable l → ∀ l' r r',
  join_commas (map f l) ++ cl :: r = join_commas (map g l') ++ cl :: r' → Forall2 R l l' ∧ r = r'.
Proof.
  intros Hl l' r r'. destruct Hl as [|x l Hx Hl], l' as [|y l']; cbn [map].
  - intros [= ->]. by split; [constructor|].
  - rewrite join_commas_cons, <- app_assoc. destruct (Hg y) as (c & t & -> & Hc).
    intros [= -> _]. congruence.
  - rewrite join_commas_cons, <- app_assoc. destruct (Hf x) as (c & t & -> & Hc).
    intros [= -> _]. congruence.
  - rewrite !join_commas_cons, <- !app_assoc. intros Heq.
    destruct (Hx _ _ _ Heq (tails_delim _ _ _) (tails_delim _ _ _)) as [HR Heq'].
    destruct (tails_inj _ Hl _ _ _ Heq') as [HRl ->]. by split; [constructor|].
Qed.
End Join.

Section Injective.
Context `{FloatReprLaws}.

Lemma int_repr_digits z : Forall (λ c, number_char c = true ∧ c ∉ «".e"») (int_repr z).
Proof.
  assert (∀ u, Forall (λ c, number_char c = true ∧ c ∉ «".e"») «NilEmpty.string_of_uint u») as Hu.
  { induction u; cbn [NilEmpty.string_of_uint Text.to_list]; constructor; try done;
      (split; [done|by apply (bool_decide_unpack _)]). }
  unfold int_repr. destruct (Z.to_int z); cbn [NilEmpty.string_of_int Text.to_list]; [done|].
  constructor; [|done]. split; [done|by apply (bool_decide_unpack _)].
Qed.

Lemma int_repr_inj z z' : int_repr z = int_repr z' → z = z'.
Proof.
  unfold int_repr. intros Heq. apply (f_equal Text.of_list) in Heq. rewrite !Text.of_to_list in Heq.
  apply (f_equal NilEmpty.int_of_string) in Heq. rewrite !NilEmpty.isi in Heq.
  apply to_int_inj. congruence.
Qed.

Lemma int_repr_cons z : ∃ c t, int_repr z = c :: t.
Proof.
  destruct (int_repr z) as [|c t] eqn:E; [|eauto].
  destruct (decide (z = 0)) as [->|Hz]; [done|]. exfalso.
  assert (int_repr z ++ [] = []) as Hnil by (by rewrite E).
  unfold int_repr, Z.to_int in E. destruct z as [|p|p]; cbn in E; [done| |done].
  pose proof (DecimalPos.Unsigned.to_uint_nonnil p). destruct (Pos.to_uint p); done.
Qed.

Lemma repr_not_int m z : «repr_float (Fin m)» ≠ int_repr z.
Proof.
  intros Heq. pose proof (repr_float_dot m) as Hd. rewrite Heq in Hd.
  apply Exists_exists in Hd as (c & Hin & Hc).
  pose proof (int_repr_digits z) as Hz. rewrite Forall_forall in Hz. by apply Hz in Hin as [_ ?].
Qed.

Lemma dumps_num_inj n n' : dumps_num n = dumps_num n' → n = n'.
Proof.
  assert (∀ z t, ¬ Forall (λ c, number_char c = true) t → int_repr z ≠ t) as Hi.
  { intros z t Ht <-. apply Ht. eapply Forall_impl; [apply int_repr_digits|]. by intros ? []. }
  assert (∀ m t, ¬ Forall (λ c, number_char c = true) t → «repr_float (Fin m)» ≠ t) as Hr.
  { intros m t Ht <-. apply Ht, repr_float_chars. }
  assert (¬ Forall (λ c, number_char c = true) «"Infinity"»
          ∧ ¬ Forall (λ c, number_char c = true) «"-Infinity"»
          ∧ ¬ Forall (λ c, number_char c = true) «"NaN"») as (H1 & H2 & H3).
  { split_and!; apply (bool_decide_unpack _); by vm_compute. }
  destruct n as [z|[m| | |]], n' as [z'|[m'| | |]]; cbn [dumps_num]; intros Heq; try done;
    first [ exfalso; first
              [ by eapply Hi, Heq | by eapply Hi, eq_sym, Heq
              | by eapply Hr, Heq | by eapply Hr, eq_sym, Heq
              | exact (repr_not_int _ _ Heq) | exact (repr_not_int _ _ (eq_sym Heq)) ]
          | idtac ].
  - by rewrite (int_repr_inj _ _ Heq).
  - apply (f_equal Text.of_list) in Heq. rewrite !Text.of_to_list in Heq.
    by rewrite (repr_float_inj _ _ Heq).
Qed.

Lemma dumps_num_chars n : Forall (λ c, delim_char c = false) (dumps_num n).
Proof.
  destruct n as [z|[m| | |]]; cbn [dumps_num]; try (by repeat constructor).
  - eapply Forall_impl; [apply int_repr_digits|]. intros c [? _]. by apply number_char_not_delim.
  - eapply Forall_impl; [apply repr_float_chars|]. apply number_char_not_delim.
Qed.

(** The first character of a number. *)
Definition number_head (c : Ascii.ascii) : bool := number_char c || bool_decide (c ∈ «"IN"»).

Lemma dumps_num_head n : ∃ c t, dumps_num n = c :: t ∧ number_head c = true.
Proof.
  unfold number_head. destruct n as [z|[m| | |]]; cbn [dumps_num]; try (by eexists _, _).
  - destruct (int_repr_cons z) as (c & t & Heq). pose proof (int_repr_digits z) as Hd.
    rewrite Heq in Hd |- *. inversion Hd as [|? ? [Hc _] ?]. exists c, t. by rewrite Hc.
  - pose proof (repr_float_dot m) as Hd. pose proof (repr_float_chars m) as Hc.
    destruct «repr_float (Fin m)» as [|c t]; [by inversion Hd|].
    inversion Hc as [|? ? Hc0 ?]. exists c, t. by rewrite Hc0.
Qed.

(** The constructor of a value is read off the first character of its text. *)
Definition head_kind (v : json) (c : Ascii.ascii) : Prop :=
  match v with
  | JNull => c = Ascii.ascii_of_nat 110
  | JBool true => c = Ascii.ascii_of_nat 116
  | JBool false => c = Ascii.ascii_of_nat 102
  | JNum _ => number_head c = true
  | JStr _ => c = quote
  | JArr _ => c = Ascii.ascii_of_nat 91
  | JObj _ => c = Ascii.ascii_of_nat 123
  end.

Lemma dumps_head v : ∃ c t, dumps v = c :: t ∧ head_kind v c.
Proof.
  destruct v as [|[]| | | |]; try (by eexists _, _). apply dumps_num_head.
Qed.

Lemma head_kind_not_delim v c : head_kind v c → delim_char c = false.
Proof.
  destruct v as [|[]| | | |]; cbn; try (by intros ->).
  by destruct c as [[] [] [] [] [] [] [] []].
Qed.

Lemma dumps_nonempty v : ∃ c t, dumps v = c :: t ∧ delim_char c = false.
Proof.
  destruct (dumps_head v) as (c & t & Heq & Hk). exists c, t.
  split; [done|]. by eapply head_kind_not_delim.
Qed.

Definition member (kv : string * json) : chars := dumps_member (kv.1, dumps kv.2).

Lemma dumps_obj d : ∃ d1, d ≡ₚ d1 ∧ dumps (JObj d) = «"{"» ++ join_commas (map member d1) ++ «"}"».
Proof.
  cbn [dumps]. set (g := λ kv : string * json, (kv.1, dumps kv.2)).
  destruct (Permutation_map_inv g d (sort_by_perm key_lt (map g d))) as (d1 & -> & Hp).
  exists d1. split; [done|]. do 3 f_equal. unfold fmap. by rewrite <- (list_fmap_compose g dumps_member).
Qed.

Lemma same_json_obj_perm d d1 d1' d' :
  d ≡ₚ d1 → Forall2 (λ x y : string * json, x.1 = y.1 ∧ same_json x.2 y.2) d1 d1' → d1' ≡ₚ d' →
  same_json (JObj d) (JObj d').
Proof.
  intros Hd Hf Hd'.
  apply Forall2_flip in Hf.
  destruct (Permutation_Forall2 Hd' Hf) as (d2 & Hp & Hf2). apply Forall2_flip in Hf2.
  econstructor; [|exact Hf2]. by rewrite Hd.
Qed.

(** Two texts with a common continuation come from the same kind of value. *)
Lemma same_head v w r r' : dumps v ++ r = dumps w ++ r' → ∃ c, head_kind v c ∧ head_kind w c.
Proof.
  destruct (dumps_head v) as (c & t & -> & Hc), (dumps_head w) as (c' & t' & -> & Hc').
  intros [= -> _]. eauto.
Qed.

Ltac other_heads :=
  match goal with Hv : head_kind _ ?c, Hw : head_kind _ ?c |- _ =>
    cbn in Hv, Hw; exfalso; first [by subst | congruence] end.

Lemma dumps_inj v : ∀ w r r',
  dumps v ++ r = dumps w ++ r' → delim r → delim r' → same_json v w ∧ r = r'.
Proof.
  induction v as [|b|n|s|l IH|d IH] using json_rect'; intros w r r' Heq Hr Hr';
    destruct (same_head _ _ _ _ Heq) as (c & Hv & Hw).
  - destruct w as [|[]|n'|s'|l'|d']; try other_heads. injection Heq as ->. by repeat constructor.
  - destruct b, w as [|[]|n'|s'|l'|d']; try other_heads; injection Heq as ->; by repeat constructor.
  - destruct w as [|[]|n'|s'|l'|d']; try other_heads. cbn in Heq.
    destruct (split_at_delim _ _ _ _ (dumps_num_chars n) (dumps_num_chars n') Hr Hr' Heq) as [Hn ->].
    apply dumps_num_inj in Hn as ->. by repeat constructor.
  - destruct w as [|[]|n'|s'|l'|d']; try other_heads.
    destruct (dumps_str_inj _ _ _ _ Heq) as [-> ->]. by repeat constructor.
  - destruct w as [|[]|n'|s'|l'|d']; try other_heads. cbn in Heq. rewrite <- !app_assoc in Heq.
    injection Heq as Heq. apply (join_inj dumps dumps same_json) in Heq as [Hl ->];
      [|done|done|apply dumps_nonempty..|].
    + by repeat constructor.
    + eapply Forall_impl; [exact IH|]. done.
  - destruct w as [|[]|n'|s'|l'|d']; try other_heads.
    destruct (dumps_obj d) as (d1 & Hp & Hd), (dumps_obj d') as (d1' & Hp' & Hd').
    rewrite Hd, Hd' in Heq. cbn in Heq. rewrite <- !app_assoc in Heq. injection Heq as Heq.
    apply (join_inj member member (λ x y : string * json, x.1 = y.1 ∧ same_json x.2 y.2)) in Heq
      as [Hl ->]; [|done|done|by eexists _, _..|].
    + split; [|done]. eapply same_json_obj_perm; [done..|]. by symmetry.
    + rewrite Hp in IH. eapply Forall_impl; [exact IH|]. intros [k x] Hx [k' y] r0 r0'.
      unfold member, dumps_member. cbn [fst snd]. rewrite <- !app_assoc. intros Hm Hr0 Hr0'.
      apply dumps_str_inj in Hm as [-> Hm]. injection Hm as Hm.
      destruct (Hx _ _ _ Hm Hr0 Hr0') as [? ->]. done.
Qed.
End Injective.

Definition utf8_next (l : chars) : option (Ascii.ascii * chars) :=
  match l with
  | [] => None
  | c :: l1 =>
      if Text.code c <? 128 then Some (c, l1)
      else match l1 with
      | [] => None
      | e :: l2 =>
          Some (Ascii.ascii_of_N (Z.to_N ((Text.code c - 192) * 64 + (Text.code e - 128))), l2)
      end
  end.

Lemma utf8_next_char c r : utf8_next (utf8_char c ++ r) = Some (c, r).
Proof. destruct c as [[] [] [] [] [] [] [] []]; reflexivity. Qed.

Lemma utf8_inj l : ∀ l', utf8 l = utf8 l' → l = l'.
Proof.
  unfold utf8. induction l as [|c l IH]; intros [|c' l'] Heq; [done|..]; cbn in Heq.
  - apply (f_equal utf8_next) in Heq. by rewrite utf8_next_char in Heq.
  - apply (f_equal utf8_next) in Heq. by rewrite utf8_next_char in Heq.
  - apply (f_equal utf8_next) in Heq. rewrite !utf8_next_char in Heq. injection Heq as -> Heq.
    f_equal. by apply IH.
Qed.

Lemma same_request i p i' p' :
  same_json (JObj [("input", JObj i); ("policy", JObj p)])
            (JObj [("input", JObj i'); ("policy", JObj p')])
  ↔ same_json (JObj i) (JObj i') ∧ same_json (JObj p) (JObj p').
Proof.
  split.
  - intros Hs. inversion Hs as [| | | | |d d1 d' Hp Hf]; subst.
    apply Permutation_length_2_inv in Hp as [-> | ->]; inversion Hf as [|? ? ? ? [Hk H1] Hf2]; subst;
      [|done]. inversion Hf2 as [|? ? ? ? [_ H2] _]; subst. done.
  - intros [H1 H2]. econstructor; [done|]. by repeat constructor.
Qed.

Lemma canonical_payload_same `{FloatReprLaws} i p i' p' :
  json_wf (JObj i) → json_wf (JObj p) →
  canonical_payload i p = canonical_payload i' p'
  ↔ same_json (JObj i) (JObj i') ∧ same_json (JObj p) (JObj p').
Proof.
  intros Hi Hp. rewrite <- same_request. unfold canonical_payload. split.
  - intros Heq%utf8_inj. destruct (dumps_inj
      (JObj [("input", JObj i); ("policy", JObj p)])
      (JObj [("input", JObj i'); ("policy", JObj p')]) [] []) as [? _]; try done.
    by rewrite !app_nil_r.
  - intros Hs. f_equal. apply same_dumps; [done|].
    split; [|split; [exact Hi|split; [exact Hp|done]]]. unfold dict_wf, dkeys. cbn.
    repeat constructor; set_solver.
Qed.

(** (C39) The idempotency hash identifies requests exactly: two requests have the same
    [canonical_request_hash] if and only if their payload and policy are the same JSON
    values up to the order of object keys at every depth.  The one hypothesis on SHA-256
    is that the two canonical texts do not collide; it is used only from left to right. *)
Theorem request_hash_identifies_request `{Host} `{!FloatReprLaws} i p i' p' :
  json_wf (JObj i) → json_wf (JObj p) →
  (let text x y := Text.of_list (canonical_payload x y) in
   sha256_hex (text i p) = sha256_hex (text i' p') → text i p = text i' p') →
  canonical_request_hash i p = canonical_request_hash i' p'
  ↔ same_json (JObj i) (JObj i') ∧ same_json (JObj p) (JObj p').
Proof.
  intros Hi Hp Hsha. rewrite <- canonical_payload_same by done. unfold canonical_request_hash.
  split; [|congruence]. intros Heq%Hsha. apply (f_equal Text.to_list) in Heq.
  by rewrite !Text.to_of_list in Heq.
Qed.

(** ** A concrete host

    An executable instance of the environment, for the examples: identifiers are
    numbers written in decimal, a float is written as its numerator and [".0"],
    and the digest is the text itself. *)

Definition demo_repr : FloatRepr := λ f,
  match f with Fin m => NilEmpty.string_of_int (Z.to_int m) +:+ ".0" | _ => "" end.

Definition demo_parse (s : string) : option uuid :=
  (λ i, Z.to_N (Z.of_int i)) <$> NilEmpty.int_of_string s.

Definition demo_str (u : uuid) : string := NilEmpty.string_of_int (Z.to_int (Z.of_N u)).

Lemma demo_parse_str u : demo_parse (demo_str u) = Some u.
Proof.
  unfold demo_parse, demo_str. rewrite NilEmpty.isi. cbn. rewrite of_to. f_equal. apply N2Z.id.
Qed.

Definition demo_host : Host := {|
  host_repr := demo_repr;
  uuid4 := N.of_nat;
  uuid4_inj := Nnat.Nat2N.inj;
  uuid_str := demo_str;
  uuid_parse := demo_parse;
  uuid_parse_str := demo_parse_str;
  isoformat := λ t, NilEmpty.string_of_int (Z.to_int t);
  sha256_hex := λ s, s;
|}.

Lemma to_list_app s t : «s +:+ t» = «s» ++ «t».
Proof.
  induction s as [|c s IH]; [done|].
  change (c :: «s +:+ t» = c :: («s» ++ «t»)). by rewrite IH.
Qed.

Lemma demo_laws : @FloatReprLaws demo_repr.
Proof.
  assert (∀ m, «demo_repr (Fin m)» = int_repr m ++ «".0"») as Hm by (intros; apply to_list_app).
  split; unfold repr_float.
  - intros m m' Heq. apply (f_equal Text.to_list) in Heq. rewrite !Hm in Heq.
    apply app_inj_2 in Heq as [Heq _]; [|done]. by apply int_repr_inj.
  - intros m. rewrite Hm. apply Forall_app. split; [|by repeat constructor].
    eapply Forall_impl; [apply int_repr_digits|]. by intros ? [].
  - intros m. rewrite Hm. apply Exists_app. right. left. set_solver.
Qed.

(** Reordering the keys of a nested object keeps the hash. *)
Lemma request_hash_identifies_request_witness :
  let i := [("prompt", JStr "hi"); ("opts", JObj [("a", JNum (NInt 1)); ("b", JNull)])] in
  let i' := [("opts", JObj [("b", JNull); ("a", JNum (NInt 1))]); ("prompt", JStr "hi")] in
  @canonical_request_hash demo_host i [] = @canonical_request_hash demo_host i' [].
Proof.
  intros i i'. apply (@request_hash_identifies_request demo_host demo_laws i [] i' []).
  - split; [|split; [done|split; [|done]]]; [|split; [|done]];
      unfold dict_wf; cbn; repeat constructor; set_solver.
  - split; [unfold dict_wf; cbn; constructor|done].
  - done.
  - split; [|by repeat econstructor].
    eapply same_obj; [apply Permutation_swap|]. repeat constructor.
    eapply same_obj; [apply Permutation_swap|]. by repeat constructor.
Defined.
