(* ===== verification/Base64.v ===== *)
(** * Base64

    [base64.b64encode] and [base64.b64decode(validate=True)] of the Python library, as
    [src/src/agent_runtime/security/envelope.py] uses them.  Bytes are characters. *)

From S2P Require Import Prelude Float64 PyValue Models Canonical.
Local Open Scope Z_scope.

Definition byte (z : Z) : Ascii.ascii := Ascii.ascii_of_N (Z.to_N z).

Lemma byte_code c : byte (Text.code c) = c.
Proof. unfold byte, Text.code. by rewrite N2Z.id, Ascii.ascii_N_embedding. Qed.

(** ** The alphabet *)

Definition b64_char (z : Z) : Ascii.ascii :=
  byte (if z <? 26 then 65 + z else if z <? 52 then 71 + z else if z <? 62 then z - 4
        else if z =? 62 then 43 else 47).
Definition b64_value (c : Ascii.ascii) : option Z :=
  let z := Text.code c in
  if (65 <=? z) && (z <=? 90) then Some (z - 65)
  else if (97 <=? z) && (z <=? 122) then Some (z - 71)
  else if (48 <=? z) && (z <=? 57) then Some (z + 4)
  else if z =? 43 then Some 62
  else if z =? 47 then Some 63
  else None.
Definition pad_char : Ascii.ascii := byte 61.

(** ** Encoding and decoding *)

(** The groups of six bits. *)
Fixpoint sextets (l : list Z) : list Z :=
  match l with
  | a :: b :: c :: l' =>
      a / 4 :: a mod 4 * 16 + b / 16 :: b mod 16 * 4 + c / 64 :: c mod 64 :: sextets l'
  | [a; b] => [a / 4; a mod 4 * 16 + b / 16; b mod 16 * 4]
  | [a] => [a / 4; a mod 4 * 16]
  | [] => []
  end.
(** The padding of the last group. *)
Fixpoint padding (l : list Z) : nat :=
  match l with
  | _ :: _ :: _ :: l' => padding l'
  | [_; _] => 1
  | [_] => 2
  | [] => 0
  end.

Definition b64encode (bytes : chars) : chars :=
  let l := map Text.code bytes in map b64_char (sextets l) ++ repeat pad_char (padding l).

(** [Incorrect padding] unless the last group is whole or has its padding; a trailing group
    loses its spare bits. *)
Definition binascii_error : exn := ValueError "binascii.Error".
Fixpoint unsextets (l : list Z) (pads : nat) : result (list Z) :=
  match l with
  | p :: q :: r :: s :: l' =>
      bs ← unsextets l' pads;
      Ok (p * 4 + q / 16 :: q mod 16 * 16 + r / 4 :: r mod 4 * 64 + s :: bs)
  | [p; q; r] => raise_unless (1 <=? pads)%nat binascii_error;; Ok [p * 4 + q / 16; q mod 16 * 16 + r / 4]
  | [p; q] => raise_unless (2 <=? pads)%nat binascii_error;; Ok [p * 4 + q / 16]
  | [_] => Err binascii_error
  | [] => Ok []
  end.

(** At most two trailing padding characters, of the reversed text. *)
Definition strip_padding (reversed : chars) : chars * nat :=
  match reversed with
  | x :: y :: r =>
      if bool_decide (x = pad_char) then if bool_decide (y = pad_char) then (r, 2%nat) else (y :: r, 1%nat)
      else (reversed, 0%nat)
  | [x] => if bool_decide (x = pad_char) then ([], 1%nat) else (reversed, 0%nat)
  | [] => ([], 0%nat)
  end.

Definition b64decode (text : chars) : result chars :=
  let '(reversed, pads) := strip_padding (reverse text) in
  match mapM (M := option) b64_value (reverse reversed) with
  | Some l => byte_list ← unsextets l pads; Ok (map byte byte_list)
  | None => Err binascii_error
  end.

(** ** The round trip *)

Definition sextet (z : Z) : Prop := 0 ≤ z < 64.

Lemma b64_value_char z : sextet z → b64_value (b64_char z) = Some z ∧ b64_char z ≠ pad_char.
Proof.
  intros Hz. assert (z ∈ seqZ 0 64) as Hin by (apply elem_of_seqZ; unfold sextet in Hz; lia).
  assert (Forall (λ z, b64_value (b64_char z) = Some z ∧ b64_char z ≠ pad_char) (seqZ 0 64)) as HF.
  { apply (bool_decide_unpack _). by vm_compute. }
  rewrite Forall_forall in HF. by apply HF.
Qed.

(** Induction by groups of three. *)
Lemma triples_ind {A} (P : list A → Prop) :
  P [] → (∀ a, P [a]) → (∀ a b, P [a; b]) → (∀ a b c l, P l → P (a :: b :: c :: l)) → ∀ l, P l.
Proof.
  intros H0 H1 H2 H3. fix IH 1. intros [|a [|b [|c l]]]; [exact H0|exact (H1 a)|exact (H2 a b)|exact (H3 a b c l (IH l))].
Qed.

Abbreviation is_byte := (λ z, 0 ≤ z < 256).

Lemma sextets_range l : Forall is_byte l → Forall sextet (sextets l).
Proof.
  induction l as [|a|a b|a b c l IH] using triples_ind; intros Hl; cbn [sextets];
    repeat match goal with H : Forall _ (_ :: _) |- _ => inversion_clear H end; unfold sextet in *;
    repeat constructor; try (apply IH; done);
    try (match goal with |- context [?x / ?y] => pose proof (Z.div_mod x y) end); Z.div_mod_to_equations; lia.
Qed.

Lemma unsextets_sextets l : Forall is_byte l → unsextets (sextets l) (padding l) = Ok l.
Proof.
  induction l as [|a|a b|a b c l IH] using triples_ind; intros Hl; cbn [sextets padding unsextets];
    repeat match goal with H : Forall _ (_ :: _) |- _ => inversion_clear H end.
  - done.
  - cbn. do 2 f_equal. Z.div_mod_to_equations. lia.
  - cbn. f_equal. f_equal; [|f_equal]; Z.div_mod_to_equations; lia.
  - rewrite IH by done. cbn. f_equal. f_equal; [|f_equal; [|f_equal]]; Z.div_mod_to_equations; lia.
Qed.

Lemma strip_padding_spec (l : chars) n :
  Forall (λ c, c ≠ pad_char) l → (n ≤ 2)%nat → strip_padding (repeat pad_char n ++ l) = (l, n).
Proof.
  intros Hl Hn. destruct n as [|[|[|n]]]; [| | |lia]; cbn [repeat app].
  - destruct Hl as [|x l Hx Hl]; [done|]. destruct l; unfold strip_padding; by rewrite bool_decide_false.
  - destruct Hl as [|x l Hx Hl]; unfold strip_padding; rewrite bool_decide_true by done; [done|].
    by rewrite bool_decide_false.
  - unfold strip_padding. by rewrite !bool_decide_true.
Qed.

Lemma b64_roundtrip bytes : b64decode (b64encode bytes) = Ok bytes.
Proof.
  unfold b64decode, b64encode. set (l := map Text.code bytes).
  assert (Forall is_byte l) as Hl by (apply Forall_fmap, Forall_true; intros; apply code_range).
  pose proof (sextets_range l Hl) as Hs.
  assert (padding l ≤ 2)%nat as Hp by (clear; induction l using triples_ind; cbn; lia).
  assert (∀ n, reverse (repeat pad_char n) = repeat pad_char n) as Hrev.
  { intros n. induction n as [|n IH]; [done|]. cbn [repeat]. rewrite reverse_cons, IH.
    symmetry. apply repeat_cons. }
  assert (Forall (λ c, c ≠ pad_char) (map b64_char (sextets l))) as Hc.
  { apply Forall_fmap. eapply Forall_impl; [exact Hs|]. by intros z [_ ?]%b64_value_char. }
  rewrite reverse_app, Hrev, strip_padding_spec; [|by apply Forall_reverse|done].
  rewrite reverse_involutive.
  assert (mapM (M := option) b64_value (map b64_char (sextets l)) = Some (sextets l)) as ->.
  { apply mapM_Some_2. clear -Hs. induction Hs as [|z k Hz _ IH]; cbn; constructor; [|done]. by apply b64_value_char. }
  rewrite unsextets_sextets by done. cbn. unfold l. rewrite map_map. f_equal.
  rewrite (map_ext _ id); [apply map_id|]. apply byte_code.
Qed.
