(* ===== verification/Safety.v ===== *)
(** * Evaluation input limits

    [src/src/agent_runtime/evaluation/safety.py]: the bounded traversal of JSON
    values, the restricted JSON Schema subset and the validation of evaluation
    rules.  The Python functions return [None] or raise
    [EvaluationConfigurationError]; here they return a [result unit].

    The worklists of the source are Python lists used as stacks; a stack is kept
    with its top first, so [extend] pushes the new elements in reverse order. *)

From S2P Require Import Prelude Float64 PyValue.
Local Open Scope Z_scope.

Definition str_len (s : string) : Z := len (Text.to_list s).

Definition push {A} (l stack : list A) : list A := reverse l ++ stack.

(** ** [bounded_value] *)

Definition MAX_SIZE : Z := 65536.

(** The children a visited item pushes and the bytes it adds, or its refusal. *)
Definition visit (max_nodes : Z) (item : json) : result (list json * Z) :=
  match item with
  | JObj d =>
      raise_unless (len d <=? max_nodes) (EvaluationConfigurationError "evaluation object limit exceeded");;
      Ok (d.*2, foldr Z.add 0 (Text.utf8_len <$> dkeys d))
  | JArr l =>
      raise_unless (len l <=? max_nodes) (EvaluationConfigurationError "evaluation array limit exceeded");;
      Ok (l, 0)
  | JStr s => Ok ([], Text.utf8_len s)
  | JNum (NFloat f) =>
      raise_unless (isfinite f) (EvaluationConfigurationError "evaluation values must be finite");;
      Ok ([], 0)
  | _ => Ok ([], 0)
  end.

(** The [while pending] loop.  Every iteration increments [nodes] and one with
    [nodes > max_nodes] raises, so [max_nodes + 1] iterations are enough. *)
Fixpoint bounded_loop (fuel : nat) (max_nodes max_depth : Z) (pending : list (json * Z))
    (nodes size : Z) : result unit :=
  match fuel, pending with
  | _, [] => Ok tt
  | O, _ => Err (RuntimeError "fuel")
  | S fuel, (item, depth) :: pending =>
      let nodes := nodes + 1 in
      raise_unless ((nodes <=? max_nodes) && (depth <=? max_depth))
        (EvaluationConfigurationError "evaluation value complexity limit exceeded");;
      '(children, bytes) ← visit max_nodes item;
      let pending := push ((λ v, (v, depth + 1)) <$> children) pending in
      let size := size + bytes in
      raise_unless ((size <=? MAX_SIZE) && (len pending <=? max_nodes))
        (EvaluationConfigurationError "evaluation value size limit exceeded");;
      bounded_loop fuel max_nodes max_depth pending nodes size
  end.

Definition bounded_value (value : json) (max_nodes max_depth : Z) : result unit :=
  bounded_loop (S (Z.to_nat max_nodes)) max_nodes max_depth [(value, 0)] 0 0.

(** ** [validate_schema] *)

Definition schema_allowed : list string :=
  ["type"; "properties"; "required"; "additionalProperties"; "items"; "enum"; "const"; "minimum";
   "maximum"; "minLength"; "maxLength"; "minItems"; "maxItems"].

(** [set(d) - allowed] is empty. *)
Definition only_keys (allowed : list string) (d : dict) : bool :=
  forallb (λ k, bool_decide (k ∈ allowed)) (dkeys d).

(** One visited schema node: its child schemas in the order they are appended. *)
Definition visit_schema (node : json) (count depth : Z) : result (list json) :=
  match node with
  | JObj d =>
      raise_unless ((count <=? 128) && (depth <=? 6) && only_keys schema_allowed d)
        (EvaluationConfigurationError "unsupported or overly complex JSON Schema");;
      match dget_or "properties" (JObj []) d with
      | JObj properties =>
          raise_unless (len properties <=? 32)
            (EvaluationConfigurationError "schema properties limit exceeded");;
          raise_unless (forallb (λ k, str_len k <=? 128) (dkeys properties))
            (EvaluationConfigurationError "schema property name limit exceeded");;
          raise_unless
            (match dget "additionalProperties" d with None | Some (JBool _) => true | _ => false end)
            (EvaluationConfigurationError "additionalProperties must be a boolean");;
          raise_unless
            (match dget "enum" d with
             | None => true
             | Some (JArr l) => len l <=? 32
             | Some _ => false
             end)
            (EvaluationConfigurationError "schema enum limit exceeded");;
          Ok (properties.*2 ++ match dget "items" d with Some i => [i] | None => [] end)
      | _ => Err (EvaluationConfigurationError "schema properties limit exceeded")
      end
  | _ => Err (EvaluationConfigurationError "unsupported or overly complex JSON Schema")
  end.

(** The [while pending] loop; a [count] above 128 raises. *)
Fixpoint schema_loop (fuel : nat) (pending : list (json * Z)) (count : Z) : result unit :=
  match fuel, pending with
  | _, [] => Ok tt
  | O, _ => Err (RuntimeError "fuel")
  | S fuel, (node, depth) :: pending =>
      let count := count + 1 in
      children ← visit_schema node count depth;
      schema_loop fuel (push ((λ v, (v, depth + 1)) <$> children) pending) count
  end.

Section Rules.
(** [Draft202012Validator.check_schema] of the jsonschema library. *)
Context (check_schema : json → bool).

Definition validate_schema (schema : json) : result unit :=
  schema_loop 130 [(schema, 0)] 0;;
  raise_unless (check_schema schema) (EvaluationConfigurationError "invalid JSON Schema").

(** ** [validate_rules] *)

(** [len(path.split("."))]. *)
Definition path_parts (path : string) : Z :=
  1 + len (filter (λ c, Text.code c = 46) (Text.to_list path)).

Definition rule_fields (kind : string) : option (list string) :=
  if bool_decide (kind = "non_empty") then Some ["type"; "path"]
  else if bool_decide (kind = "json_schema") then Some ["type"; "path"; "schema"]
  else if bool_decide (kind = "latency_budget") then Some ["type"; "max_ms"]
  else if bool_decide (kind = "rule") then Some ["type"; "path"; "operator"; "value"]
  else None.

Definition rule_operators : list string := ["exists"; "equals"; "not_equals"; "contains"].

(** The kind-specific checks of one rule. *)
Definition validate_kind (kind : string) (rule : dict) : result unit :=
  if bool_decide (kind = "json_schema") then validate_schema (dget_or "schema" JNull rule)
  else if bool_decide (kind = "rule") then
    raise_unless
      (match dget "operator" rule with
       | Some (JStr o) => bool_decide (o ∈ rule_operators)
       | _ => false
       end)
      (EvaluationConfigurationError "unsupported operator; regex matches is disabled")
  else if bool_decide (kind = "latency_budget") then
    raise_unless
      (match dget "max_ms" rule with
       | Some (JNum (NInt b)) => (0 <=? b) && (b <=? 86400000)
       | _ => false
       end)
      (EvaluationConfigurationError "invalid latency budget")
  else Ok tt.

(** The body of the loop over the rules. *)
Definition validate_rule (rule : dict) : result unit :=
  kind ← match dget "type" rule with
         | Some (JStr kind) =>
             match rule_fields kind with
             | Some allowed =>
                 raise_unless (only_keys allowed rule)
                   (EvaluationConfigurationError "unsupported evaluation rule or field");;
                 Ok kind
             | None => Err (EvaluationConfigurationError "unsupported evaluation rule or field")
             end
         | _ => Err (EvaluationConfigurationError "unsupported evaluation rule or field")
         end;
  raise_unless
    (match dget_or "path" (JStr "") rule with
     | JStr path => (str_len path <=? 256) && (path_parts path <=? 16)
     | _ => false
     end)
    (EvaluationConfigurationError "invalid evaluation path");;
  validate_kind kind rule.

Fixpoint for_each {A} (f : A → result unit) (l : list A) : result unit :=
  match l with
  | [] => Ok tt
  | x :: l' => f x;; for_each f l'
  end.

Definition validate_rules (rules : list dict) : result unit :=
  bounded_value (JArr (JObj <$> rules)) 2048 16;;
  raise_unless ((1 <=? len rules) && (len rules <=? 16))
    (EvaluationConfigurationError "evaluation requires 1-16 rules");;
  for_each validate_rule rules.
End Rules.

(** ** Reference measures of a JSON value *)

Definition sum_by {A} (f : A → Z) (l : list A) : Z := foldr (λ x acc, f x + acc) 0 l.
Definition max_by {A} (f : A → Z) (l : list A) : Z := foldr (λ x acc, Z.max (f x) acc) 0 l.

(** Number of values in the tree. *)
Fixpoint nodes_of (v : json) : Z :=
  match v with
  | JArr l => 1 + sum_by nodes_of l
  | JObj d => 1 + sum_by (λ kv, nodes_of kv.2) d
  | _ => 1
  end.

(** Levels of nesting below the value. *)
Fixpoint depth_of (v : json) : Z :=
  match v with
  | JArr l => max_by (λ x, 1 + depth_of x) l
  | JObj d => max_by (λ kv, 1 + depth_of kv.2) d
  | _ => 0
  end.

(** UTF-8 bytes of all keys and strings. *)
Fixpoint text_size (v : json) : Z :=
  match v with
  | JStr s => Text.utf8_len s
  | JArr l => sum_by text_size l
  | JObj d => foldr Z.add 0 (Text.utf8_len <$> dkeys d) + sum_by (λ kv, text_size kv.2) d
  | _ => 0
  end.

(** Every float is finite. *)
Fixpoint all_finite (v : json) : bool :=
  match v with
  | JNum (NFloat f) => isfinite f
  | JArr l => forallb all_finite l
  | JObj d => forallb (λ kv, all_finite kv.2) d
  | _ => true
  end.

Definition within (v : json) (max_nodes max_depth : Z) : bool :=
  (nodes_of v <=? max_nodes) && (depth_of v <=? max_depth) && all_finite v
  && (text_size v <=? MAX_SIZE).

(** ** Proof of the equivalence *)

Definition children_of (v : json) : list json :=
  match v with JArr l => l | JObj d => d.*2 | _ => [] end.
Definition bytes_of (v : json) : Z :=
  match v with
  | JStr s => Text.utf8_len s
  | JObj d => foldr Z.add 0 (Text.utf8_len <$> dkeys d)
  | _ => 0
  end.

Lemma sum_by_cons {A} (f : A → Z) x l : sum_by f (x :: l) = f x + sum_by f l.
Proof. done. Qed.
#[local] Arguments sum_by : simpl never.
Lemma sum_by_fmap {A B} (g : A → B) f l : sum_by f (g <$> l) = sum_by (λ x, f (g x)) l.
Proof. induction l as [|x l IH]; [done|]. by rewrite fmap_cons, !sum_by_cons, IH. Qed.
Lemma sum_by_app {A} (f : A → Z) l l' : sum_by f (l ++ l') = sum_by f l + sum_by f l'.
Proof. induction l as [|x l IH]; [done|]. cbn. rewrite !sum_by_cons, IH. lia. Qed.
Lemma sum_by_reverse {A} (f : A → Z) l : sum_by f (reverse l) = sum_by f l.
Proof.
  induction l as [|x l IH]; [done|]. rewrite reverse_cons, sum_by_app, IH, !sum_by_cons.
  unfold sum_by at 2. cbn. lia.
Qed.
Lemma sum_by_lower {A} (f : A → Z) b l : Forall (λ x, b ≤ f x) l → b * len l ≤ sum_by f l.
Proof.
  unfold len. induction 1 as [|x l Hx _ IH]; [unfold sum_by; cbn; lia|].
  rewrite sum_by_cons, length_cons. lia.
Qed.
Lemma max_by_le {A} (f : A → Z) l b : 0 ≤ b → max_by f l ≤ b ↔ Forall (λ x, f x ≤ b) l.
Proof.
  intros Hb. induction l as [|x l IH]; cbn; [by split; [constructor|]|].
  rewrite Forall_cons, <- IH. unfold max_by. lia.
Qed.
Lemma utf8_len_nonneg s : 0 ≤ Text.utf8_len s.
Proof. unfold Text.utf8_len. induction (Text.to_list s) as [|c l IH]; cbn; [done|]. case_match; lia. Qed.

Lemma bytes_of_nonneg v : 0 ≤ bytes_of v.
Proof.
  destruct v as [| | | | |d]; cbn; try lia; [apply utf8_len_nonneg|].
  induction (dkeys d) as [|k l IH]; cbn; [lia|]. pose proof (utf8_len_nonneg k). lia.
Qed.

Lemma nodes_of_eq v : nodes_of v = 1 + sum_by nodes_of (children_of v).
Proof. destruct v; try done. unfold children_of. by rewrite sum_by_fmap. Qed.
Lemma text_size_eq v : text_size v = bytes_of v + sum_by text_size (children_of v).
Proof. destruct v; try done; [|unfold children_of; by rewrite sum_by_fmap]. cbn. unfold sum_by. cbn. lia. Qed.
Lemma all_finite_children v : all_finite v = true → Forall (λ c, all_finite c = true) (children_of v).
Proof.
  destruct v; cbn; try done; intros Hf; rewrite forallb_forall in Hf; apply Forall_forall.
  - intros x Hx. apply Hf. by apply list_elem_of_In.
  - intros x Hx. apply list_elem_of_fmap in Hx as (kv & -> & Hkv). apply Hf. by apply list_elem_of_In.
Qed.
Lemma depth_of_le v b :
  depth_of v ≤ b ↔ 0 ≤ b ∧ Forall (λ c, 1 + depth_of c ≤ b) (children_of v).
Proof.
  destruct (Z.le_gt_cases 0 b) as [Hb|Hb].
  - destruct v; cbn; try (split; [by repeat constructor|by intros []]).
    + rewrite max_by_le by done. naive_solver.
    + rewrite max_by_le by done. rewrite Forall_fmap. naive_solver.
  - assert (0 ≤ depth_of v); [|lia].
    destruct v as [| | | |l|d]; cbn; try lia; unfold max_by;
      [induction l; cbn; lia|induction d; cbn; lia].
Qed.

Lemma nodes_of_pos v : 1 ≤ nodes_of v.
Proof.
  induction v as [| | | |l IH|d IH] using json_rect'; cbn; try lia;
    pose proof (sum_by_lower _ _ _ IH) as Hs; unfold len in Hs; lia.
Qed.
Lemma text_size_nonneg v : 0 ≤ text_size v.
Proof.
  induction v as [| | | |l IH|d IH] using json_rect'; cbn; try lia; [apply utf8_len_nonneg|..];
    pose proof (sum_by_lower _ _ _ IH); [lia|].
  pose proof (bytes_of_nonneg (JObj d)) as Hb. cbn in Hb. lia.
Qed.

(** The visit of an item succeeds exactly when it has few children and is not a
    non-finite float. *)
Lemma visit_ok N v : 0 ≤ N →
  visit N v = Ok (children_of v, bytes_of v) ∧ len (children_of v) ≤ N
    ∧ (all_finite v = true ↔ Forall (λ c, all_finite c = true) (children_of v))
  ∨ ∃ e, visit N v = Err e ∧ (N < len (children_of v) ∨ all_finite v = false).
Proof.
  intros HN. destruct v as [| |[z|f]| |l|d]; cbn.
  1-3,5: left; split_and!; [done|done|by split; [constructor|]].
  - destruct (isfinite f) eqn:Hf; cbn; [left|right; eauto].
    split_and!; [done|done|by split; [constructor|]].
  - destruct (Z.leb_spec (len l) N); cbn; [left|right; eauto].
    split_and!; [done|done|]. split; [apply (all_finite_children (JArr l))|].
    intros Hf. apply forallb_forall. intros x Hx%list_elem_of_In. rewrite Forall_forall in Hf. eauto.
  - assert (len d.*2 = len d) as -> by (unfold len; by rewrite length_fmap).
    destruct (Z.leb_spec (len d) N); cbn; [left|right; eauto].
    split_and!; [done|done|]. split; [apply (all_finite_children (JObj d))|].
    intros Hf. apply forallb_forall. intros x Hx%list_elem_of_In. rewrite Forall_forall in Hf.
    apply Hf. apply list_elem_of_fmap. eauto.
Qed.

Lemma bounded_loop_spec N D fuel : ∀ pending nodes size,
  0 ≤ nodes ≤ N → N - nodes < Z.of_nat fuel → size ≤ MAX_SIZE →
  bounded_loop fuel N D pending nodes size = Ok tt
  ↔ nodes + sum_by (λ p, nodes_of p.1) pending ≤ N
    ∧ Forall (λ p, p.2 + depth_of p.1 ≤ D) pending
    ∧ Forall (λ p, all_finite p.1 = true) pending
    ∧ size + sum_by (λ p, text_size p.1) pending ≤ MAX_SIZE.
Proof.
  induction fuel as [|fuel IH]; intros [|[v k] p] nodes size Hn Hfuel Hsize;
    try lia; try (split; [intros _|done]; unfold sum_by; cbn; split_and!; [lia|constructor..|lia]).
  assert (Forall (λ q : json * Z, 1 ≤ nodes_of q.1) p) as Hp1 by (apply Forall_true; intros; apply nodes_of_pos).
  assert (Forall (λ q : json * Z, 0 ≤ text_size q.1) p) as Hp0 by (apply Forall_true; intros; apply text_size_nonneg).
  apply sum_by_lower in Hp1, Hp0. unfold len in Hp1, Hp0.
  pose proof (nodes_of_eq v) as Hnv. pose proof (text_size_eq v) as Htv.
  assert (Forall (λ q, 1 ≤ nodes_of q) (children_of v)) as Hc1 by (apply Forall_true; intros; apply nodes_of_pos).
  assert (Forall (λ q, 0 ≤ text_size q) (children_of v)) as Hc0 by (apply Forall_true; intros; apply text_size_nonneg).
  apply sum_by_lower in Hc1, Hc0. unfold len in Hc1, Hc0. pose proof (depth_of_le v (D - k)) as Hd.
  rewrite !Forall_cons, !sum_by_cons. cbn [fst snd bounded_loop].
  destruct (Z.leb_spec (nodes + 1) N) as [HN|HN]; [|cbn; split; [done|intros (? & _); lia]].
  destruct (Z.leb_spec k D) as [HD|HD]; [|cbn; split; [done|intros (_ & [? _] & _); lia]].
  change (raise_unless (true && true) ?e) with (Ok tt). cbn [mbind result_bind].
  destruct (visit_ok N v) as [(-> & Hlen & Hfin)|(e & -> & He)]; [lia| |].
  2: { split; [done|]. intros (? & _ & [Hf _] & _). destruct He as [He|He]; [|congruence].
       unfold len in *. lia. }
  cbn [mbind result_bind]. set (q := push _ p).
  assert (sum_by (λ p, nodes_of p.1) q = sum_by nodes_of (children_of v) + sum_by (λ p, nodes_of p.1) p) as Hqn.
  { unfold q, push. by rewrite sum_by_app, sum_by_reverse, sum_by_fmap. }
  assert (sum_by (λ p, text_size p.1) q = sum_by text_size (children_of v) + sum_by (λ p, text_size p.1) p) as Hqt.
  { unfold q, push. by rewrite sum_by_app, sum_by_reverse, sum_by_fmap. }
  assert (len q = len (children_of v) + len p) as Hql.
  { unfold q, push, len. rewrite length_app, length_reverse, length_fmap. lia. }
  assert (Forall (λ p, p.2 + depth_of p.1 ≤ D) q
          ↔ k + depth_of v ≤ D ∧ Forall (λ p, p.2 + depth_of p.1 ≤ D) p) as Hqd.
  { unfold q, push. rewrite Forall_app, Forall_reverse, Forall_fmap.
    assert (Forall ((λ p, p.2 + depth_of p.1 ≤ D) ∘ (λ v0, (v0, k + 1))) (children_of v)
            ↔ k + depth_of v ≤ D) as ->; [|done].
    transitivity (depth_of v ≤ D - k); [|lia]. rewrite Hd. split.
    - intros Hf. split; [lia|]. eapply Forall_impl; [exact Hf|]. cbn. lia.
    - intros [_ Hf]. eapply Forall_impl; [exact Hf|]. cbn. lia. }
  assert (Forall (λ p, all_finite p.1 = true) q
          ↔ all_finite v = true ∧ Forall (λ p, all_finite p.1 = true) p) as Hqf.
  { unfold q, push. rewrite Forall_app, Forall_reverse, Forall_fmap, Hfin. done. }
  pose proof (bytes_of_nonneg v) as Hb. unfold len in *.
  destruct (Z.leb_spec (size + bytes_of v) MAX_SIZE) as [HS|HS];
    [|cbn; split; [done|intros (_ & _ & _ & ?); lia]].
  destruct (Z.leb_spec (Z.of_nat (length q)) N) as [HL|HL];
    [|cbn; split; [done|intros (? & _); lia]].
  change (raise_unless (true && true) ?e) with (Ok tt). cbn [mbind result_bind].
  rewrite IH, Hqd, Hqf, Hqn, Hqt by lia. rewrite Hnv, Htv. naive_solver lia.
Qed.

(** [bounded_value] decides the declared limits: the stack-driven traversal accepts a
    JSON value exactly when the value has at most [max_nodes] nodes, nests at most
    [max_depth] levels, contains no infinite or NaN float, and its keys and strings take
    at most 64 KiB of UTF-8; and it always terminates within [max_nodes + 1] iterations. *)
Theorem bounded_value_decides_limits v max_nodes max_depth :
  0 ≤ max_nodes → is_ok (bounded_value v max_nodes max_depth) = within v max_nodes max_depth.
Proof.
  intros HN. apply Bool.eq_iff_eq_true. unfold within, bounded_value.
  rewrite !andb_true_iff, !Z.leb_le.
  assert (∀ r : result unit, is_ok r = true ↔ r = Ok tt) as -> by (intros [[]|]; naive_solver).
  rewrite bounded_loop_spec by (unfold MAX_SIZE; lia).
  rewrite !Forall_singleton, !sum_by_cons. unfold sum_by. cbn. naive_solver lia.
Qed.

Lemma bounded_value_decides_limits_witness :
  is_ok (bounded_value (JArr [JStr "ok"; JObj [("k", JNum (NInt 3))]]) 4 2) = true.
Proof. rewrite (bounded_value_decides_limits _ 4 2); [reflexivity|lia]. Defined.

#[global] Arguments bounded_value : simpl never.
#[global] Arguments validate_rules : simpl never.
