(* ===== verification/Engine.v ===== *)
(** * Evaluation engine

    [src/src/agent_runtime/evaluation/engine.py]: deterministic rules over the
    result payload of a completed run.  [schema_valid] stands for
    [Draft202012Validator(schema).validate(value)] of the jsonschema library and
    [check_schema] for its [check_schema]. *)

From S2P Require Import Prelude Float64 PyValue Safety.
Local Open Scope Z_scope.

(** ** Python equality and containment on JSON values *)

(** [bool] is a subclass of [int]. *)
Definition as_num (v : json) : option num :=
  match v with
  | JBool b => Some (NInt (if b then 1 else 0))
  | JNum n => Some n
  | _ => None
  end.

Fixpoint py_eq (v w : json) {struct v} : bool :=
  match v, w with
  | JNull, JNull => true
  | JStr s, JStr t => bool_decide (s = t)
  | JArr l, JArr l' =>
      (fix go l l' := match l, l' with
       | [], [] => true
       | x :: l, y :: l' => py_eq x y && go l l'
       | _, _ => false
       end) l l'
  | JObj d, JObj d' =>
      (len d =? len d') &&
      forallb (λ kv, match dget kv.1 d' with Some y => py_eq kv.2 y | None => false end) d
  | _, _ =>
      match as_num v, as_num w with Some n, Some m => num_eqb n m | _, _ => false end
  end.

Fixpoint is_prefix (p l : list Ascii.ascii) : bool :=
  match p, l with
  | [], _ => true
  | c :: p', c' :: l' => bool_decide (c = c') && is_prefix p' l'
  | _, [] => false
  end.

(** [needle in haystack] on strings. *)
Fixpoint is_infix (p l : list Ascii.ascii) : bool :=
  is_prefix p l || match l with [] => false | _ :: l' => is_infix p l' end.

(** ** [_value_at_path] *)

(** [path.split(".")]. *)
Definition split_dots (l : list Ascii.ascii) : list (list Ascii.ascii) := Text.split_on 46 l.

Definition decimal_digit (c : Ascii.ascii) : bool := (48 <=? Text.code c) && (Text.code c <=? 57).
(** [str.isdigit]: the decimal digits and, below code point 256, the superscripts
    two, three and one. *)
Definition digit (c : Ascii.ascii) : bool :=
  decimal_digit c || bool_decide (Text.code c ∈ [178; 179; 185]).
Definition isdigit (l : list Ascii.ascii) : bool := negb (bool_decide (l = [])) && forallb digit l.

(** [int(s)] of a string of digits; a superscript is not a decimal digit. *)
Definition parse_int (l : list Ascii.ascii) : result Z :=
  if forallb decimal_digit l
  then Ok (foldl (λ acc c, 10 * acc + (Text.code c - 48)) 0 l)
  else Err (ValueError "invalid literal for int()").

(** One path component: the next value, [None] when it is not found. *)
Definition path_step (value : json) (part : list Ascii.ascii) : result (option json) :=
  match value with
  | JObj d => Ok (dget (Text.of_list part) d)
  | JArr l =>
      if (len part <=? 10) && isdigit part then
        i ← parse_int part;
        Ok (if i <? len l then l !! Z.to_nat i else None)
      else Ok None
  | _ => Ok None
  end.

Fixpoint walk (value : json) (parts : list (list Ascii.ascii)) : result (option json) :=
  match parts with
  | [] => Ok (Some value)
  | part :: parts' =>
      next ← path_step value part;
      match next with Some v => walk v parts' | None => Ok None end
  end.

(** The value at the path, or [None] for [(None, False)]. *)
Definition _value_at_path (payload : json) (path : string) : result (option json) :=
  if bool_decide (path = "") then Ok (Some payload)
  else walk payload (split_dots (Text.to_list path)).

Definition _is_non_empty (v : json) : bool :=
  match v with
  | JNull => false
  | JStr s => Text.nonblank s
  | JArr l => negb (bool_decide (l = []))
  | JObj d => negb (bool_decide (d = []))
  | _ => true
  end.

(** ** Rules *)

Record rule_result := {
  rr_type : string; rr_path : string; rr_passed : bool; rr_message : string;
}.
#[export] Instance rule_result_eq_dec : EqDecision rule_result.
Proof. solve_decision. Defined.
Definition _rule_result (kind path : string) (passed : bool) (message : string) : rule_result :=
  {| rr_type := kind; rr_path := path; rr_passed := passed; rr_message := message |}.
Definition rule_result_json (r : rule_result) : json :=
  JObj [("type", JStr (rr_type r)); ("path", JStr (rr_path r)); ("passed", JBool (rr_passed r));
        ("message", JStr (rr_message r))].

Definition contains (value expected : json) : bool :=
  match value with
  | JArr l => existsb (λ x, py_eq x expected) l
  | JStr s => match expected with JStr e => is_infix (Text.to_list e) (Text.to_list s) | _ => false end
  | JObj d => match expected with JStr e => bool_decide (e ∈ dkeys d) | _ => false end
  | _ => false
  end.

Definition apply_operator (operator : string) (found : option json) (expected : json) : bool :=
  match found with
  | None => false
  | Some value =>
      if bool_decide (operator = "exists") then true
      else if bool_decide (operator = "equals") then py_eq value expected
      else if bool_decide (operator = "not_equals") then negb (py_eq value expected)
      else contains value expected
  end.

Section Engine.
Context (check_schema : json → bool) (schema_valid : json → json → bool).

Definition _evaluate_rule (rule : dict) (result_payload : json) (latency_ms : option Z)
    : result rule_result :=
  kind ← match dget "type" rule with
         | Some (JStr k) => Ok k
         | _ => Err (EvaluationConfigurationError "every evaluation rule requires a string type")
         end;
  path ← match dget_or "path" (JStr "") rule with
         | JStr p => Ok p
         | _ => Err (EvaluationConfigurationError "evaluation rule path must be a string")
         end;
  if bool_decide (kind = "non_empty") then
    found ← _value_at_path result_payload path;
    let passed := match found with Some v => _is_non_empty v | None => false end in
    Ok (_rule_result kind path passed (if passed then "value is non-empty" else "value is empty"))
  else if bool_decide (kind = "json_schema") then
    match dget "schema" rule with
    | Some (JObj schema) =>
        found ← _value_at_path result_payload path;
        Ok (match found with
            | None => _rule_result kind path false "path was not found"
            | Some v =>
                if schema_valid (JObj schema) v
                then _rule_result kind path true "schema validation passed"
                else _rule_result kind path false "schema validation failed"
            end)
    | _ => Err (EvaluationConfigurationError "json_schema rule requires an object schema")
    end
  else if bool_decide (kind = "latency_budget") then
    match dget "max_ms" rule with
    | Some (JNum (NInt budget)) =>
        if budget <? 0 then
          Err (EvaluationConfigurationError "latency_budget rule requires non-negative integer max_ms")
        else
          let passed := match latency_ms with Some ms => ms <=? budget | None => false end in
          Ok (_rule_result kind "" passed
                (if passed then "latency is within budget"
                 else "latency budget exceeded or unavailable"))
    | _ => Err (EvaluationConfigurationError "latency_budget rule requires non-negative integer max_ms")
    end
  else if bool_decide (kind = "rule") then
    match dget "operator" rule with
    | Some (JStr operator) =>
        if bool_decide (operator ∈ rule_operators) then
          found ← _value_at_path result_payload path;
          let passed := apply_operator operator found (dget_or "value" JNull rule) in
          Ok (_rule_result kind path passed
                (operator +:+ " check " +:+ if passed then "passed" else "failed"))
        else Err (EvaluationConfigurationError
          "rule evaluator operator must be exists, equals, not_equals, or contains")
    | Some (JArr _) | Some (JObj _) => Err TypeError
    | _ => Err (EvaluationConfigurationError
        "rule evaluator operator must be exists, equals, not_equals, or contains")
    end
  else Err (EvaluationConfigurationError ("unsupported evaluation rule type: " +:+ kind)).

Record EvaluationOutcome := { passed : bool; rule_results : list rule_result }.

Definition as_persisted_result (o : EvaluationOutcome) : dict :=
  [("passed", JBool (passed o)); ("rules", JArr (rule_result_json <$> rule_results o))].

Definition evaluate_rules (rules : list dict) (result_payload : dict) (latency_ms : option Z)
    : result EvaluationOutcome :=
  validate_rules check_schema rules;;
  bounded_value (JObj result_payload) 10000 16;;
  results ← result_map (λ rule, _evaluate_rule rule (JObj result_payload) latency_ms) rules;
  Ok {| passed := forallb rr_passed results; rule_results := results |}.
End Engine.

(** ** Lemmas *)

Definition superscript (c : Ascii.ascii) : bool := bool_decide (Text.code c ∈ [178; 179; 185]).
Definition plain (l : list Ascii.ascii) : Prop := Forall (λ c, superscript c = false) l.
(** The path of the rule, if any, has no superscript digit. *)
Definition plain_path (rule : dict) : Prop :=
  match dget_or "path" (JStr "") rule with JStr p => plain (Text.to_list p) | _ => True end.

Lemma parse_int_plain l : plain l → isdigit l = true → ∃ z, parse_int l = Ok z.
Proof.
  intros Hp Hd. unfold isdigit in Hd. bool_to_prop. unfold parse_int.
  assert (forallb decimal_digit l = true) as ->; [|eauto].
  match goal with Hf : forallb digit l = true |- _ => rewrite forallb_forall in Hf |- *; rename Hf into Hd end.
  intros c Hc. specialize (Hd c Hc). unfold digit in Hd.
  unfold plain in Hp. rewrite Forall_forall in Hp. apply list_elem_of_In, Hp in Hc.
  unfold superscript in Hc. rewrite Hc in Hd. by rewrite orb_false_r in Hd.
Qed.

Lemma walk_plain parts : Forall plain parts → ∀ v, ∃ o, walk v parts = Ok o.
Proof.
  induction 1 as [|p parts Hp _ IH]; intros v; cbn; [eauto|].
  assert (∃ n, path_step v p = Ok n) as [[w|] ->]; [|cbn; eauto..].
  destruct v as [| | | |l|]; cbn; eauto. case_match eqn:E; [|eauto]. bool_to_prop.
  destruct (parse_int_plain p) as [z ->]; [done..|]. cbn. eauto.
Qed.

Lemma split_dots_plain l : plain l → Forall plain (split_dots l).
Proof.
  unfold split_dots. induction 1 as [|c l Hc _ IH]; cbn; [by repeat constructor|].
  case_match; [by repeat constructor|].
  destruct (Text.split_on 46 l) as [|p ps]; [by repeat constructor|].
  inversion IH; subst. constructor; [by constructor|done].
Qed.

Lemma value_at_path_plain v path : plain (Text.to_list path) → ∃ o, _value_at_path v path = Ok o.
Proof.
  intros Hp. unfold _value_at_path. case_bool_decide; [eauto|]. by apply walk_plain, split_dots_plain.
Qed.

Lemma for_each_ok {A} (f : A → result unit) l : for_each f l = Ok tt → Forall (λ x, f x = Ok tt) l.
Proof.
  induction l as [|x l IH]; cbn; [by constructor|]. destruct (f x) as [[]|] eqn:E; cbn; [|done].
  intros Hl. constructor; auto.
Qed.

(** The texts a rule result may carry. *)
Definition RULE_MESSAGES : list string :=
  ["value is non-empty"; "value is empty"; "path was not found"; "schema validation passed";
   "schema validation failed"; "latency is within budget"; "latency budget exceeded or unavailable"]
  ++ (o ← rule_operators; [o +:+ " check passed"; o +:+ " check failed"]).

(** What a result says about its rule. *)
Definition reports (rule : dict) (r : rule_result) : Prop :=
  dget "type" rule = Some (JStr (rr_type r))
  ∧ (JStr (rr_path r) = dget_or "path" (JStr "") rule ∨ rr_path r = "")
  ∧ rr_message r ∈ RULE_MESSAGES.

Section EngineProofs.
Context (check_schema : json → bool) (schema_valid : json → json → bool).

Lemma schema_is_object schema : validate_schema check_schema schema = Ok tt → ∃ d, schema = JObj d.
Proof.
  unfold validate_schema. intros Hv. apply result_bind_ok in Hv as (? & Hl & _).
  cbn in Hl. destruct schema; try done. eauto.
Qed.

Lemma evaluate_rule_ok rule payload latency :
  validate_rule check_schema rule = Ok tt → plain_path rule →
  ∃ r, _evaluate_rule schema_valid rule payload latency = Ok r ∧ reports rule r.
Proof.
  unfold validate_rule, plain_path, _evaluate_rule, reports. intros Hv Hp.
  destruct (dget "type" rule) as [[| | |kind| |]|] eqn:Ek; try done.
  destruct (dget_or "path" (JStr "") rule) as [| | |path| |] eqn:Ep;
    try (by destruct (rule_fields kind); [destruct (only_keys _ _)|]).
  cbn. destruct (value_at_path_plain payload path Hp) as [found Hfound]. rewrite Hfound.
  unfold rule_fields, validate_kind in Hv.
  repeat case_bool_decide; subst; try done; cbn in Hv |- *;
    (destruct (only_keys _ _) in Hv; [|done]); cbn in Hv;
    (destruct (_ && _) in Hv; [|done]); cbn in Hv.
  - eexists; split; [done|]. cbn. split_and!; [done|by left|]. split_match; by apply (bool_decide_unpack _).
  - unfold dget_or in Hv. apply schema_is_object in Hv as [d Hd].
    destruct (dget "schema" rule); cbn in Hd; [subst|done]. cbn.
    eexists; split; [done|]. repeat case_match; cbn; (split_and!; [done|by left|]);
      by apply (bool_decide_unpack _).
  - destruct (dget "max_ms" rule) as [[| |[b|]| | |]|]; try done.
    destruct (Z.leb_spec 0 b); [|done]. rewrite (proj2 (Z.ltb_ge _ _)) by done.
    eexists; split; [done|]. cbn. split_and!; [done|by right|]. split_match; by apply (bool_decide_unpack _).
  - destruct (dget "operator" rule) as [[| | |o| |]|]; try done.
    destruct (bool_decide (o ∈ rule_operators)) eqn:Ho; [|done]. bool_to_prop. cbn. eexists; split; [done|]. cbn.
    split_and!; [done|by left|].
    assert (o = "exists" ∨ o = "equals" ∨ o = "not_equals" ∨ o = "contains") as Hc
      by (unfold rule_operators in Ho; set_solver).
    split_match; destruct_or! Hc; subst; by apply (bool_decide_unpack _).
Qed.

(** Validation at admission is complete for the engine: once [validate_rules] accepts
    the rules and the payload is within bounds, [evaluate_rules] cannot fail on any rule
    (for paths without superscript digits).  It returns one result per rule in order, the
    verdict is the conjunction of the rules, and each result carries only the rule's own
    type and path and one of a fixed set of messages: nothing of the provider's response. *)
Theorem validated_rules_evaluate rules payload latency :
  validate_rules check_schema rules = Ok tt →
  bounded_value (JObj payload) 10000 16 = Ok tt →
  Forall plain_path rules →
  ∃ o, evaluate_rules check_schema schema_valid rules payload latency = Ok o
       ∧ Forall2 reports rules (rule_results o)
       ∧ (passed o = true ↔ Forall (λ r, rr_passed r = true) (rule_results o)).
Proof.
  intros Hv Hb Hp. unfold evaluate_rules. rewrite Hv, Hb. cbn.
  unfold validate_rules in Hv. inv_result.
  match goal with Hf : for_each _ _ = _ |- _ => apply for_each_ok in Hf; rename Hf into Hr end.
  assert (∃ rs, result_map (λ rule, _evaluate_rule schema_valid rule (JObj payload) latency) rules
                = Ok rs ∧ Forall2 reports rules rs) as (rs & Hrs & Hrep).
  { clear - Hr Hp. induction Hr as [|rule rules Hrule Hrules IH]; [exists []; split; [done|constructor]|].
    apply Forall_cons in Hp as [Hp1 Hp2]. destruct (IH Hp2) as (rs & Hrs & Hrep).
    destruct (evaluate_rule_ok rule (JObj payload) latency Hrule Hp1) as (r & Hr1 & Hr2).
    exists (r :: rs). cbn. rewrite Hr1. cbn. rewrite Hrs. split; [done|by constructor]. }
  rewrite Hrs. eexists; split; [done|]. split; [done|]. cbn.
  rewrite forallb_forall, Forall_forall. by setoid_rewrite list_elem_of_In.
Qed.
End EngineProofs.

Definition sample_rules : list dict :=
  [ [("type", JStr "non_empty"); ("path", JStr "answer")];
    [("type", JStr "rule"); ("path", JStr "items.0"); ("operator", JStr "equals");
     ("value", JNum (NInt 1))];
    [("type", JStr "latency_budget"); ("max_ms", JNum (NInt 250))] ].
Definition sample_payload : dict := [("answer", JStr "42"); ("items", JArr [JBool true])].

Lemma validated_rules_evaluate_witness :
  ∃ o, evaluate_rules (λ _, true) (λ _ _, true) sample_rules sample_payload (Some 200) = Ok o
       ∧ Forall2 reports sample_rules (rule_results o)
       ∧ (passed o = true ↔ Forall (λ r, rr_passed r = true) (rule_results o)).
Proof.
  apply (validated_rules_evaluate (λ _, true) (λ _ _, true) sample_rules sample_payload (Some 200)).
  - reflexivity.
  - reflexivity.
  - repeat constructor.
Defined.

(** A rule whose path indexes an array with the superscript digit two. *)
Definition superscript_rule : dict :=
  [("type", JStr "non_empty"); ("path", JStr ("items." +:+ String (Ascii.ascii_of_nat 178) ""))].

(** [_value_at_path] raises on a superscript digit: ["\xb2".isdigit()] holds but
    [int("\xb2")] raises [ValueError], so with a rule that [validate_rules] accepts
    [evaluate_rules] raises instead of reporting that the path was not found. *)
Theorem superscript_path_raises schema_valid latency :
  validate_rules (λ _, true) [superscript_rule] = Ok tt
  ∧ evaluate_rules (λ _, true) schema_valid [superscript_rule] sample_payload latency
    = Err (ValueError "invalid literal for int()").
Proof. by split. Qed.
