(* ===== verification/Telemetry.v ===== *)
(** * Trace context

    [sanitize_trace_context] of [src/src/agent_runtime/observability/telemetry.py]:
    what survives of a W3C trace context that arrives in a request, in an outbox
    row or in a message. *)

From S2P Require Import Prelude Float64 PyValue.
Local Open Scope Z_scope.

Abbreviation chars := (list Ascii.ascii).

Definition between (lo hi : Z) (c : Ascii.ascii) : bool := (lo <=? Text.code c) && (Text.code c <=? hi).
Definition is_hex (c : Ascii.ascii) : bool := between 48 57 c || between 97 102 c.
Definition is_char (z : Z) (c : Ascii.ascii) : bool := Text.code c =? z.
(** [[a-z]], [[a-z0-9]] and [[a-z0-9_*/-]]. *)
Definition is_lower (c : Ascii.ascii) : bool := between 97 122 c.
Definition is_alnum (c : Ascii.ascii) : bool := is_lower c || between 48 57 c.
Definition is_key_char (c : Ascii.ascii) : bool :=
  is_alnum c || bool_decide (Text.code c ∈ [95; 42; 47; 45]).

(** Matching one character class after the other, as [re.fullmatch] does on a pattern
    of fixed length. *)
Fixpoint match_classes (ps : list (Ascii.ascii → bool)) (l : chars) : bool :=
  match ps, l with
  | [], [] => true
  | p :: ps', c :: l' => p c && match_classes ps' l'
  | _, _ => false
  end.

(** [00-[0-9a-f]{32}-[0-9a-f]{16}-0[0-3]]. *)
Definition traceparent_pattern : list (Ascii.ascii → bool) :=
  [is_char 48; is_char 48; is_char 45] ++ repeat is_hex 32 ++ [is_char 45] ++ repeat is_hex 16
  ++ [is_char 45; is_char 48; between 48 51].

(** [int(s, 16) == 0] of a string of hexadecimal digits. *)
Definition all_zero (l : chars) : bool := forallb (is_char 48) l.

Definition traceparent_ok (parent : chars) : bool :=
  match_classes traceparent_pattern parent
  && negb (all_zero (take 32 (drop 3 parent))) && negb (all_zero (take 16 (drop 36 parent))).

(** [s.strip(" \t")]. *)
Definition blank (c : Ascii.ascii) : bool := is_char 32 c || is_char 9 c.
Fixpoint drop_blanks (l : chars) : chars :=
  match l with
  | c :: l' => if blank c then drop_blanks l' else l
  | [] => []
  end.
Definition strip_blanks (l : chars) : chars := reverse (drop_blanks (reverse (drop_blanks l))).

(** [s.partition("=")]: the parts around the first separator, [None] without one. *)
Fixpoint partition_eq (l : chars) : option (chars * chars) :=
  match l with
  | [] => None
  | c :: l' =>
      if is_char 61 c then Some ([], l')
      else '(k, v) ← partition_eq l'; Some (c :: k, v)
  end.

(** [first rest{0,n}]. *)
Definition word (first rest : Ascii.ascii → bool) (n : Z) (l : chars) : bool :=
  match l with
  | c :: l' => first c && forallb rest l' && (len l' <=? n)
  | [] => false
  end.

(** The two alternatives of the key pattern; [@] is not a key character. *)
Definition key_ok (key : chars) : bool :=
  word is_lower is_key_char 255 key
  || match Text.split_on 64 key with
     | [tenant; system] => word is_alnum is_key_char 240 tenant && word is_lower is_key_char 13 system
     | _ => false
     end.

Definition value_ok (value : chars) : bool :=
  (1 <=? len value) && (len value <=? 256)
  && negb (match last value with Some c => is_char 32 c | None => false end)
  && forallb (λ c, between 32 126 c && negb (is_char 44 c) && negb (is_char 61 c)) value.

(** The loop over the entries, with the keys seen so far. *)
Fixpoint entries_ok (seen : list chars) (entries : list chars) : bool :=
  match entries with
  | [] => true
  | entry :: rest =>
      match partition_eq (strip_blanks entry) with
      | None => false
      | Some (key, value) =>
          negb (bool_decide (key ∈ seen)) && key_ok key && value_ok value && entries_ok (key :: seen) rest
      end
  end.

Definition tracestate_ok (state : chars) : bool :=
  negb (bool_decide (state = [])) && (len state <=? 512)
  && (let entries := Text.split_on 44 state in (len entries <=? 32) && entries_ok [] entries).

Definition sanitize_trace_context (carrier : dict) : dict :=
  match dget_or "traceparent" (JStr "") carrier with
  | JStr parent =>
      if traceparent_ok (Text.to_list parent) then
        ("traceparent", JStr parent) ::
        match dget_or "tracestate" (JStr "") carrier with
        | JStr state => if tracestate_ok (Text.to_list state) then [("tracestate", JStr state)] else []
        | _ => []
        end
      else []
  | _ => []
  end.

#[local] Arguments traceparent_ok : simpl never.
#[local] Arguments tracestate_ok : simpl never.

(** ** Properties *)

Lemma match_classes_length ps l : match_classes ps l = true → length l = length ps.
Proof. revert l. induction ps as [|p ps IH]; intros [|c l]; cbn; try done. intros ?. bool_to_prop. by f_equal; apply IH. Qed.

Lemma traceparent_ok_length parent : traceparent_ok parent = true → len parent = 55.
Proof.
  unfold traceparent_ok. intros Hp. bool_to_prop. unfold len.
  match goal with Hm : match_classes _ _ = true |- _ => apply match_classes_length in Hm; by rewrite Hm end.
Qed.

Lemma sanitize_shape carrier :
  let out := sanitize_trace_context carrier in
  out = [] ∨ ∃ parent, traceparent_ok (Text.to_list parent) = true ∧
    (out = [("traceparent", JStr parent)]
     ∨ ∃ state, out = [("traceparent", JStr parent); ("tracestate", JStr state)]
         ∧ tracestate_ok (Text.to_list state) = true).
Proof.
  cbv zeta. unfold sanitize_trace_context.
  destruct (dget_or "traceparent" (JStr "") carrier) as [| | |parent| |]; auto.
  destruct (traceparent_ok (Text.to_list parent)) eqn:Hp; [|auto].
  right. exists parent. split; [done|].
  destruct (dget_or "tracestate" (JStr "") carrier) as [| | |state| |]; auto.
  destruct (tracestate_ok (Text.to_list state)) eqn:Hs; eauto.
Qed.

(** Sanitizing is idempotent and bounded: whatever a client, an outbox row or a broker
    message supplies, what remains is a dictionary with at most the keys [traceparent]
    (exactly 55 characters of the version-00 format with non-zero identifiers) and
    [tracestate] (1 to 512 characters), both strings, and sanitizing it again changes
    nothing, so a context survives every hop of the pipeline once accepted. *)
Theorem sanitize_trace_context_stable carrier :
  let out := sanitize_trace_context carrier in
  sanitize_trace_context out = out
  ∧ (out = [] ∨ ∃ parent, Text.to_list parent ≠ [] ∧ traceparent_ok (Text.to_list parent) = true
       ∧ len (Text.to_list parent) = 55
       ∧ (out = [("traceparent", JStr parent)]
          ∨ ∃ state, out = [("traceparent", JStr parent); ("tracestate", JStr state)]
              ∧ 1 ≤ len (Text.to_list state) ≤ 512)).
Proof.
  cbv zeta. destruct (sanitize_shape carrier) as [->|(parent & Hp & [->|(state & -> & Hs)])];
    [by split; [|left]|..]; pose proof (traceparent_ok_length _ Hp) as Hlen;
    (assert (Text.to_list parent ≠ []) as Hne by (intros Hnil; by rewrite Hnil in Hlen)).
  - split; [|right; exists parent; auto]. unfold sanitize_trace_context.
    change (dget_or "traceparent" (JStr "") [("traceparent", JStr parent)]) with (JStr parent).
    cbv iota. by rewrite Hp.
  - split; [|right; exists parent].
    { unfold sanitize_trace_context. set (out := [_; _]).
      change (dget_or "traceparent" (JStr "") out) with (JStr parent).
      change (dget_or "tracestate" (JStr "") out) with (JStr state). cbv iota. by rewrite Hp, Hs. }
    split_and!; [done..|]. right. exists state. split; [done|].
    unfold tracestate_ok in Hs. bool_to_prop. split; [|done].
    destruct (Text.to_list state); [done|]. unfold len. cbn. lia.
Qed.
