(* ===== verification/Observability.v ===== *)
(** * Diagnostics

    [src/src/agent_runtime/observability/]: the context kept of an exception ([exceptions.py]), the
    log formatter ([logging.py]), the metric instruments ([metrics.py]), and the heartbeat of the
    background processes with its probe ([heartbeat.py], [healthcheck_cli.py]). *)

From S2P Require Import Prelude Float64 PyValue Retry Models Canonical Telemetry.
Local Open Scope Z_scope.

(** ** Exceptions *)

(** A frame of a traceback: [__name__] of its globals when that is a string, its line, and its
    locals. *)
Record Frame := { f_module : option string; f_lineno : Z; f_locals : list (string * string) }.

(** An exception: the class names along [type(exc).__mro__], [str(exc)] and the traceback, the
    outermost frame first. *)
Record PyException := { e_mro : list string; e_message : string; e_traceback : list Frame }.

Record exception_context := { exception_type : string; exception_frames : list string }.

Definition known_exceptions : list string :=
  ["TimeoutError"; "ConnectionError"; "ValueError"; "RuntimeError"; "TypeError"; "OperationalError";
   "IntegrityError"; "DBAPIError"; "QuotaExceededError"; "ProviderExecutionError";
   "EvaluationConfigurationError"].

(** [s.startswith(prefix)]. *)
Definition starts_with (prefix s : string) : bool := String.prefix prefix s.

Definition own_frame (f : Frame) : option string :=
  match f_module f with
  | Some m => if starts_with "agent_runtime." m
              then Some (m +:+ ":" +:+ Text.of_list (int_repr (f_lineno f))) else None
  | None => None
  end.

(** [l[-n:]]. *)
Definition last_n {A} (n : nat) (l : list A) : list A := drop (length l - n) l.

Definition safe_exception_context (exc : PyException) : exception_context :=
  {| exception_type := default "Exception" (head (filter (λ n, n ∈ known_exceptions) (e_mro exc)));
     exception_frames := last_n 8 (omap own_frame (e_traceback exc)) |}.

(** ** Logging *)

(** A log record: what the formatter reads of it and what it does not.  [lr_attr] gives
    [str(value)] of an attribute that is present and not [None]; [lr_exception] are the attributes
    [exception_type] and [exception_frames] that [extra] may set. *)
Record LogRecord := {
  lr_asctime : string;
  lr_levelname : string;
  lr_name : string;
  lr_msg : string;
  lr_args : list string;
  lr_attr : string → option string;
  lr_exc_info : option PyException;
  lr_exception : option (string * option (list string));
}.

Definition _SAFE_LOG_FIELDS : list string := ["event"; "run_id"; "attempt_id"; "provider"; "error_code"].

Definition strings_json (l : list string) : json := JArr (JStr <$> l).

Definition context_fields (c : exception_context) : dict :=
  [("exception_type", JStr (exception_type c)); ("exception_frames", strings_json (exception_frames c))].

(** [format(z, "032x")] and [format(z, "016x")]. *)
Fixpoint hex_digits (n : nat) (z : Z) : chars :=
  match n with O => [] | S n => hex_digits n (z / 16) ++ [hex_digit (z mod 16)] end.
Definition hex_text (n : nat) (z : Z) : string := Text.of_list (hex_digits n z).

(** A valid span context: a non-zero 128-bit trace and 64-bit span identifier. *)
Record SpanContext := { trace_id : Z; span_id : Z }.

Definition log_payload (span : option SpanContext) (r : LogRecord) : dict :=
  let base := [("timestamp", JStr (lr_asctime r)); ("level", JStr (lr_levelname r));
               ("logger", JStr (lr_name r)); ("message", JStr "runtime event")] in
  let fields := omap (λ f, v ← lr_attr r f; Some (f, JStr v)) _SAFE_LOG_FIELDS in
  let failure :=
    match lr_exc_info r with
    | Some exc => context_fields (safe_exception_context exc)
    | None =>
        match lr_exception r with
        | Some (kind, frames) =>
            context_fields {| exception_type := kind; exception_frames := default [] frames |}
        | None => []
        end
    end in
  let ids := match span with
             | Some c => [("trace_id", JStr (hex_text 32 (trace_id c))); ("span_id", JStr (hex_text 16 (span_id c)))]
             | None => []
             end in
  base ++ fields ++ failure ++ ids.

(** [json.dumps] escapes every character outside printable ASCII. *)
Definition ensure_ascii (l : chars) : chars :=
  l ≫= λ c, if between 32 126 c then [c]
            else let z := Text.code c in
                 backslash :: Text.to_list "u00" ++ [hex_digit (z / 16); hex_digit (z mod 16)].

Section Logging.
Context `{FloatRepr}.
(** [JsonFormatter.format]. *)
Definition log_line (span : option SpanContext) (r : LogRecord) : chars :=
  ensure_ascii (dumps (JObj (log_payload span r))).
End Logging.

(** [record_safe_exception]: what the span and the log record of a failure carry. *)
Definition join_lines (l : list string) : string := String.concat (String (Ascii.ascii_of_nat 10) "") l.

Definition span_attributes (exc : PyException) : dict :=
  let c := safe_exception_context exc in
  [("exception.type", JStr (exception_type c));
   ("exception.stacktrace", JStr (join_lines (exception_frames c)));
   ("exception.escaped", JBool false)].

Definition failure_record (asctime : string) (exc : PyException) (event : string) : LogRecord :=
  let c := safe_exception_context exc in
  {| lr_asctime := asctime; lr_levelname := "ERROR"; lr_name := "agent_runtime.observability.exceptions";
     lr_msg := "runtime failure"; lr_args := [];
     lr_attr := λ f, if bool_decide (f = "event") then Some event else None;
     lr_exc_info := None; lr_exception := Some (exception_type c, Some (exception_frames c)) |}.

(** ** Metrics *)

Definition _KNOWN_PROVIDERS : list string := ["deterministic"; "openai"].
Definition _KNOWN_ERROR_CODES : list string := error_code_value <$> all_error_codes.
Definition _KNOWN_DB_OPERATIONS : list string :=
  ["submit"; "get_run"; "get_attempts"; "get_events"; "get_evaluations"; "evaluate"; "replay"].
Definition _KNOWN_CATEGORIES : list string :=
  ["auth"; "rate_limit"; "audit_write"; "quota"; "sensitive_read"; "trace_context"].
Definition _KNOWN_OUTCOMES : list string := ["allowed"; "denied"; "error"; "success"; "dropped"].

Definition known_or_other (known : list string) (s : string) : string :=
  if bool_decide (s ∈ known) then s else "other".

Definition safe_provider (provider : string) : string := known_or_other _KNOWN_PROVIDERS provider.
Definition safe_error_code (error_code : option string) : string :=
  match error_code with None => "none" | Some c => known_or_other _KNOWN_ERROR_CODES c end.
Definition safe_route (route : option string) : string :=
  match route with Some r => if bool_decide (r = "") then "unmatched" else r | None => "unmatched" end.
Definition safe_db_operation (operation : string) : string := known_or_other _KNOWN_DB_OPERATIONS operation.
Definition status_class (status_code : Z) : string :=
  Text.of_list (int_repr (status_code / 100)) +:+ "xx".

(** Bucket boundaries, in units of 0.0001 s. *)
Definition HTTP_DURATION_BUCKETS : list Z :=
  [50; 100; 250; 500; 750; 1000; 2500; 5000; 7500; 10000; 25000; 50000; 75000; 100000].
Definition INTERNAL_DURATION_BUCKETS : list Z :=
  [5; 10; 25; 50; 100; 250; 500; 1000; 2500; 5000; 10000; 25000; 50000].
Definition SLOW_OPERATION_BUCKETS : list Z :=
  [500; 1000; 2500; 5000; 10000; 25000; 50000; 100000; 300000; 600000; 1200000; 3000000].

(** The instruments [RuntimeMetrics.__init__] creates: a counter, or a histogram with its
    boundaries. *)
Inductive instrument := Counter (name unit : string) | Histogram (name unit : string) (boundaries : list Z).
#[export] Instance instrument_eq_dec : EqDecision instrument.
Proof. solve_decision. Defined.

Definition _runs_submitted := Counter "arr.runs.submitted" "{run}".
Definition _attempts_started := Counter "arr.attempts.started" "{attempt}".
Definition _attempts_completed := Counter "arr.attempts.completed" "{attempt}".
Definition _retries_scheduled := Counter "arr.retries.scheduled" "{retry}".
Definition _provider_fallbacks := Counter "arr.provider.fallbacks" "{fallback}".
Definition _outbox_dispatches := Counter "arr.outbox.dispatches" "{event}".
Definition _security := Counter "arr.security.events" "{event}".
Definition _provider_calls := Counter "arr.provider.calls" "{call}".
Definition _http_duration := Histogram "http.server.request.duration" "s" HTTP_DURATION_BUCKETS.
Definition _db_duration := Histogram "arr.db.operation.duration" "s" INTERNAL_DURATION_BUCKETS.
Definition _provider_duration := Histogram "arr.provider.call.duration" "s" SLOW_OPERATION_BUCKETS.
Definition _outbox_lag := Histogram "arr.outbox.lag" "s" SLOW_OPERATION_BUCKETS.

(** The methods of [RuntimeMetrics]. *)
Inductive metric_call :=
| http_request (route : option string) (method : string) (status_code : Z) (seconds : f64)
| db_operation (operation : string) (seconds : f64)
| provider_call_duration (provider : string) (seconds : f64)
| outbox_lag (event_type : string) (seconds : f64)
| security_event (category outcome : string)
| provider_call (provider : string)
| run_submitted (provider : string)
| attempt_started (provider : string)
| attempt_completed (provider outcome : string) (error_code : option string)
| retry_scheduled (error_code : string)
| provider_fallback (from_provider to_provider : string)
| outbox_dispatch (event_type outcome : string).

Record measurement := { ms_instrument : instrument; ms_value : num; ms_attributes : list (string * string) }.

Definition add (i : instrument) (attributes : list (string * string)) : measurement :=
  {| ms_instrument := i; ms_value := NInt 1; ms_attributes := attributes |}.
Definition record (i : instrument) (seconds : f64) (attributes : list (string * string)) : measurement :=
  {| ms_instrument := i; ms_value := NFloat seconds; ms_attributes := attributes |}.

Definition emit (c : metric_call) : measurement :=
  match c with
  | http_request route method status_code seconds =>
      record _http_duration seconds
        [("http.route", safe_route route); ("http.request.method", method);
         ("http.response.status_class", status_class status_code)]
  | db_operation operation seconds => record _db_duration seconds [("operation", safe_db_operation operation)]
  | provider_call_duration provider seconds => record _provider_duration seconds [("provider", safe_provider provider)]
  | outbox_lag event_type seconds => record _outbox_lag seconds [("event_type", event_type)]
  | security_event category outcome =>
      add _security [("category", known_or_other _KNOWN_CATEGORIES category);
                     ("outcome", known_or_other _KNOWN_OUTCOMES outcome)]
  | provider_call provider => add _provider_calls [("provider", safe_provider provider)]
  | run_submitted provider => add _runs_submitted [("provider", safe_provider provider)]
  | attempt_started provider => add _attempts_started [("provider", safe_provider provider)]
  | attempt_completed provider outcome error_code =>
      add _attempts_completed [("provider", safe_provider provider); ("outcome", outcome);
                               ("error_code", safe_error_code error_code)]
  | retry_scheduled error_code => add _retries_scheduled [("error_code", safe_error_code (Some error_code))]
  | provider_fallback from_provider to_provider =>
      add _provider_fallbacks [("from_provider", safe_provider from_provider);
                               ("to_provider", safe_provider to_provider)]
  | outbox_dispatch event_type outcome => add _outbox_dispatches [("event_type", event_type); ("outcome", outcome)]
  end.

(** ** Heartbeats *)

(** The contents of a file: bytes that are not UTF-8, text that is not JSON, or the value the
    text denotes. *)
Inductive content := Undecodable | NotJson | Json (v : json).
Abbreviation files := (gmap string content).

Definition HEARTBEAT_SCHEMA_VERSION : string := "arr-heartbeat.v1".

Record HeartbeatStatus := { hs_component : string; hs_age_seconds : f64 }.

Definition is_fresh (max_age_seconds : f64) (s : HeartbeatStatus) : bool :=
  num_le (NInt 0) (NFloat (hs_age_seconds s)) && num_le (NFloat (hs_age_seconds s)) (NFloat max_age_seconds).

Record Heartbeat := { hb_path : option string; hb_component : string }.
Definition enabled (h : Heartbeat) : bool := match hb_path h with Some _ => true | None => false end.

Definition heartbeat_payload (h : Heartbeat) (now : f64) : json :=
  JObj [("schema_version", JStr HEARTBEAT_SCHEMA_VERSION); ("component", JStr (hb_component h));
        ("timestamp", JNum (NFloat now))].

(** Where the file system refuses: creating the directory or the temporary file, writing it
    (leaving [partial] behind), or the rename. *)
Inductive fault := MkdirFails | TempFails | WriteFails (partial : content) | ReplaceFails.

(** [_write_atomically]: the states the file system goes through, the first being the one it
    starts from, and whether an [OSError] is raised.  [tmp] is the fresh name
    [NamedTemporaryFile] chose. *)
Definition _write_atomically (path tmp : string) (payload : content) (f : option fault) (fs : files)
    : list files * bool :=
  match f with
  | Some MkdirFails | Some TempFails => ([fs], false)
  | Some (WriteFails partial) =>
      ([fs; <[tmp := NotJson]> fs; <[tmp := partial]> fs; delete tmp fs], false)
  | Some ReplaceFails =>
      ([fs; <[tmp := NotJson]> fs; <[tmp := payload]> fs; delete tmp fs], false)
  | None =>
      ([fs; <[tmp := NotJson]> fs; <[tmp := payload]> fs; <[path := payload]> (delete tmp fs)], true)
  end.

(** [beat]: a failure to write is not raised. *)
Definition beat (h : Heartbeat) (now : f64) (tmp : string) (f : option fault) (fs : files) : list files :=
  match hb_path h with
  | None => [fs]
  | Some path => fst (_write_atomically path tmp (Json (heartbeat_payload h now)) f fs)
  end.

Definition unicode_decode_error : exn := ValueError "UnicodeDecodeError".

(** [float(timestamp)] of an [int] or [float]; [isinstance] also accepts booleans, refused after. *)
Definition float_of_num (n : num) : result f64 :=
  match n with NInt z => float_of_int z | NFloat f => Ok f end.

Definition read_heartbeat (path : string) (now : f64) (fs : files) : result (option HeartbeatStatus) :=
  match fs !! path with
  | None => Ok None
  | Some Undecodable => Err unicode_decode_error
  | Some NotJson => Ok None
  | Some (Json (JObj payload)) =>
      match dget "component" payload, dget "timestamp" payload with
      | Some (JStr component), Some (JNum timestamp) =>
          t ← float_of_num timestamp;
          Ok (Some {| hs_component := component; hs_age_seconds := f64_sub now t |})
      | _, _ => Ok None
      end
  | Some (Json _) => Ok None
  end.

(** *** The probe *)

(** How the command ends: [print] and a zero status, [SystemExit] with a message (status 1), or an
    exception nobody catches (status 1). *)
Inductive exit := Exits0 | SystemExits (message : string) | Uncaught (e : exn).

(** [healthcheck_cli.main]: [--path], [APP_HEARTBEAT_PATH], [--max-age]; the ages in the messages
    are left out. *)
Definition healthcheck (arg_path env_path : option string) (max_age now : f64) (fs : files) : exit :=
  let nonempty o := x ← o; if bool_decide (x = "") then None else Some x in
  match (match nonempty arg_path with Some p => Some p | None => nonempty env_path end) with
  | None => SystemExits "heartbeat path is not configured; set APP_HEARTBEAT_PATH or --path"
  | Some path =>
      match read_heartbeat path now fs with
      | Err e => Uncaught e
      | Ok None => SystemExits ("no readable heartbeat at " +:+ path)
      | Ok (Some status) =>
          if is_fresh max_age status then Exits0 else SystemExits (hs_component status +:+ " heartbeat is old")
      end
  end.

(** ** Theorems *)

Definition printable (c : Ascii.ascii) : Prop := between 32 126 c = true.

Lemma hex_digit_printable n : 0 <= n < 16 → printable (hex_digit n).
Proof.
  intros Hn. assert (n ∈ seqZ 0 16) as Hin by (apply elem_of_seqZ; lia).
  vm_compute in Hin. repeat (apply elem_of_cons in Hin as [->|Hin]; [reflexivity|]).
  by apply elem_of_nil in Hin.
Qed.

Lemma ensure_ascii_printable l : Forall printable (ensure_ascii l).
Proof.
  unfold ensure_ascii. apply Forall_bind, Forall_true. intros c. unfold compose. cbv beta zeta.
  case_match; [constructor; [done|constructor]|].
  pose proof (code_range c) as Hr.
  repeat (apply Forall_cons; split); try reflexivity; try apply Forall_nil, I; apply hex_digit_printable.
  - split; [apply Z.div_pos; lia|apply Z.div_lt_upper_bound; lia].
  - apply Z.mod_pos_bound. lia.
Qed.

(** Two exceptions, or two records, that differ only in what must not be shown. *)
Definition same_shape (e1 e2 : PyException) : Prop :=
  e_mro e1 = e_mro e2 ∧ omap own_frame (e_traceback e1) = omap own_frame (e_traceback e2).

Record same_public (r1 r2 : LogRecord) : Prop := {
  sp_asctime : lr_asctime r1 = lr_asctime r2;
  sp_levelname : lr_levelname r1 = lr_levelname r2;
  sp_name : lr_name r1 = lr_name r2;
  sp_attr : ∀ f, f ∈ _SAFE_LOG_FIELDS → lr_attr r1 f = lr_attr r2 f;
  sp_exc_info : option_Forall2 same_shape (lr_exc_info r1) (lr_exc_info r2);
  sp_exception : lr_exception r1 = lr_exception r2;
}.

Lemma same_shape_context e1 e2 : same_shape e1 e2 → safe_exception_context e1 = safe_exception_context e2.
Proof. intros [Hm Hf]. unfold safe_exception_context. by rewrite Hm, Hf. Qed.

Lemma same_public_payload span r1 r2 : same_public r1 r2 → log_payload span r1 = log_payload span r2.
Proof.
  intros [Ht Hl Hn Ha Hx He]. unfold log_payload. rewrite Ht, Hl, Hn, He.
  assert (omap (λ f, v ← lr_attr r1 f; Some (f, JStr v)) _SAFE_LOG_FIELDS
          = omap (λ f, v ← lr_attr r2 f; Some (f, JStr v)) _SAFE_LOG_FIELDS) as ->.
  { unfold _SAFE_LOG_FIELDS in *. cbn. by rewrite !Ha by set_solver. }
  destruct Hx as [e1 e2 Hs|]; [|done]. by rewrite (same_shape_context _ _ Hs).
Qed.

(** (C22) A log line shows the time, the level, the logger, the five allowlisted fields, the class of an
    exception and the program's own frames, and nothing else: records that agree on these give
    the same line, whatever their message, their arguments, their other attributes, and the
    message, locals and foreign frames of their exception.  It is one line of printable ASCII. *)
Theorem log_line_discloses_only_allowlist `{FloatRepr} span r1 r2 :
  same_public r1 r2 →
  log_line span r1 = log_line span r2 ∧ Forall printable (log_line span r1).
Proof.
  intros Hs. unfold log_line. rewrite (same_public_payload _ _ _ Hs).
  split; [done|]. apply ensure_ascii_printable.
Qed.

Lemma prefix_append p m x : String.prefix p m = true → String.prefix p (m +:+ x) = true.
Proof.
  revert m. induction p as [|c p IH]; intros [|c' m] Hp; try done; [by destruct x|].
  change (String c' m +:+ x) with (String c' (m +:+ x)). cbn in *.
  destruct (Ascii.ascii_dec c c'); [by apply IH|done].
Qed.

(** The context of an exception: an allowlisted class, at most eight frames, all the program's. *)
Lemma exception_context_bounded exc :
  exception_type (safe_exception_context exc) ∈ "Exception" :: known_exceptions
  ∧ (length (exception_frames (safe_exception_context exc)) ≤ 8)%nat
  ∧ Forall (λ f, starts_with "agent_runtime." f = true) (exception_frames (safe_exception_context exc)).
Proof.
  split_and!; cbn [safe_exception_context exception_type exception_frames].
  - destruct (filter _ (e_mro exc)) as [|n l] eqn:E; cbn; [by left|]. right.
    assert (n ∈ filter (λ n, n ∈ known_exceptions) (e_mro exc)) as Hn by (rewrite E; by left).
    by apply list_elem_of_filter in Hn as [? _].
  - unfold last_n. rewrite length_drop. lia.
  - apply Forall_drop, Forall_forall. intros f (fr & _ & Hf)%list_elem_of_omap.
    unfold own_frame in Hf. destruct (f_module fr) as [m|]; [|done].
    destruct (starts_with "agent_runtime." m) eqn:E; [|done]. injection Hf as <-.
    by apply prefix_append.
Qed.

(** *** Metrics *)

(** The label values the allowlists admit. *)
Definition safe_labels : list string :=
  "other" :: "none" :: "unmatched" :: _KNOWN_PROVIDERS ++ _KNOWN_ERROR_CODES ++ _KNOWN_DB_OPERATIONS
  ++ _KNOWN_CATEGORIES ++ _KNOWN_OUTCOMES ++ ["1xx"; "2xx"; "3xx"; "4xx"; "5xx"].

(** The arguments that reach a label as they are. *)
Definition passed_through (c : metric_call) : list string :=
  match c with
  | http_request route method _ _ => option_list route ++ [method]
  | outbox_lag event_type _ => [event_type]
  | attempt_completed _ outcome _ => [outcome]
  | outbox_dispatch event_type outcome => [event_type; outcome]
  | _ => []
  end.

Definition http_status_ok (c : metric_call) : Prop :=
  match c with http_request _ _ status _ => 100 <= status < 600 | _ => True end.

Lemma known_or_other_safe known s : known ⊆ safe_labels → known_or_other known s ∈ safe_labels.
Proof. intros Hk. unfold known_or_other. case_bool_decide; [by apply Hk|]. by left. Qed.

Lemma safe_lists :
  _KNOWN_PROVIDERS ⊆ safe_labels ∧ _KNOWN_ERROR_CODES ⊆ safe_labels ∧ _KNOWN_DB_OPERATIONS ⊆ safe_labels
  ∧ _KNOWN_CATEGORIES ⊆ safe_labels ∧ _KNOWN_OUTCOMES ⊆ safe_labels.
Proof. split_and!; intros x Hx; unfold safe_labels; do 3 right; rewrite !elem_of_app; tauto. Qed.

Lemma safe_provider_safe p : safe_provider p ∈ safe_labels.
Proof. apply known_or_other_safe, safe_lists. Qed.
Lemma safe_db_operation_safe o : safe_db_operation o ∈ safe_labels.
Proof. apply known_or_other_safe, safe_lists. Qed.
Lemma category_safe c : known_or_other _KNOWN_CATEGORIES c ∈ safe_labels.
Proof. apply known_or_other_safe, safe_lists. Qed.
Lemma outcome_safe o : known_or_other _KNOWN_OUTCOMES o ∈ safe_labels.
Proof. apply known_or_other_safe, safe_lists. Qed.
Lemma safe_error_code_safe o : safe_error_code o ∈ safe_labels.
Proof. destruct o; [apply known_or_other_safe, safe_lists|]. right. by left. Qed.
Lemma safe_route_safe r : safe_route r ∈ safe_labels ∨ safe_route r ∈ option_list r.
Proof.
  assert ("unmatched" ∈ safe_labels) by (do 2 right; by left).
  destruct r as [r|]; [|by left]. cbn. case_bool_decide; [by left|]. right. by left.
Qed.

Lemma status_class_safe status : 100 <= status < 600 → status_class status ∈ safe_labels.
Proof.
  intros Hs. assert (status / 100 ∈ seqZ 1 5) as Hin.
  { apply elem_of_seqZ. split; [apply Z.div_le_lower_bound; lia|apply Z.div_lt_upper_bound; lia]. }
  unfold status_class. revert Hin. generalize (status / 100). intros z Hin. vm_compute in Hin.
  repeat (apply elem_of_cons in Hin as [->|Hin]; [apply (bool_decide_eq_true_1 _); vm_compute; reflexivity|]).
  by apply elem_of_nil in Hin.
Qed.

Create HintDb labels discriminated.
#[export] Hint Resolve safe_provider_safe safe_db_operation_safe category_safe outcome_safe
  safe_error_code_safe status_class_safe : labels.

(** Metrics keep a bounded number of series: every label of every measurement is one of the fixed
    safe labels, or one of the arguments the method passes through, of which there are the route
    template, the request method, an event type and an outcome; no provider, error code,
    operation, category or status code from outside becomes a label. *)
Theorem metric_labels_bounded c k v :
  http_status_ok c → (k, v) ∈ ms_attributes (emit c) → v ∈ safe_labels ∨ v ∈ passed_through c.
Proof.
  intros Hs Hin.
  assert (Forall (λ kv, kv.2 ∈ safe_labels ∨ kv.2 ∈ passed_through c) (ms_attributes (emit c))) as Hall.
  { destruct c; cbn [emit add record ms_attributes passed_through]; repeat (apply Forall_cons; split);
      try apply Forall_nil, I; cbn [snd];
      first [by left; auto with labels | by right; repeat first [by left | right] | idtac].
    - destruct (safe_route_safe route) as [?|?]; [by left|right]. by apply elem_of_app; left.
    - right. apply elem_of_app. right. by left. }
  rewrite Forall_forall in Hall. exact (Hall _ Hin).
Qed.

(** The request method is not filtered: methods that nobody serves open series of their own. *)
Lemma http_method_unbounded m1 m2 route status seconds :
  m1 ≠ m2 → ms_attributes (emit (http_request route m1 status seconds))
          ≠ ms_attributes (emit (http_request route m2 status seconds)).
Proof. intros Hne Heq. cbn in Heq. by injection Heq. Qed.

(** *** Heartbeats *)

(** A probe never sees a torn heartbeat: at every moment of a beat, whatever step the file system
    refuses, reading the file gives what it gave before the beat or the complete new heartbeat;
    other files are untouched, no temporary file stays, and the new heartbeat is there at the end
    exactly when nothing failed. *)
Theorem heartbeat_never_torn h path now tmp f fs later :
  hb_path h = Some path → tmp ≠ path → fs !! tmp = None →
  Forall (λ fs', (read_heartbeat path later fs' = read_heartbeat path later fs
                  ∨ read_heartbeat path later fs'
                    = Ok (Some {| hs_component := hb_component h; hs_age_seconds := f64_sub later now |}))
               ∧ ∀ p, p ≠ path → p ≠ tmp → fs' !! p = fs !! p) (beat h now tmp f fs)
  ∧ ∃ final, last (beat h now tmp f fs) = Some final ∧ final !! tmp = None
      ∧ final !! path = match f with None => Some (Json (heartbeat_payload h now)) | Some _ => fs !! path end.
Proof.
  intros Hp Hne Ht. unfold beat. rewrite Hp.
  assert (∀ p c, p ≠ tmp → <[tmp := c]> fs !! p = fs !! p) as Hins by (intros; by rewrite lookup_insert_ne).
  assert (∀ p, p ≠ tmp → delete tmp fs !! p = fs !! p) as Hdel by (intros; by rewrite lookup_delete_ne).
  unfold read_heartbeat.
  split.
  - destruct f as [[| |partial|]|]; cbn [_write_atomically fst]; repeat (apply Forall_cons; split);
      try apply Forall_nil; try done; split; intros; rewrite ?Hins, ?Hdel by done; auto.
    + right. by rewrite lookup_insert_eq.
    + rewrite lookup_insert_ne by done. by rewrite Hdel.
  - destruct f as [[| |partial|]|]; cbn [_write_atomically fst last]; eexists; split_and!; try reflexivity;
      rewrite ?lookup_delete_eq, ?Hdel by done; try done.
    + by rewrite lookup_insert_ne, lookup_delete_eq by done.
    + by rewrite lookup_insert_eq.
Qed.

(** The probe reports a process as alive exactly when the configured file holds a heartbeat whose
    age is between zero and the limit; a missing path, an unreadable or stale file, or a
    timestamp of the future all end with a non-zero status. *)
Theorem healthcheck_decides_freshness path max_age now fs :
  path ≠ "" →
  healthcheck None (Some path) max_age now fs = Exits0 ↔
  ∃ payload component timestamp t,
    fs !! path = Some (Json (JObj payload)) ∧ dget "component" payload = Some (JStr component)
    ∧ dget "timestamp" payload = Some (JNum timestamp) ∧ float_of_num timestamp = Ok t
    ∧ num_le (NInt 0) (NFloat (f64_sub now t)) = true ∧ num_le (NFloat (f64_sub now t)) (NFloat max_age) = true.
Proof.
  intros Hp. unfold healthcheck. cbn. rewrite bool_decide_false by done. cbn. unfold read_heartbeat. split.
  - intros He. destruct (fs !! path) as [[| |[| | | | |payload]]|] eqn:Hf; try done.
    destruct (dget "component" payload) as [[| | |component| |]|] eqn:Hc; try done.
    destruct (dget "timestamp" payload) as [[| |timestamp| | |]|] eqn:Hts; try done.
    destruct (float_of_num timestamp) as [t|e] eqn:Ht; cbn in He; [|done].
    destruct (is_fresh _ _) eqn:Hfr; [|done]. unfold is_fresh in Hfr. cbn in Hfr. bool_to_prop.
    by exists payload, component, timestamp, t.
  - intros (payload & component & timestamp & t & -> & -> & -> & Ht & H1 & H2). rewrite Ht. cbn.
    unfold is_fresh. cbn. by rewrite H1, H2.
Qed.

(** ** The theorems on concrete values *)

Definition demo_record (secret : string) : LogRecord :=
  {| lr_asctime := "2026-09-12T10:00:00+0000"; lr_levelname := "ERROR"; lr_name := "agent_runtime.api";
     lr_msg := secret; lr_args := [secret]; lr_attr := λ f, if bool_decide (f = "event") then Some "X" else None;
     lr_exc_info := Some {| e_mro := ["KeyError"; "LookupError"; "Exception"]; e_message := secret;
                            e_traceback := [{| f_module := Some "agent_runtime.api.main"; f_lineno := 12;
                                               f_locals := [("key", secret)] |}] |};
     lr_exception := None |}.

Lemma log_line_discloses_only_allowlist_witness :
  @log_line demo_repr None (demo_record "hunter2") = @log_line demo_repr None (demo_record "sk-live-1")
  ∧ Forall printable (@log_line demo_repr None (demo_record "hunter2")).
Proof.
  apply (@log_line_discloses_only_allowlist demo_repr None (demo_record "hunter2") (demo_record "sk-live-1")).
  split; try reflexivity. constructor. split; reflexivity.
Defined.

Lemma metric_labels_bounded_witness :
  let c := http_request None "GET" 404 (Fin 0) in
  http_status_ok c ∧ ("4xx" ∈ safe_labels ∨ "4xx" ∈ passed_through c).
Proof.
  cbv zeta. assert (100 <= 404 < 600) as Hs by lia. split; [exact Hs|].
  apply (metric_labels_bounded (http_request None "GET" 404 (Fin 0)) "http.response.status_class"); [exact Hs|].
  right. right. left.
Defined.

Definition demo_heartbeat : Heartbeat := {| hb_path := Some "/tmp/hb"; hb_component := "worker" |}.
Definition demo_files : files := {[ "/tmp/hb" := Json (heartbeat_payload demo_heartbeat (Fin 0)) ]}.

Lemma heartbeat_never_torn_witness :
  Forall (λ fs', (read_heartbeat "/tmp/hb" (Fin 0) fs' = read_heartbeat "/tmp/hb" (Fin 0) demo_files
                  ∨ read_heartbeat "/tmp/hb" (Fin 0) fs'
                    = Ok (Some {| hs_component := "worker"; hs_age_seconds := f64_sub (Fin 0) (Fin 0) |}))
               ∧ ∀ p, p ≠ "/tmp/hb" → p ≠ "/tmp/x" → fs' !! p = demo_files !! p)
    (beat demo_heartbeat (Fin 0) "/tmp/x" (Some ReplaceFails) demo_files)
  ∧ ∃ final, last (beat demo_heartbeat (Fin 0) "/tmp/x" (Some ReplaceFails) demo_files) = Some final
      ∧ final !! "/tmp/x" = None ∧ final !! "/tmp/hb" = demo_files !! "/tmp/hb".
Proof.
  apply (heartbeat_never_torn demo_heartbeat "/tmp/hb" (Fin 0) "/tmp/x" (Some ReplaceFails) demo_files (Fin 0));
    [reflexivity|discriminate|reflexivity].
Defined.

Lemma healthcheck_decides_freshness_witness :
  healthcheck None (Some "/tmp/hb") (Fin (60 * unit64)) (Fin unit64) demo_files = Exits0.
Proof.
  apply (healthcheck_decides_freshness "/tmp/hb" (Fin (60 * unit64)) (Fin unit64) demo_files); [discriminate|].
  exists [("schema_version", JStr HEARTBEAT_SCHEMA_VERSION); ("component", JStr "worker");
          ("timestamp", JNum (NFloat (Fin 0)))], "worker", (NFloat (Fin 0)), (Fin 0).
  split; [reflexivity|]. split; [reflexivity|]. split; [reflexivity|]. split; [reflexivity|].
  split; vm_compute; reflexivity.
Defined.
