(* ===== verification/Credentials.v ===== *)
(** * Credentials

    [src/src/agent_runtime/security/credentials.py]: credential records, how a registry entry is
    exported and read back, verifiers and key issuing.  HMAC, PBKDF2, the random tokens and
    Pydantic's coercions are parameters. *)

From S2P Require Import Prelude Float64 PyValue States Retry Models Quotas Canonical Telemetry.
Local Open Scope Z_scope.

(** ** Credential records *)

Definition HMAC_SCHEME : string := "hmac-sha256-v1".
Definition PBKDF2_SCHEME : string := "pbkdf2-sha256-v1".
Definition DEFAULT_SCHEME : string := HMAC_SCHEME.
Definition KDF_ITERATIONS : Z := 600000.

(** [[A-Za-z0-9]], [[A-Za-z0-9._:-]] and [[A-Za-z0-9_-]]. *)
Definition is_letter_digit (c : Ascii.ascii) : bool := is_alnum c || between 65 90 c.
Definition is_identity_char (c : Ascii.ascii) : bool :=
  is_letter_digit c || bool_decide (Text.code c ∈ [46; 95; 58; 45]).
Definition is_urlsafe (c : Ascii.ascii) : bool :=
  is_letter_digit c || bool_decide (Text.code c ∈ [95; 45]).

(** [[A-Za-z0-9][A-Za-z0-9._:-]{0,127}]. *)
Definition CLIENT_ID_PATTERN (s : string) : bool :=
  match Text.to_list s with
  | c :: l => is_letter_digit c && forallb is_identity_char l && (len l <=? 127)
  | [] => false
  end.

Definition hex_digits (n : nat) (s : string) : bool := match_classes (repeat is_hex n) (Text.to_list s).

(** [arr_([0-9a-f]{32})\.([A-Za-z0-9_-]{43})]; the value is the first group. *)
Definition key_classes : list (Ascii.ascii → bool) :=
  (is_char <$> [97; 114; 114; 95]) ++ repeat is_hex 32 ++ [is_char 46] ++ repeat is_urlsafe 43.
Definition KEY_PATTERN (raw_key : string) : option string :=
  let l := Text.to_list raw_key in
  if match_classes key_classes l then Some (Text.of_list (take 32 (drop 4 l))) else None.

Module CredentialRecord.
Record t := {
  key_id : string;
  principal_id : string;
  tenant_id : string;
  scheme : string;
  salt : string;
  verifier : string;
  enabled : bool;
  expires_at : option time;
}.

(** The field patterns of the model. *)
Definition valid (r : t) : bool :=
  hex_digits 32 (key_id r) && CLIENT_ID_PATTERN (principal_id r) && CLIENT_ID_PATTERN (tenant_id r)
  && bool_decide (scheme r ∈ [HMAC_SCHEME; PBKDF2_SCHEME]) && hex_digits 32 (salt r).

Definition is_active (now : time) (r : t) : bool :=
  enabled r && match expires_at r with None => true | Some t => now <? t end.
End CredentialRecord.

(** ** Registry entries *)

(** What Pydantic provides to read a record from JSON: the parser of the text, the coercion to
    [bool] outside strict mode, which keeps a boolean, and the reader of [AwareDatetime]. *)
Class RegistryReader := {
  json_loads : string → option json;
  lax_bool : json → option bool;
  aware_datetime : json → option time;
  lax_bool_bool : ∀ b, lax_bool (JBool b) = Some b;
}.

Definition record_fields : list string :=
  ["key_id"; "principal_id"; "tenant_id"; "scheme"; "salt"; "verifier"; "enabled"; "expires_at"].

Definition json_str (v : json) : option string := match v with JStr s => Some s | _ => None end.
(** A field: required, or with the default of the model. *)
Definition required {A} (k : string) (read : json → option A) (d : dict) : option A := v ← dget k d; read v.
Definition defaulted {A} (k : string) (a : A) (read : json → option A) (d : dict) : option A :=
  match dget k d with Some v => read v | None => Some a end.

Section Registry.
Context `{RegistryReader}.

Definition optional_datetime (v : json) : option (option time) :=
  match v with JNull => Some None | _ => Some <$> aware_datetime v end.

(** One entry, [extra="forbid"]. *)
Definition record_of_json (v : json) : option CredentialRecord.t :=
  match v with
  | JObj d =>
      if forallb (λ kv, bool_decide (kv.1 ∈ record_fields)) d then
        key_id ← required "key_id" json_str d;
        principal_id ← required "principal_id" json_str d;
        tenant_id ← required "tenant_id" json_str d;
        scheme ← defaulted "scheme" DEFAULT_SCHEME json_str d;
        salt ← required "salt" json_str d;
        verifier ← required "verifier" json_str d;
        enabled ← defaulted "enabled" true lax_bool d;
        expires_at ← defaulted "expires_at" None optional_datetime d;
        let record := {| CredentialRecord.key_id := key_id; CredentialRecord.principal_id := principal_id;
                         CredentialRecord.tenant_id := tenant_id; CredentialRecord.scheme := scheme;
                         CredentialRecord.salt := salt; CredentialRecord.verifier := verifier;
                         CredentialRecord.enabled := enabled; CredentialRecord.expires_at := expires_at |} in
        if CredentialRecord.valid record then Some record else None
      else None
  | _ => None
  end.

(** [tuple[CredentialRecord, ...]]. *)
Definition registry_of_json (v : json) : option (list CredentialRecord.t) :=
  match v with JArr l => mapM record_of_json l | _ => None end.

(** [registry_entry]: [model_dump(mode="json")] with the verifier in clear. *)
Definition registry_entry (dump_datetime : time → string) (r : CredentialRecord.t) : dict :=
  [("key_id", JStr (CredentialRecord.key_id r)); ("principal_id", JStr (CredentialRecord.principal_id r));
   ("tenant_id", JStr (CredentialRecord.tenant_id r)); ("scheme", JStr (CredentialRecord.scheme r));
   ("salt", JStr (CredentialRecord.salt r)); ("verifier", JStr (CredentialRecord.verifier r));
   ("enabled", JBool (CredentialRecord.enabled r));
   ("expires_at", match CredentialRecord.expires_at r with Some t => JStr (dump_datetime t) | None => JNull end)].

(** An exported entry reads back as the record. *)
Lemma registry_entry_reads dump_datetime r :
  CredentialRecord.valid r = true →
  (∀ e, CredentialRecord.expires_at r = Some e → aware_datetime (JStr (dump_datetime e)) = Some e) →
  record_of_json (JObj (registry_entry dump_datetime r)) = Some r.
Proof.
  intros Hv Hd. unfold record_of_json. change (forallb _ (registry_entry dump_datetime r)) with true. cbv iota.
  unfold required, defaulted. cbn.
  repeat match goal with |- context [bool_decide (?a = ?b :> string)] =>
    let x := eval vm_compute in (bool_decide (a = b)) in change (bool_decide (a = b)) with x; cbn end.
  rewrite lax_bool_bool. cbn.
  destruct (CredentialRecord.expires_at r) as [e|] eqn:Ee; cbn; rewrite ?(Hd e eq_refl); cbn;
    rewrite <- Ee; destruct r; cbn in *; by rewrite Hv.
Qed.
End Registry.

(** Bytes are characters.  [bytes.hex] and [bytes.fromhex]; the latter is applied to salts,
    which hold hexadecimal digits only. *)
Definition hex_byte (c : Ascii.ascii) : chars :=
  let z := Text.code c in [hex_digit (z / 16); hex_digit (z mod 16)].
Definition bytes_hex (l : chars) : string := Text.of_list (l ≫= hex_byte).

Lemma hex_digit_hex z : 0 ≤ z < 16 → is_hex (hex_digit z) = true.
Proof.
  intros Hz. assert (forallb (λ n, is_hex (hex_digit (Z.of_nat n))) (seq 0 16) = true) as Hall by by vm_compute.
  rewrite forallb_forall in Hall. specialize (Hall (Z.to_nat z)).
  rewrite Z2Nat.id in Hall by lia. apply Hall, in_seq. lia.
Qed.

Lemma hex_digits_bytes l n : length l = n → hex_digits (2 * n) (bytes_hex l) = true.
Proof.
  intros <-. unfold hex_digits, bytes_hex. rewrite Text.to_of_list. induction l as [|c l IH]; [done|].
  replace (2 * length (c :: l))%nat with (S (S (2 * length l))) by (cbn; lia). cbn.
  assert (0 ≤ Text.code c < 256) as Hc.
  { unfold Text.code. pose proof (Ascii.N_ascii_bounded c). lia. }
  rewrite !hex_digit_hex by (lia || (split; [apply Z.div_pos; lia|apply Z.div_lt_upper_bound; lia])
                             || (apply Z.mod_pos_bound; lia)).
  exact IH.
Qed.

Definition nibble (c : Ascii.ascii) : option Z :=
  if between 48 57 c then Some (Text.code c - 48)
  else if between 97 102 c then Some (Text.code c - 87)
  else if between 65 70 c then Some (Text.code c - 55) else None.

Fixpoint unhex (l : chars) : result chars :=
  match l with
  | [] => Ok []
  | h :: l' :: rest =>
      match nibble h, nibble l' with
      | Some x, Some y => bs ← unhex rest; Ok (Ascii.ascii_of_N (Z.to_N (16 * x + y)) :: bs)
      | _, _ => Err (ValueError "non-hexadecimal number found in fromhex()")
      end
  | [_] => Err (ValueError "non-hexadecimal number found in fromhex()")
  end.
Definition fromhex (s : string) : result chars := unhex (Text.to_list s).

(** What [hmac], [hashlib] and [secrets] provide.  A digest has 32 bytes; [token_hex(16)]
    is 32 hexadecimal digits and [token_urlsafe(32)] 43 characters of the URL-safe
    alphabet. *)
Class Crypto := {
  hmac_sha256 : chars → chars → chars;
  pbkdf2_sha256 : chars → chars → Z → chars;
  token_hex16 : nat → string;
  token_urlsafe32 : nat → string;
  hmac_length : ∀ k m, length (hmac_sha256 k m) = 32%nat;
  token_hex16_ok : ∀ i, hex_digits 32 (token_hex16 i) = true;
  token_urlsafe32_ok : ∀ i, match_classes (repeat is_urlsafe 43) (Text.to_list (token_urlsafe32 i)) = true;
}.

Definition nul : Ascii.ascii := Ascii.ascii_of_nat 0.
Definition encode (s : string) : chars := utf8 (Text.to_list s).

Section Credentials.
Context `{Crypto}.

Definition derive_verifier (raw_key salt pepper scheme : string) : result string :=
  if bool_decide (scheme = HMAC_SCHEME) then
    salt_bytes ← fromhex salt;
    Ok (bytes_hex (hmac_sha256 (encode pepper)
         (encode "arr-credential-hmac-v1" ++ [nul] ++ salt_bytes ++ [nul] ++ encode raw_key)))
  else if bool_decide (scheme = PBKDF2_SCHEME) then
    let material := hmac_sha256 (encode pepper) (encode "arr-credential-v1" ++ [nul] ++ encode raw_key) in
    salt_bytes ← fromhex salt;
    Ok (bytes_hex (pbkdf2_sha256 material salt_bytes KDF_ITERATIONS))
  else Err (ValueError ("Unsupported credential scheme: " +:+ scheme)).

(** [i] is the number of tokens the process has drawn so far. *)
Definition issue_credential (i : nat) (principal_id tenant_id pepper : string) (expires_at : option time)
    : result (string * CredentialRecord.t) :=
  raise_unless (32 <=? len (Text.to_list pepper))
    (ValueError "Credential pepper must contain at least 32 characters");;
  let key_id := token_hex16 i in
  let raw_key := "arr_" +:+ key_id +:+ "." +:+ token_urlsafe32 (i + 1) in
  let salt := token_hex16 (i + 2) in
  v ← derive_verifier raw_key salt pepper DEFAULT_SCHEME;
  let record := {| CredentialRecord.key_id := key_id; CredentialRecord.principal_id := principal_id;
                   CredentialRecord.tenant_id := tenant_id; CredentialRecord.scheme := DEFAULT_SCHEME;
                   CredentialRecord.salt := salt; CredentialRecord.verifier := v;
                   CredentialRecord.enabled := true; CredentialRecord.expires_at := expires_at |} in
  raise_unless (CredentialRecord.valid record) (ValueError "CredentialRecord");;
  Ok (raw_key, record).

(** ** Lemmas *)

Lemma match_classes_app ps qs l m :
  match_classes ps l = true → match_classes qs m = true → match_classes (ps ++ qs) (l ++ m) = true.
Proof.
  revert l. induction ps as [|p ps IH]; intros [|c l] Hl Hm; cbn in *; try done.
  apply andb_true_iff in Hl as [-> Hl]. by apply IH.
Qed.

Lemma issued_key_pattern i j :
  KEY_PATTERN ("arr_" +:+ token_hex16 i +:+ "." +:+ token_urlsafe32 j) = Some (token_hex16 i).
Proof.
  pose proof (token_hex16_ok i) as Hi. pose proof (token_urlsafe32_ok j) as Hj. unfold hex_digits in Hi.
  unfold KEY_PATTERN. rewrite !to_list_app. set (h := Text.to_list (token_hex16 i)) in *.
  assert (match_classes key_classes (Text.to_list "arr_" ++ h ++ Text.to_list "." ++ Text.to_list (token_urlsafe32 j)) = true) as ->.
  { unfold key_classes. repeat (apply match_classes_app; [done|]). done. }
  apply match_classes_length in Hi. rewrite repeat_length in Hi.
  change (drop 4 (Text.to_list "arr_" ++ ?l)) with l. rewrite take_app_le, take_ge by lia.
  unfold h. by rewrite Text.of_to_list.
Qed.
End Credentials.
