(* ===== verification/Settings.v ===== *)
(** * Settings

    [src/src/agent_runtime/settings.py]: the fields with their bounds, the scheme checks of the
    URLs and the checks across fields.  A URL is kept by its scheme, which is all the code
    inspects.  The credential registry is read from its JSON text by [registry_of_json] of
    [Credentials]; the parser of JSON text and Pydantic's coercions are parameters. *)

From S2P Require Import Prelude Float64 PyValue States Retry Models Quotas Canonical Telemetry Credentials.
From Stdlib Require Import DecimalString DecimalZ.
Local Open Scope Z_scope.

Inductive Environment := env_local | env_test | env_staging | env_production.
Inductive AuthMode := auth_disabled | auth_api_key.
Inductive AuditFailurePolicy := fail_closed | fail_open.
Inductive LogLevel := log_debug | log_info | log_warning | log_error.
#[export] Instance Environment_eq_dec : EqDecision Environment.
Proof. solve_decision. Defined.
#[export] Instance AuthMode_eq_dec : EqDecision AuthMode.
Proof. solve_decision. Defined.
#[export] Instance AuditFailurePolicy_eq_dec : EqDecision AuditFailurePolicy.
Proof. solve_decision. Defined.

Record Settings := {
  database_url : string;
  migration_database_url : option string;
  db_pool_size : Z;
  db_max_overflow : Z;
  db_pool_timeout_seconds : f64;
  redis_url : string;
  rabbitmq_url : string;
  allow_plaintext_transport : bool;
  openai_api_key : option string;
  openai_base_url : string;
  openai_default_model : string;
  environment : Environment;
  auth_mode : AuthMode;
  auth_credentials : option string;
  auth_pepper : option string;
  rate_limit_requests : Z;
  rate_limit_window_seconds : Z;
  max_request_bytes : Z;
  request_body_timeout_seconds : Z;
  regression_max_cases : Z;
  regression_provider_call_budget : Z;
  provider_max_output_tokens : Z;
  principal_concurrent_runs : Z;
  tenant_concurrent_runs : Z;
  principal_running_runs : Z;
  tenant_running_runs : Z;
  principal_provider_calls : Z;
  tenant_provider_calls : Z;
  quota_window_seconds : Z;
  audit_failure_policy : AuditFailurePolicy;
  audit_write_timeout_seconds : f64;
  trust_inbound_trace_context : bool;
  deterministic_echo_input : bool;
  payload_retention_days : Z;
  audit_retention_days : option Z;
  audit_purge_batch_size : Z;
  response_compression_min_bytes : Z;
  response_compression_level : Z;
  worker_concurrency : Z;
  provider_timeout_seconds : Z;
  retry_max_attempts : Z;
  retry_base_delay_seconds : f64;
  retry_max_backoff_seconds : f64;
  retry_attempt_timeout_seconds : f64;
  retry_scheduler_poll_interval_seconds : f64;
  outbox_batch_size : Z;
  outbox_poll_interval_seconds : f64;
  outbox_publish_timeout_seconds : f64;
  execution_lease_seconds : Z;
  lease_recovery_poll_interval_seconds : f64;
  otel_enabled : bool;
  otel_endpoint : string;
  heartbeat_path : option string;
  heartbeat_interval_seconds : f64;
  log_level : LogLevel;
}.

(** [Field(ge=lo, le=hi)] on an integer, and on a float with [allow_inf_nan=False]. *)
Definition int_field (lo hi z : Z) : bool := (lo <=? z) && (z <=? hi).
Definition finite_field (lo hi : num) (f : f64) : bool :=
  isfinite f && num_le lo (NFloat f) && num_le (NFloat f) hi.
Definition float_field (lo hi : Z) : f64 → bool := finite_field (NInt lo) (NInt hi).
(** [Field(gt=0, le=hi)] on a float: a value is refused when one of the two comparisons
    fails, which a NaN never does. *)
Definition interval_field (hi : Z) (f : f64) : bool :=
  negb (num_le (NFloat f) (NInt 0)) && negb (num_lt (NInt hi) (NFloat f)).
(** [Field(min_length=lo, max_length=hi)] on a text. *)
Definition text_field (lo hi : Z) (s : string) : bool := int_field lo hi (len (Text.to_list s)).

Definition url_field (schemes : list string) (scheme : string) : bool := bool_decide (scheme ∈ schemes).

(** [effective_migration_database_url]. *)
Definition effective_migration_database_url (s : Settings) : string :=
  default (database_url s) (migration_database_url s).

(** The constraints of the fields and the three field validators. *)
Definition fields_valid (s : Settings) : bool :=
  forallb id
   [url_field ["postgresql"; "postgresql+asyncpg"] (database_url s);
    match migration_database_url s with
    | Some u => url_field ["postgresql"; "postgresql+asyncpg"] u | None => true end;
    int_field 1 50 (db_pool_size s);
    int_field 0 50 (db_max_overflow s);
    interval_field 300 (db_pool_timeout_seconds s);
    url_field ["redis"; "rediss"] (redis_url s);
    url_field ["amqp"; "amqps"] (rabbitmq_url s);
    text_field 1 128 (openai_default_model s);
    int_field 1 10000 (rate_limit_requests s);
    int_field 1 3600 (rate_limit_window_seconds s);
    int_field 1024 1048576 (max_request_bytes s);
    int_field 1 60 (request_body_timeout_seconds s);
    int_field 1 10 (regression_max_cases s);
    int_field 2 20 (regression_provider_call_budget s);
    int_field 1 8192 (provider_max_output_tokens s);
    int_field 1 1000 (principal_concurrent_runs s);
    int_field 1 2000 (tenant_concurrent_runs s);
    int_field 1 128 (principal_running_runs s);
    int_field 1 256 (tenant_running_runs s);
    int_field 1 10000 (principal_provider_calls s);
    int_field 1 20000 (tenant_provider_calls s);
    int_field 60 86400 (quota_window_seconds s);
    finite_field (NFloat (f64_round 1 100)) (NInt 30) (audit_write_timeout_seconds s);
    int_field 1 3650 (payload_retention_days s);
    match audit_retention_days s with Some d => int_field 1 3650 d | None => true end;
    int_field 1 50000 (audit_purge_batch_size s);
    int_field 0 1000000 (response_compression_min_bytes s);
    int_field 1 9 (response_compression_level s);
    int_field 1 128 (worker_concurrency s);
    int_field 1 600 (provider_timeout_seconds s);
    int_field 1 20 (retry_max_attempts s);
    float_field 1 3600 (retry_base_delay_seconds s);
    float_field 1 86400 (retry_max_backoff_seconds s);
    float_field 1 600 (retry_attempt_timeout_seconds s);
    interval_field 300 (retry_scheduler_poll_interval_seconds s);
    int_field 1 500 (outbox_batch_size s);
    interval_field 60 (outbox_poll_interval_seconds s);
    interval_field 120 (outbox_publish_timeout_seconds s);
    int_field 5 3600 (execution_lease_seconds s);
    interval_field 300 (lease_recovery_poll_interval_seconds s);
    interval_field 300 (heartbeat_interval_seconds s)].

Definition _enforce_transport_encryption (s : Settings) : result unit :=
  if negb (bool_decide (environment s ∈ [env_staging; env_production])) || allow_plaintext_transport s
  then Ok tt
  else raise_unless (bool_decide (redis_url s = "rediss" ∧ rabbitmq_url s = "amqps"))
         (ValueError "requires TLS").

(** The loop over the registry: [seen] the key ids so far, [bound] the tenant of each
    principal so far. *)
Fixpoint check_registry (seen : list string) (bound : gmap string string)
    (l : list CredentialRecord.t) : result unit :=
  match l with
  | [] => Ok tt
  | r :: l =>
      raise_unless (negb (bool_decide (CredentialRecord.key_id r ∈ seen)))
        (ValueError "Duplicate credential key_id");;
      raise_unless (hex_digits 64 (CredentialRecord.verifier r)) (ValueError "Invalid credential verifier");;
      let p := CredentialRecord.principal_id r in
      let t := CredentialRecord.tenant_id r in
      match bound !! p with
      | Some t' =>
          raise_unless (bool_decide (t' = t))
            (ValueError "A principal must be bound to exactly one tenant");;
          check_registry (CredentialRecord.key_id r :: seen) bound l
      | None => check_registry (CredentialRecord.key_id r :: seen) (<[p := t]> bound) l
      end
  end.

Section Settings.
Context `{RegistryReader} (now : time).

(** [TypeAdapter(tuple[CredentialRecord, ...]).validate_json]. *)
Definition validate_json (text : string) : option (list CredentialRecord.t) :=
  v ← json_loads text; registry_of_json v.

(** [model_post_init]; the value is what [_credentials] holds afterwards. *)
Definition model_post_init (s : Settings) : result (list CredentialRecord.t) :=
  raise_unless (negb (num_lt (NFloat (retry_max_backoff_seconds s)) (NFloat (retry_base_delay_seconds s))))
    (ValueError "retry_max_backoff_seconds must be at least retry_base_delay_seconds");;
  match auth_mode s with
  | auth_disabled =>
      raise_unless (bool_decide (environment s = env_local))
        (ValueError "disabled auth requires explicit environment=local");;
      Ok []
  | auth_api_key =>
      match auth_credentials s, auth_pepper s with
      | Some text, Some pepper =>
          raise_unless (32 <=? len (Text.to_list pepper))
            (ValueError "auth_pepper must contain at least 32 characters");;
          match validate_json text with
          | None => Err (ValueError "auth_credentials must be a valid credential registry")
          | Some credentials =>
              raise_unless (existsb (CredentialRecord.is_active now) credentials)
                (ValueError "auth_credentials must contain an active credential");;
              check_registry [] ∅ credentials;;
              _enforce_transport_encryption s;;
              Ok credentials
          end
      | _, _ => Err (ValueError "auth_credentials and auth_pepper are required in api_key mode")
      end
  end.

Definition load (s : Settings) : result (list CredentialRecord.t) :=
  raise_unless (fields_valid s) (ValueError "Settings");; model_post_init s.
End Settings.

(** ** What the components take from the settings *)

(** [QuotaLimits.from_settings]. *)
Definition from_settings (s : Settings) : QuotaLimits :=
  {| principal_active := principal_concurrent_runs s; tenant_active := tenant_concurrent_runs s;
     principal_calls := principal_provider_calls s; tenant_calls := tenant_provider_calls s;
     window_seconds := quota_window_seconds s; principal_running := principal_running_runs s;
     tenant_running := tenant_running_runs s |}.

(** [min(retry_attempt_timeout_seconds, execution_lease_seconds - 1)]. *)
Definition attempt_timeout (s : Settings) : num :=
  num_min (NFloat (retry_attempt_timeout_seconds s)) (NInt (execution_lease_seconds s - 1)).

(** The keyword arguments [create_run] passes to [build_policy_snapshot]. *)
Definition server_policy (s : Settings) : ServerPolicy :=
  {| srv_max_attempts := retry_max_attempts s; srv_attempt_timeout_seconds := attempt_timeout s;
     srv_initial_backoff_seconds := NFloat (retry_base_delay_seconds s);
     srv_max_backoff_seconds := NFloat (retry_max_backoff_seconds s);
     srv_available_providers :=
       Some ("deterministic" :: match openai_api_key s with Some _ => ["openai"] | None => [] end);
     srv_max_output_tokens := provider_max_output_tokens s |}.

(** ** Lemmas *)

Lemma float_field_in lo hi f : float_field lo hi f = true → num_in lo hi (NFloat f).
Proof.
  unfold float_field, finite_field. intros Hf. bool_to_prop. destruct f as [m| | |]; try done.
  exists m. split; [done|].
  rewrite (num_le_fin _ _ (lo * unit64) m), (num_le_fin _ _ m (hi * unit64)) in * by done. by bool_to_prop.
Qed.

Lemma int_field_in lo hi z : int_field lo hi z = true → lo ≤ z ≤ hi.
Proof. unfold int_field. intros Hz. by bool_to_prop. Qed.

(** A record is consistent with the bindings made so far. *)
Definition agrees (bound : gmap string string) (r : CredentialRecord.t) : Prop :=
  ∀ t, bound !! CredentialRecord.principal_id r = Some t → t = CredentialRecord.tenant_id r.

Lemma check_registry_ok l : ∀ seen bound,
  check_registry seen bound l = Ok tt →
  Forall (λ r, CredentialRecord.key_id r ∉ seen) l ∧ NoDup (CredentialRecord.key_id <$> l)
  ∧ Forall (λ r, hex_digits 64 (CredentialRecord.verifier r) = true) l ∧ Forall (agrees bound) l
  ∧ (∀ r r', r ∈ l → r' ∈ l → CredentialRecord.principal_id r = CredentialRecord.principal_id r' →
       CredentialRecord.tenant_id r = CredentialRecord.tenant_id r').
Proof.
  induction l as [|r l IH]; intros seen bound Hc.
  { split_and!; try constructor. intros r r' Hr. by apply not_elem_of_nil in Hr. }
  cbn [check_registry] in Hc. set (p := CredentialRecord.principal_id r) in *.
  apply result_bind_ok in Hc as ([] & Hid & Hc). apply result_bind_ok in Hc as ([] & Hv & Hc).
  apply raise_unless_ok in Hid, Hv. bool_to_prop.
  assert (∃ bound', check_registry (CredentialRecord.key_id r :: seen) bound' l = Ok tt
            ∧ bound' !! p = Some (CredentialRecord.tenant_id r) ∧ agrees bound r ∧ bound ⊆ bound')
    as (bound' & Hl & Hp & Hr & Hsub).
  { unfold agrees. fold p. destruct (bound !! p) as [t|] eqn:Hb.
    - apply result_bind_ok in Hc as ([] & Ht%raise_unless_ok & Hc). bool_to_prop. subst t.
      exists bound. split_and!; try done. congruence.
    - eexists. split; [exact Hc|]. split_and!; [apply lookup_insert_eq|done|by apply insert_subseteq]. }
  destruct (IH _ _ Hl) as (Hs & Hnd & Hvs & Hag & Hone). rewrite Forall_forall in Hag. split_and!.
  - constructor; [done|]. eapply Forall_impl; [exact Hs|]. cbn. set_solver.
  - constructor; [|done]. intros (r' & Heq & Hin)%list_elem_of_fmap. rewrite Forall_forall in Hs.
    specialize (Hs r' Hin). cbn in Hs. set_solver.
  - by constructor.
  - constructor; [done|]. apply Forall_forall. intros r' Hr' t Ht. eapply Hag; [done|].
    by eapply lookup_weaken.
  - assert (∀ x, x ∈ l → CredentialRecord.principal_id x = p →
              CredentialRecord.tenant_id r = CredentialRecord.tenant_id x) as Hx.
    { intros x Hin Heq. apply (Hag x Hin). by rewrite Heq. }
    intros r1 r2 H1 H2 Heq. apply elem_of_cons in H1, H2. destruct H1 as [->|H1], H2 as [->|H2]; auto.
    symmetry. auto.
Qed.

Lemma check_registry_complete l : ∀ seen bound,
  Forall (λ r, CredentialRecord.key_id r ∉ seen) l → NoDup (CredentialRecord.key_id <$> l) →
  Forall (λ r, hex_digits 64 (CredentialRecord.verifier r) = true) l → Forall (agrees bound) l →
  (∀ r r', r ∈ l → r' ∈ l → CredentialRecord.principal_id r = CredentialRecord.principal_id r' →
     CredentialRecord.tenant_id r = CredentialRecord.tenant_id r') →
  check_registry seen bound l = Ok tt.
Proof.
  induction l as [|r l IH]; intros seen bound Hs Hnd Hv Hag Hone; [done|].
  apply Forall_cons in Hs as [Hs1 Hs], Hv as [Hv1 Hv], Hag as [Ha1 Hag]. apply NoDup_cons in Hnd as [Hn1 Hnd].
  cbn [check_registry]. rewrite bool_decide_false by done. rewrite Hv1. cbn.
  assert (Forall (λ x, CredentialRecord.key_id x ∉ CredentialRecord.key_id r :: seen) l) as Hs'.
  { rewrite Forall_forall in Hs |- *. intros x Hx [E|E]%elem_of_cons; [|by eapply Hs].
    apply Hn1. rewrite <- E. by apply list_elem_of_fmap_2. }
  assert (∀ x x', x ∈ l → x' ∈ l → CredentialRecord.principal_id x = CredentialRecord.principal_id x' →
            CredentialRecord.tenant_id x = CredentialRecord.tenant_id x') as Hone'.
  { intros x x' Hx Hx'. apply Hone; by right. }
  destruct (bound !! CredentialRecord.principal_id r) as [t|] eqn:Eb.
  - rewrite (Ha1 _ Eb), bool_decide_true by done. cbn. by apply IH.
  - apply IH; try done. rewrite Forall_forall in Hag |- *. intros x Hx t.
    destruct (decide (CredentialRecord.principal_id r = CredentialRecord.principal_id x)) as [E|E].
    + rewrite <- E, lookup_insert_eq. intros [= <-]. apply Hone; [by left|by right|done].
    + rewrite lookup_insert_ne by done. by apply Hag.
Qed.

(** A record with a new key id, of a principal bound to the same tenant if at all, extends a
    registry. *)
Lemma check_registry_insert l r l' :
  check_registry [] ∅ (l ++ l') = Ok tt → CredentialRecord.key_id r ∉ (CredentialRecord.key_id <$> l ++ l') →
  hex_digits 64 (CredentialRecord.verifier r) = true →
  (∀ x, x ∈ l ++ l' → CredentialRecord.principal_id x = CredentialRecord.principal_id r →
     CredentialRecord.tenant_id x = CredentialRecord.tenant_id r) →
  check_registry [] ∅ (l ++ r :: l') = Ok tt.
Proof.
  intros (_ & Hnd & Hv & _ & Hone)%check_registry_ok Hnew Hr Hbound.
  assert (l ++ r :: l' ≡ₚ r :: l ++ l') as Hp by (by rewrite Permutation_middle).
  apply check_registry_complete.
  - apply Forall_forall. intros x _. apply not_elem_of_nil.
  - rewrite Hp. csimpl. by apply NoDup_cons.
  - rewrite Hp. by constructor.
  - apply Forall_forall. intros x _ t. by rewrite lookup_empty.
  - intros x x'. rewrite !Hp, !elem_of_cons. intros [->|Hx] [->|Hx'] E; auto. symmetry. auto.
Qed.

Section SettingsProofs.
Context `{RegistryReader}.

(** What a start requires of the settings besides the registry. *)
Definition deployable (s : Settings) : Prop :=
  fields_valid s = true
  ∧ num_lt (NFloat (retry_max_backoff_seconds s)) (NFloat (retry_base_delay_seconds s)) = false
  ∧ _enforce_transport_encryption s = Ok tt.

Lemma load_registry now s pepper text l :
  deployable s → auth_mode s = auth_api_key → auth_credentials s = Some text → auth_pepper s = Some pepper →
  32 ≤ len (Text.to_list pepper) → validate_json text = Some l →
  Exists (λ r, CredentialRecord.is_active now r = true) l → check_registry [] ∅ l = Ok tt →
  load now s = Ok l.
Proof.
  intros (Hf & Hb & Ht) Hm Hc Hp Hlen Hv Ha Hr. unfold load, model_post_init.
  rewrite Hf, Hb, Hm, Hc, Hp, (proj2 (Z.leb_le _ _) Hlen), Hv, Hr, Ht. cbn.
  rewrite (proj2 (existsb_exists _ _)); [done|].
  apply Exists_exists in Ha as (r & Hin & Ha). exists r. by rewrite <- list_elem_of_In.
Qed.

Lemma load_inv now s creds :
  load now s = Ok creds → fields_valid s = true ∧ model_post_init now s = Ok creds.
Proof. unfold load. intros ([] & Hf%raise_unless_ok & Hc)%result_bind_ok. done. Qed.

(** Every configuration that loads satisfies what the rest of the system assumes: the
    server policy is within the bounds [build_policy_snapshot] relies on, the timeout of an
    attempt and of a job is between one second and an hour and always ends before the lease
    does, and all quota limits, the attempt maximum, the batch sizes and the rate limit are
    positive. *)
Theorem loaded_settings_meet_assumptions now s creds :
  load now s = Ok creds →
  server_ok (server_policy s)
  ∧ num_in 1 3600 (attempt_timeout s) ∧ num_lt (attempt_timeout s) (NInt (execution_lease_seconds s)) = true
  ∧ 1 ≤ retry_max_attempts s
  ∧ (let q := from_settings s in
     0 < principal_active q ∧ 0 < tenant_active q ∧ 0 < principal_calls q ∧ 0 < tenant_calls q
     ∧ 0 < window_seconds q ∧ 0 < principal_running q ∧ 0 < tenant_running q)
  ∧ 0 < rate_limit_requests s ∧ 0 < rate_limit_window_seconds s
  ∧ 0 < outbox_batch_size s ∧ 0 < audit_purge_batch_size s.
Proof.
  intros [Hf Hp]%load_inv. unfold model_post_init in Hp.
  apply result_bind_ok in Hp as ([] & Hord%raise_unless_ok & _).
  unfold fields_valid in Hf. cbn [forallb id] in Hf. bool_to_prop.
  repeat match goal with
    | Hx : int_field _ _ _ = true |- _ => apply int_field_in in Hx
    | Hx : float_field _ _ _ = true |- _ => apply float_field_in in Hx
  end.
  pose proof unit64_pos as Hu.
  match goal with Hx : num_in 1 600 _ |- _ => destruct Hx as (t & Ht & Htr) end.
  match goal with Hx : num_in 1 3600 _ |- _ => destruct Hx as (i & Hi & Hir) end.
  match goal with Hx : num_in 1 86400 _ |- _ => destruct Hx as (m & Hm & Hmr) end.
  assert (num_value (attempt_timeout s) = Fin (Z.min t ((execution_lease_seconds s - 1) * unit64))) as Hat
    by (by apply num_min_fin).
  split_and!; cbn; try lia.
  - split; cbn; try lia.
    + eexists. split; [exact Hat|]. nia.
    + by exists i.
    + by exists m.
    + rewrite (num_lt_fin _ _ _ _ Hm Hi) in Hord. rewrite (num_le_fin _ _ _ _ Hi Hm).
      apply negb_true_iff in Hord. bool_to_prop. apply Z.leb_le. lia.
  - eexists. split; [exact Hat|]. nia.
  - rewrite (num_lt_fin _ _ _ _ Hat (eq_refl : num_value (NInt (execution_lease_seconds s)) = Fin _)).
    apply Z.ltb_lt. nia.
Qed.

(** What an accepted configuration says about identities: outside an explicit local
    environment authentication is on, the registry is non-empty with an active record,
    its key ids are distinct, a principal belongs to exactly one tenant, the pepper has at
    least 32 characters, and in staging and production the cache and the broker are reached
    over TLS unless plaintext was allowed explicitly. *)
Theorem loaded_registry_is_sound now s creds :
  load now s = Ok creds → environment s ≠ env_local →
  auth_mode s = auth_api_key ∧ Exists (λ r, CredentialRecord.is_active now r = true) creds
  ∧ NoDup (CredentialRecord.key_id <$> creds)
  ∧ (∀ r r', r ∈ creds → r' ∈ creds →
       CredentialRecord.principal_id r = CredentialRecord.principal_id r' →
       CredentialRecord.tenant_id r = CredentialRecord.tenant_id r')
  ∧ (∃ pepper, auth_pepper s = Some pepper ∧ 32 ≤ len (Text.to_list pepper))
  ∧ (environment s ∈ [env_staging; env_production] → allow_plaintext_transport s = false →
       redis_url s = "rediss" ∧ rabbitmq_url s = "amqps").
Proof.
  intros [_ Hp]%load_inv Henv. unfold model_post_init in Hp.
  apply result_bind_ok in Hp as ([] & _ & Hp). destruct (auth_mode s).
  { apply result_bind_ok in Hp as ([] & He%raise_unless_ok & _). by bool_to_prop. }
  destruct (auth_credentials s) as [text|], (auth_pepper s) as [pepper|]; try done.
  apply result_bind_ok in Hp as ([] & Hpep%raise_unless_ok & Hp). bool_to_prop.
  destruct (validate_json text) as [l|]; [|done].
  apply result_bind_ok in Hp as ([] & Hact%raise_unless_ok & Hp).
  apply result_bind_ok in Hp as ([] & Hreg & Hp). apply result_bind_ok in Hp as ([] & Htls & [= ->]).
  destruct (check_registry_ok _ _ _ Hreg) as (_ & Hnd & _ & _ & Hone). split_and!; try done.
  - apply existsb_exists in Hact as (r & Hr & Ha). apply Exists_exists. exists r.
    split; [by apply list_elem_of_In|done].
  - by exists pepper.
  - intros Hin Hplain. unfold _enforce_transport_encryption in Htls.
    rewrite Hplain, bool_decide_true in Htls by done. cbn in Htls.
    apply raise_unless_ok in Htls. by bool_to_prop.
Qed.
End SettingsProofs.

(** ** A production configuration *)

(** A reader of JSON text without numbers and escapes. *)
Section DemoReader.
Fixpoint read_string (l : chars) : option (chars * chars) :=
  match l with
  | [] => None
  | c :: l =>
      if Text.code c =? 34 then Some ([], l)
      else if Text.code c =? 92 then None else '(s, l) ← read_string l; Some (c :: s, l)
  end.

Definition expect (z : Z) (l : chars) : option chars :=
  match Text.drop_spaces l with c :: l => if Text.code c =? z then Some l else None | [] => None end.
Definition read_word (w : string) (v : json) (l : chars) : option (json * chars) :=
  let n := length (Text.to_list w) in
  if bool_decide (take n l = Text.to_list w) then Some (v, drop n l) else None.

(** Items separated by commas up to the closing character. *)
Fixpoint read_items {A} (read : chars → option (A * chars)) (close : Z) (n : nat) (l : chars) : option (list A * chars) :=
  match n with
  | O => None
  | S n =>
      '(v, l) ← read l;
      match expect close l with
      | Some l => Some ([v], l)
      | None => l ← expect 44 l; '(vs, l) ← read_items read close n l; Some (v :: vs, l)
      end
  end.

Definition read_member (read : chars → option (json * chars)) (l : chars) : option ((string * json) * chars) :=
  l ← expect 34 l; '(k, l) ← read_string l; l ← expect 58 l; '(v, l) ← read l; Some ((Text.of_list k, v), l).

Fixpoint read_value (n : nat) (l : chars) : option (json * chars) :=
  match n, Text.drop_spaces l with
  | S n, c :: rest =>
      if Text.code c =? 34 then '(s, l) ← read_string rest; Some (JStr (Text.of_list s), l)
      else if Text.code c =? 91 then
        match expect 93 rest with
        | Some l => Some (JArr [], l)
        | None => '(vs, l) ← read_items (read_value n) 93 n rest; Some (JArr vs, l)
        end
      else if Text.code c =? 123 then
        match expect 125 rest with
        | Some l => Some (JObj [], l)
        | None => '(ms, l) ← read_items (read_member (read_value n)) 125 n rest; Some (JObj ms, l)
        end
      else if Text.code c =? 116 then read_word "true" (JBool true) (c :: rest)
      else if Text.code c =? 102 then read_word "false" (JBool false) (c :: rest)
      else read_word "null" JNull (c :: rest)
  | _, _ => None
  end.

Definition demo_loads (text : string) : option json :=
  let l := Text.to_list text in
  '(v, rest) ← read_value (length l) l;
  if bool_decide (Text.drop_spaces rest = []) then Some v else None.
End DemoReader.

(** Times are written as the numbers [isoformat] of [demo_host] gives. *)
#[export] Instance demo_reader : RegistryReader := {
  json_loads := demo_loads;
  lax_bool v := match v with JBool b => Some b | _ => None end;
  aware_datetime v := match v with JStr s => Z.of_int <$> NilEmpty.int_of_string s | _ => None end;
  lax_bool_bool b := eq_refl;
}.

(** The text of a registry, the entries printed as [security/cli.py] prints them. *)
Definition entry_text (d : dict) : chars :=
  Text.to_list "{" ++ join_commas (member (H := demo_repr) <$> d) ++ Text.to_list "}".
Definition registry_text (l : list CredentialRecord.t) : string :=
  Text.of_list (Text.to_list "[" ++ join_commas (entry_text ∘ registry_entry (isoformat (Host := demo_host)) <$> l)
                ++ Text.to_list "]").

Definition sample_registry : list CredentialRecord.t :=
  [{| CredentialRecord.key_id := "00112233445566778899aabbccddeeff"; CredentialRecord.principal_id := "alice";
      CredentialRecord.tenant_id := "acme"; CredentialRecord.scheme := HMAC_SCHEME;
      CredentialRecord.salt := "ffeeddccbbaa99887766554433221100";
      CredentialRecord.verifier := "000102030405060708090a0b0c0d0e0f000102030405060708090a0b0c0d0e0f";
      CredentialRecord.enabled := true; CredentialRecord.expires_at := None |}].

Definition sample_text : string := Eval vm_compute in registry_text sample_registry.
Definition settings_with (registry : string) : Settings :=
  {| database_url := "postgresql"; migration_database_url := None; db_pool_size := 5;
     db_max_overflow := 0; db_pool_timeout_seconds := Fin (30 * unit64); redis_url := "rediss"; rabbitmq_url := "amqps";
     allow_plaintext_transport := false; openai_api_key := None; openai_base_url := "https";
     openai_default_model := "gpt-5"; environment := env_production;
     auth_mode := auth_api_key; auth_credentials := Some registry;
     auth_pepper := Some "a pepper of at least 32 characters"; rate_limit_requests := 60;
     rate_limit_window_seconds := 60; max_request_bytes := 131072; request_body_timeout_seconds := 10;
     regression_max_cases := 10; regression_provider_call_budget := 20; provider_max_output_tokens := 2048;
     principal_concurrent_runs := 20; tenant_concurrent_runs := 40; principal_running_runs := 1;
     tenant_running_runs := 2; principal_provider_calls := 120; tenant_provider_calls := 240;
     quota_window_seconds := 3600; audit_failure_policy := fail_closed;
     audit_write_timeout_seconds := Fin (2 * unit64); trust_inbound_trace_context := false;
     deterministic_echo_input := false; payload_retention_days := 30; audit_retention_days := Some 30; audit_purge_batch_size := 1000;
     response_compression_min_bytes := 1024; response_compression_level := 1;
     worker_concurrency := 4; provider_timeout_seconds := 60; retry_max_attempts := 3;
     retry_base_delay_seconds := Fin unit64; retry_max_backoff_seconds := Fin (60 * unit64);
     retry_attempt_timeout_seconds := Fin (60 * unit64); retry_scheduler_poll_interval_seconds := Fin unit64;
     outbox_batch_size := 50; outbox_poll_interval_seconds := Fin unit64;
     outbox_publish_timeout_seconds := Fin (10 * unit64); execution_lease_seconds := 120;
     lease_recovery_poll_interval_seconds := Fin (5 * unit64); otel_enabled := true; otel_endpoint := "http";
     heartbeat_path := None; heartbeat_interval_seconds := Fin (10 * unit64); log_level := log_info |}.
Definition sample_settings : Settings := settings_with sample_text.

Lemma sample_loads : load 0 sample_settings = Ok sample_registry.
Proof. by vm_compute. Qed.

Lemma loaded_settings_meet_assumptions_witness :
  num_lt (attempt_timeout sample_settings) (NInt 120) = true ∧ server_ok (server_policy sample_settings).
Proof.
  destruct (loaded_settings_meet_assumptions 0 sample_settings sample_registry
    sample_loads) as (Hs & _ & Hl & _). by split.
Defined.

Lemma loaded_registry_is_sound_witness :
  NoDup (CredentialRecord.key_id <$> sample_registry) ∧ redis_url sample_settings = "rediss".
Proof.
  destruct (loaded_registry_is_sound 0 sample_settings sample_registry
    sample_loads) as (_ & _ & Hnd & _); [done|]. by split.
Defined.
