(* ===== verification/RateLimiter.v ===== *)
(** * Rate limiter

    [src/src/agent_runtime/infrastructure/redis/rate_limiter.py]: the fixed-window limiter.
    Redis is a parameter: the class [Redis] gives the commands of the script and what Redis
    documents about them, and the script is their composition.  A window is counted from the
    first request after the previous one ended. *)

From S2P Require Import Prelude Float64 PyValue States Models Canonical.
Local Open Scope Z_scope.

(** A key that exists has a value and possibly a deadline; a key whose deadline has passed no
    longer exists.  Times are seconds. *)
Class Redis := {
  store : Type;
  empty_store : store;
  entry : store → Z → string → option (Z * option Z);
  incr : Z → string → store → Z * store;
  ttl : Z → string → store → Z;
  expire : Z → string → Z → store → store;
  entry_empty : ∀ now k, entry empty_store now k = None;
  entry_later : ∀ s now now' k n dl, now ≤ now' → entry s now k = Some (n, dl) →
    entry s now' k = match dl with Some t => if now' <? t then Some (n, dl) else None
                              | None => Some (n, dl) end;
  entry_absent : ∀ s now now' k, now ≤ now' → entry s now k = None → entry s now' k = None;
  incr_spec : ∀ s now k, let '(n, s') := incr now k s in
    match entry s now k with
    | Some (m, dl) => n = m + 1 ∧ entry s' now k = Some (n, dl)
    | None => n = 1 ∧ entry s' now k = Some (1, None)
    end;
  incr_other : ∀ s now k k', k ≠ k' → entry (incr now k s).2 now k' = entry s now k';
  ttl_spec : ∀ s now k,
    match entry s now k with
    | Some (_, Some t) => 0 ≤ ttl now k s
    | Some (_, None) => ttl now k s = -1
    | None => ttl now k s = -2
    end;
  expire_spec : ∀ s now k w n dl, 0 < w → entry s now k = Some (n, dl) →
    entry (expire now k w s) now k = Some (n, Some (now + w));
  expire_other : ∀ s now k w k', k ≠ k' → entry (expire now k w s) now k' = entry s now k';
}.

Record RateLimitDecision := { allowed : bool; retry_after_seconds : Z }.

Section RateLimiter.
Context `{Redis} `{Host} (limit window_seconds : Z).

(** [_SCRIPT]: [INCR], [TTL], and [EXPIRE] for a key without an expiry. *)
Definition _SCRIPT (now : Z) (key : string) (s : store) : (Z * Z) * store :=
  let '(current, s1) := incr now key s in
  let t := ttl now key s1 in
  if t <? 0 then ((current, window_seconds), expire now key window_seconds s1)
  else ((current, t), s1).

Definition rate_key (client_id : string) : string := 
  "arr:rate-limit:" +:+ sha256_hex (Text.of_list (utf8 (Text.to_list client_id))).

Definition check (now : Z) (client_id : string) (s : store) : RateLimitDecision * store :=
  let '((current, t), s') := _SCRIPT now (rate_key client_id) s in
  ({| allowed := current <=? limit;
      retry_after_seconds := Z.max 1 (if 0 <? t then t else window_seconds) |}, s').

(** A history of checks, each with its time. *)
Fixpoint check_all (l : list (Z * string)) (s : store) : list (Z * string * bool) :=
  match l with
  | [] => []
  | (now, c) :: l => let '(d, s') := check now c s in (now, c, allowed d) :: check_all l s'
  end.

(** The requests of [c] let through between [lo] and [hi]. *)
Definition granted (c : string) (lo hi : Z) (h : list (Z * string * bool)) : Z :=
  len (filter (λ x, x.1.2 = c ∧ x.2 = true ∧ lo ≤ x.1.1 < hi) h).

Definition chronological (now : Z) (l : list (Z * string)) : Prop :=
  StronglySorted Z.le (now :: l.*1).

(** ** Lemmas *)

(** The effect of a check on its own key and on another one. *)
Lemma check_spec now c s :
  0 < window_seconds →
  let '(d, s') := check now c s in
  match entry s now (rate_key c) with
  | Some (m, Some t) => allowed d = (m + 1 <=? limit) ∧ entry s' now (rate_key c) = Some (m + 1, Some t)
  | Some (m, None) => allowed d = (m + 1 <=? limit)
                      ∧ entry s' now (rate_key c) = Some (m + 1, Some (now + window_seconds))
  | None => allowed d = (1 <=? limit) ∧ entry s' now (rate_key c) = Some (1, Some (now + window_seconds))
  end.
Proof.
  intros Hw. unfold check, _SCRIPT. pose proof (incr_spec s now (rate_key c)) as Hi.
  destruct (incr now (rate_key c) s) as [n s1]. pose proof (ttl_spec s1 now (rate_key c)) as Ht.
  destruct (entry s now (rate_key c)) as [[m [t|]]|]; destruct Hi as [-> Hi]; rewrite Hi in Ht.
  - rewrite (proj2 (Z.ltb_ge _ _)) by lia. done.
  - rewrite Ht. cbn. split; [done|]. by eapply expire_spec.
  - rewrite Ht. cbn. split; [done|]. by eapply expire_spec.
Qed.

Lemma check_other now c k s :
  rate_key c ≠ k → entry (check now c s).2 now k = entry s now k.
Proof.
  intros Hne. unfold check, _SCRIPT. pose proof (incr_other s now _ _ Hne) as Hi.
  destruct (incr now (rate_key c) s) as [n s1]. cbn in Hi. destruct (ttl now (rate_key c) s1 <? 0); cbn; [|done].
  by rewrite expire_other.
Qed.

(** What the entry of a key still lets through until [hi], at most one window away. *)
Definition remaining (hi : Z) (e : option (Z * option Z)) : Z :=
  match e with
  | Some (n, Some dl) => Z.max 0 (limit - n) + if hi <=? dl then 0 else limit
  | Some (n, None) => Z.max 0 (limit - n)
  | None => limit
  end.

Lemma chronological_cons now tm c l :
  chronological now ((tm, c) :: l) → now ≤ tm ∧ chronological tm l.
Proof. intros [Hs Hf]%StronglySorted_inv. inversion Hf; subst. done. Qed.

Lemma granted_cons c lo hi now c' b h :
  granted c lo hi ((now, c', b) :: h)
  = (if bool_decide (c' = c ∧ b = true ∧ lo ≤ now < hi) then 1 else 0) + granted c lo hi h.
Proof.
  unfold granted, len. rewrite filter_cons. cbn.
  case_decide; [rewrite bool_decide_true by done|rewrite bool_decide_false by done]; cbn; lia.
Qed.

Lemma granted_late c lo hi now l : ∀ s,
  chronological now l → hi ≤ now → granted c lo hi (check_all l s) = 0.
Proof.
  revert now. induction l as [|[tm c'] l IH]; intros now s Hl Hhi; [done|].
  apply chronological_cons in Hl as [Htm Hl]. cbn [check_all]. destruct (check tm c' s) as [d s'].
  rewrite granted_cons, (IH tm) by (done || lia). rewrite bool_decide_false by lia. done.
Qed.

(** Time only takes entries away. *)
Lemma remaining_later hi s now now' k :
  0 ≤ limit → now ≤ now' → now' < hi → remaining hi (entry s now' k) ≤ remaining hi (entry s now k).
Proof.
  intros Hlim Hle Hhi. destruct (entry s now k) as [[n dl]|] eqn:E.
  - rewrite (entry_later s now now' k n dl) by done. destruct dl as [t|]; [|done]. cbn.
    destruct (Z.ltb_spec now' t); [done|]. cbn. rewrite (proj2 (Z.leb_gt hi t)) by lia. lia.
  - by rewrite (entry_absent s now now').
Qed.

(** One check uses up what it lets through. *)
Lemma remaining_check hi now c c' s :
  0 ≤ limit → 0 < window_seconds → hi ≤ now + window_seconds →
  let '(d, s') := check now c' s in
  (if bool_decide (c' = c ∧ allowed d = true) then 1 else 0) + remaining hi (entry s' now (rate_key c))
  ≤ remaining hi (entry s now (rate_key c)).
Proof.
  intros Hlim Hw Hhi. pose proof (check_spec now c' s Hw) as Hc.
  pose proof (check_other now c' (rate_key c) s) as Ho. destruct (check now c' s) as [d s'].
  destruct (decide (rate_key c' = rate_key c)) as [Hk|Hk].
  - rewrite Hk in Hc. case_bool_decide as Hb;
      destruct (entry s now (rate_key c)) as [[m [t|]]|]; destruct Hc as [Ha ->]; cbn;
      rewrite ?(proj2 (Z.leb_le hi (now + window_seconds))) by done; try lia;
      destruct Hb as [_ Hb]; rewrite Ha in Hb; apply Z.leb_le in Hb; lia.
  - cbn in Ho. rewrite Ho by done. rewrite bool_decide_false by (intros [-> _]; done). lia.
Qed.

Lemma granted_remaining c lo l : ∀ now s,
  0 ≤ limit → 0 < window_seconds → lo ≤ now → chronological now l →
  granted c lo (lo + window_seconds) (check_all l s)
  ≤ remaining (lo + window_seconds) (entry s now (rate_key c)).
Proof.
  induction l as [|[tm c'] l IH]; intros now s Hlim Hw Hlo Hl.
  { unfold granted, len. cbn. destruct (entry s now (rate_key c)) as [[n [t|]]|]; cbn; [|lia..].
    destruct (_ <=? _); lia. }
  apply chronological_cons in Hl as [Htm Hl]. cbn [check_all].
  destruct (Z.lt_ge_cases tm (lo + window_seconds)) as [Hin|Hout].
  - pose proof (remaining_later (lo + window_seconds) s now tm (rate_key c) Hlim Htm Hin) as H1.
    pose proof (remaining_check (lo + window_seconds) tm c c' s Hlim Hw ltac:(lia)) as H2.
    destruct (check tm c' s) as [d s']. rewrite granted_cons.
    specialize (IH tm s' Hlim Hw ltac:(lia) Hl). repeat case_bool_decide; try lia; naive_solver lia.
  - destruct (check tm c' s) as [d s']. rewrite granted_cons, (granted_late _ _ _ tm) by done.
    rewrite bool_decide_false by lia.
    destruct (entry s now (rate_key c)) as [[n [t|]]|]; cbn; [destruct (_ <=? _)|..]; lia.
Qed.

(** Counters never become negative. *)
Definition counter_ok (e : option (Z * option Z)) : Prop :=
  match e with Some (n, _) => 0 ≤ n | None => True end.

Lemma counter_ok_later s now now' k : now ≤ now' → counter_ok (entry s now k) → counter_ok (entry s now' k).
Proof.
  intros Hle Hc. destruct (entry s now k) as [[n dl]|] eqn:E.
  - rewrite (entry_later s now now' k n dl) by done. destruct dl; [case_match|]; done.
  - by rewrite (entry_absent s now now').
Qed.

Lemma counter_ok_check now c k s :
  0 < window_seconds → counter_ok (entry s now k) → counter_ok (entry (check now c s).2 now k).
Proof.
  intros Hw Hc. destruct (decide (rate_key c = k)) as [<-|Hne]; [|by rewrite check_other].
  pose proof (check_spec now c s Hw) as Hs. destruct (check now c s) as [d s'].
  destruct (entry s now (rate_key c)) as [[m [t|]]|]; destruct Hs as [_ Hs]; cbn in *; rewrite Hs; cbn; lia.
Qed.

Lemma granted_from c lo l : ∀ now s,
  0 ≤ limit → 0 < window_seconds → counter_ok (entry s now (rate_key c)) → chronological now l →
  granted c lo (lo + window_seconds) (check_all l s) ≤ 2 * limit.
Proof.
  induction l as [|[tm c'] l IH]; intros now s Hlim Hw Hok Hl; [unfold granted, len; cbn; lia|].
  pose proof Hl as [Htm Hl']%chronological_cons.
  apply (counter_ok_later s now tm) in Hok; [|done].
  destruct (Z.lt_ge_cases tm lo) as [Hb|Hb].
  - cbn [check_all]. pose proof (counter_ok_check tm c' (rate_key c) s Hw Hok) as Hok'.
    destruct (check tm c' s) as [d s']. rewrite granted_cons, bool_decide_false by lia.
    cbn in Hok'. specialize (IH tm s' Hlim Hw Hok' Hl'). lia.
  - etrans; [apply (granted_remaining c lo _ tm)|]; [done..| |].
    + constructor; [by apply StronglySorted_inv in Hl as [Hl _]|]. cbn.
      constructor; [lia|]. by apply StronglySorted_inv in Hl' as [_ ?].
    + unfold counter_ok in Hok. destruct (entry s tm (rate_key c)) as [[n [t|]]|]; cbn; [destruct (_ <=? _)|..]; lia.
Qed.

(** (C30) The fixed-window limiter bounds the request rate: in any history of checks from an
    empty store, however the clients interleave, at most twice the limit of one client's
    requests pass in any span of one window, a refused request is told to wait at least a
    second, and a counter found without an expiry gets one, so that no client is locked out
    for ever. *)
Theorem rate_limit_bounds_requests c lo l :
  0 ≤ limit → 0 < window_seconds → chronological 0 l →
  granted c lo (lo + window_seconds) (check_all l empty_store) ≤ 2 * limit
  ∧ ∀ now s, 1 ≤ retry_after_seconds (check now c s).1
             ∧ ∃ n dl, entry (check now c s).2 now (rate_key c) = Some (n, Some dl).
Proof.
  intros Hlim Hw Hl. split.
  - apply (granted_from c lo l 0); [done|done| |done]. by rewrite entry_empty.
  - intros now s. split.
    + unfold check. destruct (_SCRIPT now (rate_key c) s) as [[cur t] s']. cbn. lia.
    + pose proof (check_spec now c s Hw) as Hs. destruct (check now c s) as [d s'].
      destruct (entry s now (rate_key c)) as [[m [t|]]|]; destruct Hs as [_ Hs]; eauto.
Qed.
End RateLimiter.

(** ** A Redis in memory *)

Definition mem_entry (s : gmap string (Z * option Z)) (now : Z) (k : string) : option (Z * option Z) :=
  match s !! k with
  | Some (n, Some t) => if now <? t then Some (n, Some t) else None
  | e => e
  end.
Definition mem_incr (now : Z) (k : string) (s : gmap string (Z * option Z)) : Z * gmap string (Z * option Z) :=
  match mem_entry s now k with
  | Some (m, dl) => (m + 1, <[k := (m + 1, dl)]> s)
  | None => (1, <[k := (1, None)]> s)
  end.
Definition mem_ttl (now : Z) (k : string) (s : gmap string (Z * option Z)) : Z :=
  match mem_entry s now k with Some (_, Some t) => t - now | Some (_, None) => -1 | None => -2 end.
Definition mem_expire (now : Z) (k : string) (w : Z) (s : gmap string (Z * option Z))
    : gmap string (Z * option Z) :=
  match mem_entry s now k with Some (n, _) => <[k := (n, Some (now + w))]> s | None => s end.

Lemma mem_entry_live s now k n t : mem_entry s now k = Some (n, Some t) → now < t.
Proof.
  unfold mem_entry. destruct (s !! k) as [[m [u|]]|]; try done. destruct (Z.ltb_spec now u); naive_solver.
Qed.

Lemma mem_entry_insert s now k n dl :
  match dl with Some t => now < t | None => True end → mem_entry (<[k := (n, dl)]> s) now k = Some (n, dl).
Proof.
  intros Hdl. unfold mem_entry. rewrite lookup_insert_eq. destruct dl; [|done].
  by rewrite (proj2 (Z.ltb_lt _ _) Hdl).
Qed.

Lemma mem_entry_insert_ne s now k k' e : k ≠ k' → mem_entry (<[k := e]> s) now k' = mem_entry s now k'.
Proof. intros Hne. unfold mem_entry. by rewrite lookup_insert_ne. Qed.

#[export] Program Instance mem_redis : Redis := {|
  store := gmap string (Z * option Z); empty_store := ∅; entry := mem_entry; incr := mem_incr;
  ttl := mem_ttl; expire := mem_expire;
|}.
Next Obligation. done. Qed.
Next Obligation.
  intros s now now' k n dl Hle. unfold mem_entry. destruct (s !! k) as [[m [u|]]|]; try naive_solver.
  destruct (Z.ltb_spec now u); naive_solver.
Qed.
Next Obligation.
  intros s now now' k Hle. unfold mem_entry. destruct (s !! k) as [[m [u|]]|]; try done.
  destruct (Z.ltb_spec now u); [done|]. by rewrite (proj2 (Z.ltb_ge _ _)) by lia.
Qed.
Next Obligation.
  intros s now k. unfold mem_incr. destruct (mem_entry s now k) as [[m dl]|] eqn:E; split; try done;
    apply mem_entry_insert; [|done]. destruct dl; [|done]. by eapply mem_entry_live.
Qed.
Next Obligation.
  intros s now k k' Hne. unfold mem_incr. destruct (mem_entry s now k) as [[m dl]|]; by apply mem_entry_insert_ne.
Qed.
Next Obligation.
  intros s now k. unfold mem_ttl. destruct (mem_entry s now k) as [[m [t|]]|] eqn:E; try done.
  apply mem_entry_live in E. lia.
Qed.
Next Obligation.
  intros s now k w n dl Hw E. unfold mem_expire. rewrite E. apply mem_entry_insert. lia.
Qed.
Next Obligation.
  intros s now k w k' Hne. unfold mem_expire. destruct (mem_entry s now k) as [[m dl]|]; [|done].
  by apply mem_entry_insert_ne.
Qed.

(** Two requests a minute: the third of a burst is refused, and at the turn of the window
    two more pass. *)
Lemma rate_limit_bounds_requests_witness :
  let burst := [(0, "a"); (1, "b"); (59, "a"); (59, "a"); (60, "a"); (61, "a"); (62, "a")] in
  (@check_all mem_redis demo_host 2 60 burst empty_store).*2 = [true; true; true; false; true; true; false]
  ∧ granted "a" 30 90 (@check_all mem_redis demo_host 2 60 burst empty_store) ≤ 4.
Proof.
  intros burst. split; [by vm_compute|].
  apply (@rate_limit_bounds_requests mem_redis demo_host 2 60 "a" 30 burst); [lia|lia|].
  unfold chronological, burst. cbn. repeat constructor; lia.
Defined.
