(* ===== verification/Boundary.v ===== *)
(** * The security boundary of the API

    [src/src/agent_runtime/security/authentication.py], the audit record of
    [src/src/agent_runtime/security/audit.py] and the middleware
    [enforce_security_boundary] of [src/src/agent_runtime/api/main.py]: who a request is
    from, whether it may go on, and what the audit trail says about it.

    The rate limiter, the audit store and the rest of the application are parameters of
    the middleware.  An exchange records what the middleware answered, the audit records it
    tried to write, and the identity it handed to the application if it called it. *)

From S2P Require Import Prelude Float64 PyValue States Models Canonical Telemetry Credentials Settings.
From S2P Require Import RateLimiter.
Local Open Scope Z_scope.

(** ** Authentication *)

Record AuthenticationResult := {
  authenticated : bool;
  credential_fingerprint : option string;
  failure_code : option string;
  auth_principal_id : option string;
  auth_tenant_id : option string;
}.

Definition auth_failure (code : string) : AuthenticationResult :=
  {| authenticated := false; credential_fingerprint := None; failure_code := Some code;
     auth_principal_id := None; auth_tenant_id := None |}.

(** [value or None]. *)
Definition or_none (s : string) : option string := if bool_decide (s = "") then None else Some s.

(** [s.partition(" ")]: the text around the first space, or the whole text and nothing. *)
Fixpoint partition_space (l : chars) : chars * chars :=
  match l with
  | [] => ([], [])
  | c :: l' => if is_char 32 c then ([], l') else let '(a, b) := partition_space l' in (c :: a, b)
  end.

(** [str.lower] on the letters A to Z; no other code point below 256 becomes one of them. *)
Definition lower_char (c : Ascii.ascii) : Ascii.ascii :=
  if between 65 90 c then Ascii.ascii_of_N (Z.to_N (Text.code c + 32)) else c.

Definition _extract_raw_key (x_api_key authorization : option string) : option string :=
  match x_api_key, authorization with
  | Some k, _ => or_none (Text.strip k)
  | None, None => None
  | None, Some a =>
      let '(scheme, credential) := partition_space (Text.to_list a) in
      if bool_decide (Text.of_list (lower_char <$> scheme) = "bearer")
      then or_none (Text.strip (Text.of_list credential))
      else None
  end.

Section Authentication.
Context `{Crypto} `{Host} (settings : Settings) (credentials : list CredentialRecord.t).

Definition fingerprint (key_id : string) : string :=
  Text.of_list (take 16 (Text.to_list (sha256_hex ("arr-audit-v1:" +:+ key_id)))).

Definition authenticate_api_key (now : time) (x_api_key authorization : option string)
    : result AuthenticationResult :=
  match auth_mode settings with
  | auth_disabled =>
      Ok {| authenticated := true; credential_fingerprint := None; failure_code := None;
            auth_principal_id := None; auth_tenant_id := None |}
  | auth_api_key =>
      match _extract_raw_key x_api_key authorization with
      | None => Ok (auth_failure "AUTHENTICATION_REQUIRED")
      | Some raw_key =>
          match KEY_PATTERN raw_key with
          | None => Ok (auth_failure "INVALID_CREDENTIAL")
          | Some id =>
              match head (filter (λ r, CredentialRecord.key_id r = id) credentials) with
              | None => Ok (auth_failure "INVALID_CREDENTIAL")
              | Some r =>
                  if negb (CredentialRecord.is_active now r) then Ok (auth_failure "INVALID_CREDENTIAL")
                  else
                    match auth_pepper settings with
                    | None => Err (RuntimeError "API-key authentication has no credential pepper")
                    | Some pepper =>
                        v ← derive_verifier raw_key (CredentialRecord.salt r) pepper (CredentialRecord.scheme r);
                        if bool_decide (v = CredentialRecord.verifier r)
                        then Ok {| authenticated := true;
                                   credential_fingerprint := Some (fingerprint (CredentialRecord.key_id r));
                                   failure_code := None;
                                   auth_principal_id := Some (CredentialRecord.principal_id r);
                                   auth_tenant_id := Some (CredentialRecord.tenant_id r) |}
                        else Ok (auth_failure "INVALID_CREDENTIAL")
                    end
              end
          end
      end
  end.
End Authentication.

(** ** Audit records *)

Record SecurityAuditRecord := {
  sar_event_type : string;
  sar_outcome : string;
  sar_reason : string;
  sar_client_id : option string;
  sar_credential_fingerprint : option string;
  sar_principal_id : option string;
  sar_target_run_id : option uuid;
  sar_resource : option string;
}.

(** One character as [safe_text] keeps it. *)
Definition safe_char (c : Ascii.ascii) : Ascii.ascii :=
  if between 32 126 c then c else Ascii.ascii_of_nat 95.
Definition safe_text (value : option string) (limit : nat) : option string :=
  (λ s, Text.of_list (safe_char <$> take limit (Text.to_list s))) <$> value.
Definition safe_string (s : string) (limit : nat) : string :=
  Text.of_list (safe_char <$> take limit (Text.to_list s)).

(** The row [SqlAlchemySecurityAuditSink.record] adds. *)
Definition audit_row (r : SecurityAuditRecord) : SecurityAuditRecord :=
  {| sar_event_type := safe_string (sar_event_type r) 64;
     sar_outcome := safe_string (sar_outcome r) 16;
     sar_reason := safe_string (sar_reason r) 64;
     sar_client_id := safe_text (sar_client_id r) 128;
     sar_credential_fingerprint := safe_text (sar_credential_fingerprint r) 64;
     sar_principal_id := safe_text (sar_principal_id r) 128;
     sar_target_run_id := sar_target_run_id r;
     sar_resource :=
       x ← sar_resource r;
       if bool_decide (x ∈ ["run"; "attempts"; "events"; "evaluations"; "job"]) then Some x else None |}.

(** ** The middleware *)

Record Request := {
  req_method : string;
  req_path : string;
  req_client_ids : list string;
  req_x_api_key : option string;
  req_authorization : option string;
}.

Record Response := { status_code : Z; error_code : option string; retry_after : option Z }.

Definition _security_error (status : Z) (code : string) : Response :=
  {| status_code := status; error_code := Some code; retry_after := None |}.

(** What [request.state] holds for the handlers. *)
Record Identity := { id_tenant : option string; id_principal : option string }.

Record Exchange := {
  answer : result Response;
  audited : list SecurityAuditRecord;
  handled : option Identity;
}.

Definition is_public (req : Request) : bool :=
  bool_decide (req_method req = "GET" ∧ req_path req = "/healthz").

Section Boundary.
Context `{Crypto} `{Host} (settings : Settings) (credentials : list CredentialRecord.t).

(** [/v1/(runs|jobs)/([0-9a-fA-F-]{36})(?:/(attempts|events|evaluations))?] *)
Definition is_uuid_char (c : Ascii.ascii) : bool := is_hex c || between 65 70 c || is_char 45 c.
Definition path_segments (path : string) : list string :=
  Text.of_list <$> Text.split_on 47 (Text.to_list path).
Definition sensitive_path (path : string) : option (string * string * option string) :=
  match path_segments path with
  | "" :: "v1" :: kind :: id :: rest =>
      if bool_decide (kind ∈ ["runs"; "jobs"]) && forallb is_uuid_char (Text.to_list id)
         && (len (Text.to_list id) =? 36)
      then match rest with
           | [] => Some (kind, id, None)
           | [r] => if bool_decide (r ∈ ["attempts"; "events"; "evaluations"])
                    then Some (kind, id, Some r) else None
           | _ => None
           end
      else None
  | _ => None
  end.

Definition _sensitive_read_target (req : Request) : option (uuid * string) :=
  if bool_decide (req_method req = "GET") then
    '(kind, id, resource) ← sensitive_path (req_path req);
    target ← uuid_parse id;
    Some (target, default (if bool_decide (kind = "jobs") then "job" else "run") resource)
  else None.

(** The caller's [X-Client-Id] headers are acceptable: at most one, of the identity pattern. *)
Definition client_id_headers_ok (req : Request) : bool :=
  match req_client_ids req with
  | [] => true
  | [c] => CLIENT_ID_PATTERN c
  | _ => false
  end.

Section Request.
(** [limiter] answers [None] when Redis cannot be reached; [sink] tells whether the audit
    write completes in time; [call_next] is the application. *)
Context (limiter : string → option RateLimitDecision) (sink : SecurityAuditRecord → bool)
        (call_next : Identity → result Response).

Definition write_security_audit (r : SecurityAuditRecord) : bool :=
  sink r || bool_decide (audit_failure_policy settings = fail_open).

Definition audit_entry (event_type outcome reason : string) (client : option string)
    (a : AuthenticationResult) (principal : option string) : SecurityAuditRecord :=
  {| sar_event_type := event_type; sar_outcome := outcome; sar_reason := reason;
     sar_client_id := client; sar_credential_fingerprint := credential_fingerprint a;
     sar_principal_id := principal; sar_target_run_id := None; sar_resource := None |}.

Definition read_outcome (status : Z) : string :=
  if status <? 400 then "ALLOWED" else if 500 <=? status then "ERROR" else "DENIED".

(** [audit_read]: the record of a sensitive read, if the request is one. *)
Definition read_entry (target : option (uuid * string)) (id : Identity) (a : AuthenticationResult)
    (status : Z) : option SecurityAuditRecord :=
  '(run, resource) ← target;
  let outcome := read_outcome status in
  Some {| sar_event_type := "SENSITIVE_READ"; sar_outcome := outcome;
          sar_reason := if bool_decide (outcome = "ALLOWED") then "READ_COMPLETED" else "READ_REJECTED";
          sar_client_id := id_tenant id; sar_credential_fingerprint := credential_fingerprint a;
          sar_principal_id := id_principal id; sar_target_run_id := Some run; sar_resource := Some resource |}.

Definition audit_unavailable : Response := _security_error 503 "AUDIT_UNAVAILABLE".

(** The application, then the record of the read. *)
Definition serve (target : option (uuid * string)) (a : AuthenticationResult) (before : list SecurityAuditRecord)
    (id : Identity) : Exchange :=
  match call_next id with
  | Err e =>
      {| answer := Err e; audited := before ++ option_list (read_entry target id a 500); handled := Some id |}
  | Ok r =>
      match read_entry target id a (status_code r) with
      | None => {| answer := Ok r; audited := before; handled := Some id |}
      | Some entry =>
          {| answer := Ok (if write_security_audit entry then r else audit_unavailable);
             audited := before ++ [entry]; handled := Some id |}
      end
  end.

(** After the credential has been accepted: the rate limit, the audit of the access. *)
Definition let_through (req : Request) (a : AuthenticationResult) : Exchange :=
  let id := {| id_tenant := auth_tenant_id a; id_principal := auth_principal_id a |} in
  let target := _sensitive_read_target req in
  let refuse r entry := {| answer := Ok r; audited := [entry]; handled := None |} in
  match auth_mode settings with
  | auth_disabled => serve target a [] id
  | auth_api_key =>
      match auth_principal_id a, auth_tenant_id a with
      | Some principal, Some tenant =>
          match limiter principal with
          | None =>
              refuse (_security_error 503 "RATE_LIMIT_UNAVAILABLE")
                (audit_entry "RATE_LIMIT" "ERROR" "RATE_LIMIT_UNAVAILABLE" (Some tenant) a None)
          | Some d =>
              if negb (allowed d) then
                refuse {| status_code := 429; error_code := Some "RATE_LIMIT_EXCEEDED";
                          retry_after := Some (retry_after_seconds d) |}
                  (audit_entry "RATE_LIMIT" "DENIED" "RATE_LIMIT_EXCEEDED" (Some tenant) a None)
              else
                match target with
                | Some _ => serve target a [] id
                | None =>
                    let entry := audit_entry "AUTHENTICATION" "ALLOWED" "AUTHENTICATED" (Some tenant) a
                                   (Some principal) in
                    if write_security_audit entry then serve target a [entry] id
                    else refuse audit_unavailable entry
                end
          end
      | _, _ => {| answer := Err (RuntimeError "Authenticated credential has no identity binding");
                   audited := []; handled := None |}
      end
  end.

Definition enforce_security_boundary (now : time) (req : Request) : Exchange :=
  if is_public req
  then {| answer := call_next {| id_tenant := None; id_principal := None |}; audited := [];
          handled := Some {| id_tenant := None; id_principal := None |} |}
  else if negb (client_id_headers_ok req)
  then {| answer := Ok (_security_error 422 "INVALID_CLIENT_ID"); audited := []; handled := None |}
  else
    match authenticate_api_key settings credentials now (req_x_api_key req) (req_authorization req) with
    | Err e => {| answer := Err e; audited := []; handled := None |}
    | Ok a =>
        if authenticated a then let_through req a
        else
          let reason := default "INVALID_CREDENTIAL" (failure_code a) in
          {| answer := Ok (_security_error
                 (if bool_decide (failure_code a = Some "AUTHENTICATION_REQUIRED") then 401 else 403) reason);
             audited := [audit_entry "AUTHENTICATION" "DENIED" reason None a None]; handled := None |}
    end.
End Request.
End Boundary.

(** ** Theorems *)

(** The credential [r] of the registry that the headers of a request prove. *)
Definition proves `{Crypto} (settings : Settings) (credentials : list CredentialRecord.t) (now : time)
    (req : Request) (r : CredentialRecord.t) : Prop :=
  ∃ raw_key pepper, _extract_raw_key (req_x_api_key req) (req_authorization req) = Some raw_key
    ∧ auth_pepper settings = Some pepper ∧ r ∈ credentials ∧ CredentialRecord.is_active now r = true
    ∧ KEY_PATTERN raw_key = Some (CredentialRecord.key_id r)
    ∧ derive_verifier raw_key (CredentialRecord.salt r) pepper (CredentialRecord.scheme r)
      = Ok (CredentialRecord.verifier r).

Section BoundaryProofs.
Context `{Crypto} `{Host} (settings : Settings) (credentials : list CredentialRecord.t).
Abbreviation authenticate := (authenticate_api_key settings credentials).

Lemma authenticated_inv now req a :
  auth_mode settings = auth_api_key →
  authenticate now (req_x_api_key req) (req_authorization req) = Ok a → authenticated a = true →
  ∃ r, proves settings credentials now req r
    ∧ auth_tenant_id a = Some (CredentialRecord.tenant_id r)
    ∧ auth_principal_id a = Some (CredentialRecord.principal_id r)
    ∧ credential_fingerprint a = Some (fingerprint (CredentialRecord.key_id r)).
Proof.
  intros Hm Ha Hok. unfold authenticate_api_key in Ha. rewrite Hm in Ha.
  destruct (_extract_raw_key _ _) as [raw|] eqn:Eraw; [|by simplify_eq].
  destruct (KEY_PATTERN raw) as [id|] eqn:Ekey; [|by simplify_eq].
  destruct (head _) as [r|] eqn:Er; [|by simplify_eq].
  destruct (CredentialRecord.is_active now r) eqn:Eact; [|by simplify_eq/=].
  destruct (auth_pepper settings) as [pepper|] eqn:Epep; [|done].
  apply result_bind_ok in Ha as (v & Hv & Ha). case_bool_decide as Heq; [|by simplify_eq].
  subst v. injection Ha as <-. exists r. split; [|done].
  assert (r ∈ filter (λ r, CredentialRecord.key_id r = id) credentials) as [Hid Hin]%list_elem_of_filter
    by (destruct (filter _ _); [done|]; injection Er as ->; by left).
  exists raw, pepper. by rewrite Hid.
Qed.

Section Request.
Context (limiter : string → option RateLimitDecision) (sink : SecurityAuditRecord → bool)
        (call_next : Identity → result Response).
Abbreviation boundary := (enforce_security_boundary settings credentials limiter sink call_next).
Abbreviation written := (write_security_audit settings sink).

Lemma serve_handled target a before id : handled (serve settings sink call_next target a before id) = Some id.
Proof. unfold serve. destruct (call_next id) as [r|]; [destruct (read_entry target id a (status_code r))|]; done. Qed.

Lemma serve_before target a before id x :
  x ∈ before → x ∈ audited (serve settings sink call_next target a before id).
Proof.
  unfold serve. destruct (call_next id) as [r|]; [destruct (read_entry target id a (status_code r))|]; cbn; set_solver.
Qed.

(** A request the application sees carried the key of an active credential. *)
Lemma boundary_admits now req id :
  auth_mode settings = auth_api_key → is_public req = false → handled (boundary now req) = Some id →
  client_id_headers_ok req = true ∧
  ∃ r d, proves settings credentials now req r
    ∧ id = {| id_tenant := Some (CredentialRecord.tenant_id r); id_principal := Some (CredentialRecord.principal_id r) |}
    ∧ limiter (CredentialRecord.principal_id r) = Some d ∧ allowed d = true
    ∧ (_sensitive_read_target req = None →
         ∃ entry, entry ∈ audited (boundary now req) ∧ written entry = true
           ∧ sar_event_type entry = "AUTHENTICATION" ∧ sar_outcome entry = "ALLOWED"
           ∧ sar_client_id entry = id_tenant id ∧ sar_principal_id entry = id_principal id).
Proof.
  intros Hm Hpub. unfold enforce_security_boundary. rewrite Hpub.
  destruct (client_id_headers_ok req); [|done]. cbn [negb].
  destruct (authenticate now _ _) as [a|] eqn:Ea; [|done]. destruct (authenticated a) eqn:Hok; [|done].
  destruct (authenticated_inv _ _ _ Hm Ea Hok) as (r & Hr & Ht & Hp & _).
  unfold let_through. rewrite Hm, Ht, Hp.
  destruct (limiter _) as [d|] eqn:El; [|done]. destruct (allowed d) eqn:Ed; [|done]. cbn [negb].
  destruct (_sensitive_read_target req) eqn:Et.
  - rewrite serve_handled. intros [= <-]. split; [done|]. by exists r, d.
  - destruct (write_security_audit _ _ _) eqn:Ew; [|done]. rewrite serve_handled. intros [= <-].
    split; [done|]. exists r, d. split_and!; try done. intros _. eexists. split; [apply serve_before; by left|done].
Qed.

(** (C7) Nothing reaches the application without a proven identity: with API keys on, if the
    middleware calls the application for a non-public request, the request carried the key of
    an active credential of the registry, the tenant and principal handed on are those of
    that credential whatever [X-Client-Id] said, the rate limiter let this principal through,
    and, unless the request is a sensitive read that is audited with its outcome, an
    [AUTHENTICATION]/[ALLOWED] record naming this tenant and principal was handed to the audit
    sink, and either the sink took it or the failure policy is fail-open, which lets the request
    through without a record. *)
Theorem boundary_requires_identity now req id :
  auth_mode settings = auth_api_key → is_public req = false → handled (boundary now req) = Some id →
  client_id_headers_ok req = true ∧
  ∃ r d, proves settings credentials now req r
    ∧ id = {| id_tenant := Some (CredentialRecord.tenant_id r); id_principal := Some (CredentialRecord.principal_id r) |}
    ∧ limiter (CredentialRecord.principal_id r) = Some d ∧ allowed d = true
    ∧ (_sensitive_read_target req = None →
         ∃ entry, entry ∈ audited (boundary now req)
           ∧ (sink entry = true ∨ audit_failure_policy settings = fail_open)
           ∧ sar_event_type entry = "AUTHENTICATION" ∧ sar_outcome entry = "ALLOWED"
           ∧ sar_client_id entry = id_tenant id ∧ sar_principal_id entry = id_principal id).
Proof.
  intros Hm Hpub Hh. destruct (boundary_admits _ _ _ Hm Hpub Hh) as (Hc & r & d & Hr & Hid & Hl & Ha & Haud).
  split; [done|]. exists r, d. split_and!; try done. intros Ht.
  destruct (Haud Ht) as (entry & Hin & Hw & Hrest). exists entry. split_and!; try naive_solver.
  unfold write_security_audit in Hw. apply orb_true_iff in Hw as [|Hw]; [by left|]. right. by case_bool_decide.
Qed.

(** (C29) Sensitive reads leave a trace: under the fail-closed policy, when a request for a run,
    a job or one of its histories is answered with success, an audit record that names the
    target, the resource, the tenant and the principal as allowed has been written. *)
Theorem sensitive_reads_are_audited now req target resource resp :
  auth_mode settings = auth_api_key → audit_failure_policy settings = fail_closed →
  is_public req = false → _sensitive_read_target req = Some (target, resource) →
  answer (boundary now req) = Ok resp → status_code resp < 400 →
  ∃ r entry, proves settings credentials now req r ∧ entry ∈ audited (boundary now req) ∧ sink entry = true
    ∧ sar_event_type entry = "SENSITIVE_READ" ∧ sar_outcome entry = "ALLOWED"
    ∧ sar_target_run_id entry = Some target ∧ sar_resource entry = Some resource
    ∧ sar_client_id entry = Some (CredentialRecord.tenant_id r)
    ∧ sar_principal_id entry = Some (CredentialRecord.principal_id r).
Proof.
  intros Hm Hpol Hpub Htgt. unfold enforce_security_boundary. rewrite Hpub.
  destruct (client_id_headers_ok req); [|intros [= <-]; cbn; lia]. cbn [negb].
  destruct (authenticate now _ _) as [a|] eqn:Ea; [|done].
  destruct (authenticated a) eqn:Hok; [|intros [= <-]; cbn; case_bool_decide; lia].
  destruct (authenticated_inv _ _ _ Hm Ea Hok) as (r & Hr & Ht & Hp & _).
  unfold let_through. rewrite Hm, Ht, Hp, Htgt.
  destruct (limiter _) as [d|]; [|intros [= <-]; cbn; lia].
  destruct (allowed d); [|intros [= <-]; cbn; lia]. cbn [negb].
  unfold serve. destruct (call_next _) as [r0|]; [|done]. cbn [read_entry mbind option_bind].
  destruct (write_security_audit _ _ _) eqn:Ew; intros [= <-]; [|cbn; lia]. intros Hst.
  unfold write_security_audit in Ew. rewrite Hpol in Ew.
  change (bool_decide (fail_closed = fail_open)) with false in Ew. rewrite orb_false_r in Ew.
  exists r. eexists. split; [done|]. split; [by left|]. split; [exact Ew|].
  cbn. unfold read_outcome. by rewrite (proj2 (Z.ltb_lt _ _) Hst).
Qed.
End Request.

(** ** Issued keys *)

Lemma match_classes_forall ps (P : Ascii.ascii → Prop) l :
  Forall (λ p : Ascii.ascii → bool, ∀ c, p c = true → P c) ps → match_classes ps l = true → Forall P l.
Proof.
  intros Hps. revert l. induction Hps as [|p ps Hp _ IH]; intros [|c l] Hl; cbn in *; try done.
  apply andb_true_iff in Hl as [Hc Hl]. constructor; auto.
Qed.

(** A visible character: not white space. *)
Definition visible (c : Ascii.ascii) : Prop := Text.is_space c = false.

(** The characters of a key, tested on all 256. *)
Lemma all_chars (P : Ascii.ascii → bool) :
  forallb P (Ascii.ascii_of_nat <$> seq 0 256) = true → ∀ c, P c = true.
Proof.
  rewrite forallb_forall. intros Hall c. apply Hall. apply list_elem_of_In, list_elem_of_fmap.
  exists (Ascii.nat_of_ascii c). rewrite Ascii.ascii_nat_embedding. split; [done|].
  apply elem_of_seq. pose proof (Ascii.nat_ascii_bounded c). lia.
Qed.

Lemma key_class_visible p c : p ∈ key_classes → p c = true → visible c.
Proof.
  intros Hp Hc.
  assert (∀ c, implb (existsb (λ q, q c) key_classes) (negb (Text.is_space c)) = true) as Hall
    by (apply all_chars; by vm_compute).
  specialize (Hall c). rewrite (proj2 (existsb_exists _ _)) in Hall.
  - by apply negb_true_iff.
  - exists p. split; [by apply list_elem_of_In|done].
Qed.

Lemma strip_visible s : Forall visible (Text.to_list s) → Text.strip s = s.
Proof.
  assert (∀ l, Forall visible l → Text.drop_spaces l = l) as Hdrop.
  { intros [|c l] Hl; [done|]. cbn. apply Forall_cons in Hl as [Hc _]. unfold visible in Hc. by rewrite Hc. }
  intros Hs. unfold Text.strip. rewrite (Hdrop _ Hs), (Hdrop (reverse _)) by by apply Forall_reverse.
  by rewrite reverse_involutive, Text.of_to_list.
Qed.

Lemma partition_space_app l m : Forall visible l → partition_space (l ++ Ascii.ascii_of_nat 32 :: m) = (l, m).
Proof.
  induction 1 as [|c l Hc Hl IH]; [done|]. cbn. rewrite IH. unfold is_char, visible, Text.is_space in *.
  destruct (Z.eqb_spec (Text.code c) 32) as [E|]; [|done]. by rewrite E in Hc.
Qed.

Lemma key_pattern_visible raw id : KEY_PATTERN raw = Some id → Forall visible (Text.to_list raw) ∧ raw ≠ "".
Proof.
  unfold KEY_PATTERN. destruct (match_classes _ _) eqn:E; [|done]. intros _. split.
  - eapply match_classes_forall; [|exact E]. apply Forall_forall. intros p Hp c. by apply key_class_visible.
  - by intros ->.
Qed.

(** Both ways of sending a key deliver it. *)
Lemma extract_issued raw id :
  KEY_PATTERN raw = Some id →
  _extract_raw_key (Some raw) None = Some raw ∧ _extract_raw_key None (Some ("Bearer " +:+ raw)) = Some raw.
Proof.
  intros [Hv Hne]%key_pattern_visible.
  assert (or_none (Text.strip raw) = Some raw) as Ho.
  { rewrite strip_visible by done. unfold or_none. by rewrite bool_decide_false. }
  split; [done|]. unfold _extract_raw_key. rewrite to_list_app.
  change (Text.to_list "Bearer ") with (Text.to_list "Bearer" ++ [Ascii.ascii_of_nat 32]).
  rewrite <- app_assoc. cbn [app]. rewrite partition_space_app by (repeat constructor).
  rewrite bool_decide_true by done. by rewrite Text.of_to_list.
Qed.

(** An issued key works, and identifies its owner: once the record
    [issue_credential] produced is in a registry with distinct key ids, the key it returned
    authenticates, in [X-API-Key] or as a bearer token, as exactly the principal and tenant
    it was issued for, until it expires; and it does not as soon as it has expired. *)
Theorem issued_key_authenticates i p t pepper expires raw r now :
  issue_credential i p t pepper expires = Ok (raw, r) →
  auth_mode settings = auth_api_key → auth_pepper settings = Some pepper → r ∈ credentials →
  NoDup (CredentialRecord.key_id <$> credentials) →
  ∀ x_api_key authorization, (x_api_key, authorization) ∈ [(Some raw, None); (None, Some ("Bearer " +:+ raw))] →
  authenticate now x_api_key authorization =
    Ok (if match expires with None => true | Some e => now <? e end
        then {| authenticated := true; credential_fingerprint := Some (fingerprint (CredentialRecord.key_id r));
                failure_code := None; auth_principal_id := Some p; auth_tenant_id := Some t |}
        else auth_failure "INVALID_CREDENTIAL").
Proof.
  intros Hi Hm Hpep Hin Hnd xk au Hways. unfold issue_credential in Hi.
  apply result_bind_ok in Hi as ([] & _ & Hi). apply result_bind_ok in Hi as (v & Hv & Hi).
  apply result_bind_ok in Hi as ([] & _ & Hi). injection Hi as Hraw Hr.
  assert (KEY_PATTERN raw = Some (CredentialRecord.key_id r)) as Hkey
    by (rewrite <- Hraw, <- Hr; apply issued_key_pattern).
  destruct (extract_issued _ _ Hkey) as [Hx Hb].
  assert (_extract_raw_key xk au = Some raw) as Hraw' by (set_solver).
  unfold authenticate_api_key. rewrite Hm, Hraw', Hkey.
  assert (head (filter (λ x, CredentialRecord.key_id x = CredentialRecord.key_id r) credentials) = Some r) as ->.
  { destruct (filter _ _) as [|x l] eqn:Ef.
    - exfalso. assert (r ∈ filter (λ x, CredentialRecord.key_id x = CredentialRecord.key_id r) credentials) as Hf
        by (by apply list_elem_of_filter). rewrite Ef in Hf. by apply not_elem_of_nil in Hf.
    - assert (x ∈ filter (λ x, CredentialRecord.key_id x = CredentialRecord.key_id r) credentials) as [? ?]%list_elem_of_filter
        by (rewrite Ef; by left).
      cbn. f_equal. by eapply (NoDup_fmap_inj_elem CredentialRecord.key_id credentials). }
  rewrite Hraw in Hv. rewrite Hpep. unfold CredentialRecord.is_active. rewrite <- Hr. cbn.
  destruct (match expires with Some _ => _ | None => _ end); [|done]. cbn.
  rewrite Hv. cbn. by rewrite bool_decide_true.
Qed.
End BoundaryProofs.

(** ** A request at work *)

Definition demo_hmac (k m : chars) : chars := take 32 (reverse (k ++ m) ++ repeat nul 32).

#[export] Program Instance demo_crypto : Crypto := {|
  hmac_sha256 := demo_hmac;
  pbkdf2_sha256 := λ m s _, demo_hmac m s;
  token_hex16 := λ _, "0123456789abcdef0123456789abcdef";
  token_urlsafe32 := λ _, "ABCDEFGHIJKLMNOPQRSTUVWXYZ_0123456789-abcde";
|}.
Next Obligation. intros k m. unfold demo_hmac. rewrite length_take, length_app, repeat_length. lia. Qed.
Next Obligation. done. Qed.
Next Obligation. done. Qed.

Section Witness.
#[local] Existing Instance demo_host.

Definition demo_pepper : string := "a pepper of at least 32 characters".
Definition no_record : CredentialRecord.t :=
  {| CredentialRecord.key_id := ""; CredentialRecord.principal_id := ""; CredentialRecord.tenant_id := "";
     CredentialRecord.scheme := ""; CredentialRecord.salt := ""; CredentialRecord.verifier := "";
     CredentialRecord.enabled := false; CredentialRecord.expires_at := None |}.
Definition demo_issued : string * CredentialRecord.t :=
  match issue_credential 0 "alice" "acme" demo_pepper (Some (seconds 100)) with
  | Ok x => x
  | Err _ => ("", no_record)
  end.
Definition demo_registry : list CredentialRecord.t := [demo_issued.2].

(** Alice asks for one of the histories of run 7, whose name has 36 characters here. *)
Definition demo_read : Request :=
  {| req_method := "GET"; req_path := "/v1/runs/000000000000000000000000000000000007/events";
     req_client_ids := ["whoever"]; req_x_api_key := Some demo_issued.1; req_authorization := None |}.
Definition open_limiter (_ : string) : option RateLimitDecision :=
  Some {| allowed := true; retry_after_seconds := 1 |}.
Definition ok_handler (_ : Identity) : result Response :=
  Ok {| status_code := 200; error_code := None; retry_after := None |}.
Abbreviation demo_boundary :=
  (enforce_security_boundary sample_settings demo_registry open_limiter (λ _, true) ok_handler (seconds 50)).

Lemma issued_key_authenticates_witness :
  authenticate_api_key sample_settings demo_registry (seconds 50) (Some demo_issued.1) None
  = Ok {| authenticated := true; credential_fingerprint := Some (fingerprint (CredentialRecord.key_id demo_issued.2));
          failure_code := None; auth_principal_id := Some "alice"; auth_tenant_id := Some "acme" |}
  ∧ authenticate_api_key sample_settings demo_registry (seconds 100) None (Some ("Bearer " +:+ demo_issued.1))
    = Ok (auth_failure "INVALID_CREDENTIAL").
Proof.
  pose proof (issued_key_authenticates sample_settings demo_registry 0 "alice" "acme" demo_pepper
    (Some (seconds 100)) demo_issued.1 demo_issued.2) as Hk.
  split.
  - apply (Hk (seconds 50)); [by vm_compute|done|done|by left|by vm_compute; repeat constructor; set_solver|by left].
  - apply (Hk (seconds 100)); [by vm_compute|done|done|by left|by vm_compute; repeat constructor; set_solver|].
    right. by left.
Defined.

Lemma boundary_requires_identity_witness :
  ∃ r d, proves sample_settings demo_registry (seconds 50) demo_read r
    ∧ handled (demo_boundary demo_read) = Some {| id_tenant := Some (CredentialRecord.tenant_id r);
                                                  id_principal := Some (CredentialRecord.principal_id r) |}
    ∧ open_limiter (CredentialRecord.principal_id r) = Some d ∧ allowed d = true.
Proof.
  destruct (boundary_requires_identity sample_settings demo_registry open_limiter (λ _, true) ok_handler (seconds 50)
    demo_read {| id_tenant := Some "acme"; id_principal := Some "alice" |}) as (_ & r & d & Hr & Hid & Hl & Ha & _);
    [done|by vm_compute..|].
  exists r, d. split_and!; try done. rewrite <- Hid. by vm_compute.
Defined.

Lemma sensitive_reads_are_audited_witness :
  ∃ r entry, proves sample_settings demo_registry (seconds 50) demo_read r
    ∧ entry ∈ audited (demo_boundary demo_read) ∧ sar_target_run_id entry = Some 7%N
    ∧ sar_principal_id entry = Some (CredentialRecord.principal_id r).
Proof.
  destruct (sensitive_reads_are_audited sample_settings demo_registry open_limiter (λ _, true) ok_handler (seconds 50)
    demo_read 7%N "events" {| status_code := 200; error_code := None; retry_after := None |})
    as (r & entry & Hr & Hin & _ & _ & _ & Ht & _ & _ & Hp); [done|done|by vm_compute..|].
  by exists r, entry.
Defined.
End Witness.
