(* ===== verification/BodyLimit.v ===== *)
(** * Request body limit

    [src/src/agent_runtime/api/body_limit.py]: the outermost middleware, which reads the whole
    body before the application sees it.  The messages are those received before the timeout of
    the middleware: when they run out before the body is complete, the timeout fires. *)

From S2P Require Import Prelude Float64 PyValue Models Canonical Telemetry Engine Credentials Boundary.
Local Open Scope Z_scope.

Inductive message :=
| Disconnect
| RequestPart (body : chars) (more_body : bool).

Inductive verdict :=
| Rejected (status : Z) (reason : string)
| Abandoned
| Forwarded (body : chars).

Definition header := (chars * chars)%type.
Definition header_name (h : header) : chars := lower_char <$> h.1.
Definition content_lengths (headers : list header) : list chars :=
  snd <$> filter (λ h, header_name h = Text.to_list "content-length") headers.
Definition transfer_encoding (headers : list header) : bool :=
  existsb (λ h, bool_decide (header_name h = Text.to_list "transfer-encoding")) headers.

(** [bytes.isdigit] and [int] of decimal digits. *)
Definition bytes_isdigit (l : chars) : bool := negb (bool_decide (l = [])) && forallb decimal_digit l.
Definition bytes_int (l : chars) : Z := foldl (λ acc c, 10 * acc + (Text.code c - 48)) 0 l.

Section BodyLimit.
Context (max_bytes : Z).

Definition lengths_invalid (headers : list header) : bool :=
  match content_lengths headers with
  | [] => false
  | [l] => transfer_encoding headers || negb (bytes_isdigit l) || (10 <? len l)
  | _ => true
  end.
Definition declared (headers : list header) : option Z := bytes_int <$> head (content_lengths headers).

Definition too_large : verdict := Rejected 413 "REQUEST_TOO_LARGE".
Definition invalid_length : verdict := Rejected 400 "INVALID_CONTENT_LENGTH".

(** The [while] loop over [receive]. *)
Fixpoint read_body (messages : list message) (body : chars) : verdict :=
  match messages with
  | [] => Rejected 408 "REQUEST_BODY_TIMEOUT"
  | Disconnect :: _ => Abandoned
  | RequestPart chunk more :: messages =>
      if max_bytes <? len body + len chunk then too_large
      else if more then read_body messages (body ++ chunk) else Forwarded (body ++ chunk)
  end.

(** [BodyLimitMiddleware.__call__] on an HTTP scope. *)
Definition limit_body (headers : list header) (messages : list message) : verdict :=
  if lengths_invalid headers then invalid_length
  else if match declared headers with Some n => max_bytes <? n | None => false end then too_large
  else
    match read_body messages [] with
    | Forwarded body =>
        match declared headers with
        | Some n => if n =? len body then Forwarded body else invalid_length
        | None => Forwarded body
        end
    | other => other
    end.

(** ** Theorems *)

(** The chunks of a body that ends: every part but the last announces another. *)
Inductive complete : list message → list chars → Prop :=
| complete_last chunk rest : complete (RequestPart chunk false :: rest) [chunk]
| complete_more chunk messages chunks :
    complete messages chunks → complete (RequestPart chunk true :: messages) (chunk :: chunks).

Lemma read_body_forwards messages : ∀ body b,
  read_body messages body = Forwarded b ↔
  ∃ chunks, complete messages chunks ∧ b = body ++ mjoin chunks ∧ len b ≤ max_bytes.
Proof.
  induction messages as [|[|chunk more] messages IH]; intros body b; cbn.
  - split; [done|]. by intros (? & Hc & _); inversion Hc.
  - split; [done|]. by intros (? & Hc & _); inversion Hc.
  - destruct (Z.ltb_spec max_bytes (len body + len chunk)) as [Hl|Hl].
    + split; [done|]. intros (chunks & Hc & -> & Hb). exfalso.
      assert (∃ tl, chunks = chunk :: tl) as [tl ->] by (inversion Hc; eauto).
      change (mjoin (chunk :: tl)) with (chunk ++ mjoin tl) in Hb. rewrite !len_app in Hb. pose proof (len_nonneg (mjoin tl)). lia.
    + destruct more.
      * rewrite IH. split.
        -- intros (chunks & Hc & -> & Hb). exists (chunk :: chunks). split; [by constructor|].
           cbn. by rewrite <- app_assoc in *.
        -- intros (chunks & Hc & -> & Hb). inversion Hc; subst. exists chunks0. split; [done|].
           cbn in *. by rewrite <- app_assoc in *.
      * split.
        -- intros [= <-]. exists [chunk]. split; [constructor|]. cbn. rewrite app_nil_r, len_app. done.
        -- intros (chunks & Hc & -> & Hb). inversion Hc; subst. cbn. by rewrite app_nil_r.
Qed.

(** (C36) Exactly the well-formed bodies within the limit reach the application, whole: a body is
    forwarded iff the length headers are consistent (at most one, a decimal number of at most
    ten digits, not beside a transfer encoding), its parts arrived completely before the
    timeout, they add up to at most the limit, and their number is the declared one. *)
Theorem body_limit_exact headers messages b :
  limit_body headers messages = Forwarded b ↔
  lengths_invalid headers = false
  ∧ (∀ n, declared headers = Some n → n = len b)
  ∧ len b ≤ max_bytes
  ∧ ∃ chunks, complete messages chunks ∧ b = mjoin chunks.
Proof.
  unfold limit_body. destruct (lengths_invalid headers); [split; [done|by intros []]|].
  pose proof (read_body_forwards messages [] ) as Hr. cbn in Hr.
  destruct (declared headers) as [n|].
  - destruct (Z.ltb_spec max_bytes n) as [Hn|Hn].
    + split; [done|]. intros (_ & Hd & Hb & _). specialize (Hd n eq_refl). lia.
    + split.
      * destruct (read_body messages []) as [| |body] eqn:E; try done.
        destruct (Z.eqb_spec n (len body)); [|done]. intros [= <-].
        destruct (proj1 (Hr body) eq_refl) as (chunks & Hc & -> & Hb).
        split_and!; [done|congruence|done|by exists chunks].
      * intros (_ & Hd & Hb & chunks & Hc & Hbe). specialize (Hd n eq_refl).
        rewrite (proj2 (Hr b)) by (by exists chunks). by rewrite Hd, Z.eqb_refl.
  - split.
    + destruct (read_body messages []) as [| |body] eqn:E; try done. intros [= <-].
      destruct (proj1 (Hr body) eq_refl) as (chunks & Hc & -> & Hb). split_and!; [done..|by exists chunks].
    + intros (_ & _ & Hb & chunks & Hc & Hbe). by rewrite (proj2 (Hr b)) by (by exists chunks).
Qed.
End BodyLimit.
