(* ===== verification/AuditRetention.v ===== *)
(** * Retention of the security audit table

    [src/src/agent_runtime/security/audit_retention.py]: rows older than the configured horizon
    are deleted in bounded batches, each in a transaction that opens the gate of the append-only
    trigger for itself ([src/migrations/versions/20260912_11_audit_retention_gate.py]).  While the
    purge runs the API keeps inserting: [arrive k] are the rows committed before the purge's
    [k]-th transaction.  Instants are microseconds; the pause between batches is not modelled. *)

From S2P Require Import Prelude Float64 PyValue Models Credentials Settings Boundary.
Local Open Scope Z_scope.

(** ** The table and its trigger *)

Module AuditEvent.
Record t := { id : uuid; created_at : time; fields : SecurityAuditRecord }.
End AuditEvent.

Inductive trigger_op := TG_UPDATE | TG_DELETE.
#[export] Instance trigger_op_eq_dec : EqDecision trigger_op.
Proof. solve_decision. Defined.

Definition append_only : exn := OtherException "DBAPIError".

(** [prevent_security_audit_mutation], fired for each row. *)
Definition prevent_security_audit_mutation (op : trigger_op) (allow_audit_purge : bool) : result unit :=
  raise_unless (bool_decide (op = TG_DELETE) && allow_audit_purge) append_only.

(** A transaction on the table; [SET LOCAL] lasts as long as it does. *)
Record transaction := { allow_audit_purge : bool; rows : list AuditEvent.t }.
Definition begin (t : list AuditEvent.t) : transaction := {| allow_audit_purge := false; rows := t |}.
Definition _OPEN_GATE (x : transaction) : transaction := {| allow_audit_purge := true; rows := rows x |}.

Abbreviation expired cutoff := (λ r : AuditEvent.t, AuditEvent.created_at r < cutoff).
Definition older (a b : AuditEvent.t) : bool := AuditEvent.created_at a <? AuditEvent.created_at b.

(** The rows of the CTE: at most [batch_size] expired rows, the oldest first. *)
Definition doomed (cutoff : time) (batch_size : Z) (t : list AuditEvent.t) : list AuditEvent.t :=
  take (Z.to_nat batch_size) (sort_by older (filter (expired cutoff) t)).

Definition _DELETE_BATCH (cutoff : time) (batch_size : Z) (x : transaction) : result (Z * transaction) :=
  let ids := AuditEvent.id <$> doomed cutoff batch_size (rows x) in
  let hit := filter (λ r, AuditEvent.id r ∈ ids) (rows x) in
  result_map (λ _, prevent_security_audit_mutation TG_DELETE (allow_audit_purge x)) hit;;
  Ok (len hit, {| allow_audit_purge := allow_audit_purge x;
                  rows := filter (λ r, AuditEvent.id r ∉ ids) (rows x) |}).

Definition count_expired (cutoff : time) (t : list AuditEvent.t) : Z := len (filter (expired cutoff) t).

Definition purge_batch (cutoff : time) (batch_size : Z) (x : transaction) : result (Z * transaction) :=
  _DELETE_BATCH cutoff batch_size (_OPEN_GATE x).

(** ** The purge *)

Record PurgeReport := {
  pr_dry_run : bool;
  pr_cutoff : time;
  pr_retention_days : Z;
  pr_batch_size : Z;
  pr_eligible : Z;
  pr_deleted : Z;
  pr_batches : list Z;
  pr_stopped_early : bool;
}.

Definition add_batch (removed : Z) (r : PurgeReport) : PurgeReport :=
  {| pr_dry_run := pr_dry_run r; pr_cutoff := pr_cutoff r; pr_retention_days := pr_retention_days r;
     pr_batch_size := pr_batch_size r; pr_eligible := pr_eligible r; pr_deleted := pr_deleted r + removed;
     pr_batches := pr_batches r ++ [removed]; pr_stopped_early := pr_stopped_early r |}.
Definition stop_early (r : PurgeReport) : PurgeReport :=
  {| pr_dry_run := pr_dry_run r; pr_cutoff := pr_cutoff r; pr_retention_days := pr_retention_days r;
     pr_batch_size := pr_batch_size r; pr_eligible := pr_eligible r; pr_deleted := pr_deleted r;
     pr_batches := pr_batches r; pr_stopped_early := true |}.

Definition report_json `{Host} (r : PurgeReport) : json :=
  JObj [("dry_run", JBool (pr_dry_run r)); ("cutoff", JStr (isoformat (pr_cutoff r)));
        ("retention_days", JNum (NInt (pr_retention_days r))); ("batch_size", JNum (NInt (pr_batch_size r)));
        ("eligible", JNum (NInt (pr_eligible r))); ("deleted", JNum (NInt (pr_deleted r)));
        ("batches", JArr ((λ z, JNum (NInt z)) <$> pr_batches r)); ("stopped_early", JBool (pr_stopped_early r))].

Definition retention_disabled : exn :=
  RuntimeError "Audit retention is disabled; set APP_AUDIT_RETENTION_DAYS to enable it.".

Definition resolve_cutoff (s : Settings) (now : time) : result time :=
  match audit_retention_days s with
  | None => Err retention_disabled
  | Some days => Ok (now - days * seconds 86400)
  end.

Section Purge.
Context (arrive : nat → list AuditEvent.t).

Definition more_batches (max_batches : option Z) (batches : Z) : bool :=
  match max_batches with None => true | Some m => batches <? m end.

(** The [while] loop, one transaction an iteration; [None] when the fuel is spent. *)
Fixpoint purge_loop (fuel : nat) (cutoff : time) (batch_size : Z) (max_batches : option Z)
    (batches : Z) (k : nat) (t : list AuditEvent.t) (r : PurgeReport)
    : option (result PurgeReport * list AuditEvent.t) :=
  if more_batches max_batches batches then
    match fuel with
    | O => None
    | S fuel =>
        let t := t ++ arrive k in
        match purge_batch cutoff batch_size (begin t) with
        | Err e => Some (Err e, t)
        | Ok (removed, x) =>
            if removed =? 0 then Some (Ok r, rows x)
            else purge_loop fuel cutoff batch_size max_batches (batches + 1) (S k) (rows x) (add_batch removed r)
        end
    end
  else Some (Ok (stop_early r), t).

(** [purge_expired_audit_events]: the count, then the loop unless it is a dry run. *)
Definition purge_expired_audit_events (fuel : nat) (s : Settings) (dry_run : bool) (max_batches : option Z)
    (now : time) (t : list AuditEvent.t) : option (result PurgeReport * list AuditEvent.t) :=
  match resolve_cutoff s now with
  | Err e => Some (Err e, t)
  | Ok cutoff =>
      let batch_size := audit_purge_batch_size s in
      let t := t ++ arrive 0 in
      let eligible := count_expired cutoff t in
      let report :=
        {| pr_dry_run := dry_run; pr_cutoff := cutoff; pr_retention_days := default 0 (audit_retention_days s);
           pr_batch_size := batch_size; pr_eligible := eligible; pr_deleted := 0; pr_batches := [];
           pr_stopped_early := false |} in
      if dry_run || (eligible =? 0) then Some (Ok report, t)
      else purge_loop fuel cutoff batch_size max_batches 0 1 t report
  end.

(** ** The command *)

Record purge_args := { arg_apply : bool; arg_confirm_retention_days : option Z; arg_max_batches : option Z }.

(** [parser.error] exits with status 2. *)
Definition parser_error : exn := OtherException "SystemExit".

Definition purge_main (fuel : nat) (a : purge_args) (s : Settings) (now : time) (t : list AuditEvent.t)
    : option (result PurgeReport * list AuditEvent.t) :=
  if arg_apply a && (bool_decide (audit_retention_days s = None)
                     || negb (bool_decide (arg_confirm_retention_days a = audit_retention_days s)))
  then Some (Err parser_error, t)
  else
    match purge_expired_audit_events fuel s (negb (arg_apply a)) (arg_max_batches a) now t with
    | Some (Err e, t') => Some (if bool_decide (e = retention_disabled) then Err parser_error else Err e, t')
    | other => other
    end.

(** The rows that arrive with the transactions [k], ..., [k + n - 1]. *)
Definition arrivals (k n : nat) : list AuditEvent.t := seq k n ≫= arrive.
End Purge.

(** ** Lemmas *)

Lemma filter_all {A} (P : A → Prop) `{!∀ x, Decision (P x)} l : Forall P l → filter P l = l.
Proof. induction 1 as [|x l Hx _ IH]; [done|]. by rewrite filter_cons_True, IH. Qed.
Lemma filter_none {A} (P : A → Prop) `{!∀ x, Decision (P x)} l : Forall (λ x, ¬ P x) l → filter P l = [].
Proof. induction 1 as [|x l Hx _ IH]; [done|]. by rewrite filter_cons_False. Qed.

Lemma remove_rows D t :
  NoDup (AuditEvent.id <$> t) → D ⊆+ t →
  t ≡ₚ D ++ filter (λ r, AuditEvent.id r ∉ AuditEvent.id <$> D) t
  ∧ filter (λ r, AuditEvent.id r ∈ AuditEvent.id <$> D) t ≡ₚ D.
Proof.
  intros Hnd [K HK]%submseteq_Permutation. rewrite HK, fmap_app in Hnd. apply NoDup_app in Hnd as (_ & Hdisj & _).
  assert (filter (λ r, AuditEvent.id r ∈ AuditEvent.id <$> D) t ≡ₚ D) as Hin.
  { rewrite HK, filter_app. rewrite (filter_all _ D), (filter_none _ K), app_nil_r; [done|..].
    - apply Forall_forall. intros x Hx Hid. eapply Hdisj; [exact Hid|]. by apply list_elem_of_fmap_2.
    - apply Forall_forall. intros x Hx. by apply list_elem_of_fmap_2. }
  split; [|done]. rewrite <- Hin at 1. symmetry. apply filter_app_complement.
Qed.

Lemma doomed_sub cutoff b t : doomed cutoff b t ⊆+ filter (expired cutoff) t.
Proof.
  unfold doomed. rewrite <- (sort_by_perm older (filter _ t)) at 2. apply sublist_submseteq, sublist_take.
Qed.
Lemma doomed_expired cutoff b t : Forall (expired cutoff) (doomed cutoff b t).
Proof.
  apply Forall_forall. intros x Hx. eapply elem_of_submseteq in Hx; [|apply doomed_sub].
  by apply list_elem_of_filter in Hx as [? _].
Qed.
Lemma doomed_len cutoff b t : 0 ≤ b → len (doomed cutoff b t) = Z.min b (count_expired cutoff t).
Proof.
  intros Hb. unfold doomed, count_expired, len. rewrite length_take, (sort_by_perm older (filter _ t)). lia.
Qed.

Lemma gate_open l : is_ok (result_map (λ _ : AuditEvent.t, prevent_security_audit_mutation TG_DELETE true) l) = true.
Proof.
  induction l as [|x l IH]; [done|]. cbn [result_map]. unfold prevent_security_audit_mutation in *. cbn in *.
  by destruct (result_map _ l).
Qed.

(** A batch deletes what it selected, and nothing else. *)
Lemma purge_batch_ok cutoff b t :
  NoDup (AuditEvent.id <$> t) → 1 ≤ b →
  ∃ D t' x, purge_batch cutoff b (begin t) = Ok (len D, x) ∧ rows x = t' ∧ t ≡ₚ D ++ t'
    ∧ Forall (expired cutoff) D ∧ len D = Z.min b (count_expired cutoff t).
Proof.
  intros Hnd Hb. set (D := doomed cutoff b t).
  assert (D ⊆+ t) as HD by (etrans; [apply doomed_sub|apply sublist_submseteq, sublist_filter]).
  destruct (remove_rows D t Hnd HD) as [Hp Hh].
  unfold purge_batch, _DELETE_BATCH. cbn [rows allow_audit_purge _OPEN_GATE begin]. fold D.
  pose proof (gate_open (filter (λ r, AuditEvent.id r ∈ AuditEvent.id <$> D) t)) as Hg.
  destruct (result_map _ _); [|done]. cbn [mbind result_bind].
  eexists D, _, _. split; [|split; [done|]].
  - f_equal. f_equal. unfold len. by rewrite Hh.
  - split_and!; [done|apply doomed_expired|apply doomed_len; lia].
Qed.

Lemma count_expired_app cutoff t u : count_expired cutoff (t ++ u) = count_expired cutoff t + count_expired cutoff u.
Proof. unfold count_expired. by rewrite filter_app, len_app. Qed.
Lemma count_expired_perm cutoff t u : t ≡ₚ u → count_expired cutoff t = count_expired cutoff u.
Proof. unfold count_expired, len. by intros ->. Qed.
Lemma count_expired_all cutoff t : Forall (expired cutoff) t → count_expired cutoff t = len t.
Proof. intros Ht. unfold count_expired. by rewrite filter_all. Qed.
Lemma count_expired_none cutoff t : (∀ x, x ∈ t → cutoff ≤ AuditEvent.created_at x) → count_expired cutoff t = 0.
Proof. intros Ht. unfold count_expired. rewrite filter_none; [done|]. apply Forall_forall. intros x Hx%Ht. lia. Qed.

#[local] Arguments arrivals : simpl never.

Lemma purge_batch_positive s : fields_valid s = true → 1 ≤ audit_purge_batch_size s.
Proof. intros Hf. unfold fields_valid in Hf. cbn [forallb id] in Hf. bool_to_prop.
  match goal with Hb : int_field 1 50000 _ = true |- _ => apply int_field_in in Hb; lia end.
Qed.

Section PurgeProofs.
Context (arrive : nat → list AuditEvent.t) (cutoff : time) (batch_size : Z).
Context (Hfresh : ∀ k x, x ∈ arrive k → cutoff ≤ AuditEvent.created_at x) (Hbatch : 1 ≤ batch_size).

Lemma arrivals_0 k : arrivals arrive k 0 = [].
Proof. done. Qed.
Lemma arrivals_S k n : arrivals arrive k (S n) = arrive k ++ arrivals arrive (S k) n.
Proof. done. Qed.

(** What the loop did: the deleted rows [D], the sizes of its batches. *)
Record purged (mb : option Z) (batches : Z) (t arrived : list AuditEvent.t) (r r' : PurgeReport)
    (t' D : list AuditEvent.t) (sizes : list Z) : Prop := {
  purged_rows : t ++ arrived ≡ₚ D ++ t';
  purged_expired : Forall (expired cutoff) D;
  purged_batches : pr_batches r' = pr_batches r ++ sizes;
  purged_deleted : pr_deleted r' = pr_deleted r + len D;
  purged_sizes : foldr Z.add 0 sizes = len D ∧ Forall (λ z, 1 ≤ z ≤ batch_size) sizes;
  purged_done : pr_stopped_early r' = false → count_expired cutoff t' = 0;
  purged_limit : match mb with
                 | None => pr_stopped_early r' = pr_stopped_early r
                 | Some m => batches + len sizes ≤ Z.max batches m
                 end;
}.

Lemma purge_loop_ok mb fuel : ∀ batches k t r,
  (∀ n, NoDup (AuditEvent.id <$> t ++ arrivals arrive k n)) →
  count_expired cutoff t < Z.of_nat fuel →
  ∃ r' t' n D sizes,
    purge_loop arrive fuel cutoff batch_size mb batches k t r = Some (Ok r', t')
    ∧ purged mb batches t (arrivals arrive k n) r r' t' D sizes.
Proof.
  induction fuel as [|fuel IH]; intros batches k t r Hnd Hf.
  { unfold count_expired in Hf. pose proof (len_nonneg (filter (expired cutoff) t)). lia. }
  cbn [purge_loop]. destruct (more_batches mb batches) eqn:Em.
  2:{ exists (stop_early r), t, 0%nat, [], []. split; [done|]. split; cbn; try done.
      - by rewrite arrivals_0, app_nil_r.
      - by rewrite app_nil_r.
      - unfold len. cbn. lia.
      - destruct mb; [|done]. unfold len. cbn. lia. }
  assert (NoDup (AuditEvent.id <$> t ++ arrive k)) as Hnd1.
  { specialize (Hnd 1%nat). by rewrite arrivals_S, arrivals_0, app_nil_r in Hnd. }
  destruct (purge_batch_ok cutoff batch_size _ Hnd1 Hbatch) as (D1 & t1 & x & -> & Ex & Hp & HD & HL).
  rewrite count_expired_app, (count_expired_none cutoff (arrive k)), Z.add_0_r in HL by eauto.
  pose proof (count_expired_perm cutoff _ _ Hp) as Hc.
  rewrite !count_expired_app, (count_expired_none cutoff (arrive k)), (count_expired_all _ _ HD) in Hc by eauto.
  rewrite Ex. destruct (Z.eqb_spec (len D1) 0) as [E0|E0].
  - destruct D1; [|rewrite len_cons in E0; pose proof (len_nonneg D1); lia].
    exists r, t1, 1%nat, [], []. split; [done|]. split; cbn; try done.
    + by rewrite arrivals_S, arrivals_0, app_nil_r.
    + by rewrite app_nil_r.
    + unfold len. cbn. lia.
    + unfold len in *. cbn in *. intros _. lia.
    + destruct mb; [|done]. unfold len. cbn. lia.
  - pose proof (len_nonneg D1).
    destruct (IH (batches + 1) (S k) t1 (add_batch (len D1) r)) as (r' & t' & n & D & sizes & Hl & Hpu).
    + intros n. specialize (Hnd (S n)). rewrite arrivals_S, app_assoc, Hp, <- app_assoc, fmap_app in Hnd.
      by apply NoDup_app in Hnd as (_ & _ & ?).
    + lia.
    + exists r', t', (S n), (D1 ++ D), (len D1 :: sizes). split; [done|].
      destruct Hpu as [P1 P2 P3 P4 [P5 P5'] P6 P7]. split; cbn in *.
      * rewrite arrivals_S, app_assoc, Hp, <- !app_assoc. by rewrite P1.
      * by apply Forall_app.
      * by rewrite P3, <- app_assoc.
      * rewrite P4, len_app. lia.
      * rewrite P5, len_app. split; [lia|]. constructor; [lia|done].
      * done.
      * destruct mb as [m|]; [|done]. rewrite len_cons. cbn in Em. bool_to_prop. lia.
Qed.
End PurgeProofs.

(** (C33) An applied purge terminates and deletes exactly what expired.  While the API inserts
    rows that are not yet expired, the loop ends within as many transactions as there were
    eligible rows plus one; the rows it removed are all older than the cutoff, every other row
    survives, the reported count is their number, no transaction removes more than the batch
    size, and unless the operator's batch limit stopped it no expired row is left. *)
Theorem purge_terminates_exact arrive s mb now t cutoff :
  fields_valid s = true → resolve_cutoff s now = Ok cutoff →
  (∀ k x, x ∈ arrive k → cutoff ≤ AuditEvent.created_at x) →
  (∀ n, NoDup (AuditEvent.id <$> t ++ arrivals arrive 0 n)) →
  ∃ r t' n D,
    purge_expired_audit_events arrive (S (Z.to_nat (count_expired cutoff t))) s false mb now t = Some (Ok r, t')
    ∧ t ++ arrivals arrive 0 n ≡ₚ D ++ t' ∧ Forall (λ x, AuditEvent.created_at x < cutoff) D
    ∧ pr_deleted r = len D ∧ foldr Z.add 0 (pr_batches r) = len D
    ∧ Forall (λ z, 1 ≤ z ≤ audit_purge_batch_size s) (pr_batches r)
    ∧ (pr_stopped_early r = false → ∀ x, x ∈ t' → cutoff ≤ AuditEvent.created_at x)
    ∧ match mb with None => pr_stopped_early r = false | Some m => len (pr_batches r) ≤ Z.max 0 m end.
Proof.
  intros Hs Hc Hfresh Hnd. unfold purge_expired_audit_events. rewrite Hc. cbn [orb].
  assert (1 ≤ audit_purge_batch_size s) as Hb by (by apply purge_batch_positive).
  assert (∀ u, count_expired cutoff u = 0 → ∀ x, x ∈ u → cutoff ≤ AuditEvent.created_at x) as Hnone.
  { intros u Hu x Hx. apply Z.nlt_ge. intros Hlt. unfold count_expired, len in Hu.
    assert (x ∈ filter (expired cutoff) u) as Hin by (by apply list_elem_of_filter).
    destruct (filter (expired cutoff) u); [by apply not_elem_of_nil in Hin|cbn in Hu; lia]. }
  rewrite count_expired_app, (count_expired_none cutoff (arrive 0%nat)), Z.add_0_r by eauto.
  destruct (Z.eqb_spec (count_expired cutoff t) 0) as [E0|E0].
  - eexists _, _, 1%nat, []. split; [done|]. split_and!; cbn; try done.
    + by rewrite arrivals_S, arrivals_0, app_nil_r.
    + intros _ x [Hx|Hx]%elem_of_app; [by eapply Hnone|by eapply Hfresh].
    + destruct mb; [|done]. unfold len. cbn. lia.
  - destruct (purge_loop_ok arrive cutoff (audit_purge_batch_size s) Hfresh Hb mb
      (S (Z.to_nat (count_expired cutoff t))) 0 1 (t ++ arrive 0%nat)
      {| pr_dry_run := false; pr_cutoff := cutoff; pr_retention_days := default 0 (audit_retention_days s);
         pr_batch_size := audit_purge_batch_size s; pr_eligible := count_expired cutoff t; pr_deleted := 0;
         pr_batches := []; pr_stopped_early := false |}) as (r & t' & n & D & sizes & Hl & [P1 P2 P3 P4 [P5 P5'] P6 P7]).
    + intros n. specialize (Hnd (S n)). by rewrite arrivals_S, app_assoc in Hnd.
    + rewrite count_expired_app, (count_expired_none cutoff (arrive 0%nat)) by eauto. lia.
    + exists r, t', (S n), D. cbn in *. rewrite P3. split; [done|].
      split_and!; [by rewrite arrivals_S, app_assoc|done..|by eauto|].
      destruct mb; [|done]. cbn in *. lia.
Qed.

(** Nothing is deleted by accident: without [--apply], without a configured horizon, or when
    the operator does not restate the horizon, the command leaves every row in place; and the
    trigger refuses a delete, like every update, in a transaction that did not open the gate. *)
Theorem purge_needs_explicit_consent arrive fuel a s now t :
  arg_apply a = false ∨ audit_retention_days s = None ∨ arg_confirm_retention_days a ≠ audit_retention_days s →
  (∃ r, purge_main arrive fuel a s now t = Some (r, t) ∨ purge_main arrive fuel a s now t = Some (r, t ++ arrive 0%nat))
  ∧ ∀ cutoff b x, allow_audit_purge x = false →
      (∃ y, y ∈ rows x ∧ AuditEvent.created_at y < cutoff) → 1 ≤ b →
      _DELETE_BATCH cutoff b x = Err append_only.
Proof.
  intros Ha. split.
  - unfold purge_main, purge_expired_audit_events, resolve_cutoff.
    destruct (arg_apply a) eqn:Eap; cbn [andb negb].
    + destruct Ha as [?|[->|Hne]]; [done|..].
      * rewrite bool_decide_true by done. cbn. eauto.
      * rewrite (bool_decide_false (_ = audit_retention_days s)), orb_true_r by done. eauto.
    + destruct (audit_retention_days s); cbn [orb]; [eauto|]. rewrite bool_decide_true by done. eauto.
  - intros cutoff b [g t0] ? (y & Hy & He) Hb. cbn in *. subst g. unfold _DELETE_BATCH. cbn [rows allow_audit_purge].
    destruct (filter _ t0) as [|z l] eqn:Ef; [|done]. exfalso.
    assert (doomed cutoff b t0 = []) as Hd.
    { destruct (doomed cutoff b t0) as [|z l] eqn:Ed; [done|].
      assert (z ∈ t0) as Hz.
      { assert (z ∈ doomed cutoff b t0) as Hz by (rewrite Ed; left).
        eapply elem_of_submseteq in Hz; [|apply doomed_sub]. by apply list_elem_of_filter in Hz as [_ ?]. }
      assert (z ∈ filter (λ r, AuditEvent.id r ∈ AuditEvent.id <$> z :: l) t0) as Hin.
      { apply list_elem_of_filter. split; [csimpl; left|done]. }
      rewrite Ef in Hin. by apply not_elem_of_nil in Hin. }
    pose proof (doomed_len cutoff b t0 ltac:(lia)) as Hl. rewrite Hd in Hl.
    assert (y ∈ filter (expired cutoff) t0) as Hin by (by apply list_elem_of_filter).
    unfold count_expired, len in Hl. destruct (filter (expired cutoff) t0); [by apply not_elem_of_nil in Hin|].
    cbn in Hl. lia.
Qed.

(** ** One expired row among two *)

Definition sample_event (id : uuid) (at_ : time) : AuditEvent.t :=
  {| AuditEvent.id := id; AuditEvent.created_at := at_;
     AuditEvent.fields :=
       {| sar_event_type := "AUTHENTICATION"; sar_outcome := "ALLOWED"; sar_reason := "AUTHENTICATED";
          sar_client_id := Some "acme"; sar_credential_fingerprint := None; sar_principal_id := Some "alice";
          sar_target_run_id := None; sar_resource := None |} |}.
Definition sample_audit : list AuditEvent.t := [sample_event 1%N 5; sample_event 2%N (seconds 86400)].

Lemma purge_terminates_exact_witness :
  ∃ r t', purge_expired_audit_events (λ _, []) 2 sample_settings false None (seconds 86400 * 30 + 10) sample_audit
            = Some (Ok r, t') ∧ ∀ x, x ∈ t' → 10 ≤ AuditEvent.created_at x.
Proof.
  destruct (purge_terminates_exact (λ _, []) sample_settings None (seconds 86400 * 30 + 10) sample_audit 10)
    as (r & t' & n & D & Hr & _ & _ & _ & _ & _ & Hleft & Hstop).
  - reflexivity.
  - reflexivity.
  - by intros k x Hx%not_elem_of_nil.
  - intros n. assert (arrivals (λ _, []) 0 n = []) as ->.
    { unfold arrivals. generalize 0%nat. induction n as [|n IH]; intros k; [done|apply IH]. }
    rewrite app_nil_r. cbn. repeat constructor; set_solver.
  - exists r, t'. split; [exact Hr|]. by apply Hleft.
Defined.

Lemma purge_needs_explicit_consent_witness :
  ∃ r, purge_main (λ _, []) 9 {| arg_apply := true; arg_confirm_retention_days := Some 7; arg_max_batches := None |}
         sample_settings (seconds 86400 * 30 + 10) sample_audit = Some (r, sample_audit).
Proof.
  destruct (purge_needs_explicit_consent (λ _, []) 9
    {| arg_apply := true; arg_confirm_retention_days := Some 7; arg_max_batches := None |}
    sample_settings (seconds 86400 * 30 + 10) sample_audit) as [[r [Hr|Hr]] _]; [right; right; done|by exists r|].
  exists r. by rewrite Hr, app_nil_r.
Defined.
