(* ===== verification/Ddl.v ===== *)
(** * Data definition

    The statements the migrations under [src/migrations/versions/] are made of ([op.create_table],
    [op.add_column], [op.execute] of DDL text, ...), with the meaning SQL gives them: the
    catalogue of a database, the rows of its tables, and what each statement does to both or why
    it is refused.  Columns of a table are named, their order is not kept. *)

From S2P Require Import Prelude.

(** ** The catalogue *)

Inductive col_type :=
| TUuid | TJsonb | TString (length : Z) | TText | TInteger | TBoolean | TFloat | TTimestamptz | TBytea.
#[export] Instance col_type_eq_dec : EqDecision col_type.
Proof. solve_decision. Defined.

(** Values of cells; [VOther] are those no constraint of the program looks into. *)
Inductive cell := VNull | VText (s : string) | VInt (z : Z) | VOther (s : string).
#[export] Instance cell_eq_dec : EqDecision cell.
Proof. solve_decision. Defined.

Inductive server_default := DNow | DLit (v : cell).
#[export] Instance server_default_eq_dec : EqDecision server_default.
Proof. solve_decision. Defined.

Record column_def := Column { c_type : col_type; c_nullable : bool; c_default : option server_default }.
#[export] Instance column_def_eq_dec : EqDecision column_def.
Proof. solve_decision. Defined.

Inductive check_expr :=
| CkIn (column : string) (values : list string)
| CkAtLeast (column : string) (bound : Z).
#[export] Instance check_expr_eq_dec : EqDecision check_expr.
Proof. solve_decision. Defined.

Inductive on_delete := RESTRICT | NO_ACTION.
#[export] Instance on_delete_eq_dec : EqDecision on_delete.
Proof. solve_decision. Defined.

Inductive constr :=
| CCheck (e : check_expr)
| CForeignKey (columns : list string) (ref_table : string) (ref_columns : list string) (del : on_delete)
| CPrimaryKey (columns : list string)
| CUnique (columns : list string).
#[export] Instance constr_eq_dec : EqDecision constr.
Proof. solve_decision. Defined.

Definition constr_columns (c : constr) : list string :=
  match c with
  | CCheck (CkIn x _) | CCheck (CkAtLeast x _) => [x]
  | CForeignKey l _ _ _ | CPrimaryKey l | CUnique l => l
  end.

(** A constraint without a name gets the one PostgreSQL chooses. *)
Definition constr_name (t : string) (name : option string) (c : constr) : string :=
  match name with
  | Some n => n
  | None =>
      match c with
      | CPrimaryKey _ => t +:+ "_pkey"
      | CForeignKey l _ _ _ => t +:+ "_" +:+ String.concat "_" l +:+ "_fkey"
      | CUnique l => t +:+ "_" +:+ String.concat "_" l +:+ "_key"
      | CCheck _ => t +:+ "_" +:+ String.concat "_" (constr_columns c) +:+ "_check"
      end
  end.

(** A unique or primary-key constraint owns an index of its name. *)
Definition owns_index (c : constr) : bool :=
  match c with CPrimaryKey _ | CUnique _ => true | _ => false end.

Record table_def := { t_columns : gmap string column_def; t_constraints : gmap string constr }.
#[export] Instance table_def_eq_dec : EqDecision table_def.
Proof. solve_decision. Defined.

(** [i_where]: the column whose presence a partial index asks for. *)
Record index_def := {
  i_table : string; i_columns : list string; i_descending : list string; i_where : option string }.
#[export] Instance index_def_eq_dec : EqDecision index_def.
Proof. solve_decision. Defined.

Inductive row_event := ON_UPDATE | ON_DELETE.
#[export] Instance row_event_eq_dec : EqDecision row_event.
Proof. solve_decision. Defined.

(** Bodies of the trigger functions: they raise, always or unless a row is deleted by a
    transaction that has set the setting [guc] to [on]. *)
Inductive fn_body :=
| RaiseException (message : string)
| RaiseUnlessPurge (guc message : string).
#[export] Instance fn_body_eq_dec : EqDecision fn_body.
Proof. solve_decision. Defined.

(** A [BEFORE ... FOR EACH ROW] trigger. *)
Record trigger_def := { tr_table : string; tr_events : list row_event; tr_function : string }.
#[export] Instance trigger_def_eq_dec : EqDecision trigger_def.
Proof. solve_decision. Defined.

Record schema := {
  s_tables : gmap string table_def;
  s_indexes : gmap string index_def;
  s_functions : gmap string fn_body;
  s_triggers : gmap string trigger_def;
}.
#[export] Instance schema_eq_dec : EqDecision schema.
Proof. solve_decision. Defined.

Definition empty_schema : schema :=
  {| s_tables := ∅; s_indexes := ∅; s_functions := ∅; s_triggers := ∅ |}.

(** ** Statements *)

Inductive ddl :=
| create_table (t : string) (cols : list (string * column_def)) (cs : list (option string * constr))
| drop_table (t : string)
| create_index (if_not_exists : bool) (name : string) (i : index_def)
| drop_index (if_exists : bool) (name : string)
| add_column (t c : string) (d : column_def)
| drop_column (t c : string)
| alter_nullable (t c : string) (nullable : bool)
| alter_server_default (t c : string) (d : option server_default)
| update_where_null (t c : string) (v : cell)
| add_constraint (t name : string) (c : constr)
| drop_constraint (t name : string)
| create_function (replace : bool) (f : string) (b : fn_body)
| drop_function (f : string)
| create_trigger (name : string) (tr : trigger_def)
| drop_trigger (name t : string).

Definition ddl_error (m : string) : exn := OtherException m.

(** Tables, indexes and the indexes of constraints share one name space. *)
Definition relation_free (n : string) (s : schema) : bool :=
  bool_decide (s_tables s !! n = None) && bool_decide (s_indexes s !! n = None)
  && forallb (λ x : string * table_def,
       match t_constraints x.2 !! n with Some c => negb (owns_index c) | None => true end)
     (map_to_list (s_tables s)).

Definition has_columns (l : list string) (td : table_def) : bool :=
  forallb (λ c, bool_decide (is_Some (t_columns td !! c))) l.

Definition found {A} (e : exn) (o : option A) : result A := from_option Ok (Err e) o.

(** [l] is the target a foreign key may have: a primary key or a unique constraint. *)
Definition is_key (l : list string) (td : table_def) : bool :=
  existsb (λ x : string * constr,
    match x.2 with CPrimaryKey k | CUnique k => bool_decide (k = l) | _ => false end)
    (map_to_list (t_constraints td)).

Definition with_tables (m : gmap string table_def) (s : schema) : schema :=
  {| s_tables := m; s_indexes := s_indexes s; s_functions := s_functions s; s_triggers := s_triggers s |}.
Definition with_indexes (m : gmap string index_def) (s : schema) : schema :=
  {| s_tables := s_tables s; s_indexes := m; s_functions := s_functions s; s_triggers := s_triggers s |}.
Definition with_functions (m : gmap string fn_body) (s : schema) : schema :=
  {| s_tables := s_tables s; s_indexes := s_indexes s; s_functions := m; s_triggers := s_triggers s |}.
Definition with_triggers (m : gmap string trigger_def) (s : schema) : schema :=
  {| s_tables := s_tables s; s_indexes := s_indexes s; s_functions := s_functions s; s_triggers := m |}.

Definition find_table (t : string) (s : schema) : result table_def :=
  found (ddl_error "UndefinedTable") (s_tables s !! t).
Definition put_table (t : string) (td : table_def) (s : schema) : schema :=
  with_tables (<[t := td]> (s_tables s)) s.
Definition with_columns (m : gmap string column_def) (td : table_def) : table_def :=
  {| t_columns := m; t_constraints := t_constraints td |}.

(** The constraint [c] under the name [n] on table [t], whose definition so far is [td]. *)
Definition constraint_into (t : string) (n : string) (c : constr) (s : schema) (td : table_def)
    : result table_def :=
  raise_unless (bool_decide (t_constraints td !! n = None)) (ddl_error "DuplicateObject");;
  raise_unless (negb (owns_index c) || relation_free n s) (ddl_error "DuplicateTable");;
  raise_unless (has_columns (constr_columns c) td) (ddl_error "UndefinedColumn");;
  match c with
  | CForeignKey l rt rl _ =>
      target ← if bool_decide (rt = t) then Ok td else find_table rt s;
      raise_unless (bool_decide (length l = length rl) && is_key rl target) (ddl_error "InvalidForeignKey")
  | _ => Ok tt
  end;;
  Ok {| t_columns := t_columns td; t_constraints := <[n := c]> (t_constraints td) |}.

(** Keys first: a foreign key of the table to itself needs its primary key. *)
Definition keys_first (cs : list (option string * constr)) : list (option string * constr) :=
  filter (λ x, owns_index x.2 = true) cs ++ filter (λ x, owns_index x.2 = false) cs.

Definition mentions (t : string) (td : table_def) : bool :=
  existsb (λ x : string * constr,
    match x.2 with CForeignKey _ rt _ _ => bool_decide (rt = t) | _ => false end)
    (map_to_list (t_constraints td)).

Definition mentions_column (t c : string) (td : table_def) : bool :=
  existsb (λ x : string * constr,
    match x.2 with CForeignKey _ rt rl _ => bool_decide (rt = t) && bool_decide (c ∈ rl) | _ => false end)
    (map_to_list (t_constraints td)).

Definition index_uses (t c : string) (i : index_def) : Prop :=
  i_table i = t ∧ (c ∈ i_columns i ∨ i_where i = Some c).
#[export] Instance index_uses_dec t c i : Decision (index_uses t c i).
Proof. unfold index_uses. apply _. Defined.

(** What a statement does to the catalogue.  An update of a table with a row trigger for updates
    is refused; no migration contains one. *)
Definition alter_schema (o : ddl) (s : schema) : result schema :=
  match o with
  | create_table t cols cs =>
      raise_unless (relation_free t s) (ddl_error "DuplicateTable");;
      raise_unless (bool_decide (NoDup cols.*1)) (ddl_error "DuplicateColumn");;
      td ← foldl (λ acc x, acc ≫= constraint_into t (constr_name t x.1 x.2) x.2 s)
             (Ok {| t_columns := list_to_map cols; t_constraints := ∅ |}) (keys_first cs);
      Ok (put_table t td s)
  | drop_table t =>
      find_table t s;;
      raise_unless (negb (existsb (λ x : string * table_def, bool_decide (x.1 ≠ t) && mentions t x.2)
                            (map_to_list (s_tables s)))) (ddl_error "DependentObjectsStillExist");;
      Ok {| s_tables := delete t (s_tables s);
            s_indexes := filter (λ x, i_table x.2 ≠ t) (s_indexes s);
            s_functions := s_functions s;
            s_triggers := filter (λ x, tr_table x.2 ≠ t) (s_triggers s) |}
  | create_index if_not_exists n i =>
      if relation_free n s then
        td ← find_table (i_table i) s;
        raise_unless (has_columns (i_columns i ++ option_list (i_where i)) td) (ddl_error "UndefinedColumn");;
        Ok (with_indexes (<[n := i]> (s_indexes s)) s)
      else if if_not_exists then Ok s else Err (ddl_error "DuplicateTable")
  | drop_index if_exists n =>
      raise_unless (if_exists || bool_decide (is_Some (s_indexes s !! n))) (ddl_error "UndefinedObject");;
      Ok (with_indexes (delete n (s_indexes s)) s)
  | add_column t c d =>
      td ← find_table t s;
      raise_unless (bool_decide (t_columns td !! c = None)) (ddl_error "DuplicateColumn");;
      Ok (put_table t (with_columns (<[c := d]> (t_columns td)) td) s)
  | drop_column t c =>
      td ← find_table t s;
      raise_unless (has_columns [c] td) (ddl_error "UndefinedColumn");;
      raise_unless (negb (existsb (λ x : string * table_def, bool_decide (x.1 ≠ t) && mentions_column t c x.2)
                            (map_to_list (s_tables s)))) (ddl_error "DependentObjectsStillExist");;
      Ok (with_indexes (filter (λ x, ¬ index_uses t c x.2) (s_indexes s))
           (put_table t {| t_columns := delete c (t_columns td);
                           t_constraints := filter (λ x, c ∉ constr_columns x.2) (t_constraints td) |} s))
  | alter_nullable t c b =>
      td ← find_table t s;
      d ← found (ddl_error "UndefinedColumn") (t_columns td !! c);
      Ok (put_table t (with_columns (<[c := Column (c_type d) b (c_default d)]> (t_columns td)) td) s)
  | alter_server_default t c x =>
      td ← find_table t s;
      d ← found (ddl_error "UndefinedColumn") (t_columns td !! c);
      Ok (put_table t (with_columns (<[c := Column (c_type d) (c_nullable d) x]> (t_columns td)) td) s)
  | update_where_null t c _ =>
      td ← find_table t s;
      raise_unless (has_columns [c] td) (ddl_error "UndefinedColumn");;
      raise_unless (negb (existsb (λ x : string * trigger_def,
                            bool_decide (tr_table x.2 = t) && bool_decide (ON_UPDATE ∈ tr_events x.2))
                            (map_to_list (s_triggers s)))) (ddl_error "RaiseException");;
      Ok s
  | add_constraint t n c =>
      td ← find_table t s;
      td ← constraint_into t n c s td;
      Ok (put_table t td s)
  | drop_constraint t n =>
      td ← find_table t s;
      raise_unless (bool_decide (is_Some (t_constraints td !! n))) (ddl_error "UndefinedObject");;
      Ok (put_table t {| t_columns := t_columns td; t_constraints := delete n (t_constraints td) |} s)
  | create_function replace f b =>
      raise_unless (replace || bool_decide (s_functions s !! f = None)) (ddl_error "DuplicateFunction");;
      Ok (with_functions (<[f := b]> (s_functions s)) s)
  | drop_function f =>
      raise_unless (bool_decide (is_Some (s_functions s !! f))) (ddl_error "UndefinedFunction");;
      raise_unless (negb (existsb (λ x : string * trigger_def, bool_decide (tr_function x.2 = f))
                            (map_to_list (s_triggers s)))) (ddl_error "DependentObjectsStillExist");;
      Ok (with_functions (delete f (s_functions s)) s)
  | create_trigger n tr =>
      raise_unless (bool_decide (s_triggers s !! n = None)) (ddl_error "DuplicateObject");;
      find_table (tr_table tr) s;;
      raise_unless (bool_decide (is_Some (s_functions s !! tr_function tr))) (ddl_error "UndefinedFunction");;
      Ok (with_triggers (<[n := tr]> (s_triggers s)) s)
  | drop_trigger n t =>
      match s_triggers s !! n with
      | Some tr =>
          raise_unless (bool_decide (tr_table tr = t)) (ddl_error "UndefinedObject");;
          Ok (with_triggers (delete n (s_triggers s)) s)
      | None => Err (ddl_error "UndefinedObject")
      end
  end.

(** ** Rows *)

Abbreviation row := (gmap string cell).
Abbreviation rows_of := (gmap string (list row)).

Record database := { d_schema : schema; d_rows : rows_of }.
#[export] Instance database_eq_dec : EqDecision database.
Proof. solve_decision. Defined.

Definition empty_database : database := {| d_schema := empty_schema; d_rows := ∅ |}.

(** The value of a default for the rows that exist when a column is added; [now] is the text of
    the transaction's time. *)
Definition default_cell (now : string) (d : option server_default) : cell :=
  match d with Some DNow => VOther now | Some (DLit v) => v | None => VNull end.

Definition cell_of (r : row) (c : string) : cell := default VNull (r !! c).

(** The cells of [l], unless one is null. *)
Definition key_of (l : list string) (r : row) : option (list cell) :=
  let k := cell_of r <$> l in if bool_decide (VNull ∈ k) then None else Some k.

(** A check that evaluates to unknown passes. *)
Definition check_row (e : check_expr) (r : row) : bool :=
  match e with
  | CkIn c values => match cell_of r c with VText s => bool_decide (s ∈ values) | _ => true end
  | CkAtLeast c b => match cell_of r c with VInt z => (b <=? z)%Z | _ => true end
  end.

Definition rows_in (t : string) (d : rows_of) : list row := default [] (d !! t).

(** Do the rows of [t] satisfy a constraint? *)
Definition constr_holds (t : string) (c : constr) (d : rows_of) : bool :=
  let rows := rows_in t d in
  match c with
  | CCheck e => forallb (check_row e) rows
  | CUnique l => bool_decide (NoDup (omap (key_of l) rows))
  | CPrimaryKey l =>
      forallb (λ r, bool_decide (is_Some (key_of l r))) rows && bool_decide (NoDup (omap (key_of l) rows))
  | CForeignKey l rt rl _ =>
      forallb (λ r, match key_of l r with
                    | Some k => bool_decide (Some k ∈ key_of rl <$> rows_in rt d)
                    | None => true
                    end) rows
  end.

Definition fill_null (c : string) (v : cell) (r : row) : row :=
  match cell_of r c with VNull => <[c := v]> r | _ => r end.

(** What a statement does to the rows. *)
Definition alter_rows (now : string) (o : ddl) (d : rows_of) : result rows_of :=
  match o with
  | create_table t _ _ => Ok (<[t := []]> d)
  | drop_table t => Ok (delete t d)
  | add_column t c def =>
      let v := default_cell now (c_default def) in
      raise_unless (c_nullable def || bool_decide (v ≠ VNull) || bool_decide (rows_in t d = []))
        (ddl_error "NotNullViolation");;
      Ok (alter (fmap <[c := v]>) t d)
  | drop_column t c => Ok (alter (fmap (delete c)) t d)
  | alter_nullable t c b =>
      raise_unless (b || forallb (λ r, bool_decide (cell_of r c ≠ VNull)) (rows_in t d))
        (ddl_error "NotNullViolation");;
      Ok d
  | update_where_null t c v => Ok (alter (fmap (fill_null c v)) t d)
  | add_constraint t _ c => raise_unless (constr_holds t c d) (ddl_error "IntegrityError");; Ok d
  | _ => Ok d
  end.

Definition apply_ddl (now : string) (o : ddl) (d : database) : result database :=
  s ← alter_schema o (d_schema d);
  r ← alter_rows now o (d_rows d);
  Ok {| d_schema := s; d_rows := r |}.

Fixpoint apply_all (now : string) (os : list ddl) (d : database) : result database :=
  match os with
  | [] => Ok d
  | o :: os => d ← apply_ddl now o d; apply_all now os d
  end.

Fixpoint alter_schemas (os : list ddl) (s : schema) : result schema :=
  match os with
  | [] => Ok s
  | o :: os => s ← alter_schema o s; alter_schemas os s
  end.
Fixpoint alter_all_rows (now : string) (os : list ddl) (d : rows_of) : result rows_of :=
  match os with
  | [] => Ok d
  | o :: os => d ← alter_rows now o d; alter_all_rows now os d
  end.

(** Catalogue and rows change independently. *)
Lemma apply_all_split now os s s' d d' :
  alter_schemas os s = Ok s' → alter_all_rows now os d = Ok d' →
  apply_all now os {| d_schema := s; d_rows := d |} = Ok {| d_schema := s'; d_rows := d' |}.
Proof.
  revert s d. induction os as [|o os IH]; intros s d; cbn; [by intros [= ->] [= ->]|].
  intros Hs Hd. apply result_bind_ok in Hs as (s1 & Hs1 & Hs), Hd as (d1 & Hd1 & Hd).
  unfold apply_ddl. cbn. rewrite Hs1, Hd1. cbn. by apply IH.
Qed.

(** ** Row triggers *)

(** The row-level triggers of [t] for [ev], in a transaction where the setting [guc] is [on]. *)
Definition run_function (ev : row_event) (on : list string) (b : fn_body) : result unit :=
  match b with
  | RaiseException m => Err (ddl_error m)
  | RaiseUnlessPurge guc m =>
      raise_unless (bool_decide (ev = ON_DELETE) && bool_decide (guc ∈ on)) (ddl_error m)
  end.

Definition fire (s : schema) (t : string) (ev : row_event) (on : list string) : result unit :=
  result_map (λ x : string * trigger_def,
    b ← found (ddl_error "UndefinedFunction") (s_functions s !! tr_function x.2); run_function ev on b)
    (filter (λ x : string * trigger_def, tr_table x.2 = t ∧ ev ∈ tr_events x.2)
       (map_to_list (s_triggers s)));;
  Ok tt.

(** ** Rows that have the columns of their table *)

Definition rows_typed (s : schema) (d : rows_of) : Prop :=
  map_Forall (λ t rows, ∃ td, s_tables s !! t = Some td
    ∧ Forall (λ r : row, dom r = dom (t_columns td)) rows) d.

Definition rows_typedb (s : schema) (d : rows_of) : bool :=
  forallb (λ x : string * list row,
    match s_tables s !! x.1 with
    | Some td => forallb (λ r : row, bool_decide (dom r = dom (t_columns td))) x.2
    | None => false
    end) (map_to_list d).

Lemma rows_typedb_sound s d : rows_typedb s d = true → rows_typed s d.
Proof.
  intros Hb t rows Hd. apply Is_true_true, forallb_True in Hb. rewrite Forall_forall in Hb.
  apply elem_of_map_to_list in Hd. specialize (Hb _ Hd). cbn in Hb.
  destruct (s_tables s !! t) as [td|]; [|done]. exists td. split; [done|].
  apply forallb_True in Hb. eapply Forall_impl; [exact Hb|]. intros r Hr. by apply bool_decide_unpack in Hr.
Qed.
