(* ===== verification/Migrations.v ===== *)
(** * The migrations

    [src/migrations/versions/]: every script's [upgrade] and [downgrade] as the statements it
    executes, in order; the catalogue [src/src/agent_runtime/infrastructure/database/models.py]
    declares; and the theorems that relate them: the chain of scripts builds the declared
    catalogue, every upgrade applies to every populated database and is undone by its downgrade
    without losing a row, and the history tables are append-only. *)

From S2P Require Import Prelude Ddl Models AuditRetention.
Local Open Scope Z_scope.

(** ** The scripts *)

Record migration := {
  revision : string;
  down_revision : option string;
  upgrade : list ddl;
  downgrade : list ddl;
}.

(** [sa.Column(name, type, nullable=...)], without and with [server_default]. *)
Definition col (n : string) (t : col_type) (nullable : bool) : string * column_def :=
  (n, Column t nullable None).
Definition col_default (n : string) (t : col_type) (nullable : bool) (d : server_default)
    : string * column_def := (n, Column t nullable (Some d)).
Definition now_col (n : string) : string * column_def := col_default n TTimestamptz false DNow.

Definition pk (l : list string) : option string * constr := (None, CPrimaryKey l).
Definition fk (c rt : string) : option string * constr := (None, CForeignKey [c] rt ["id"] RESTRICT).
Definition index_on (t : string) (l : list string) : index_def :=
  {| i_table := t; i_columns := l; i_descending := []; i_where := None |}.
(** [op.create_index(name, table, columns)] and [op.drop_index(name)]. *)
Definition op_index (n t : string) (l : list string) : ddl := create_index false n (index_on t l).
Definition op_drop_index (n : string) : ddl := drop_index false n.

Definition execution_statuses : list string :=
  ["QUEUED"; "RUNNING"; "RETRY_SCHEDULED"; "SUCCEEDED"; "FAILED"; "DEAD_LETTERED"].
Definition evaluation_statuses : list string := ["NOT_RUN"; "PENDING"; "PASSED"; "FAILED"; "ERROR"].
Definition work_kinds : list string := ["execution"; "evaluation"; "regression"].

(** [20260906_01_create_runtime_persistence.py], one definition for each part of it. *)
Module create_runtime_persistence.
Definition runs : list ddl :=
  [ create_table "runs"
      [ col "id" TUuid false; col "client_id" (TString 128) false;
        col "idempotency_key" (TString 255) false; col "request_hash" (TString 64) false;
        col "input_payload" TJsonb false; col "policy_snapshot" TJsonb false;
        col "execution_status" (TString 32) false; col "evaluation_status" (TString 32) false;
        col "result_payload" TJsonb true; col "error_code" (TString 64) true;
        now_col "created_at"; col "started_at" TTimestamptz true; col "completed_at" TTimestamptz true;
        col "replay_of_run_id" TUuid true; col_default "version" TInteger false (DLit (VInt 1)) ]
      [ (Some "ck_runs_execution_status", CCheck (CkIn "execution_status" execution_statuses));
        (Some "ck_runs_evaluation_status", CCheck (CkIn "evaluation_status" evaluation_statuses));
        fk "replay_of_run_id" "runs"; pk ["id"];
        (Some "uq_runs_client_idempotency_key", CUnique ["client_id"; "idempotency_key"]) ];
    op_index "ix_runs_client_id" "runs" ["client_id"];
    op_index "ix_runs_replay_of_run_id" "runs" ["replay_of_run_id"] ].

Definition run_attempts : list ddl :=
  [ create_table "run_attempts"
      [ col "id" TUuid false; col "run_id" TUuid false; col "attempt_number" TInteger false;
        col "provider" (TString 64) false; now_col "started_at"; col "finished_at" TTimestamptz true;
        col "outcome" (TString 32) true; col "error_code" (TString 64) true;
        col "retryable" TBoolean true; col "latency_ms" TInteger true;
        col "usage_metadata" TJsonb true ]
      [ fk "run_id" "runs"; pk ["id"];
        (Some "uq_run_attempts_run_number", CUnique ["run_id"; "attempt_number"]) ];
    op_index "ix_run_attempts_run_id" "run_attempts" ["run_id"] ].

Definition run_events : list ddl :=
  [ create_table "run_events"
      [ col "id" TUuid false; col "run_id" TUuid false; col "attempt_id" TUuid true;
        col "event_type" (TString 64) false; col "metadata" TJsonb true; now_col "created_at" ]
      [ fk "attempt_id" "run_attempts"; fk "run_id" "runs"; pk ["id"] ];
    op_index "ix_run_events_run_id" "run_events" ["run_id"];
    op_index "ix_run_events_attempt_id" "run_events" ["attempt_id"] ].

Definition outbox_events : list ddl :=
  [ create_table "outbox_events"
      [ col "id" TUuid false; col "aggregate_id" TUuid false; col "event_type" (TString 64) false;
        col "payload" TJsonb false; now_col "created_at"; col "published_at" TTimestamptz true;
        col_default "publish_attempts" TInteger false (DLit (VInt 0)); col "last_error" TText true ]
      [ pk ["id"] ];
    op_index "ix_outbox_events_aggregate_id" "outbox_events" ["aggregate_id"] ].

Definition evaluations : list ddl :=
  [ create_table "evaluations"
      [ col "id" TUuid false; col "run_id" TUuid false; col "evaluator" (TString 128) false;
        col "status" (TString 32) false; col "score" TFloat true; col "result" TJsonb true;
        col "details" TJsonb true; now_col "created_at" ]
      [ (Some "ck_evaluations_status", CCheck (CkIn "status" evaluation_statuses));
        fk "run_id" "runs"; pk ["id"] ];
    op_index "ix_evaluations_run_id" "evaluations" ["run_id"] ].

Definition triggers : list ddl :=
  [ create_function false "prevent_run_event_mutation" (RaiseException "run_events are append-only");
    create_trigger "run_events_no_update_or_delete"
      {| tr_table := "run_events"; tr_events := [ON_UPDATE; ON_DELETE];
         tr_function := "prevent_run_event_mutation" |};
    create_function false "prevent_run_attempt_delete"
      (RaiseException "run_attempts are retained history and cannot be deleted");
    create_trigger "run_attempts_no_delete"
      {| tr_table := "run_attempts"; tr_events := [ON_DELETE];
         tr_function := "prevent_run_attempt_delete" |} ].

Definition script : migration :=
  {| revision := "20260906_01"; down_revision := None;
     upgrade := runs ++ run_attempts ++ run_events ++ outbox_events ++ evaluations ++ triggers;
     downgrade :=
       [ drop_trigger "run_attempts_no_delete" "run_attempts"; drop_function "prevent_run_attempt_delete";
         drop_trigger "run_events_no_update_or_delete" "run_events";
         drop_function "prevent_run_event_mutation";
         op_drop_index "ix_evaluations_run_id"; drop_table "evaluations";
         op_drop_index "ix_outbox_events_aggregate_id"; drop_table "outbox_events";
         op_drop_index "ix_run_events_attempt_id"; op_drop_index "ix_run_events_run_id";
         drop_table "run_events"; op_drop_index "ix_run_attempts_run_id"; drop_table "run_attempts";
         op_drop_index "ix_runs_replay_of_run_id"; op_drop_index "ix_runs_client_id";
         drop_table "runs" ] |}.
End create_runtime_persistence.

Definition add_col (t : string) (c : string * column_def) : ddl := add_column t c.1 c.2.

(** [20260906_02_add_execution_leases.py]. *)
Definition add_execution_leases : migration :=
  {| revision := "20260906_02"; down_revision := Some "20260906_01";
     upgrade :=
       [ add_col "runs" (col "execution_lease_owner" (TString 128) true);
         add_col "runs" (col "execution_lease_expires_at" TTimestamptz true);
         op_index "ix_runs_execution_lease_expires_at" "runs" ["execution_lease_expires_at"];
         add_col "run_attempts" (col "worker_id" (TString 128) true);
         update_where_null "run_attempts" "worker_id" (VText "legacy");
         alter_nullable "run_attempts" "worker_id" false ];
     downgrade :=
       [ drop_column "run_attempts" "worker_id"; op_drop_index "ix_runs_execution_lease_expires_at";
         drop_column "runs" "execution_lease_expires_at"; drop_column "runs" "execution_lease_owner" ] |}.

(** [20260906_03_add_retry_schedule.py]. *)
Definition add_retry_schedule : migration :=
  {| revision := "20260906_03"; down_revision := Some "20260906_02";
     upgrade := [ add_col "runs" (col "next_attempt_at" TTimestamptz true);
                  op_index "ix_runs_next_attempt_at" "runs" ["next_attempt_at"] ];
     downgrade := [ op_drop_index "ix_runs_next_attempt_at"; drop_column "runs" "next_attempt_at" ] |}.

(** [20260906_04_add_run_trace_context.py]. *)
Definition add_run_trace_context : migration :=
  {| revision := "20260906_04"; down_revision := Some "20260906_03";
     upgrade := [ add_col "runs" (col_default "trace_context" TJsonb false (DLit (VOther "{}")));
                  alter_server_default "runs" "trace_context" None ];
     downgrade := [ drop_column "runs" "trace_context" ] |}.

(** [20260906_05_add_evaluation_completion.py]. *)
Definition add_evaluation_completion : migration :=
  {| revision := "20260906_05"; down_revision := Some "20260906_04";
     upgrade := [ add_col "evaluations" (col "completed_at" TTimestamptz true) ];
     downgrade := [ drop_column "evaluations" "completed_at" ] |}.

Definition audit_message : string := "security_audit_events are append-only".

Definition audit_trigger_def : trigger_def :=
  {| tr_table := "security_audit_events"; tr_events := [ON_UPDATE; ON_DELETE];
     tr_function := "prevent_security_audit_mutation" |}.

(** [20260906_06_add_security_audit_events.py]. *)
Definition add_security_audit_events : migration :=
  {| revision := "20260906_06"; down_revision := Some "20260906_05";
     upgrade :=
       [ create_table "security_audit_events"
           [ col "id" TUuid false; col "event_type" (TString 64) false; col "outcome" (TString 16) false;
             col "reason" (TString 64) false; col "client_id" (TString 128) true;
             col "credential_fingerprint" (TString 64) true; now_col "created_at" ]
           [ pk ["id"] ];
         op_index "ix_security_audit_events_client_id" "security_audit_events" ["client_id"];
         create_function false "prevent_security_audit_mutation" (RaiseException audit_message);
         create_trigger "security_audit_events_no_update_or_delete" audit_trigger_def ];
     downgrade :=
       [ drop_trigger "security_audit_events_no_update_or_delete" "security_audit_events";
         drop_function "prevent_security_audit_mutation";
         op_drop_index "ix_security_audit_events_client_id"; drop_table "security_audit_events" ] |}.

Definition page_tables : list (string * string) :=
  [ ("run_attempts", "started_at"); ("run_events", "created_at"); ("evaluations", "created_at") ].
Definition page_index (t : string) : string := "ix_" +:+ t +:+ "_page".

(** [20260912_07_resource_controls.py]. *)
Definition resource_controls : migration :=
  {| revision := "20260912_07"; down_revision := Some "20260906_06";
     upgrade :=
       [ add_col "runs" (col "principal_id" (TString 128) true);
         add_col "runs" (col_default "work_kind" (TString 16) false (DLit (VText "execution")));
         add_constraint "runs" "ck_runs_work_kind" (CCheck (CkIn "work_kind" work_kinds));
         op_index "ix_runs_principal_id" "runs" ["principal_id"];
         op_index "ix_runs_principal_active" "runs" ["principal_id"; "execution_status"];
         op_index "ix_runs_tenant_active" "runs" ["client_id"; "execution_status"];
         add_col "evaluations" (col "job_run_id" TUuid true);
         add_constraint "evaluations" "fk_evaluations_job_run"
           (CForeignKey ["job_run_id"] "runs" ["id"] RESTRICT);
         add_constraint "evaluations" "uq_evaluations_job_run" (CUnique ["job_run_id"]);
         create_table "provider_quotas"
           [ col "scope" (TString 160) false; col "window_start" TInteger false; col "used" TInteger false ]
           [ pk ["scope"]; (Some "ck_provider_quota_used", CCheck (CkAtLeast "used" 0)) ] ]
       ++ ((λ x, op_index (page_index x.1) x.1 ["run_id"; x.2; "id"]) <$> page_tables);
     downgrade :=
       ((λ t, op_drop_index (page_index t)) <$> ["run_attempts"; "run_events"; "evaluations"])
       ++ [ drop_table "provider_quotas";
            drop_constraint "evaluations" "uq_evaluations_job_run";
            drop_constraint "evaluations" "fk_evaluations_job_run";
            drop_column "evaluations" "job_run_id" ]
       ++ (op_drop_index <$> ["ix_runs_principal_id"; "ix_runs_principal_active"; "ix_runs_tenant_active"])
       ++ [ drop_constraint "runs" "ck_runs_work_kind"; drop_column "runs" "work_kind";
            drop_column "runs" "principal_id" ] |}.

(** [20260912_08_audit_targets.py]. *)
Definition audit_targets : migration :=
  {| revision := "20260912_08"; down_revision := Some "20260912_07";
     upgrade := [ add_col "security_audit_events" (col "principal_id" (TString 128) true);
                  add_col "security_audit_events" (col "target_run_id" TUuid true);
                  add_col "security_audit_events" (col "resource" (TString 16) true) ];
     downgrade := drop_column "security_audit_events" <$> ["resource"; "target_run_id"; "principal_id"] |}.

(** [20260912_09_tenant_keys.py]. *)
Definition tenant_keys : migration :=
  {| revision := "20260912_09"; down_revision := Some "20260912_08";
     upgrade :=
       [ create_table "tenant_keys"
           [ col "tenant_id" (TString 128) false; col "wrapped_dek" TBytea true; now_col "created_at";
             col "last_encrypted_at" TTimestamptz false; col "destroyed_at" TTimestamptz true ]
           [ pk ["tenant_id"] ] ];
     downgrade := [ drop_table "tenant_keys" ] |}.

(** [20260912_10_audit_retention_indexes.py]. *)
Definition target_index : index_def :=
  {| i_table := "security_audit_events"; i_columns := ["target_run_id"; "created_at"];
     i_descending := ["created_at"]; i_where := Some "target_run_id" |}.
Definition created_at_index : index_def := index_on "security_audit_events" ["created_at"].

Definition audit_retention_indexes : migration :=
  {| revision := "20260912_10"; down_revision := Some "20260912_09";
     upgrade := [ create_index true "ix_security_audit_events_target" target_index;
                  create_index true "ix_security_audit_events_created_at" created_at_index ];
     downgrade := [ drop_index true "ix_security_audit_events_created_at";
                    drop_index true "ix_security_audit_events_target" ] |}.

Definition PURGE_GUC : string := "arr.allow_audit_purge".

(** [20260912_11_audit_retention_gate.py]. *)
Definition audit_retention_gate : migration :=
  {| revision := "20260912_11"; down_revision := Some "20260912_10";
     upgrade := [ create_function true "prevent_security_audit_mutation"
                    (RaiseUnlessPurge PURGE_GUC audit_message) ];
     downgrade := [ create_function true "prevent_security_audit_mutation"
                      (RaiseException audit_message) ] |}.

(** The directory [versions/]. *)
Definition versions : list migration :=
  [ create_runtime_persistence.script; add_execution_leases; add_retry_schedule;
    add_run_trace_context; add_evaluation_completion; add_security_audit_events; resource_controls;
    audit_targets; tenant_keys; audit_retention_indexes; audit_retention_gate ].

(** ** The declared catalogue *)

Record model := {
  m_name : string;
  m_columns : list (string * column_def);
  m_constraints : list (option string * constr);
  m_indexes : list (string * list string);
}.

(** [index=True] on the column [c] of [t]. *)
Definition ix (t c : string) : string * list string := ("ix_" +:+ t +:+ "_" +:+ c, [c]).

Definition Run_model : model :=
  {| m_name := "runs";
     m_columns :=
       [ col "id" TUuid false; col "client_id" (TString 128) false; col "principal_id" (TString 128) true;
         col_default "work_kind" (TString 16) false (DLit (VText "execution"));
         col "idempotency_key" (TString 255) false; col "request_hash" (TString 64) false;
         col "input_payload" TJsonb false; col "policy_snapshot" TJsonb false;
         col "trace_context" TJsonb false; col "execution_status" (TString 32) false;
         col "evaluation_status" (TString 32) false; col "result_payload" TJsonb true;
         col "error_code" (TString 64) true; now_col "created_at"; col "started_at" TTimestamptz true;
         col "completed_at" TTimestamptz true; col "execution_lease_owner" (TString 128) true;
         col "execution_lease_expires_at" TTimestamptz true; col "next_attempt_at" TTimestamptz true;
         col "replay_of_run_id" TUuid true; col "version" TInteger false ];
     m_constraints :=
       [ (Some "uq_runs_client_idempotency_key", CUnique ["client_id"; "idempotency_key"]);
         (Some "ck_runs_work_kind", CCheck (CkIn "work_kind" work_kinds));
         (Some "ck_runs_execution_status", CCheck (CkIn "execution_status" execution_statuses));
         (Some "ck_runs_evaluation_status", CCheck (CkIn "evaluation_status" evaluation_statuses));
         pk ["id"]; fk "replay_of_run_id" "runs" ];
     m_indexes :=
       [ ("ix_runs_principal_active", ["principal_id"; "execution_status"]);
         ("ix_runs_tenant_active", ["client_id"; "execution_status"]); ix "runs" "client_id";
         ix "runs" "principal_id"; ix "runs" "execution_lease_expires_at"; ix "runs" "next_attempt_at";
         ix "runs" "replay_of_run_id" ] |}.

Definition RunAttempt_model : model :=
  {| m_name := "run_attempts";
     m_columns :=
       [ col "id" TUuid false; col "run_id" TUuid false; col "attempt_number" TInteger false;
         col "provider" (TString 64) false; col "worker_id" (TString 128) false; now_col "started_at";
         col "finished_at" TTimestamptz true; col "outcome" (TString 32) true;
         col "error_code" (TString 64) true; col "retryable" TBoolean true;
         col "latency_ms" TInteger true; col "usage_metadata" TJsonb true ];
     m_constraints :=
       [ (Some "uq_run_attempts_run_number", CUnique ["run_id"; "attempt_number"]); pk ["id"];
         fk "run_id" "runs" ];
     m_indexes := [ ("ix_run_attempts_page", ["run_id"; "started_at"; "id"]); ix "run_attempts" "run_id" ] |}.

Definition RunEvent_model : model :=
  {| m_name := "run_events";
     m_columns :=
       [ col "id" TUuid false; col "run_id" TUuid false; col "attempt_id" TUuid true;
         col "event_type" (TString 64) false; col "metadata" TJsonb true; now_col "created_at" ];
     m_constraints := [ pk ["id"]; fk "run_id" "runs"; fk "attempt_id" "run_attempts" ];
     m_indexes := [ ("ix_run_events_page", ["run_id"; "created_at"; "id"]); ix "run_events" "run_id";
                    ix "run_events" "attempt_id" ] |}.

Definition OutboxEvent_model : model :=
  {| m_name := "outbox_events";
     m_columns :=
       [ col "id" TUuid false; col "aggregate_id" TUuid false; col "event_type" (TString 64) false;
         col "payload" TJsonb false; now_col "created_at"; col "published_at" TTimestamptz true;
         col "publish_attempts" TInteger false; col "last_error" TText true ];
     m_constraints := [ pk ["id"] ];
     m_indexes := [ ix "outbox_events" "aggregate_id" ] |}.

Definition Evaluation_model : model :=
  {| m_name := "evaluations";
     m_columns :=
       [ col "id" TUuid false; col "run_id" TUuid false; col "evaluator" (TString 128) false;
         col "job_run_id" TUuid true; col "status" (TString 32) false; col "score" TFloat true;
         col "result" TJsonb true; col "details" TJsonb true; now_col "created_at";
         col "completed_at" TTimestamptz true ];
     m_constraints :=
       [ (Some "uq_evaluations_job_run", CUnique ["job_run_id"]);
         (Some "ck_evaluations_status", CCheck (CkIn "status" evaluation_statuses)); pk ["id"];
         fk "run_id" "runs"; (Some "fk_evaluations_job_run", CForeignKey ["job_run_id"] "runs" ["id"] RESTRICT) ];
     m_indexes := [ ("ix_evaluations_page", ["run_id"; "created_at"; "id"]); ix "evaluations" "run_id" ] |}.

Definition ProviderQuota_model : model :=
  {| m_name := "provider_quotas";
     m_columns := [ col "scope" (TString 160) false; col "window_start" TInteger false;
                    col "used" TInteger false ];
     m_constraints := [ (Some "ck_provider_quota_used", CCheck (CkAtLeast "used" 0)); pk ["scope"] ];
     m_indexes := [] |}.

Definition SecurityAuditEvent_model : model :=
  {| m_name := "security_audit_events";
     m_columns :=
       [ col "id" TUuid false; col "event_type" (TString 64) false; col "outcome" (TString 16) false;
         col "reason" (TString 64) false; col "client_id" (TString 128) true;
         col "credential_fingerprint" (TString 64) true; col "principal_id" (TString 128) true;
         col "target_run_id" TUuid true; col "resource" (TString 16) true; now_col "created_at" ];
     m_constraints := [ pk ["id"] ];
     m_indexes := [ ix "security_audit_events" "client_id" ] |}.

Definition TenantKey_model : model :=
  {| m_name := "tenant_keys";
     m_columns :=
       [ col "tenant_id" (TString 128) false; col "wrapped_dek" TBytea true; now_col "created_at";
         col "last_encrypted_at" TTimestamptz false; col "destroyed_at" TTimestamptz true ];
     m_constraints := [ pk ["tenant_id"] ]; m_indexes := [] |}.

(** [Base.metadata]. *)
Definition models : list model :=
  [ Run_model; RunAttempt_model; RunEvent_model; OutboxEvent_model; Evaluation_model;
    ProviderQuota_model; SecurityAuditEvent_model; TenantKey_model ].

Definition model_table (m : model) : string * table_def :=
  (m_name m, {| t_columns := list_to_map (m_columns m);
                t_constraints := list_to_map ((λ x, (constr_name (m_name m) x.1 x.2, x.2)) <$> m_constraints m) |}).
Definition model_indexes (m : model) : list (string * index_def) :=
  (λ x, (x.1, index_on (m_name m) x.2)) <$> m_indexes m.

Definition metadata_tables : gmap string table_def := list_to_map (model_table <$> models).
Definition metadata_indexes : gmap string index_def := list_to_map (models ≫= model_indexes).

(** ** Running the chain *)

(** [alembic upgrade head]: the script that follows the stored revision, until none does. *)
Definition successors (rev : option string) : list migration :=
  filter (λ m, down_revision m = rev) versions.

Fixpoint upgrade_head (fuel : nat) (now : string) (rev : option string) (d : database)
    : option (result (option string * database)) :=
  match successors rev, fuel with
  | [], _ => Some (Ok (rev, d))
  | [m], S fuel =>
      match apply_all now (upgrade m) d with
      | Ok d => upgrade_head fuel now (Some (revision m)) d
      | Err e => Some (Err e)
      end
  | [_], O => None
  | _, _ => Some (Err (ddl_error "MultipleHeads"))
  end.

(** Several scripts upwards, and downwards from the last. *)
Fixpoint upgrades (now : string) (ms : list migration) (d : database) : result database :=
  match ms with
  | [] => Ok d
  | m :: ms => d ← apply_all now (upgrade m) d; upgrades now ms d
  end.
Fixpoint downgrades (now : string) (ms : list migration) (d : database) : result database :=
  match ms with
  | [] => Ok d
  | m :: ms => d ← downgrades now ms d; apply_all now (downgrade m) d
  end.

(** The catalogue at the [k]-th revision. *)
Definition schema_at (k : nat) : schema :=
  match alter_schemas (mjoin (upgrade <$> take k versions)) empty_schema with
  | Ok s => s
  | Err _ => empty_schema
  end.
Definition head_schema : schema := schema_at (length versions).

(** The server defaults the scripts give to two columns whose defaults the models leave to the
    client, and the two indexes of the audit table that only the scripts know. *)
Definition set_default (t c : string) (v : cell) (m : gmap string table_def) : gmap string table_def :=
  alter (λ td, with_columns (alter (λ d, Column (c_type d) (c_nullable d) (Some (DLit v))) c (t_columns td)) td) t m.

(** The catalogue at the head: tables and indexes are those [models.py] declares, but for these
    two. *)
Lemma head_catalogue :
  s_tables head_schema = set_default "runs" "version" (VInt 1)
                           (set_default "outbox_events" "publish_attempts" (VInt 0) metadata_tables)
  ∧ s_indexes head_schema = <["ix_security_audit_events_target" := target_index]>
                              (<["ix_security_audit_events_created_at" := created_at_index]> metadata_indexes).
Proof. split; apply (bool_decide_eq_true_1 _); vm_compute; reflexivity. Qed.

(** ** Rows under the scripts *)

(** No row of [t] has a cell for [c]. *)
Definition lacks (t c : string) (d : rows_of) : Prop := Forall (λ r : row, r !! c = None) (rows_in t d).

Lemma rows_in_alter f t t' d :
  rows_in t (alter (fmap f) t' d) = if decide (t = t') then f <$> rows_in t d else rows_in t d.
Proof.
  unfold rows_in. destruct (decide (t = t')) as [->|Hne].
  - rewrite lookup_alter_eq. by destruct (d !! t').
  - by rewrite lookup_alter_ne.
Qed.

Lemma lacks_alter f t c t' d :
  (∀ r : row, r !! c = None → f r !! c = None) → lacks t c d → lacks t c (alter (fmap f) t' d).
Proof.
  intros Hf Hl. unfold lacks. rewrite rows_in_alter. case_decide; [|done].
  apply Forall_fmap. eapply Forall_impl; [exact Hl|]. exact Hf.
Qed.

(** Dropping a column undoes adding it. *)
Lemma drop_added t c v d : lacks t c d → alter (fmap (delete c)) t (alter (fmap (<[c := v]>)) t d) = d.
Proof.
  intros Hl. rewrite alter_alter_eq. apply map_eq. intros t'.
  destruct (decide (t = t')) as [<-|Hne]; [|by rewrite lookup_alter_ne].
  rewrite lookup_alter_eq. unfold lacks, rows_in in Hl. destruct (d !! t) as [rows|]; [|done].
  cbn in *. f_equal. rewrite <- list_fmap_compose. rewrite <- (list_fmap_id rows) at 2.
  apply Forall_fmap_ext. eapply Forall_impl; [exact Hl|]. intros r Hr. cbn. by rewrite delete_insert_id.
Qed.

Lemma drop_filled t c v (d : rows_of) :
  alter (fmap (delete c)) t (alter (fmap (fill_null c v)) t d) = alter (fmap (delete c)) t d.
Proof.
  rewrite alter_alter_eq. apply alter_ext. intros rows _. cbn. rewrite <- list_fmap_compose.
  apply list_fmap_ext. intros _ r _. unfold fill_null. cbn. case_match; [|done..].
  by rewrite delete_insert_eq.
Qed.

(** The column [c] of every row of [t] holds [v]. *)
Definition all_hold (t c : string) (v : cell) (d : rows_of) : Prop :=
  Forall (λ r, cell_of r c = v) (rows_in t d).

Lemma added_holds t c v d : all_hold t c v (alter (fmap <[c := v]>) t d).
Proof.
  unfold all_hold. rewrite rows_in_alter, decide_True by done. apply Forall_fmap, Forall_true.
  intros r. unfold cell_of. cbn. by rewrite lookup_insert_eq.
Qed.

Lemma filled_holds t c v d :
  all_hold t c VNull d → all_hold t c v (alter (fmap (fill_null c v)) t d).
Proof.
  unfold all_hold. rewrite rows_in_alter, decide_True by done. intros Hn. apply Forall_fmap.
  eapply Forall_impl; [exact Hn|]. intros r Hr. cbn in *. unfold fill_null. rewrite Hr.
  unfold cell_of. by rewrite lookup_insert_eq.
Qed.

Lemma forallb_all {A} (f : A → bool) l : Forall (λ x, f x = true) l → forallb f l = true.
Proof. intros Hl. apply Is_true_true, forallb_True. eapply Forall_impl; [exact Hl|]. by intros x ->. Qed.

Lemma holds_not_null t c v d :
  v ≠ VNull → all_hold t c v d → forallb (λ r, bool_decide (cell_of r c ≠ VNull)) (rows_in t d) = true.
Proof.
  intros Hv Ha. apply forallb_all. eapply Forall_impl; [exact Ha|]. intros r <-.
  by apply bool_decide_eq_true.
Qed.

(** The constraints a script puts on a column it has just added. *)
Lemma check_holds t c l s d : all_hold t c (VText s) d → s ∈ l → constr_holds t (CCheck (CkIn c l)) d = true.
Proof.
  intros Ha Hs. apply forallb_all. eapply Forall_impl; [exact Ha|]. intros r Hr. cbn in *.
  rewrite Hr. by apply bool_decide_eq_true.
Qed.

Lemma null_key c (r : row) : cell_of r c = VNull → key_of [c] r = None.
Proof. intros Hr. unfold key_of. cbn. rewrite Hr. by rewrite bool_decide_true by set_solver. Qed.

Lemma fk_holds t c rt rl x d : all_hold t c VNull d → constr_holds t (CForeignKey [c] rt rl x) d = true.
Proof.
  intros Ha. apply forallb_all. eapply Forall_impl; [exact Ha|]. intros r Hr. cbn in *. by rewrite null_key.
Qed.

Lemma unique_holds t c d : all_hold t c VNull d → constr_holds t (CUnique [c]) d = true.
Proof.
  intros Ha. cbn. apply bool_decide_eq_true. unfold all_hold in Ha.
  induction (rows_in t d) as [|r rows IH]; [constructor|]. apply Forall_cons in Ha as [Hr Ha].
  cbn. rewrite null_key by done. by apply IH.
Qed.

Lemma holds_alter f t c v t' d :
  (∀ r, cell_of r c = v → cell_of (f r) c = v) → all_hold t c v d → all_hold t c v (alter (fmap f) t' d).
Proof.
  intros Hf Ha. unfold all_hold. rewrite rows_in_alter. case_decide; [|done].
  apply Forall_fmap. eapply Forall_impl; [exact Ha|]. exact Hf.
Qed.

(** *** Rows keep the columns of their table *)

Definition has_column (s : schema) (t c : string) : bool :=
  match s_tables s !! t with Some td => bool_decide (is_Some (t_columns td !! c)) | None => false end.

Lemma typed_lacks s d t c : rows_typed s d → has_column s t c = false → lacks t c d.
Proof.
  intros Ht Hc. unfold lacks, rows_in. destruct (d !! t) as [rows|] eqn:Hd; [|constructor].
  destruct (Ht _ _ Hd) as (td & Htd & Hrows). unfold has_column in Hc. rewrite Htd in Hc.
  apply bool_decide_eq_false in Hc. eapply Forall_impl; [exact Hrows|]. intros r Hr.
  apply not_elem_of_dom_1. rewrite Hr. intros Hin. by apply Hc, elem_of_dom.
Qed.

Lemma typed_absent s d t : rows_typed s d → bool_decide (s_tables s !! t = None) = true → d !! t = None.
Proof.
  intros Ht Hs%bool_decide_eq_true. apply eq_None_not_Some. intros [rows Hd].
  destruct (Ht _ _ Hd) as (td & Htd & _). congruence.
Qed.

Lemma constraint_into_columns t n c s td td' : constraint_into t n c s td = Ok td' → t_columns td' = t_columns td.
Proof. unfold constraint_into. intros Hc. by inv_result. Qed.

(** A table redefined with the same column names. *)
Lemma typed_put s d t td td' :
  rows_typed s d → s_tables s !! t = Some td → dom (t_columns td') = dom (t_columns td) →
  rows_typed (put_table t td' s) d.
Proof.
  intros Ht Hs Hd t' rows Hrows. destruct (Ht _ _ Hrows) as (td0 & Htd & Hall). cbn.
  destruct (decide (t = t')) as [<-|Hne]; [|rewrite lookup_insert_ne by done; eauto].
  rewrite lookup_insert_eq. exists td'. split; [done|]. assert (td0 = td) as -> by congruence. by rewrite Hd.
Qed.

Lemma typed_alter s s' d t td td' f :
  rows_typed s d → s_tables s !! t = Some td → s_tables s' = <[t := td']> (s_tables s) →
  (∀ r : row, dom r = dom (t_columns td) → dom (f r) = dom (t_columns td')) →
  rows_typed s' (alter (fmap f) t d).
Proof.
  intros Ht Hs Hs' Hf t' rows Hrows. rewrite Hs'.
  apply lookup_alter_Some in Hrows as [(<- & rows0 & Hr0 & ->)|[Hne Hrows]].
  - destruct (Ht _ _ Hr0) as (td0 & Htd & Hall). assert (td0 = td) as -> by congruence.
    rewrite lookup_insert_eq. exists td'. split; [done|]. apply Forall_fmap.
    eapply Forall_impl; [exact Hall|]. exact Hf.
  - destruct (Ht _ _ Hrows) as (td0 & Htd & Hall). rewrite lookup_insert_ne by done. eauto.
Qed.

Lemma typed_same_tables s s' d : s_tables s' = s_tables s → rows_typed s d → rows_typed s' d.
Proof. unfold rows_typed. by intros ->. Qed.

Lemma foldl_constraints t s cs acc td :
  foldl (λ acc x, acc ≫= constraint_into t (constr_name t x.1 x.2) x.2 s) acc cs = Ok td →
  ∃ td0, acc = Ok td0 ∧ t_columns td = t_columns td0.
Proof.
  revert acc. induction cs as [|x cs IH]; intros acc Hf; cbn in Hf; [eauto|].
  apply IH in Hf as (td1 & H1 & Hc). apply result_bind_ok in H1 as (td0 & -> & H0).
  exists td0. split; [done|]. rewrite Hc. by eapply constraint_into_columns.
Qed.

Lemma found_ok {A} e (o : option A) x : found e o = Ok x → o = Some x.
Proof. destruct o; cbn; congruence. Qed.

Lemma dom_fill c v (r : row) : c ∈ dom r → dom (fill_null c v r) = dom r.
Proof. intros Hc. unfold fill_null. case_match; try done. rewrite dom_insert_L. set_solver. Qed.

(** A statement that succeeds keeps rows and columns in step. *)
Lemma alter_typed now o s s' d d' :
  rows_typed s d → alter_schema o s = Ok s' → alter_rows now o d = Ok d' → rows_typed s' d'.
Proof.
  intros Ht Hs Hd. destruct o; cbn in Hs, Hd; unfold find_table in *; inv_result;
    repeat match goal with H : found _ _ = Ok _ |- _ => apply found_ok in H end.
  all: try (by eapply typed_same_tables).
  - apply foldl_constraints in H1 as (td0 & [= <-] & Hc).
    intros t' rows Hrows. cbn. apply lookup_insert_Some in Hrows as [[<- <-]|[Hne Hrows]].
    + rewrite lookup_insert_eq. eauto.
    + rewrite lookup_insert_ne by done. by apply Ht.
  - intros t' rows Hrows. cbn. apply lookup_delete_Some in Hrows as [Hne Hrows].
    rewrite lookup_delete_ne by done. by apply Ht.
  - destruct (relation_free _ _); inv_result; [by eapply typed_same_tables|].
    by destruct if_not_exists; inv_result.
  - eapply typed_alter; [done..|]. intros r Hr. cbn. rewrite !dom_insert_L. by rewrite Hr.
  - eapply typed_alter; [done..|]. intros r Hr. cbn. rewrite !dom_delete_L. by rewrite Hr.
  - eapply typed_put; [done..|]. cbn. by apply dom_insert_lookup_L.
  - eapply typed_put; [done..|]. cbn. by apply dom_insert_lookup_L.
  - rewrite andb_true_r in H0. apply bool_decide_eq_true in H0.
    eapply (typed_alter s'); [done..|by rewrite insert_id|]. intros r Hr. rewrite dom_fill; [done|].
    rewrite Hr. by apply elem_of_dom.
  - eapply typed_put; [done..|]. by erewrite constraint_into_columns.
  - by eapply typed_put.
  - destruct (s_triggers s !! name); inv_result. by eapply typed_same_tables.
Qed.

Lemma apply_all_typed now os d d' :
  rows_typed (d_schema d) (d_rows d) → apply_all now os d = Ok d' → rows_typed (d_schema d') (d_rows d').
Proof.
  revert d. induction os as [|o os IH]; intros d Ht Ha; cbn in Ha; [by inv_result|].
  inv_result. eapply IH; [|done]. unfold apply_ddl in H. inv_result. by eapply alter_typed.
Qed.

(** *** Each script and its downgrade *)

Definition script_ok (now : string) (m : migration) (s s' : schema) : Prop :=
  ∀ d, rows_typed s d →
  ∃ d', apply_all now (upgrade m) {| d_schema := s; d_rows := d |} = Ok {| d_schema := s'; d_rows := d' |}
      ∧ apply_all now (downgrade m) {| d_schema := s'; d_rows := d' |} = Ok {| d_schema := s; d_rows := d |}.

(** A script that works on the catalogues, given what it does to the rows. *)
Lemma script_ok_split now m s s' :
  alter_schemas (upgrade m) s = Ok s' → alter_schemas (downgrade m) s' = Ok s →
  (∀ d, rows_typed s d → ∃ d', alter_all_rows now (upgrade m) d = Ok d' ∧ alter_all_rows now (downgrade m) d' = Ok d) →
  script_ok now m s s'.
Proof.
  intros Hu Hd Hr d Ht. destruct (Hr d Ht) as (d' & Hu' & Hd'). exists d'.
  split; by apply apply_all_split.
Qed.

Ltac catalogue := apply (bool_decide_eq_true_1 _); vm_compute; reflexivity.
(** Reverse the changes of the rows from the inside out. *)
Ltac undo H :=
  repeat first
  [ rewrite drop_filled
  | rewrite drop_added;
    [|repeat (apply lacks_alter; [intros r Hr; cbn; by rewrite lookup_insert_ne|]);
      eapply typed_lacks; [exact H|vm_compute; reflexivity]]
  | rewrite delete_insert_id;
    [|rewrite ?lookup_insert_ne, ?lookup_alter_None by done;
      eapply typed_absent; [exact H|vm_compute; reflexivity]] ].
Ltac plain_script :=
  apply script_ok_split; [catalogue..|]; intros d Ht; eexists; split; [reflexivity|];
  cbn [alter_all_rows alter_rows upgrade downgrade mbind result_bind]; cbn; by undo Ht.

Lemma script_1 now : script_ok now create_runtime_persistence.script (schema_at 0) (schema_at 1).
Proof. plain_script. Qed.
Lemma script_3 now : script_ok now add_retry_schedule (schema_at 2) (schema_at 3).
Proof. plain_script. Qed.
Lemma script_4 now : script_ok now add_run_trace_context (schema_at 3) (schema_at 4).
Proof. plain_script. Qed.
Lemma script_5 now : script_ok now add_evaluation_completion (schema_at 4) (schema_at 5).
Proof. plain_script. Qed.
Lemma script_6 now : script_ok now add_security_audit_events (schema_at 5) (schema_at 6).
Proof. plain_script. Qed.
Lemma script_8 now : script_ok now audit_targets (schema_at 7) (schema_at 8).
Proof. plain_script. Qed.
Lemma script_9 now : script_ok now tenant_keys (schema_at 8) (schema_at 9).
Proof. plain_script. Qed.
Lemma script_10 now : script_ok now audit_retention_indexes (schema_at 9) (schema_at 10).
Proof. plain_script. Qed.
Lemma script_11 now : script_ok now audit_retention_gate (schema_at 10) (schema_at 11).
Proof. plain_script. Qed.

(** The scripts whose statements depend on the rows: the column of workers is filled before it
    becomes mandatory, and the constraints on the new columns hold of every row there is. *)
Lemma script_2 now : script_ok now add_execution_leases (schema_at 1) (schema_at 2).
Proof.
  apply script_ok_split; [catalogue..|]. intros d Ht. eexists. split.
  - cbn. rewrite (holds_not_null _ _ (VText "legacy")); [reflexivity|done|].
    apply filled_holds, added_holds.
  - cbn. by undo Ht.
Qed.

#[local] Arguments constr_holds : simpl never.
Lemma script_7 now : script_ok now resource_controls (schema_at 6) (schema_at 7).
Proof.
  apply script_ok_split; [catalogue..|]. intros d Ht. eexists. split.
  - cbn. rewrite (bool_decide_eq_true_2 (VText "execution" ≠ VNull)) by done. cbn.
    rewrite (check_holds _ _ _ "execution") by (apply added_holds || set_solver). cbn.
    rewrite fk_holds by apply added_holds. cbn. rewrite unique_holds by apply added_holds. reflexivity.
  - cbn. by undo Ht.
Qed.

(** ** The theorems *)

Lemma versions_ok now k m : versions !! k = Some m → script_ok now m (schema_at k) (schema_at (S k)).
Proof.
  destruct k as [|[|[|[|[|[|[|[|[|[|[|k]]]]]]]]]]]; intros Hm; try discriminate Hm; injection Hm as <-;
    auto using script_1, script_2, script_3, script_4, script_5, script_6, script_7, script_8,
      script_9, script_10, script_11.
Qed.

(** (C17) Migrating is safe on live data: from any revision [j] and any rows that fit its catalogue, the
    scripts up to any later revision [k] apply (no row violates a constraint or a NOT NULL they
    add), reach the catalogue of [k] with rows that fit it, and downgrading from there returns
    exactly the catalogue and the rows of before. *)
Theorem upgrade_downgrade_roundtrip now j k d :
  (j ≤ k ≤ length versions)%nat → rows_typed (schema_at j) d →
  ∃ d', upgrades now (take (k - j) (drop j versions)) {| d_schema := schema_at j; d_rows := d |}
          = Ok {| d_schema := schema_at k; d_rows := d' |}
      ∧ rows_typed (schema_at k) d'
      ∧ downgrades now (take (k - j) (drop j versions)) {| d_schema := schema_at k; d_rows := d' |}
          = Ok {| d_schema := schema_at j; d_rows := d |}.
Proof.
  intros [Hjk Hk]. remember (k - j)%nat as n eqn:Hn. revert j d Hjk Hn.
  induction n as [|n IH]; intros j d Hjk Hn Ht.
  { assert (j = k) as -> by lia. exists d. by rewrite take_0. }
  destruct (lookup_lt_is_Some_2 versions j) as [m Hm]; [lia|].
  rewrite (drop_S _ _ _ Hm). cbn [take upgrades downgrades].
  destruct (versions_ok now _ _ Hm d Ht) as (d1 & Hu & Hd).
  pose proof (apply_all_typed _ _ (Build_database _ _) (Build_database _ _) Ht Hu) as Ht1.
  destruct (IH (S j) d1) as (d' & Hus & Ht' & Hds); [lia..|done|].
  exists d'. rewrite Hu, Hds. split_and!; [exact Hus|done|exact Hd].
Qed.

(** The version Alembic has stored at the [k]-th revision. *)
Definition revision_at (k : nat) : option string :=
  match k with O => None | S j => revision <$> versions !! j end.

Lemma successors_at k : (k ≤ length versions)%nat → successors (revision_at k) = take 1 (drop k versions).
Proof. intros Hk. do 12 (destruct k as [|k]; [vm_compute; reflexivity|]). cbn in Hk. lia. Qed.

(** Statements that destroy rows or cells: only downgrades contain any. *)
Definition destructive (o : ddl) : bool :=
  match o with drop_table _ | drop_column _ _ => true | _ => false end.

(** Every row of [d] is in [d'], in its place and with its cells, of which only nulls may have
    been filled. *)
Definition row_kept (r r' : row) : Prop := ∀ c v, r !! c = Some v → v ≠ VNull → r' !! c = Some v.
Definition rows_kept (d d' : rows_of) : Prop := ∀ t, Forall2 row_kept (rows_in t d) (rows_in t d').

#[export] Instance row_kept_preorder : PreOrder row_kept.
Proof. split; [by intros r c v|]. intros r1 r2 r3 H1 H2 c v Hc Hv. auto. Qed.
#[export] Instance rows_kept_preorder : PreOrder rows_kept.
Proof. split; [by intros d t|]. intros d1 d2 d3 H1 H2 t. by etrans; [apply H1|apply H2]. Qed.

Lemma rows_kept_alter f t d :
  Forall (λ r, row_kept r (f r)) (rows_in t d) → rows_kept d (alter (fmap f) t d).
Proof.
  intros Hf t'. rewrite rows_in_alter. case_decide as Ht; [subst|done].
  induction Hf; cbn; [constructor|]. by constructor.
Qed.

Lemma fill_kept c v r : row_kept r (fill_null c v r).
Proof.
  intros c' v' Hc Hv. unfold fill_null, cell_of. destruct (decide (c = c')) as [->|Hne].
  - rewrite Hc. cbn. by destruct v'.
  - case_match; [|done..]. by rewrite lookup_insert_ne.
Qed.

(** A statement of an upgrade keeps the rows. *)
Lemma alter_kept now o s s' d d' :
  rows_typed s d → alter_schema o s = Ok s' → alter_rows now o d = Ok d' → destructive o = false → rows_kept d d'.
Proof.
  intros Ht Hs Hd Ho. destruct o; try discriminate Ho; cbn in Hs, Hd; unfold find_table in *; inv_result;
    repeat match goal with H : found _ _ = Ok _ |- _ => apply found_ok in H end; try done.
  - intros t'. unfold rows_in. destruct (decide (t = t')) as [<-|Hne]; [|by rewrite lookup_insert_ne].
    rewrite (typed_absent _ _ t Ht); [by rewrite lookup_insert_eq; constructor|].
    apply bool_decide_eq_true. unfold relation_free in *. by bool_to_prop.
  - apply rows_kept_alter. eapply Forall_impl.
    + apply (typed_lacks _ _ t c Ht). unfold has_column.
      match goal with Hf : s_tables s !! t = Some _ |- _ => rewrite Hf end.
      apply bool_decide_eq_false. rewrite <- eq_None_not_Some. by bool_to_prop.
    + intros r Hr c' v Hc Hv. cbn in Hr. rewrite lookup_insert_ne; [done|]. congruence.
  - apply rows_kept_alter, Forall_true. intros r. apply fill_kept.
Qed.

Lemma apply_all_kept now os d d' :
  rows_typed (d_schema d) (d_rows d) → forallb (negb ∘ destructive) os = true → apply_all now os d = Ok d' →
  rows_kept (d_rows d) (d_rows d').
Proof.
  revert d. induction os as [|o os IH]; intros d Ht Ho Ha; cbn in Ha; [by inv_result|].
  cbn in Ho. apply andb_true_iff in Ho as [Ho Hos]. inv_result. unfold apply_ddl in H. inv_result.
  etrans; [|eapply IH; [|done|done]].
  - cbn. eapply alter_kept; [done..|]. by apply negb_true_iff.
  - by eapply alter_typed.
Qed.

Lemma upgrades_keep : forallb (λ m, forallb (negb ∘ destructive) (upgrade m)) versions = true.
Proof. vm_compute. reflexivity. Qed.

(** (C24) [alembic upgrade head] brings every deployment to the models: on a database at any
    revision [k], empty ([k] zero) or not, whose rows fit the catalogue of that revision, it finds
    one next script at a time, none of them fails, and it ends at the one head revision.  There
    the tables are those [models.py] declares, with their columns, types, nullability and defaults,
    primary, unique and foreign keys and checks, and the indexes too, but for the server defaults of
    [runs.version] and [outbox_events.publish_attempts] and the two retention indexes of the audit
    table; the rows fit them, and every row of before is still there with each of its non-null
    cells. *)
Theorem migrations_build_models now k d :
  (k ≤ length versions)%nat → rows_typed (schema_at k) d →
  ∃ db, upgrade_head (length versions - k) now (revision_at k) {| d_schema := schema_at k; d_rows := d |}
        = Some (Ok (Some "20260912_11", db))
  ∧ s_tables (d_schema db) = set_default "runs" "version" (VInt 1)
                               (set_default "outbox_events" "publish_attempts" (VInt 0) metadata_tables)
  ∧ s_indexes (d_schema db) = <["ix_security_audit_events_target" := target_index]>
                                (<["ix_security_audit_events_created_at" := created_at_index]> metadata_indexes)
  ∧ rows_typed (d_schema db) (d_rows db) ∧ rows_kept d (d_rows db).
Proof.
  intros Hk. remember (length versions - k)%nat as n eqn:Hn. revert k d Hk Hn.
  induction n as [|n IH]; intros k d Hk Hn Ht.
  - assert (k = length versions) as -> by lia. exists {| d_schema := head_schema; d_rows := d |}.
    split; [by vm_compute|]. destruct head_catalogue. by split_and!.
  - destruct (lookup_lt_is_Some_2 versions k) as [m Hm]; [lia|].
    cbn [upgrade_head]. rewrite successors_at, (drop_S _ _ _ Hm) by done. cbn [take].
    destruct (versions_ok now _ _ Hm d Ht) as (d1 & Hu & _).
    pose proof (apply_all_typed _ _ (Build_database _ _) (Build_database _ _) Ht Hu) as Ht1.
    pose proof upgrades_keep as Hup. rewrite forallb_forall in Hup.
    assert (rows_kept d d1) as Hk1.
    { eapply (apply_all_kept _ _ (Build_database _ _) (Build_database _ _) Ht); [|exact Hu].
      apply Hup, list_elem_of_In. by eapply list_elem_of_lookup_2. }
    destruct (IH (S k) d1) as (db & Hdb & Htab & Hix & Htd & Hkd); [lia..|done|].
    exists db. rewrite Hu. unfold revision_at in Hdb. rewrite Hm in Hdb. split_and!; try done. by etrans.
Qed.

Definition audit_trigger (ev : row_event) : trigger_op :=
  match ev with ON_UPDATE => TG_UPDATE | ON_DELETE => TG_DELETE end.

Lemma head_audit ev on :
  is_ok (fire head_schema "security_audit_events" ev on)
  = is_ok (prevent_security_audit_mutation (audit_trigger ev) (bool_decide (PURGE_GUC ∈ on))).
Proof.
  assert (filter (λ x : string * trigger_def, tr_table x.2 = "security_audit_events" ∧ ev ∈ tr_events x.2)
            (map_to_list (s_triggers head_schema))
          = [("security_audit_events_no_update_or_delete", audit_trigger_def)]) as Hf
    by (destruct ev; vm_compute; reflexivity).
  assert (s_functions head_schema !! "prevent_security_audit_mutation"
          = Some (RaiseUnlessPurge PURGE_GUC audit_message)) as Hb by (vm_compute; reflexivity).
  generalize dependent head_schema. intros s Hf Hb. unfold fire. rewrite Hf. cbn [result_map snd tr_function audit_trigger_def].
  rewrite Hb. cbn -[PURGE_GUC].
  destruct (bool_decide (PURGE_GUC ∈ on)), ev; vm_compute; reflexivity.
Qed.

(** (C25) History cannot be rewritten: from the first revision on, updating or deleting a row of
    [run_events] and deleting one of [run_attempts] are refused whatever the transaction sets;
    the audit table refuses both from its creation, and at the head it answers as the trigger
    function of the purge does: a row is deleted only by a transaction that set [PURGE_GUC]. *)
Theorem history_is_append_only k ev on :
  (1 ≤ k ≤ length versions)%nat →
  is_ok (fire (schema_at k) "run_events" ev on) = false
  ∧ is_ok (fire (schema_at k) "run_attempts" ON_DELETE on) = false
  ∧ ((6 ≤ k ≤ 10)%nat → is_ok (fire (schema_at k) "security_audit_events" ev on) = false)
  ∧ is_ok (fire head_schema "security_audit_events" ev on)
    = is_ok (prevent_security_audit_mutation (audit_trigger ev) (bool_decide (PURGE_GUC ∈ on))).
Proof.
  intros [H1 Hk]. split; [|split; [|split; [|exact (head_audit ev on)]]].
  all: destruct k as [|[|[|[|[|[|[|[|[|[|[|[|k]]]]]]]]]]]]; cbn in Hk; try lia.
  all: try (intros ?; lia).
  all: try intros _; destruct ev; vm_compute; reflexivity.
Qed.

(** The script of the retention indexes runs in autocommit mode: stopped after any of its
    statements, it can be run again. *)
Lemma retention_indexes_resume now i d :
  (i ≤ 2)%nat →
  (d ← apply_all now (take i (upgrade audit_retention_indexes)) {| d_schema := schema_at 9; d_rows := d |};
   apply_all now (upgrade audit_retention_indexes) d) = Ok {| d_schema := schema_at 10; d_rows := d |}.
Proof.
  intros Hi. assert (∀ i, (i ≤ 2)%nat →
    bool_decide ((s ← alter_schemas (take i (upgrade audit_retention_indexes)) (schema_at 9);
     alter_schemas (upgrade audit_retention_indexes) s) = Ok (schema_at 10)) = true) as Hs.
  { clear. intros [|[|[|i]]] Hi; [vm_compute; reflexivity..|lia]. }
  specialize (Hs i Hi). apply bool_decide_eq_true, result_bind_ok in Hs as (s & H1 & H2).
  rewrite (apply_all_split _ _ _ s d d); [by apply apply_all_split|done|].
  by destruct i as [|[|[|i]]]; [..|lia].
Qed.

(** ** The theorems on concrete rows *)

Definition demo_row (s : schema) (t : string) (known : list (string * cell)) : row :=
  list_to_map known ∪ match s_tables s !! t with Some td => (λ _, VNull) <$> t_columns td | None => ∅ end.
Definition demo_rows : rows_of :=
  let s := schema_at 1 in
  list_to_map
    [ ("runs", [demo_row s "runs" [("id", VOther "r1"); ("execution_status", VText "SUCCEEDED")];
                demo_row s "runs" [("id", VOther "r2"); ("execution_status", VText "QUEUED")]]);
      ("run_attempts", [demo_row s "run_attempts" [("id", VOther "a1"); ("run_id", VOther "r1")]]);
      ("evaluations", []) ].

Lemma upgrade_downgrade_roundtrip_witness :
  rows_typed (schema_at 1) demo_rows
  ∧ ∃ d', upgrades "now" (take 10 (drop 1 versions)) {| d_schema := schema_at 1; d_rows := demo_rows |}
            = Ok {| d_schema := schema_at 11; d_rows := d' |}
      ∧ rows_typed (schema_at 11) d'
      ∧ downgrades "now" (take 10 (drop 1 versions)) {| d_schema := schema_at 11; d_rows := d' |}
          = Ok {| d_schema := schema_at 1; d_rows := demo_rows |}.
Proof.
  assert (rows_typed (schema_at 1) demo_rows) as Ht by (apply rows_typedb_sound; vm_compute; reflexivity).
  split; [exact Ht|]. apply (upgrade_downgrade_roundtrip "now" 1 11 demo_rows); [cbn; lia|exact Ht].
Defined.

Lemma migrations_build_models_witness :
  ∃ db, upgrade_head 10 "now" (Some "20260906_01") {| d_schema := schema_at 1; d_rows := demo_rows |}
        = Some (Ok (Some "20260912_11", db))
  ∧ rows_typed (d_schema db) (d_rows db) ∧ rows_kept demo_rows (d_rows db).
Proof.
  assert (rows_typed (schema_at 1) demo_rows) as Ht by (apply rows_typedb_sound; vm_compute; reflexivity).
  destruct (migrations_build_models "now" 1 demo_rows) as (db & Hdb & _ & _ & Hrows); [cbn; lia|exact Ht|].
  exists db. exact (conj Hdb Hrows).
Defined.

Lemma history_is_append_only_witness :
  (1 ≤ 11 ≤ length versions)%nat
  ∧ is_ok (fire (schema_at 11) "run_events" ON_DELETE [PURGE_GUC]) = false
  ∧ is_ok (fire head_schema "security_audit_events" ON_DELETE [PURGE_GUC]) = true.
Proof.
  assert (1 ≤ 11 ≤ length versions)%nat as Hk by (cbn; lia). split; [exact Hk|].
  destruct (history_is_append_only 11 ON_DELETE [PURGE_GUC] Hk) as (H1 & _ & _ & H4).
  split; [exact H1|]. rewrite H4. vm_compute. reflexivity.
Defined.
