(* ===== verification/Envelope.v ===== *)
(** * Tenant envelope encryption

    [src/src/agent_runtime/security/envelope.py]: data keys per tenant, wrapped by a key wrapper
    and bound to their tenant, fields sealed with AES-GCM under them, and the erasure of a key.
    AES-GCM, the key wrapper and [json.loads] are parameters; random bytes are arguments.  The
    caller owns the transaction: a method that raises leaves no change. *)

From S2P Require Import Prelude Float64 PyValue States Models Quotas Canonical Base64 Safety Credentials.
From S2P Require Import Settings Boundary.
Local Open Scope Z_scope.

(** ** Primitives *)

(** [AESGCM(key).encrypt(nonce, data, aad)] and [decrypt]; decryption inverts encryption. *)
Class Aead := {
  aes_encrypt : chars → chars → chars → chars → chars;
  aes_decrypt : chars → chars → chars → chars → option chars;
  aes_decrypt_encrypt k n p a : aes_decrypt k n (aes_encrypt k n p a) a = Some p;
}.

(** The protocol [KeyWrapper]; the first argument of [wrap] is its nonce. *)
Class KeyWrapper := {
  wrap : chars → chars → chars;
  unwrap : chars → result chars;
  unwrap_wrap n dek : length n = 12%nat → unwrap (wrap n dek) = Ok dek;
}.

Definition invalid_tag : exn := OtherException "InvalidTag".
Definition aes_open `{Aead} (key nonce data aad : chars) : result chars :=
  match aes_decrypt key nonce data aad with Some p => Ok p | None => Err invalid_tag end.

(** [LocalKeyWrapper]. *)
Module LocalKeyWrapper.
Definition aad : chars := encode "arr-local-wrap-v1".
Definition create (key : chars) : result chars :=
  raise_unless (len key =? 32) (ValueError "A random 256-bit wrapping key is required");; Ok key.
Definition wrap `{Aead} (key nonce dek : chars) : chars := nonce ++ aes_encrypt key nonce dek aad.
Definition unwrap `{Aead} (key blob : chars) : result chars := aes_open key (take 12 blob) (drop 12 blob) aad.
End LocalKeyWrapper.

#[export] Program Instance local_wrapper `{Aead} (key : chars) : KeyWrapper := {
  wrap := LocalKeyWrapper.wrap key;
  unwrap := LocalKeyWrapper.unwrap key;
}.
Next Obligation.
  intros ? key n dek Hn. unfold LocalKeyWrapper.unwrap, LocalKeyWrapper.wrap, aes_open.
  rewrite take_app_length', drop_app_length' by done. by rewrite aes_decrypt_encrypt.
Qed.

(** ** [json.dumps] with [ensure_ascii=True] *)

Definition escape_ascii (c : Ascii.ascii) : chars :=
  if 126 <? Text.code c
  then backslash :: Text.to_list "u00" ++ [hex_digit (Text.code c / 16); hex_digit (Text.code c mod 16)]
  else escape_char c.
Definition ascii_str (s : string) : chars := quote :: (Text.to_list s ≫= escape_ascii) ++ [quote].

Lemma unescape_ascii c r : unescape (escape_ascii c ++ r) = Some (c, r).
Proof. destruct c as [[] [] [] [] [] [] [] []]; reflexivity. Qed.
Lemma escape_ascii_head c r r' : escape_ascii c ++ r ≠ quote :: r'.
Proof. destruct c as [[] [] [] [] [] [] [] []]; discriminate. Qed.
Lemma ascii_str_inj s s' r r' : ascii_str s ++ r = ascii_str s' ++ r' → s = s' ∧ r = r'.
Proof. apply quoted_inj; [apply unescape_ascii|apply escape_ascii_head]. Qed.

(** Members in the order of the dictionary, [separators=(",", ":")]. *)
Fixpoint ascii_dumps `{FloatRepr} (v : json) : chars :=
  match v with
  | JStr s => ascii_str s
  | JArr l => Text.to_list "[" ++ join_commas (map ascii_dumps l) ++ Text.to_list "]"
  | JObj d =>
      Text.to_list "{" ++ join_commas (map (λ kv, ascii_str kv.1 ++ Text.to_list ":" ++ ascii_dumps kv.2) d)
      ++ Text.to_list "}"
  | v => dumps v
  end.

(** ** Rows *)

(** A row of [tenant_keys]; its primary key [tenant_id] is the key of the map. *)
Module TenantKey.
Record t := { wrapped_dek : option chars; created_at : time; last_encrypted_at : time; destroyed_at : option time }.
End TenantKey.

Record vault := {
  tenant_keys : gmap string TenantKey.t;
  v_runs : gmap uuid Run.t;
  v_audit : list SecurityAuditRecord;
}.
Definition put_key (tenant : string) (k : TenantKey.t) (v : vault) : vault :=
  {| tenant_keys := <[tenant := k]> (tenant_keys v); v_runs := v_runs v; v_audit := v_audit v |}.

(** The random bytes of a call: a data key, the wrapper's nonce, the nonce of the field. *)
Record entropy := { rnd_dek : chars; rnd_wrap : chars; rnd_nonce : chars }.

Definition key_destroyed (msg : string) : exn := OtherException ("KeyDestroyedError: " +:+ msg).

Section Envelope.
Context `{Host} `{Aead} `{KeyWrapper} (loads : chars → result json).

Definition key_prefix (tenant_id : string) : chars := encode tenant_id ++ [nul].

(** The data key inside an unwrapped blob bound to the tenant. *)
Definition bound_key (tenant_id : string) (raw : chars) : result chars :=
  let prefix := key_prefix tenant_id in
  raise_unless (bool_decide (take (length prefix) raw = prefix) && (len raw =? len prefix + 32))
    (key_destroyed "Tenant key binding is invalid");;
  Ok (drop (length prefix) raw).

Definition fresh_key (now : time) (rnd : entropy) (tenant_id : string) : TenantKey.t :=
  {| TenantKey.wrapped_dek := Some (wrap (rnd_wrap rnd) (key_prefix tenant_id ++ rnd_dek rnd));
     TenantKey.created_at := now; TenantKey.last_encrypted_at := now; TenantKey.destroyed_at := None |}.
Definition touch (now : time) (k : TenantKey.t) : TenantKey.t :=
  {| TenantKey.wrapped_dek := TenantKey.wrapped_dek k; TenantKey.created_at := TenantKey.created_at k;
     TenantKey.last_encrypted_at := now; TenantKey.destroyed_at := TenantKey.destroyed_at k |}.

(** The key of a live row. *)
Definition open_row (tenant_id : string) (row : TenantKey.t) : result chars :=
  match TenantKey.destroyed_at row, TenantKey.wrapped_dek row with
  | None, Some blob => raw ← unwrap blob; bound_key tenant_id raw
  | _, _ => Err (key_destroyed "Tenant key has been destroyed")
  end.

Definition _key (now : time) (rnd : entropy) (tenant_id : string) (create : bool) (v : vault)
    : result (chars * vault) :=
  row ← match tenant_keys v !! tenant_id with
        | Some row => Ok row
        | None => raise_unless create (key_destroyed "Tenant key is unavailable");;
                  Ok (fresh_key now rnd tenant_id)
        end;
  key ← open_row tenant_id row;
  Ok (key, if create then put_key tenant_id (touch now row) v else v).

(** ** Fields *)

Definition encrypted_fields : list string := ["input"; "result"; "instructions"; "evaluation_result"].
Definition separator : chars := Text.to_list ", ".
Definition _aad (tenant_id : string) (run_id : uuid) (field : string) : result chars :=
  raise_unless (bool_decide (field ∈ encrypted_fields)) (ValueError "Unsupported encrypted field");;
  Ok (Text.to_list "[" ++ ascii_str "arr-envelope-v1" ++ separator ++ ascii_str tenant_id ++ separator
      ++ ascii_str (uuid_str run_id) ++ separator ++ ascii_str field ++ Text.to_list "]").

Definition encrypt (now : time) (rnd : entropy) (tenant_id : string) (run_id : uuid) (field : string)
    (value : json) (v : vault) : result (dict * vault) :=
  '(key, v') ← _key now rnd tenant_id true v;
  raise_unless (all_finite value) (ValueError "Out of range float values are not JSON compliant");;
  aad ← _aad tenant_id run_id field;
  let ciphertext := aes_encrypt key (rnd_nonce rnd) (ascii_dumps value) aad in
  Ok ([("format", JStr "arr-envelope-v1");
       ("data", JStr (Text.of_list (b64encode (rnd_nonce rnd ++ ciphertext))))], v').

Definition decrypt (now : time) (rnd : entropy) (tenant_id : string) (run_id : uuid) (field : string)
    (envelope : dict) (v : vault) : result json :=
  raise_unless (bool_decide (dget "format" envelope = Some (JStr "arr-envelope-v1")))
    (ValueError "Unsupported envelope");;
  '(key, _) ← _key now rnd tenant_id false v;
  text ← match dget "data" envelope with
         | Some (JStr s) => Ok (Text.to_list s)
         | Some _ => Err TypeError
         | None => Err KeyError
         end;
  data ← b64decode text;
  aad ← _aad tenant_id run_id field;
  plaintext ← aes_open key (take 12 data) (drop 12 data) aad;
  loads plaintext.

Definition dict_pop (k : string) (d : dict) : dict := filter (λ kv, kv.1 ≠ k) d.

Definition protect_policy (now : time) (rnd : entropy) (tenant_id : string) (run_id : uuid) (policy : dict)
    (v : vault) : result (dict * vault) :=
  raise_unless (negb (bool_decide ("_encrypted_instructions" ∈ dkeys policy)))
    (ValueError "Policy is already protected");;
  match dget "instructions" policy with
  | None => Ok (policy, v)
  | Some instructions =>
      '(sealed, v') ← encrypt now rnd tenant_id run_id "instructions" instructions v;
      Ok (dset "_encrypted_instructions" (JObj sealed) (dict_pop "instructions" policy), v')
  end.

(** ** Erasure *)

(** A run the erasure must wait for. *)
Definition unsafe_run (tenant_id : string) (cutoff : option time) (r : Run.t) : bool :=
  bool_decide (Run.client_id r = tenant_id)
  && match Run.completed_at r, cutoff with
     | None, _ => true
     | Some c, Some cut => cut <? c
     | Some _, None => false
     end.
Definition has_unsafe_run (tenant_id : string) (cutoff : option time) (v : vault) : bool :=
  existsb (λ kv, unsafe_run tenant_id cutoff kv.2) (map_to_list (v_runs v)).

Definition retention_candidates (cutoff : time) (limit : Z) (v : vault) : list string :=
  let live kv :=
    bool_decide (TenantKey.destroyed_at kv.2 = None)
    && (TenantKey.last_encrypted_at kv.2 <=? cutoff) && negb (has_unsafe_run kv.1 (Some cutoff) v) in
  take (Z.to_nat (Z.max 1 (Z.min limit 100)))
    (sort_by str_lt (map fst (List.filter live (map_to_list (tenant_keys v))))).

Definition tombstone (now : time) (k : TenantKey.t) : TenantKey.t :=
  {| TenantKey.wrapped_dek := None; TenantKey.created_at := TenantKey.created_at k;
     TenantKey.last_encrypted_at := TenantKey.last_encrypted_at k; TenantKey.destroyed_at := Some now |}.
Definition erasure_record (tenant_id principal_id : string) : SecurityAuditRecord :=
  {| sar_event_type := "TENANT_KEY_ERASED"; sar_outcome := "ALLOWED"; sar_reason := "EXPLICIT_ERASURE";
     sar_client_id := safe_text (Some tenant_id) 128; sar_credential_fingerprint := None;
     sar_principal_id := safe_text (Some principal_id) 128; sar_target_run_id := None; sar_resource := None |}.

Definition sealed_after (cutoff : option time) (row : TenantKey.t) : bool :=
  match cutoff with Some cut => cut <? TenantKey.last_encrypted_at row | None => false end.

Definition erase_tenant_key (now : time) (tenant_id principal_id : string) (dry_run : bool)
    (confirm_tenant : option string) (cutoff : option time) (v : vault) : result (bool * vault) :=
  match tenant_keys v !! tenant_id with
  | None => Ok (false, v)
  | Some row =>
      if negb (bool_decide (TenantKey.destroyed_at row = None)) then Ok (false, v)
      else if sealed_after cutoff row then Ok (false, v)
      else if has_unsafe_run tenant_id cutoff v then Ok (false, v)
      else if dry_run then Ok (true, v)
      else
        raise_unless (bool_decide (confirm_tenant = Some tenant_id))
          (ValueError "Explicit tenant confirmation is required");;
        Ok (true, {| tenant_keys := <[tenant_id := tombstone now row]> (tenant_keys v); v_runs := v_runs v;
                     v_audit := v_audit v ++ [erasure_record tenant_id principal_id] |})
  end.

(** ** Histories *)

(** The calls on a vault, and the changes the rest of the runtime makes to the runs. *)
Inductive envelope_op :=
| OpEncrypt (now : time) (rnd : entropy) (tenant_id : string) (run_id : uuid) (field : string) (value : json)
| OpProtect (now : time) (rnd : entropy) (tenant_id : string) (run_id : uuid) (policy : dict)
| OpErase (now : time) (tenant_id principal_id : string) (dry_run : bool) (confirm : option string) (cutoff : option time)
| OpRuns (runs : gmap uuid Run.t).

Definition keep {A} (v : vault) (r : result (A * vault)) : vault := match r with Ok (_, v') => v' | Err _ => v end.
Definition apply_op (v : vault) (o : envelope_op) : vault :=
  match o with
  | OpEncrypt now rnd t r f x => keep v (encrypt now rnd t r f x v)
  | OpProtect now rnd t r p => keep v (protect_policy now rnd t r p v)
  | OpErase now t p dry confirm cutoff => keep v (erase_tenant_key now t p dry confirm cutoff v)
  | OpRuns m => {| tenant_keys := tenant_keys v; v_runs := m; v_audit := v_audit v |}
  end.
Definition apply_ops : vault → list envelope_op → vault := foldl apply_op.

(** The operation may destroy the key of the tenant. *)
Definition may_erase (tenant_id : string) (o : envelope_op) : bool :=
  match o with OpErase _ t _ dry _ _ => bool_decide (t = tenant_id) && negb dry | _ => false end.

(** ** Lemmas *)

Lemma key_ok now rnd t c v key v' :
  _key now rnd t c v = Ok (key, v') →
  ∃ row, open_row t row = Ok key ∧ (c = true → tenant_keys v' !! t = Some (touch now row))
    ∧ (tenant_keys v !! t = Some row ∨ tenant_keys v !! t = None ∧ row = fresh_key now rnd t)
    ∧ (∀ u, u ≠ t → tenant_keys v' !! u = tenant_keys v !! u) ∧ v_runs v' = v_runs v.
Proof.
  unfold _key. intros (row & Hrow & (k & Hk & [= <- <-])%result_bind_ok)%result_bind_ok.
  exists row. split; [done|]. split_and!.
  - intros ->. cbn. by rewrite lookup_insert_eq.
  - destruct (tenant_keys v !! t) as [r|]; [left; by simplify_eq|]. right. split; [done|].
    apply result_bind_ok in Hrow as (? & _ & [= <-]). done.
  - intros u Hu. destruct c; [|done]. cbn. by rewrite lookup_insert_ne.
  - by destruct c.
Qed.

(** An erasure changes nothing, or it destroys the live key of its tenant. *)
Lemma erase_cases now u p dry confirm cutoff v :
  keep v (erase_tenant_key now u p dry confirm cutoff v) = v
  ∨ dry = false ∧ ∃ row, tenant_keys v !! u = Some row ∧ TenantKey.destroyed_at row = None
    ∧ tenant_keys (keep v (erase_tenant_key now u p dry confirm cutoff v)) = <[u := tombstone now row]> (tenant_keys v).
Proof.
  unfold erase_tenant_key. destruct (tenant_keys v !! u) as [row|]; [|by left].
  destruct (bool_decide_reflect (TenantKey.destroyed_at row = None)); [|by left]. cbn [negb].
  destruct (sealed_after cutoff row); [by left|]. destruct (has_unsafe_run u cutoff v); [by left|].
  destruct dry; [by left|]. destruct (bool_decide (confirm = Some u)); [|by left]. right. split; [done|]. by exists row.
Qed.

(** An operation that cannot erase the key of [t] keeps its blob. *)
Definition holds_blob (t : string) (blob : chars) (v : vault) : Prop :=
  ∃ row, tenant_keys v !! t = Some row ∧ TenantKey.wrapped_dek row = Some blob ∧ TenantKey.destroyed_at row = None.

Lemma holds_blob_key t blob now rnd u c v key v' :
  holds_blob t blob v → _key now rnd u c v = Ok (key, v') → holds_blob t blob v'.
Proof.
  intros (row & Hr & Hb & Hd) Hk. destruct (decide (u = t)) as [->|Hne].
  - destruct c; [|unfold _key in Hk; inv_result; simplify_eq; by exists row].
    apply key_ok in Hk as (row' & _ & Ht & Hw & _). specialize (Ht eq_refl).
    destruct Hw as [Hw|[? _]]; [|congruence]. assert (row' = row) as -> by congruence. by exists (touch now row).
  - apply key_ok in Hk as (_ & _ & _ & _ & Ho & _). exists row. by rewrite Ho.
Qed.

Lemma encrypt_ok now rnd t r f x v env v' :
  encrypt now rnd t r f x v = Ok (env, v') →
  ∃ key aad, _key now rnd t true v = Ok (key, v') ∧ _aad t r f = Ok aad ∧ all_finite x = true
    ∧ env = [("format", JStr "arr-envelope-v1");
             ("data", JStr (Text.of_list (b64encode (rnd_nonce rnd ++ aes_encrypt key (rnd_nonce rnd) (ascii_dumps x) aad))))].
Proof.
  unfold encrypt. intros ([key v1] & Hk & (? & Hf%raise_unless_ok & (aad & Ha & [= <- <-])%result_bind_ok)%result_bind_ok)%result_bind_ok.
  by exists key, aad.
Qed.

Lemma holds_blob_encrypt t blob now rnd u r f x v res :
  holds_blob t blob v → encrypt now rnd u r f x v = Ok res → holds_blob t blob (snd res).
Proof. destruct res as [env v']. intros Hb (key & _ & Hk & _)%encrypt_ok. by eapply holds_blob_key. Qed.

Lemma holds_blob_op t blob v o : may_erase t o = false → holds_blob t blob v → holds_blob t blob (apply_op v o).
Proof.
  intros Ho Hb. destruct o as [now rnd u r f x|now rnd u r p|now u p dry confirm cutoff|m]; cbn.
  - destruct (encrypt now rnd u r f x v) as [[env v']|] eqn:E; [|done]. by eapply holds_blob_encrypt in E.
  - unfold protect_policy. destruct (negb _); [|done]. cbn. destruct (dget "instructions" p) as [i|]; [|done].
    destruct (encrypt now rnd u r _ i v) as [[env v']|] eqn:E; [|done]. by eapply holds_blob_encrypt in E.
  - destruct (erase_cases now u p dry confirm cutoff v) as [->|(-> & row & _ & _ & Hk)]; [done|].
    destruct Hb as (row' & Hr & Hw). exists row'. cbn in Ho. rewrite andb_true_r in Ho. bool_to_prop.
    by rewrite Hk, lookup_insert_ne.
  - done.
Qed.

Lemma holds_blob_ops t blob ops : ∀ v,
  existsb (may_erase t) ops = false → holds_blob t blob v → holds_blob t blob (apply_ops v ops).
Proof.
  induction ops as [|o ops IH]; intros v Ho Hb; [done|]. cbn in Ho. apply orb_false_iff in Ho as [Ho1 Ho2].
  apply IH; [done|]. by apply holds_blob_op.
Qed.

(** A destroyed key stays destroyed. *)
Definition destroyed (t : string) (v : vault) : Prop :=
  ∃ row, tenant_keys v !! t = Some row ∧ TenantKey.wrapped_dek row = None ∧ TenantKey.destroyed_at row ≠ None.

Lemma destroyed_key t v now rnd c :
  destroyed t v → _key now rnd t c v = Err (key_destroyed "Tenant key has been destroyed").
Proof.
  intros (row & Hr & Hw & Hd). unfold _key. rewrite Hr. cbn. unfold open_row. rewrite Hw.
  by destruct (TenantKey.destroyed_at row).
Qed.

Lemma destroyed_encrypt t now rnd u r f x v res :
  destroyed t v → encrypt now rnd u r f x v = Ok res → destroyed t (snd res).
Proof.
  destruct res as [env v']. intros Hb (key & _ & Hk & _)%encrypt_ok.
  destruct (decide (u = t)) as [->|Hne]; [by rewrite destroyed_key in Hk|].
  apply key_ok in Hk as (_ & _ & _ & _ & Ho & _). destruct Hb as (row & ?). exists row. by rewrite Ho.
Qed.

Lemma destroyed_op t v o : destroyed t v → destroyed t (apply_op v o).
Proof.
  intros Hb. destruct o as [now rnd u r f x|now rnd u r p|now u p dry confirm cutoff|m]; cbn.
  - destruct (encrypt now rnd u r f x v) as [[env v']|] eqn:E; [|done]. by eapply destroyed_encrypt in E.
  - unfold protect_policy. destruct (negb _); [|done]. cbn. destruct (dget "instructions" p) as [i|]; [|done].
    destruct (encrypt now rnd u r _ i v) as [[env v']|] eqn:E; [|done]. by eapply destroyed_encrypt in E.
  - destruct (erase_cases now u p dry confirm cutoff v) as [->|(_ & row & Eu & En & Hk)]; [done|].
    destruct Hb as (row' & Hr & Hw & Hd). exists row'. rewrite Hk, lookup_insert_ne; [done|]. intros ->. congruence.
  - done.
Qed.
Lemma destroyed_ops t ops : ∀ v, destroyed t v → destroyed t (apply_ops v ops).
Proof. induction ops as [|o ops IH]; intros v Hb; [done|]. by apply IH, destroyed_op. Qed.

(** ** Theorems *)

(** (C34) Envelope round trip: a field sealed for a tenant and a run is opened, with the same
    tenant, run and field name, to [json.loads] of exactly the text that was sealed, after any
    history of sealing, policy protection, changes of runs and erasures of other tenants' keys;
    only an erasure of this tenant's key is excluded. *)
Theorem envelope_roundtrip now rnd t r f x v env v' ops now' rnd' :
  encrypt now rnd t r f x v = Ok (env, v') → length (rnd_nonce rnd) = 12%nat →
  existsb (may_erase t) ops = false →
  decrypt now' rnd' t r f env (apply_ops v' ops) = loads (ascii_dumps x).
Proof.
  intros (key & aad & Hk & Ha & _ & ->)%encrypt_ok Hn Hops.
  assert (∃ blob raw, holds_blob t blob v' ∧ unwrap blob = Ok raw ∧ bound_key t raw = Ok key) as (blob & raw & Hb & Hu & Hr).
  { apply key_ok in Hk as (row & Ho & Ht & _). specialize (Ht eq_refl). unfold open_row in Ho.
    destruct (TenantKey.destroyed_at row) eqn:Ed; [done|]. destruct (TenantKey.wrapped_dek row) as [blob|] eqn:Ew; [|done].
    apply result_bind_ok in Ho as (raw & ? & ?). exists blob, raw. split_and!; [|done..]. by exists (touch now row). }
  apply (holds_blob_ops t blob ops _ Hops) in Hb as (row & Hrow & Hw & Hd).
  assert (_key now' rnd' t false (apply_ops v' ops) = Ok (key, apply_ops v' ops)) as Hkey.
  { unfold _key. rewrite Hrow. cbn. unfold open_row. rewrite Hd, Hw. by rewrite Hu; cbn; rewrite Hr. }
  set (data := b64encode _). unfold decrypt. rewrite bool_decide_true by done.
  change (dget "data" _) with (Some (JStr (Text.of_list data))). rewrite Hkey, Ha.
  cbn [raise_unless mbind result_bind]. rewrite Text.to_of_list. unfold data. rewrite b64_roundtrip.
  cbn [mbind result_bind]. rewrite take_app_length', drop_app_length' by done.
  unfold aes_open. by rewrite aes_decrypt_encrypt.
Qed.

(** (C35) Erasure is guarded and final: a key is destroyed only on the explicit confirmation of its
    tenant and while the tenant has no unfinished run (nor one completed after the cutoff); the
    erasure is audited, and whatever is called afterwards the key is never recreated: sealing
    and opening raise [KeyDestroyedError], and a second erasure reports that there was nothing. *)
Theorem erasure_guarded_final now t p confirm cutoff v v' ops :
  erase_tenant_key now t p false confirm cutoff v = Ok (true, v') →
  confirm = Some t
  ∧ (∀ i run, v_runs v !! i = Some run → Run.client_id run = t →
       ∃ c, Run.completed_at run = Some c ∧ match cutoff with Some cut => c ≤ cut | None => True end)
  ∧ v_audit v' = v_audit v ++ [erasure_record t p]
  ∧ (∀ now' rnd create, _key now' rnd t create (apply_ops v' ops)
       = Err (key_destroyed "Tenant key has been destroyed"))
  ∧ ∀ now' p' dry confirm' cutoff',
       erase_tenant_key now' t p' dry confirm' cutoff' (apply_ops v' ops) = Ok (false, apply_ops v' ops).
Proof.
  unfold erase_tenant_key at 1. destruct (tenant_keys v !! t) as [row|] eqn:Er; [|done].
  destruct (negb _); [done|]. destruct (sealed_after cutoff row); [done|].
  destruct (has_unsafe_run t cutoff v) eqn:Eu; [done|].
  intros (? & Hc%raise_unless_ok%bool_decide_eq_true & [= <-])%result_bind_ok.
  split; [done|]. split.
  { intros i run Hi Ht. unfold has_unsafe_run in Eu.
    assert (unsafe_run t cutoff run = false) as Hu.
    { apply not_true_iff_false. intros Hu. apply not_true_iff_false in Eu. apply Eu, existsb_exists.
      exists (i, run). split; [|done]. by apply list_elem_of_In, elem_of_map_to_list. }
    unfold unsafe_run in Hu. rewrite bool_decide_true in Hu by done. cbn in Hu.
    destruct (Run.completed_at run) as [c|]; [|done]. exists c. split; [done|]. destruct cutoff; [|done]. by bool_to_prop. }
  split; [done|].
  match goal with |- context [apply_ops ?w ops] => assert (destroyed t (apply_ops w ops)) as Hd end.
  { apply destroyed_ops. exists (tombstone now row). cbn. by rewrite lookup_insert_eq. }
  split; [intros; by apply destroyed_key|].
  intros. unfold erase_tenant_key. destruct Hd as (row' & -> & _ & Hd). by rewrite bool_decide_false.
Qed.

Lemma aad_inj t r f t' r' f' a : _aad t r f = Ok a → _aad t' r' f' = Ok a → t = t' ∧ r = r' ∧ f = f'.
Proof.
  unfold _aad. intros (? & _ & Ha)%result_bind_ok (? & _ & Hb)%result_bind_ok. rewrite <- Hb in Ha.
  assert (∀ x y : chars, Ok x = Ok y → x = y) as Hok by congruence. apply Hok in Ha. clear Hb.
  do 3 apply app_inv_head in Ha. apply ascii_str_inj in Ha as [-> Ha]. apply app_inv_head in Ha.
  apply ascii_str_inj in Ha as [E Ha]. apply app_inv_head in Ha. apply ascii_str_inj in Ha as [-> _].
  split_and!; [done| |done]. apply (f_equal uuid_parse) in E. rewrite !uuid_parse_str in E. congruence.
Qed.

Lemma bound_key_own t dek : length dek = 32%nat → bound_key t (key_prefix t ++ dek) = Ok dek.
Proof.
  intros Hd. unfold bound_key. rewrite take_app_length, drop_app_length, bool_decide_true, len_app by done.
  unfold len at 2. rewrite Hd, Z.eqb_refl. done.
Qed.

Lemma key_prefix_inj t t' dek : length (key_prefix t) = length (key_prefix t') →
  take (length (key_prefix t)) (key_prefix t' ++ dek) = key_prefix t → t = t'.
Proof.
  intros Hl. rewrite Hl, take_app_length. unfold key_prefix, encode. intros [E _]%app_inj_2; [|done].
  apply utf8_inj in E. by rewrite <- (Text.of_to_list t), <- E, Text.of_to_list.
Qed.

(** Ciphertexts and keys are bound to their context.  The additional data determines the
    tenant, the run and the field, so no two contexts share it; and a wrapped key moved to the
    row of another tenant is refused, while in its own row it yields the data key. *)
Theorem envelope_context_bound t r f t' r' f' a nonce dek row v :
  _aad t r f = Ok a → length nonce = 12%nat → length dek = 32%nat →
  tenant_keys v !! t = Some row → TenantKey.destroyed_at row = None →
  TenantKey.wrapped_dek row = Some (wrap nonce (key_prefix t' ++ dek)) →
  (_aad t' r' f' = Ok a → t = t' ∧ r = r' ∧ f = f')
  ∧ ∀ now rnd create,
      fst <$> _key now rnd t create v =
        if decide (t = t') then Ok dek else Err (key_destroyed "Tenant key binding is invalid").
Proof.
  intros Ha Hn Hd Hrow Hlive Hw. split; [by apply aad_inj|]. intros now rnd create.
  unfold _key. rewrite Hrow. cbn. unfold open_row. rewrite Hlive, Hw, unwrap_wrap by done. cbn.
  destruct (decide (t = t')) as [<-|Hne]; [by rewrite bound_key_own|].
  unfold bound_key. destruct (bool_decide_reflect (take (length (key_prefix t)) (key_prefix t' ++ dek) = key_prefix t)); [|done].
  destruct (Z.eqb_spec (len (key_prefix t' ++ dek)) (len (key_prefix t) + 32)) as [El|]; [|done].
  destruct Hne. apply (key_prefix_inj t t' dek); [|done]. rewrite len_app in El. unfold len in El. lia.
Qed.

Lemma elem_of_take {A} (x : A) n l : x ∈ take n l → x ∈ l.
Proof. intros Hx. rewrite <- (take_drop n l). apply elem_of_app. by left. Qed.

(** The retention listing and the erasure agree: a listed tenant is one whose key an erasure
    with the same cutoff would destroy, no tenant is listed twice and at most a hundred are; and
    every tenant it would erase is listed as long as the limit is not reached. *)
Theorem candidates_are_erasable cutoff limit v now p :
  let l := retention_candidates cutoff limit v in
  NoDup l ∧ len l ≤ 100
  ∧ (∀ t, t ∈ l → erase_tenant_key now t p true None (Some cutoff) v = Ok (true, v))
  ∧ (len l < Z.max 1 (Z.min limit 100) →
     ∀ t, erase_tenant_key now t p true None (Some cutoff) v = Ok (true, v) → t ∈ l).
Proof.
  unfold retention_candidates. set (live := λ kv : string * TenantKey.t, _). set (n := Z.to_nat _).
  set (names := map fst (List.filter live (map_to_list (tenant_keys v)))).
  assert (∀ t, t ∈ names ↔ erase_tenant_key now t p true None (Some cutoff) v = Ok (true, v)) as Hiff.
  { intros t. unfold names. rewrite list_elem_of_In, in_map_iff. unfold erase_tenant_key. split.
    - intros ([u row] & <- & [Hin%list_elem_of_In%elem_of_map_to_list Hl]%filter_In). cbn in *. rewrite Hin.
      unfold live in Hl. cbn in Hl. apply andb_true_iff in Hl as [[Hd He]%andb_true_iff Hu%negb_true_iff].
      rewrite Hd, Hu. cbn. by rewrite (proj2 (Z.ltb_ge _ _)) by (by apply Z.leb_le).
    - destruct (tenant_keys v !! t) as [row|] eqn:Er; [|done]. cbn [sealed_after].
      destruct (bool_decide_reflect (TenantKey.destroyed_at row = None)); [|done]. cbn [negb].
      destruct (Z.ltb_spec cutoff (TenantKey.last_encrypted_at row)); [done|].
      destruct (has_unsafe_run t (Some cutoff) v) eqn:Eu; [done|]. intros _. exists (t, row). split; [done|].
      apply filter_In. split; [by apply list_elem_of_In, elem_of_map_to_list|]. unfold live. cbn.
      rewrite bool_decide_true, Eu by done. cbn. rewrite andb_true_r. by apply Z.leb_le. }
  assert (NoDup (sort_by str_lt names)) as Hnd.
  { rewrite (sort_by_perm str_lt names). unfold names. pose proof (NoDup_fst_map_to_list (tenant_keys v)) as Hf.
    revert Hf. generalize (map_to_list (tenant_keys v)). intros kvs Hf.
    induction kvs as [|kv kvs IH]; [constructor|]. csimpl in Hf. apply NoDup_cons in Hf as [Hx Hf]. cbn.
    destruct (live kv); [|by apply IH]. cbn. apply NoDup_cons. split; [|by apply IH]. intros Hin. apply Hx.
    apply list_elem_of_In, in_map_iff in Hin as (y & <- & [Hy _]%filter_In). by apply list_elem_of_fmap_2, list_elem_of_In. }
  cbn. split_and!.
  - rewrite <- (take_drop n) in Hnd. by apply NoDup_app in Hnd as (? & _ & _).
  - unfold len. rewrite length_take. lia.
  - intros t Ht%elem_of_take. apply Hiff. by rewrite (sort_by_perm str_lt names) in Ht.
  - intros Hlen t Ht%Hiff. rewrite take_ge; [by rewrite (sort_by_perm str_lt names)|].
    unfold len in Hlen. rewrite length_take in Hlen. lia.
Qed.
End Envelope.

(** ** A sealed field, and an erased key *)

Definition demo_aead : Aead := {|
  aes_encrypt := λ k n p a, p;
  aes_decrypt := λ k n c a, Some c;
  aes_decrypt_encrypt := λ k n p a, eq_refl;
|}.
Definition twelve : chars := repeat nul 12.
Definition sample_entropy : entropy := {| rnd_dek := repeat nul 32; rnd_wrap := twelve; rnd_nonce := twelve |}.
Definition empty_vault : vault := {| tenant_keys := ∅; v_runs := ∅; v_audit := [] |}.
Definition sample_loads : chars → result json := λ l, Ok (JStr (Text.of_list l)).
Definition sealed_vault : vault :=
  put_key "acme" (touch 5 (fresh_key (H1 := local_wrapper (H := demo_aead) (repeat nul 32)) 5 sample_entropy "acme")) empty_vault.

Lemma envelope_roundtrip_witness :
  ∃ env v, encrypt (H := demo_host) (H0 := demo_aead) (H1 := local_wrapper (H := demo_aead) (repeat nul 32))
             5 sample_entropy "acme" 1%N "input" (JBool true) empty_vault = Ok (env, v)
    ∧ decrypt (H := demo_host) (H0 := demo_aead) (H1 := local_wrapper (H := demo_aead) (repeat nul 32)) sample_loads
        9 sample_entropy "acme" 1%N "input" env v = Ok (JStr "true").
Proof.
  destruct (encrypt _ _ _ _ _ _ _) as [[env v]|e] eqn:E; [|by vm_compute in E]. exists env, v. split; [done|].
  exact (envelope_roundtrip (H := demo_host) (H0 := demo_aead) (H1 := local_wrapper (H := demo_aead) (repeat nul 32))
    sample_loads 5 sample_entropy "acme" 1%N "input" (JBool true) empty_vault env v [] 9 sample_entropy E eq_refl eq_refl).
Defined.

Lemma erasure_guarded_final_witness :
  ∃ v, erase_tenant_key 7 "acme" "op" false (Some "acme") (Some 6) sealed_vault = Ok (true, v)
    ∧ v_audit v = [erasure_record "acme" "op"].
Proof.
  eexists. split; [reflexivity|].
  apply (erasure_guarded_final (H := demo_host) (H0 := demo_aead) (H1 := local_wrapper (H := demo_aead) (repeat nul 32))
    7 "acme" "op" (Some "acme") (Some 6) sealed_vault _ []). reflexivity.
Defined.

Lemma envelope_context_bound_witness :
  fst <$> _key (H1 := local_wrapper (H := demo_aead) (repeat nul 32)) 9 sample_entropy "acme" false sealed_vault
    = Ok (repeat nul 32).
Proof.
  destruct (envelope_context_bound (H := demo_host) (H1 := local_wrapper (H := demo_aead) (repeat nul 32))
    "acme" 1%N "input" "acme" 1%N "input"
    (match _aad (H := demo_host) "acme" 1%N "input" with Ok a => a | Err _ => [] end) twelve (repeat nul 32)
    (touch 5 (fresh_key (H1 := local_wrapper (H := demo_aead) (repeat nul 32)) 5 sample_entropy "acme")) sealed_vault)
    as [_ Hk]; [reflexivity..|]. apply Hk.
Defined.
