(* ===== verification/RunService.v ===== *)
(** * Run service

    [src/src/agent_runtime/infrastructure/database/run_service.py]: submission,
    replay, evaluation and regression jobs, and the tenant-scoped reads.

    A write method is a function [db → result A * db]: the result the caller gets
    and the database after the transaction, unchanged when the method raises.
    The arguments [tx] are what the transaction reads from its environment. *)

From S2P Require Import Prelude Float64 PyValue States Models Quotas Canonical Safety.
Local Open Scope Z_scope.

(** The environment of one transaction: PostgreSQL's [now()], the epoch seconds of
    [clock_timestamp()] and the trace context injected by OpenTelemetry. *)
Record Tx := { tx_now : time; tx_epoch : Z; tx_trace : dict }.

(** [application/runs.py]: what the API returns about a run. *)
Record RunSnapshot := {
  rs_id : uuid; rs_execution_status : ExecutionStatus; rs_evaluation_status : EvaluationStatus;
  rs_created_at : time; rs_started_at : option time; rs_completed_at : option time;
  rs_replay_of_run_id : option uuid; rs_error_code : option string;
  rs_routing_decision : option dict; rs_work_kind : string; rs_result_payload : option dict;
}.
Record AttemptSnapshot := {
  as_id : uuid; as_attempt_number : Z; as_provider : string; as_started_at : time;
  as_finished_at : option time; as_outcome : option string; as_error_code : option string;
  as_retryable : option bool; as_latency_ms : option Z;
}.
Record EventSnapshot := {
  es_id : uuid; es_attempt_id : option uuid; es_event_type : string; es_metadata : option dict;
  es_created_at : time;
}.
Record EvaluationSnapshot := {
  vs_id : uuid; vs_evaluator : string; vs_status : EvaluationStatus; vs_score : option f64;
  vs_result : option dict; vs_details : option dict; vs_created_at : time;
  vs_completed_at : option time;
}.

Definition _routing_decision (policy_snapshot : dict) : option dict :=
  match dget "routing" policy_snapshot with
  | Some (JObj routing) =>
      match dget "decision" routing with Some (JObj decision) => Some decision | _ => None end
  | _ => None
  end.

Definition _to_run_snapshot (r : Run.t) : RunSnapshot :=
  {| rs_id := Run.id r; rs_execution_status := Run.execution_status r;
     rs_evaluation_status := Run.evaluation_status r; rs_created_at := Run.created_at r;
     rs_started_at := Run.started_at r; rs_completed_at := Run.completed_at r;
     rs_replay_of_run_id := Run.replay_of_run_id r; rs_error_code := Run.error_code r;
     rs_routing_decision := _routing_decision (Run.policy_snapshot r);
     rs_work_kind := work_kind_value (Run.work_kind r); rs_result_payload := Run.result_payload r |}.
Definition _to_attempt_snapshot (a : RunAttempt.t) : AttemptSnapshot :=
  {| as_id := RunAttempt.id a; as_attempt_number := RunAttempt.attempt_number a;
     as_provider := RunAttempt.provider a; as_started_at := RunAttempt.started_at a;
     as_finished_at := RunAttempt.finished_at a; as_outcome := RunAttempt.outcome a;
     as_error_code := RunAttempt.error_code a; as_retryable := RunAttempt.retryable a;
     as_latency_ms := RunAttempt.latency_ms a |}.
Definition _to_event_snapshot (e : RunEvent.t) : EventSnapshot :=
  {| es_id := RunEvent.id e; es_attempt_id := RunEvent.attempt_id e;
     es_event_type := RunEvent.event_type e; es_metadata := RunEvent.metadata e;
     es_created_at := RunEvent.created_at e |}.
Definition _to_evaluation_snapshot (e : Evaluation.t) : EvaluationSnapshot :=
  {| vs_id := Evaluation.id e; vs_evaluator := Evaluation.evaluator e;
     vs_status := Evaluation.status e; vs_score := Evaluation.score e;
     vs_result := Evaluation.result e; vs_details := Evaluation.details e;
     vs_created_at := Evaluation.created_at e; vs_completed_at := Evaluation.completed_at e |}.

(** ** Lookups *)

(** [principal_id or client_id]. *)
Definition principal_or (principal_id : option string) (client_id : string) : string :=
  match principal_id with
  | Some p => if bool_decide (p = "") then client_id else p
  | None => client_id
  end.

Definition has_key (client_id idempotency_key : string) (r : Run.t) : bool :=
  bool_decide (Run.client_id r = client_id ∧ Run.idempotency_key r = idempotency_key).

Definition _find_by_idempotency_key (client_id idempotency_key : string) (d : db) : option Run.t :=
  head (rows_where (has_key client_id idempotency_key) (runs d)).

Definition _get_idempotent_run_after_race (client_id idempotency_key : string) (d : db)
    : result Run.t :=
  match _find_by_idempotency_key client_id idempotency_key d with
  | Some r => Ok r
  | None => Err (RuntimeError "Idempotency race completed without a persisted run")
  end.

Definition _get_run_for_client (client_id : string) (run_id : uuid) (d : db) : result Run.t :=
  match runs d !! run_id with
  | Some r => if bool_decide (Run.client_id r = client_id) then Ok r else Err RunNotFoundError
  | None => Err RunNotFoundError
  end.

Definition _match_or_raise (r : Run.t) (request_hash : string) : result bool :=
  if bool_decide (Run.request_hash r = request_hash) then Ok true else Err IdempotencyConflictError.

Definition _match_replay_or_raise (r : Run.t) (request_hash : string) (source_run_id : uuid)
    : result bool :=
  if bool_decide (Run.request_hash r = request_hash ∧ Run.replay_of_run_id r = Some source_run_id)
  then Ok true else Err IdempotencyConflictError.

Definition IntegrityError : exn := OtherException "IntegrityError".

(** [policy_snapshot.get("provider_order", ["deterministic"])[0]], whose value feeds a
    metric and whose failure aborts the transaction. *)
Definition first_provider (policy_snapshot : dict) : result unit :=
  match dget_or "provider_order" (JArr [JStr "deterministic"]) policy_snapshot with
  | JArr (_ :: _) => Ok tt
  | JStr s => if bool_decide (s = "") then Err (OtherException "IndexError") else Ok tt
  | JArr [] => Err (OtherException "IndexError")
  | JObj _ => Err KeyError
  | _ => Err TypeError
  end.

Section RunService.
Context `{Host} (limits : QuotaLimits) (job_timeout_seconds : num) (check_schema : json → bool).

(** A new row of [runs]. *)
Definition new_run (id : uuid) (client_id principal_id : string) (kind : WorkKind)
    (key hash : string) (input policy trace : dict) (replay_of : option uuid) (now : time) : Run.t :=
  {| Run.id := id; Run.client_id := client_id; Run.principal_id := Some principal_id;
     Run.work_kind := kind; Run.idempotency_key := key; Run.request_hash := hash;
     Run.input_payload := input; Run.policy_snapshot := policy; Run.trace_context := trace;
     Run.execution_status := QUEUED; Run.evaluation_status := EVAL_NOT_RUN;
     Run.result_payload := None; Run.error_code := None; Run.created_at := now;
     Run.started_at := None; Run.completed_at := None; Run.execution_lease_owner := None;
     Run.execution_lease_expires_at := None; Run.next_attempt_at := None;
     Run.replay_of_run_id := replay_of |}.

(** [session.add(run); await session.flush()]: the unique constraint
    [uq_runs_client_idempotency_key] is checked by the database. *)
Definition insert_run (r : Run.t) (d : db) : result db :=
  match _find_by_idempotency_key (Run.client_id r) (Run.idempotency_key r) d with
  | Some _ => Err IntegrityError
  | None => Ok (bump_draws (put_run r d))
  end.

(** ** [submit] *)

Definition submit_hash (input policy : dict) (kind : WorkKind) : string :=
  canonical_request_hash input
    (if bool_decide (kind = wk_execution) then policy
     else dset "work_kind" (JStr (work_kind_value kind)) policy).

(** The routing decision event of an accepted run. *)
Definition routing_metadata (decision : dict) : dict :=
  [("strategy", dget_or "strategy" JNull decision);
   ("selected_provider", dget_or "selected_provider" JNull decision);
   ("reason", dget_or "reason" JNull decision);
   ("metrics_source", dget_or "metrics_source" JNull decision)].

(** The new run with its outbox row and its events. *)
Definition create_run (tx : Tx) (client_id principal key hash : string) (input policy : dict)
    (kind : WorkKind) (d : db) : result (Run.t * db) :=
  let run := new_run (next_id d) client_id principal kind key hash input policy (tx_trace tx) None
               (tx_now tx) in
  d1 ← insert_run run d;
  let d2 := add_outbox (tx_now tx) (Run.id run) "RUN_QUEUED"
              [("trace_context", JObj (tx_trace tx))] d1 in
  let d3 := add_event (tx_now tx) (Run.id run) None "RUN_QUEUED" [("source", JStr "api")] d2 in
  let d4 := match _routing_decision policy with
            | Some decision =>
                add_event (tx_now tx) (Run.id run) None "ROUTING_DECISION_RECORDED"
                  (routing_metadata decision) d3
            | None => d3
            end in
  first_provider policy;;
  Ok (run, d4).

(** The body of the transaction, with [seen] the database its first lookup reads:
    [seen] is [d] itself unless another transaction commits in between. *)
Definition submit_body (tx : Tx) (client_id key : string) (input policy : dict)
    (principal_id : option string) (kind : WorkKind) (seen d : db)
    : result ((RunSnapshot * bool) * db) :=
  let principal := principal_or principal_id client_id in
  let hash := submit_hash input policy kind in
  match _find_by_idempotency_key client_id key seen with
  | Some existing =>
      replayed ← _match_or_raise existing hash;
      Ok ((_to_run_snapshot existing, replayed), d)
  | None =>
      check_admission d (tx_epoch tx) principal client_id limits;;
      '(run, d') ← create_run tx client_id principal key hash input policy kind d;
      Ok ((_to_run_snapshot run, false), d')
  end.

(** The [except IntegrityError] clause. *)
Definition submit_after_race (client_id key hash : string) (d : db)
    : result ((RunSnapshot * bool) * db) :=
  existing ← _get_idempotent_run_after_race client_id key d;
  replayed ← _match_or_raise existing hash;
  Ok ((_to_run_snapshot existing, replayed), d).

Definition submit_seeing (seen : db) (tx : Tx) (client_id key : string) (input policy : dict)
    (principal_id : option string) (kind : WorkKind) (d : db) : result (RunSnapshot * bool) * db :=
  commit d
    match submit_body tx client_id key input policy principal_id kind seen d with
    | Err e =>
        if bool_decide (e = IntegrityError)
        then submit_after_race client_id key (submit_hash input policy kind) d
        else Err e
    | ok => ok
    end.

Definition submit (tx : Tx) (client_id key : string) (input policy : dict)
    (principal_id : option string) (kind : WorkKind) (d : db) : result (RunSnapshot * bool) * db :=
  submit_seeing d tx client_id key input policy principal_id kind d.

(** ** Jobs *)

Definition job_policy : dict :=
  [("max_attempts", JNum (NInt 1)); ("attempt_timeout_seconds", JNum job_timeout_seconds);
   ("initial_backoff_seconds", JNum (NInt 1)); ("max_backoff_seconds", JNum (NInt 1));
   ("provider_order", JArr [JStr "deterministic"])].

Definition submit_regression (tx : Tx) (client_id principal_id : string) (payload : dict)
    (key : string) (d : db) : result (RunSnapshot * bool) * db :=
  submit tx client_id key payload job_policy (Some principal_id) wk_regression d.

Definition new_evaluation (id run_id job_run_id : uuid) (rule_count : Z) (now : time)
    : Evaluation.t :=
  {| Evaluation.id := id; Evaluation.run_id := run_id; Evaluation.evaluator := "deterministic_rules";
     Evaluation.job_run_id := Some job_run_id; Evaluation.status := EVAL_PENDING;
     Evaluation.score := None; Evaluation.result := None;
     Evaluation.details := Some [("rule_count", JNum (NInt rule_count));
                                 ("job_run_id", JStr (uuid_str job_run_id))];
     Evaluation.created_at := now; Evaluation.completed_at := None |}.

Definition evaluable (r : Run.t) : bool :=
  bool_decide (Run.work_kind r = wk_execution) && bool_decide (Run.execution_status r = SUCCEEDED)
  && match Run.result_payload r with Some _ => true | None => false end.

Definition evaluate (tx : Tx) (client_id : string) (run_id : uuid) (rules : list dict)
    (principal_id : option string) (d : db) : result EvaluationSnapshot * db :=
  commit d (
    validate_rules check_schema rules;;
    let principal := principal_or principal_id client_id in
    run ← _get_run_for_client client_id run_id d;
    raise_unless (evaluable run) RunNotSucceededError;;
    check_admission d (tx_epoch tx) principal client_id limits;;
    let key := "evaluation-" +:+ uuid_str (next_id d) in
    let d0 := bump_draws d in
    let rules_json := JArr (JObj <$> rules) in
    let job := new_run (next_id d0) client_id principal wk_evaluation key
                 (canonical_request_hash [("source", JStr (uuid_str run_id))] [("rules", rules_json)])
                 [("source_run_id", JStr (uuid_str run_id)); ("rules", rules_json)]
                 job_policy (tx_trace tx) None (tx_now tx) in
    d1 ← insert_run job d0;
    let evaluation := new_evaluation (next_id d1) (Run.id run) (Run.id job) (len rules) (tx_now tx) in
    let d2 := put_run (Run.set_evaluation_status EVAL_PENDING run) d1 in
    let d3 := bump_draws (put_evaluation evaluation d2) in
    let d4 := add_outbox (tx_now tx) (Run.id job) "RUN_QUEUED"
                [("trace_context", JObj (tx_trace tx))] d3 in
    let d5 := add_event (tx_now tx) (Run.id job) None "RUN_QUEUED"
                [("work_kind", JStr "evaluation")] d4 in
    let d6 := add_event (tx_now tx) (Run.id run) None "EVALUATION_PENDING"
                [("job_run_id", JStr (uuid_str (Run.id job)))] d5 in
    Ok (_to_evaluation_snapshot evaluation, d6)).

(** ** [replay] *)

Definition replay_hash (source : Run.t) : string :=
  canonical_request_hash
    [("replay_of_run_id", JStr (uuid_str (Run.id source))); ("input", JObj (Run.input_payload source))]
    (Run.policy_snapshot source).

Definition replay_body (tx : Tx) (client_id : string) (run_id : uuid) (key : string)
    (principal_id : option string) (seen d : db) : result ((RunSnapshot * bool) * db) :=
  let principal := principal_or principal_id client_id in
  source ← _get_run_for_client client_id run_id d;
  raise_unless (bool_decide (Run.work_kind source = wk_execution)) RunNotFoundError;;
  let hash := replay_hash source in
  match _find_by_idempotency_key client_id key seen with
  | Some existing =>
      replayed ← _match_replay_or_raise existing hash (Run.id source);
      Ok ((_to_run_snapshot existing, replayed), d)
  | None =>
      check_admission d (tx_epoch tx) principal client_id limits;;
      let run := new_run (next_id d) client_id principal wk_execution key hash
                   (Run.input_payload source) (Run.policy_snapshot source) (tx_trace tx)
                   (Some (Run.id source)) (tx_now tx) in
      d1 ← insert_run run d;
      let d2 := add_outbox (tx_now tx) (Run.id run) "RUN_QUEUED"
                  [("trace_context", JObj (tx_trace tx)); ("reason", JStr "replay")] d1 in
      let d3 := add_event (tx_now tx) (Run.id source) None "REPLAY_CREATED"
                  [("replay_run_id", JStr (uuid_str (Run.id run)))] d2 in
      let d4 := add_event (tx_now tx) (Run.id run) None "RUN_REPLAY_QUEUED"
                  [("replay_of_run_id", JStr (uuid_str (Run.id source)))] d3 in
      Ok ((_to_run_snapshot run, false), d4)
  end.

Definition replay_after_race (client_id : string) (run_id : uuid) (key : string) (d : db)
    : result ((RunSnapshot * bool) * db) :=
  existing ← _get_idempotent_run_after_race client_id key d;
  source ← _get_run_for_client client_id run_id d;
  replayed ← _match_replay_or_raise existing (replay_hash source) (Run.id source);
  Ok ((_to_run_snapshot existing, replayed), d).

Definition replay_seeing (seen : db) (tx : Tx) (client_id : string) (run_id : uuid) (key : string)
    (principal_id : option string) (d : db) : result (RunSnapshot * bool) * db :=
  commit d
    match replay_body tx client_id run_id key principal_id seen d with
    | Err e =>
        if bool_decide (e = IntegrityError) then replay_after_race client_id run_id key d else Err e
    | ok => ok
    end.

Definition replay (tx : Tx) (client_id : string) (run_id : uuid) (key : string)
    (principal_id : option string) (d : db) : result (RunSnapshot * bool) * db :=
  replay_seeing d tx client_id run_id key principal_id d.
End RunService.

(** ** Reads *)

Definition get_run (client_id : string) (run_id : uuid) (d : db) : result RunSnapshot :=
  run ← _get_run_for_client client_id run_id d; Ok (_to_run_snapshot run).

(** Keyset pagination, the shape shared by the three histories: the rows after the
    anchor in the order of [(created, id)], at most [max(1, min(limit, 100))]. *)
Section Page.
Context {A : Type} (created : A → time) (ident : A → uuid).

Definition row_cmp (x y : A) : comparison :=
  lex_cmp Z.compare [created x; Z.of_N (ident x)] [created y; Z.of_N (ident y)].
Definition row_lt (x y : A) : bool := cmp_lt row_cmp x y.

Definition page_size (limit : Z) : nat := Z.to_nat (Z.max 1 (Z.min limit 100)).

Definition page (rows : list A) (limit : Z) (cursor : option uuid) : result (list A) :=
  rest ← match cursor with
         | None => Ok rows
         | Some c =>
             match filter (λ x, ident x = c) rows with
             | anchor :: _ => Ok (filter (λ x, row_lt anchor x = true) rows)
             | [] => Err InvalidCursorError
             end
         end;
  Ok (take (page_size limit) (sort_by row_lt rest)).
End Page.

Definition attempt_rows (run_id : uuid) (d : db) : list RunAttempt.t :=
  rows_where (λ a, bool_decide (RunAttempt.run_id a = run_id)) (attempts d).
Definition event_rows (run_id : uuid) (d : db) : list RunEvent.t :=
  filter (λ e, RunEvent.run_id e = run_id) (events d).
Definition evaluation_rows (run_id : uuid) (d : db) : list Evaluation.t :=
  rows_where (λ e, bool_decide (Evaluation.run_id e = run_id)) (evaluations d).

Definition get_attempts (client_id : string) (run_id : uuid) (limit : Z) (cursor : option uuid)
    (d : db) : result (list AttemptSnapshot) :=
  _get_run_for_client client_id run_id d;;
  rows ← page RunAttempt.started_at RunAttempt.id (attempt_rows run_id d) limit cursor;
  Ok (map _to_attempt_snapshot rows).

Definition get_events (client_id : string) (run_id : uuid) (limit : Z) (cursor : option uuid)
    (d : db) : result (list EventSnapshot) :=
  _get_run_for_client client_id run_id d;;
  rows ← page RunEvent.created_at RunEvent.id (event_rows run_id d) limit cursor;
  Ok (map _to_event_snapshot rows).

Definition get_evaluations (client_id : string) (run_id : uuid) (limit : Z) (cursor : option uuid)
    (d : db) : result (list EvaluationSnapshot) :=
  _get_run_for_client client_id run_id d;;
  rows ← page Evaluation.created_at Evaluation.id (evaluation_rows run_id d) limit cursor;
  Ok (map _to_evaluation_snapshot rows).

(** ** Pagination lemmas *)

Section PageProofs.
Context {A : Type} (created : A → time) (ident : A → uuid).
Abbreviation row_lt := (row_lt created ident).
Abbreviation page := (page created ident).

Lemma row_cmp_good : GoodCmp (row_cmp created ident) (λ _, True).
Proof.
  pose proof (lex_cmp_good Z.compare (λ _, True)) as Hg.
  split; intros; unfold row_cmp.
  - apply (cmp_antisym _ (Forall (λ _, True))); by apply Forall_true.
  - apply (cmp_trans (lex_cmp Z.compare) (Forall (λ _, True)) _
      [created y; Z.of_N (ident y)]); try done; by apply Forall_true.
Qed.

Lemma row_strict_weak : StrictWeak row_lt (λ _, True).
Proof.
  pose proof row_cmp_good as Hg. exact (cmp_strict_weak (row_cmp created ident) (λ _, True) id).
Qed.

Lemma row_sorted l : StronglySorted (not_after row_lt) (sort_by row_lt l).
Proof.
  pose proof row_strict_weak. apply (sort_by_sorted row_lt (λ x, True)). by apply Forall_true.
Qed.

Lemma row_not_after_ne x y : not_after row_lt x y → ident x ≠ ident y → row_lt x y = true.
Proof.
  unfold not_after, row_lt, RunService.row_lt, cmp_lt, row_cmp. intros Hn Hne. cbn in *.
  destruct (Z.compare_spec (created y) (created x)), (Z.compare_spec (created x) (created y)); try lia; try done.
  destruct (Z.compare_spec (Z.of_N (ident y)) (Z.of_N (ident x))),
    (Z.compare_spec (Z.of_N (ident x)) (Z.of_N (ident y))); try lia; try done.
Qed.

Lemma row_lt_asym x y : row_lt x y = true → row_lt y x = false.
Proof. pose proof row_strict_weak as Hs. by apply (@sw_asym _ _ _ Hs). Qed.

(** On a sorted list with distinct identifiers, the rows after the [k]-th are the
    rest of the list. *)
Lemma filter_after_sorted l k x :
  StronglySorted (not_after row_lt) l → NoDup (ident <$> l) → l !! k = Some x →
  filter (λ y, row_lt x y = true) l = drop (S k) l.
Proof.
  intros Hs. revert k. induction Hs as [|y l Hl IH Hy]; intros k Hnd Hk; [done|].
  apply NoDup_cons in Hnd as [Hnin Hnd]. destruct k as [|k]; cbn in Hk.
  - injection Hk as ->. rewrite filter_cons. rewrite decide_False.
    2: { intros Hxx. pose proof (row_lt_asym _ _ Hxx). congruence. }
    cbn. rewrite drop_0. apply filter_id. rewrite Forall_forall in Hy |- *. intros z Hz.
    apply row_not_after_ne; [by apply Hy|]. intros Heq. apply Hnin. rewrite Heq.
    by apply list_elem_of_fmap_2.
  - rewrite filter_cons. rewrite decide_False; [by apply IH|].
    rewrite Forall_forall in Hy. apply list_elem_of_lookup_2 in Hk. apply Hy in Hk.
    unfold not_after in Hk. congruence.
Qed.

Lemma sort_filter (P : A → Prop) `{∀ x, Decision (P x)} rows :
  NoDup (ident <$> rows) → sort_by row_lt (filter P rows) = filter P (sort_by row_lt rows).
Proof.
  intros Hnd. apply (StronglySorted_unique_strong (not_after row_lt)).
  - intros x y Hx Hy Hxy Hyx. destruct (decide (ident x = ident y)) as [Heq|Hne].
    + rewrite sort_by_perm in Hx. apply list_elem_of_filter in Hx as [_ Hx].
      apply list_elem_of_filter in Hy as [_ Hy]. rewrite sort_by_perm in Hy.
      by eapply (NoDup_fmap_inj_elem ident rows).
    + pose proof (row_not_after_ne _ _ Hxy Hne) as Hlt. unfold not_after in Hyx. congruence.
  - apply row_sorted.
  - apply StronglySorted_filter, row_sorted.
  - by rewrite !sort_by_perm.
Qed.

Lemma page_after rows limit k x :
  NoDup (ident <$> rows) → sort_by row_lt rows !! k = Some x →
  page rows limit (Some (ident x)) = Ok (take (page_size limit) (drop (S k) (sort_by row_lt rows))).
Proof.
  intros Hnd Hk. unfold RunService.page.
  pose proof (list_elem_of_lookup_2 _ _ _ Hk) as Hin. rewrite sort_by_perm in Hin.
  destruct (filter (λ y, ident y = ident x) rows) as [|a l] eqn:E.
  { exfalso. assert (x ∈ filter (λ y, ident y = ident x) rows) as Hx
      by (by apply list_elem_of_filter). rewrite E in Hx. by apply not_elem_of_nil in Hx. }
  assert (a = x) as ->.
  { assert (a ∈ filter (λ y, ident y = ident x) rows) as Ha by (rewrite E; by left).
    apply list_elem_of_filter in Ha as [Hi Ha]. by eapply (NoDup_fmap_inj_elem ident rows). }
  cbn. rewrite sort_filter by done. do 2 f_equal. apply filter_after_sorted; [apply row_sorted| |done].
  by rewrite sort_by_perm.
Qed.

(** [X-Next-Cursor] of [api/main.py]: set when the page is full. *)
Definition next_cursor {T : Type} (sid : T → uuid) (limit : Z) (rows : list T) : option uuid :=
  if len rows =? limit then sid <$> last rows else None.

(** A client that follows [X-Next-Cursor] from page to page. *)
Fixpoint read_all {T : Type} (sid : T → uuid) (fetch : option uuid → result (list T)) (limit : Z)
    (fuel : nat) (cursor : option uuid) : result (list T) :=
  match fuel with
  | O => Err (RuntimeError "fuel")
  | S fuel =>
      rows ← fetch cursor;
      match next_cursor sid limit rows with
      | Some c => rest ← read_all sid fetch limit fuel (Some c); Ok (rows ++ rest)
      | None => Ok rows
      end
  end.

Lemma read_all_pages {T : Type} (snap : A → T) (sid : T → uuid) rows limit fetch :
  1 ≤ limit ≤ 100 → NoDup (ident <$> rows) → (∀ x, sid (snap x) = ident x) →
  (∀ c, fetch c = (rows ← page rows limit c; Ok (map snap rows))) →
  ∀ fuel, (length rows < fuel)%nat →
  read_all sid fetch limit fuel None = Ok (map snap (sort_by row_lt rows)).
Proof.
  intros Hlim Hnd Hsid Hfetch. set (all := sort_by row_lt rows).
  assert (length all = length rows) as Hlen by (unfold all; by rewrite sort_by_perm).
  set (n := page_size limit). assert (Z.of_nat n = limit) as Hn by (unfold n, page_size; lia).
  enough (∀ fuel k c, (length all < k + fuel)%nat →
            fetch c = Ok (map snap (take n (drop k all))) →
            read_all sid fetch limit fuel c = Ok (map snap (drop k all)) ∨ (length all < k)%nat) as Hgen.
  { intros fuel Hf. destruct (Hgen fuel 0%nat None) as [->|?]; [lia|..|lia]; [|by rewrite drop_0].
    rewrite Hfetch. cbn. by rewrite drop_0. }
  induction fuel as [|fuel IH]; intros k c Hk Hc; cbn [read_all]; [right; lia|].
  rewrite Hc. cbn. unfold next_cursor, len. rewrite length_map, length_take, length_drop.
  destruct (Z.eqb_spec (Z.of_nat (n `min` (length all - k))) limit) as [Hfull|Hshort].
  2: { left. rewrite take_ge by (rewrite length_drop; lia). done. }
  destruct (lookup_lt_is_Some_2 all (k + (n - 1))) as [y Hy]; [lia|].
  assert (last (map snap (take n (drop k all))) = Some (snap y)) as ->.
  { rewrite last_lookup, length_map, length_take, length_drop.
    replace (pred (n `min` (length all - k))) with (n - 1)%nat by lia.
    change (map snap ?l) with (snap <$> l).
    rewrite list_lookup_fmap, lookup_take_lt, lookup_drop, Hy by lia. done. }
  cbn. rewrite Hsid. destruct (IH (k + n)%nat (Some (ident y))) as [->|?]; [lia| | |lia].
  { rewrite Hfetch, (page_after rows limit (k + (n - 1)) y) by done. cbn. fold n all.
    by replace (S (k + (n - 1))) with (k + n)%nat by lia. }
  left. cbn. change (map snap ?l) with (snap <$> l). rewrite <- fmap_app, <- drop_drop.
  by rewrite take_drop.
Qed.
End PageProofs.

(** ** Lookup lemmas *)

(** The unique constraint [uq_runs_client_idempotency_key]. *)
Definition keys_unique (d : db) : Prop :=
  ∀ k k' r r', runs d !! k = Some r → runs d !! k' = Some r' →
    Run.client_id r = Run.client_id r' → Run.idempotency_key r = Run.idempotency_key r' → k = k'.

Lemma find_some c key d r :
  _find_by_idempotency_key c key d = Some r →
  ∃ k, runs d !! k = Some r ∧ Run.client_id r = c ∧ Run.idempotency_key r = key.
Proof.
  unfold _find_by_idempotency_key. intros Hh.
  assert (r ∈ rows_where (has_key c key) (runs d)) as Hin
    by (destruct (rows_where _ _); [done|]; injection Hh as ->; by left).
  apply elem_of_rows_where in Hin as (k & Hk & Hp). apply bool_decide_eq_true in Hp. naive_solver.
Qed.

Lemma find_none c key d :
  _find_by_idempotency_key c key d = None ↔
  ∀ k r, runs d !! k = Some r → ¬ (Run.client_id r = c ∧ Run.idempotency_key r = key).
Proof.
  unfold _find_by_idempotency_key. rewrite head_None. split.
  - intros Hnil k r Hk Hp. assert (r ∈ rows_where (has_key c key) (runs d)) as Hin.
    { apply elem_of_rows_where. exists k. split; [done|]. by apply bool_decide_eq_true. }
    rewrite Hnil in Hin. by apply not_elem_of_nil in Hin.
  - intros Hno. destruct (rows_where _ _) as [|r l] eqn:E; [done|]. exfalso.
    assert (r ∈ rows_where (has_key c key) (runs d)) as Hin by (rewrite E; by left).
    apply elem_of_rows_where in Hin as (k & Hk & Hp). apply bool_decide_eq_true in Hp. naive_solver.
Qed.

Lemma find_unique c key d k r :
  keys_unique d → runs d !! k = Some r → Run.client_id r = c → Run.idempotency_key r = key →
  _find_by_idempotency_key c key d = Some r.
Proof.
  intros Hu Hk Hc Hkey. destruct (_find_by_idempotency_key c key d) as [r'|] eqn:E.
  - apply find_some in E as (k' & Hk' & Hc' & Hkey').
    assert (k = k') as -> by (eapply Hu; eauto; congruence). congruence.
  - exfalso. by eapply find_none in E; eauto.
Qed.

Lemma get_run_for_client_ok c k d r :
  _get_run_for_client c k d = Ok r ↔ runs d !! k = Some r ∧ Run.client_id r = c.
Proof.
  unfold _get_run_for_client. destruct (runs d !! k) as [x|]; [case_bool_decide|]; naive_solver.
Qed.

(** The columns of a run no operation ever updates. *)
Definition run_identity (r : Run.t) :=
  (Run.id r, Run.client_id r, Run.principal_id r, Run.work_kind r, Run.idempotency_key r,
   Run.request_hash r, Run.input_payload r, Run.policy_snapshot r, Run.trace_context r,
   Run.created_at r, Run.replay_of_run_id r).

(** Every run of [d] is still in [d'], with the same identity. *)
Definition keeps (d d' : db) : Prop :=
  ∀ k r, runs d !! k = Some r → ∃ r', runs d' !! k = Some r' ∧ run_identity r' = run_identity r.

#[export] Instance keeps_preorder : PreOrder keeps.
Proof.
  split; [intros d k r; eauto|]. intros d1 d2 d3 H12 H23 k r Hk.
  destruct (H12 k r Hk) as (r2 & Hk2 & E2). destruct (H23 k r2 Hk2) as (r3 & Hk3 & E3).
  exists r3. split; [done|congruence].
Qed.

Section RunServiceProofs.
Context `{Host} (limits : QuotaLimits) (job_timeout_seconds : num) (check_schema : json → bool).
Abbreviation submit := (submit limits).
Abbreviation submit_seeing := (submit_seeing limits).
Abbreviation replay := (replay limits).
Abbreviation evaluate := (evaluate limits job_timeout_seconds check_schema).

(** (C28) Paging through a history is complete: for every page size the API admits, a client
    that starts without a cursor and follows [X-Next-Cursor] reads every attempt, every
    event and every evaluation of the run exactly once, in the order of time and
    identifier, and the number of requests it makes is bounded. *)
Theorem history_pagination_complete c k d limit fuel :
  db_wf d → is_ok (_get_run_for_client c k d) = true → 1 ≤ limit ≤ 100 →
  (length (attempt_rows k d) < fuel)%nat → (length (event_rows k d) < fuel)%nat →
  (length (evaluation_rows k d) < fuel)%nat →
  read_all as_id (λ cur, get_attempts c k limit cur d) limit fuel None
    = Ok (map _to_attempt_snapshot
            (sort_by (row_lt RunAttempt.started_at RunAttempt.id) (attempt_rows k d)))
  ∧ read_all es_id (λ cur, get_events c k limit cur d) limit fuel None
    = Ok (map _to_event_snapshot
            (sort_by (row_lt RunEvent.created_at RunEvent.id) (event_rows k d)))
  ∧ read_all vs_id (λ cur, get_evaluations c k limit cur d) limit fuel None
    = Ok (map _to_evaluation_snapshot
            (sort_by (row_lt Evaluation.created_at Evaluation.id) (evaluation_rows k d))).
Proof.
  intros Hwf Hok Hlim Ha He Hv.
  destruct (_get_run_for_client c k d) as [r|] eqn:E; [|done].
  split_and!; (eapply read_all_pages; [done| |done|intros cur|done]).
  - eapply table_ids, Hwf.
  - unfold get_attempts. by rewrite E.
  - eapply NoDup_fmap_filter, Hwf.
  - unfold get_events. by rewrite E.
  - eapply table_ids, Hwf.
  - unfold get_evaluations. by rewrite E.
Qed.

(** Tenant isolation: a run of another tenant is indistinguishable from a run that does
    not exist.  Every read raises [RunNotFoundError], and [replay] and [evaluate] refuse
    and leave the database as it was, exactly as for an identifier that was never used. *)
Theorem other_tenant_sees_nothing tx c k r d limit cur key p rules :
  runs d !! k = Some r → Run.client_id r ≠ c →
  get_run c k d = Err RunNotFoundError
  ∧ get_attempts c k limit cur d = Err RunNotFoundError
  ∧ get_events c k limit cur d = Err RunNotFoundError
  ∧ get_evaluations c k limit cur d = Err RunNotFoundError
  ∧ replay tx c k key p d = (Err RunNotFoundError, d)
  ∧ evaluate tx c k rules p d
    = (validate_rules check_schema rules;; Err RunNotFoundError, d).
Proof.
  intros Hk Hc.
  assert (_get_run_for_client c k d = Err RunNotFoundError) as E.
  { unfold _get_run_for_client. rewrite Hk. by case_bool_decide. }
  unfold get_run, get_attempts, get_events, get_evaluations, replay, RunService.replay,
    replay_seeing, replay_body, evaluate, RunService.evaluate. rewrite E. cbn.
  split_and!; try done. destruct (validate_rules check_schema rules) as [[]|]; cbn; by rewrite ?E.
Qed.

Lemma insert_run_ok r d d' :
  insert_run r d = Ok d' →
  _find_by_idempotency_key (Run.client_id r) (Run.idempotency_key r) d = None
  ∧ d' = bump_draws (put_run r d).
Proof. unfold insert_run. destruct (_find_by_idempotency_key _ _ _); naive_solver. Qed.

(** The tables after an accepted submission. *)
Lemma create_run_ok tx c p key hash input policy kind d r d' :
  create_run tx c p key hash input policy kind d = Ok (r, d') →
  let r0 := new_run (next_id d) c p kind key hash input policy (tx_trace tx) None (tx_now tx) in
  r = r0 ∧ _find_by_idempotency_key c key d = None
  ∧ runs d' = <[next_id d := r0]> (runs d)
  ∧ attempts d' = attempts d ∧ evaluations d' = evaluations d ∧ quotas d' = quotas d
  ∧ (∃ o, outbox d' = <[OutboxEvent.id o := o]> (outbox d) ∧ OutboxEvent.id o = uuid4 (S (draws d))
       ∧ OutboxEvent.aggregate_id o = next_id d ∧ OutboxEvent.event_type o = "RUN_QUEUED"
       ∧ OutboxEvent.published_at o = None
       ∧ OutboxEvent.payload o = [("trace_context", JObj (tx_trace tx))])
  ∧ (∃ l, events d' = events d ++ l ∧ Forall (λ e, RunEvent.run_id e = next_id d) l)
  ∧ is_ok (first_provider policy) = true.
Proof.
  unfold create_run. intros Hc. inv_result.
  match goal with Hi : insert_run _ _ = _ |- _ => apply insert_run_ok in Hi as [Hf ->] end.
  match goal with Hf : first_provider _ = _ |- _ => rewrite Hf end.
  cbn zeta. split_and!; try done; try (by destruct (_routing_decision policy)).
  - exists {| OutboxEvent.id := uuid4 (S (draws d)); OutboxEvent.aggregate_id := next_id d;
              OutboxEvent.event_type := "RUN_QUEUED";
              OutboxEvent.payload := [("trace_context", JObj (tx_trace tx))];
              OutboxEvent.created_at := tx_now tx; OutboxEvent.published_at := None;
              OutboxEvent.publish_attempts := 0; OutboxEvent.last_error := None |}.
    by destruct (_routing_decision policy).
  - destruct (_routing_decision policy); cbn; rewrite <- ?app_assoc; eexists;
      (split; [reflexivity|by repeat constructor]).
Qed.

Lemma submit_inv tx c key input policy p kind d s b d' :
  submit tx c key input policy p kind d = (Ok (s, b), d') →
  (∃ r, _find_by_idempotency_key c key d = Some r ∧ Run.request_hash r = submit_hash input policy kind
        ∧ s = _to_run_snapshot r ∧ b = true ∧ d' = d)
  ∨ (∃ r, check_admission d (tx_epoch tx) (principal_or p c) c limits = Ok tt
        ∧ create_run tx c (principal_or p c) key (submit_hash input policy kind) input policy kind d
          = Ok (r, d')
        ∧ s = _to_run_snapshot r ∧ b = false).
Proof.
  unfold submit, RunService.submit, RunService.submit_seeing. intros Hs.
  destruct (submit_body limits tx c key input policy p kind d d) as [[[s' b'] d'']|e] eqn:E.
  - injection Hs as -> -> ->. unfold submit_body in E.
    destruct (_find_by_idempotency_key c key d) as [r|] eqn:Ef.
    + left. exists r. unfold _match_or_raise in E. case_bool_decide; [|done]. naive_solver.
    + right. destruct (check_admission _ _ _ _ _) as [[]|] eqn:Ea; [|done]. cbn in E.
      destruct (create_run _ _ _ _ _ _ _ _ _) as [[r d0]|] eqn:Ec; [|done]. cbn in E. naive_solver.
  - case_bool_decide as He; [|done]. left. unfold submit_after_race, _get_idempotent_run_after_race in Hs.
    destruct (_find_by_idempotency_key c key d) as [r|] eqn:Ef; [|done]. cbn in Hs.
    unfold _match_or_raise in Hs. case_bool_decide; [|done]. exists r. naive_solver.
Qed.

Lemma submit_existing tx c key input policy p kind d r :
  _find_by_idempotency_key c key d = Some r →
  submit tx c key input policy p kind d
  = (if bool_decide (Run.request_hash r = submit_hash input policy kind)
     then Ok (_to_run_snapshot r, true) else Err IdempotencyConflictError, d).
Proof.
  intros Hf. unfold submit, RunService.submit, RunService.submit_seeing, submit_body. rewrite Hf.
  unfold _match_or_raise. by case_bool_decide.
Qed.

(** The run a successful submission answers with is stored under its identifier. *)
Lemma submit_stored tx c key input policy p kind d s b d' :
  db_wf d → submit tx c key input policy p kind d = (Ok (s, b), d') →
  ∃ r, runs d' !! rs_id s = Some r ∧ Run.client_id r = c ∧ Run.idempotency_key r = key
       ∧ Run.request_hash r = submit_hash input policy kind.
Proof.
  intros Hwf [(r & Hf & Hh & -> & -> & ->)|(r & _ & Hc & -> & ->)]%submit_inv.
  - apply find_some in Hf as (k & Hk & Hc & Hkey).
    pose proof (table_ok_id _ _ _ _ _ (wf_runs _ Hwf) Hk) as Hid. exists r. cbn. by rewrite Hid.
  - apply create_run_ok in Hc as (-> & _ & Hr & _). eexists. rewrite Hr. cbn.
    by rewrite lookup_insert_eq.
Qed.

(** Once a key has been answered with a run, and as long as the run is kept, a later
    submission under the key returns that run or raises a conflict, and writes nothing. *)
Lemma submit_idempotent tx c key input policy p kind d s b d1 d2 tx' input' policy' p' kind' :
  db_wf d → submit tx c key input policy p kind d = (Ok (s, b), d1) →
  keeps d1 d2 → keys_unique d2 →
  if bool_decide (submit_hash input' policy' kind' = submit_hash input policy kind)
  then ∃ s', submit tx' c key input' policy' p' kind' d2 = (Ok (s', true), d2) ∧ rs_id s' = rs_id s
  else submit tx' c key input' policy' p' kind' d2 = (Err IdempotencyConflictError, d2).
Proof.
  intros Hwf Hs Hk Hu. destruct (submit_stored _ _ _ _ _ _ _ _ _ _ _ Hwf Hs) as (r & Hr & Hc & Hkey & Hh).
  assert (Run.id r = rs_id s) as Hid.
  { apply submit_inv in Hs as [(r' & Hf & _ & -> & _ & ->)|(r' & _ & Hcr & -> & _)].
    - by eapply (table_ok_id _ _ _ _ _ (wf_runs _ Hwf)).
    - apply create_run_ok in Hcr as (-> & _ & Hrr & _). cbn in Hr |- *.
      rewrite Hrr, lookup_insert_eq in Hr. injection Hr as <-. done. }
  destruct (Hk _ _ Hr) as (r2 & Hr2 & Heq). unfold run_identity in Heq. injection Heq. intros.
  rewrite (submit_existing _ _ _ _ _ _ _ _ r2) by (eapply find_unique; [done|exact Hr2|congruence..]).
  repeat case_bool_decide; try congruence. eexists; split; [done|]. cbn. congruence.
Qed.

(** The events an accepted submission appends: [RUN_QUEUED], then the routing decision when
    the policy carries one, both of the new run, of no attempt, at the time of the transaction. *)
Lemma create_run_events tx c p key hash input policy kind d r d' :
  create_run tx c p key hash input policy kind d = Ok (r, d') →
  ∃ l, events d' = events d ++ l
    ∧ map (λ e, (RunEvent.event_type e, RunEvent.metadata e)) l
      = ("RUN_QUEUED", Some [("source", JStr "api")])
        :: match _routing_decision policy with
           | Some decision => [("ROUTING_DECISION_RECORDED", Some (routing_metadata decision))]
           | None => []
           end
    ∧ Forall (λ e, RunEvent.run_id e = next_id d ∧ RunEvent.attempt_id e = None
                   ∧ RunEvent.created_at e = tx_now tx) l.
Proof.
  unfold create_run. intros Hc. inv_result.
  match goal with Hi : insert_run _ _ = _ |- _ => apply insert_run_ok in Hi as [_ ->] end.
  destruct (_routing_decision policy); cbn; rewrite <- ?app_assoc; eexists;
    (split_and!; [reflexivity|reflexivity|by repeat constructor]).
Qed.

(** (C27) Exactly one unit of work per accepted submission, and nothing else in any table: a
    submission that is not a replay adds exactly one run, the [QUEUED], unleased run of the
    request under a fresh identifier, exactly one unpublished [RUN_QUEUED] outbox row for it,
    and exactly its history rows (a [RUN_QUEUED] event and, when the policy carries a routing
    decision, a [ROUTING_DECISION_RECORDED] event); attempts, evaluations and quotas are
    unchanged, and the run was admitted below both active-work limits. *)
Theorem submit_creates_one_run tx c key input policy p kind d s d' :
  db_wf d → submit tx c key input policy p kind d = (Ok (s, false), d') →
  runs d !! rs_id s = None
  ∧ (∃ r, runs d' = <[rs_id s := r]> (runs d) ∧ Run.execution_status r = QUEUED
       ∧ Run.input_payload r = input ∧ Run.policy_snapshot r = policy
       ∧ Run.client_id r = c ∧ Run.idempotency_key r = key
       ∧ Run.principal_id r = Some (principal_or p c) ∧ Run.execution_lease_owner r = None)
  ∧ (∃ o, outbox d !! OutboxEvent.id o = None ∧ outbox d' = <[OutboxEvent.id o := o]> (outbox d)
       ∧ OutboxEvent.aggregate_id o = rs_id s ∧ OutboxEvent.event_type o = "RUN_QUEUED"
       ∧ OutboxEvent.published_at o = None)
  ∧ (∃ l, events d' = events d ++ l
       ∧ map (λ e, (RunEvent.event_type e, RunEvent.metadata e)) l
         = ("RUN_QUEUED", Some [("source", JStr "api")])
           :: match _routing_decision policy with
              | Some decision => [("ROUTING_DECISION_RECORDED", Some (routing_metadata decision))]
              | None => []
              end
       ∧ Forall (λ e, RunEvent.run_id e = rs_id s ∧ RunEvent.attempt_id e = None
                      ∧ RunEvent.created_at e = tx_now tx) l)
  ∧ attempts d' = attempts d ∧ evaluations d' = evaluations d ∧ quotas d' = quotas d
  ∧ count_runs (active_of_principal (principal_or p c)) d < principal_active limits
  ∧ count_runs (active_of_tenant c) d < tenant_active limits.
Proof.
  intros Hwf [(? & _ & _ & _ & ? & _)|(r & Ha & Hc & -> & _)]%submit_inv; [done|].
  pose proof (create_run_events _ _ _ _ _ _ _ _ _ _ _ Hc) as Hevs.
  apply create_run_ok in Hc as (-> & _ & Hr & Hat & Hev & Hq & (o & Ho & Hoid & Hagg & Hty & Hpub & _) & _).
  unfold check_admission in Ha. inv_result. bool_to_prop. split_and!; try done.
  - eapply table_ok_fresh, Hwf.
  - by eexists.
  - exists o. split_and!; try done. rewrite Hoid. apply eq_None_not_Some. intros [o' Ho'].
    destruct (wf_outbox _ Hwf _ _ Ho') as [_ (i & Hi & Heq%uuid4_inj)]. lia.
Qed.

(** The unique constraint settles submission races: when another transaction inserted
    the same key after this one looked it up ([seen] misses the row, [d] has it), the
    losing submission rolls back and gives exactly the answer a later submission gives:
    the winner's run as a replay, or a conflict. *)
Theorem submit_race_resolved seen tx c key input policy p kind d r :
  _find_by_idempotency_key c key seen = None → _find_by_idempotency_key c key d = Some r →
  check_admission d (tx_epoch tx) (principal_or p c) c limits = Ok tt →
  submit_seeing seen tx c key input policy p kind d = submit tx c key input policy p kind d.
Proof.
  intros Hseen Hf Ha. rewrite (submit_existing _ _ _ _ _ _ _ _ _ Hf).
  unfold submit_seeing, RunService.submit_seeing, submit_body. rewrite Hseen, Ha. cbn.
  unfold create_run, insert_run. cbn. rewrite Hf. cbn.
  unfold submit_after_race, _get_idempotent_run_after_race. rewrite Hf. cbn.
  unfold _match_or_raise. repeat case_bool_decide; done.
Qed.
End RunServiceProofs.
