(* ===== verification/RunPort.v ===== *)
(** * The run service as the API sees it

    [RunSubmissionService] of [src/src/agent_runtime/application/runs.py], the protocol the
    HTTP layer is written against: its operations over a state, and the contract the handlers
    rely on.  [SqlAlchemyRunService] ([RunService]) implements it on the database and keeps the
    contract. *)

From S2P Require Import Prelude Float64 PyValue States Models Quotas Canonical Safety RunService.
Local Open Scope Z_scope.

(** ** The protocol *)

Class RunSubmissionService (S : Type) := {
  svc_submit : Tx → string → string → dict → dict → option string → S → result (RunSnapshot * bool) * S;
  svc_get_run : string → uuid → S → result RunSnapshot;
  svc_get_attempts : string → uuid → Z → option uuid → S → result (list AttemptSnapshot);
  svc_get_events : string → uuid → Z → option uuid → S → result (list EventSnapshot);
  svc_evaluate : Tx → string → uuid → list dict → option string → S → result EvaluationSnapshot * S;
  svc_get_evaluations : string → uuid → Z → option uuid → S → result (list EvaluationSnapshot);
  svc_replay : Tx → string → uuid → string → option string → S → result (RunSnapshot * bool) * S;
  svc_submit_regression : Tx → string → string → dict → string → S → result (RunSnapshot * bool) * S;
}.

(** What a read of one run may raise, and a page of its history. *)
Definition lookup_error (e : exn) : Prop := e = RunNotFoundError.
Definition history_error (e : exn) : Prop := e = RunNotFoundError ∨ e = InvalidCursorError.

(** The contract.  [held_by t s u]: the run [u] belongs to the tenant [t]; [only_of t s s']:
    [s'] differs from [s] only in what belongs to [t].  Every operation acts for one tenant, and
    names only runs of it; reads raise only the errors of their lookups, and no other operation
    raises [InvalidCursorError]. *)
Class RunServiceContract (S : Type) `{RunSubmissionService S} (rules_ok : list dict → Prop) := {
  sound : S → Prop;
  held_by : string → S → uuid → Prop;
  only_of : string → S → S → Prop;
  only_of_refl t s : only_of t s s;
  submit_only tx t key input policy p s res s' :
    sound s → svc_submit tx t key input policy p s = (res, s') →
    only_of t s s' ∧ ∀ r b, res = Ok (r, b) → held_by t s' (rs_id r);
  regression_only_of tx t p payload key s res s' :
    sound s → svc_submit_regression tx t p payload key s = (res, s') →
    only_of t s s' ∧ ∀ r b, res = Ok (r, b) → held_by t s' (rs_id r);
  replay_only_of tx t k key p s res s' :
    sound s → svc_replay tx t k key p s = (res, s') →
    only_of t s s'
    ∧ ∀ r b, res = Ok (r, b) → held_by t s' (rs_id r) ∧ rs_replay_of_run_id r = Some k ∧ held_by t s' k;
  evaluate_only_of tx t k rules p s res s' :
    sound s → svc_evaluate tx t k rules p s = (res, s') →
    only_of t s s' ∧ (is_ok res = true → held_by t s' k);
  get_run_held t k s r : sound s → svc_get_run t k s = Ok r → held_by t s (rs_id r) ∧ rs_id r = k;
  attempts_held t k l cur s : is_ok (svc_get_attempts t k l cur s) = true → held_by t s k;
  events_held t k l cur s : is_ok (svc_get_events t k l cur s) = true → held_by t s k;
  evaluations_held t k l cur s : is_ok (svc_get_evaluations t k l cur s) = true → held_by t s k;
  get_run_raises t k s : raises lookup_error (svc_get_run t k s);
  attempts_raise t k l cur s : raises history_error (svc_get_attempts t k l cur s);
  events_raise t k l cur s : raises history_error (svc_get_events t k l cur s);
  evaluations_raise t k l cur s : raises history_error (svc_get_evaluations t k l cur s);
  evaluate_raises tx t k rules p s :
    rules_ok rules → raises (λ e, e ≠ InvalidCursorError) (svc_evaluate tx t k rules p s).1;
  replay_raises tx t k key p s : raises (λ e, e ≠ InvalidCursorError) (svc_replay tx t k key p s).1;
}.

(** ** The implementation on the database *)

Definition SqlAlchemyRunService `{Host} (limits : QuotaLimits) (job_timeout : num) (check_schema : json → bool)
    : RunSubmissionService db := {|
  svc_submit tx t key input policy p := submit limits tx t key input policy p wk_execution;
  svc_get_run := get_run;
  svc_get_attempts := get_attempts;
  svc_get_events := get_events;
  svc_evaluate := evaluate limits job_timeout check_schema;
  svc_get_evaluations := get_evaluations;
  svc_replay := replay limits;
  svc_submit_regression := submit_regression limits job_timeout;
|}.

(** ** Confinement of the run service *)

(** [d'] differs from [d] only in runs of the tenant [t]. *)
Record confined (t : string) (d d' : db) : Prop := {
  others_kept : ∀ k run, runs d !! k = Some run → Run.client_id run ≠ t → runs d' !! k = Some run;
  added_owned : ∀ k run, runs d' !! k = Some run → runs d !! k = Some run ∨ Run.client_id run = t;
}.

Lemma confined_refl t d : confined t d d.
Proof. split; auto. Qed.
Lemma confined_trans t d1 d2 d3 : confined t d1 d2 → confined t d2 d3 → confined t d1 d3.
Proof. intros [K1 A1] [K2 A2]. split; [eauto|]. intros k run [?|?]%A2; [|by right]. by apply A1. Qed.
Lemma confined_runs t d d' : runs d' = runs d → confined t d d'.
Proof. intros E. split; intros; rewrite E in *; auto. Qed.
Lemma confined_put t d d' k r :
  runs d' = <[k := r]> (runs d) → Run.client_id r = t →
  (∀ r0, runs d !! k = Some r0 → Run.client_id r0 = t) → confined t d d'.
Proof.
  intros E Ht Hold. split; intros k' run; rewrite E, lookup_insert; case_decide as Hk; subst.
  - intros Hr Hne. by apply Hold in Hr.
  - done.
  - intros [= <-]. by right.
  - by left.
Qed.

(** The run [u] belongs to the tenant. *)
Definition owned (t : string) (d : db) (u : uuid) : Prop := ∃ run, runs d !! u = Some run ∧ Run.client_id run = t.

Section Service.
Context `{Host} (lim : QuotaLimits) (timeout : num) (check_schema : json → bool).

Lemma submit_confined tx c key input policy p kind d res d' :
  db_wf d → submit lim tx c key input policy p kind d = (res, d') →
  confined c d d' ∧ ∀ s b, res = Ok (s, b) → owned c d' (rs_id s).
Proof.
  intros Hwf Hs. destruct res as [[s b]|e].
  - apply submit_inv in Hs as [(r & Hf & _ & -> & -> & ->)|(r & _ & Hc & -> & ->)].
    + split; [apply confined_refl|]. intros ? ? [= <- <-].
      apply find_some in Hf as (k & Hk & Hc & _). exists r. cbn. by destruct (wf_runs _ Hwf _ _ Hk) as [-> _].
    + apply create_run_ok in Hc as (-> & _ & Hr & _). split.
      * eapply confined_put; [exact Hr|done|]. intros r0. by rewrite (table_ok_fresh _ _ _ (wf_runs _ Hwf)).
      * intros ? ? [= <- <-]. eexists. split; [rewrite Hr; apply lookup_insert_eq|done].
  - apply commit_inv in Hs as [(e' & _ & _ & ->)|(? & _ & ?)]; [|done]. split; [apply confined_refl|done].
Qed.

Lemma replay_confined tx c k key p d res d' :
  db_wf d → replay lim tx c k key p d = (res, d') →
  confined c d d'
  ∧ ∀ s b, res = Ok (s, b) → owned c d' (rs_id s) ∧ rs_replay_of_run_id s = Some k ∧ owned c d' k.
Proof.
  intros Hwf. unfold replay, replay_seeing. intros Hs.
  apply commit_inv in Hs as [(e' & _ & -> & ->)|([s b] & Hs & ->)]; [split; [apply confined_refl|done]|].
  assert (∀ r source, _find_by_idempotency_key c key d = Some r → _get_run_for_client c k d = Ok source →
    Run.replay_of_run_id r = Some (Run.id source) →
    owned c d (Run.id r) ∧ Run.replay_of_run_id r = Some k ∧ owned c d k) as Hstored.
  { intros r source (k0 & Hk0 & Hc & _)%find_some (Hk & Hcs)%get_run_for_client_ok Hrep.
    destruct (wf_runs _ Hwf _ _ Hk0) as [E0 _], (wf_runs _ Hwf _ _ Hk) as [E1 _]. rewrite E0, Hrep, E1.
    split_and!; [by exists r|done|by exists source]. }
  destruct (replay_body _ _ _ _ _ _ _ _) as [[x d0]|e] eqn:E.
  - injection Hs as -> ->. unfold replay_body in E. apply result_bind_ok in E as (source & Hsrc & E).
    apply result_bind_ok in E as (? & _ & E). destruct (_find_by_idempotency_key c key d) as [r|] eqn:Ef.
    + apply result_bind_ok in E as (m & Hm & [= <- <- <-]). split; [apply confined_refl|]. intros ? ? [= <- <-].
      unfold _match_replay_or_raise in Hm. case_bool_decide as Hb; [|done]. cbn. destruct Hb. by eapply Hstored.
    + apply result_bind_ok in E as (? & _ & E). apply result_bind_ok in E as (d1 & Hi & [= <- <- <-]).
      apply insert_run_ok in Hi as [_ ->]. set (r := new_run _ _ _ _ _ _ _ _ _ _ _) in *.
      apply get_run_for_client_ok in Hsrc as [Hk Hcs]. destruct (wf_runs _ Hwf _ _ Hk) as [E1 _].
      pose proof (table_ok_fresh _ _ _ (wf_runs _ Hwf)) as Hfresh.
      match goal with |- confined _ _ ?d2 ∧ _ => assert (runs d2 = <[next_id d := r]> (runs d)) as Hr by done end.
      split.
      * eapply confined_put; [exact Hr|done|]. intros r0. by rewrite Hfresh.
      * intros ? ? [= <- <-]. unfold owned. rewrite Hr. split_and!.
        -- exists r. split; [apply lookup_insert_eq|done].
        -- cbn. by rewrite E1.
        -- exists source. split; [|done]. rewrite lookup_insert_ne; [done|]. intros <-. congruence.
  - case_bool_decide; [|done]. unfold replay_after_race, _get_idempotent_run_after_race in Hs.
    destruct (_find_by_idempotency_key c key d) as [r|] eqn:Ef; [|done]. cbn in Hs.
    apply result_bind_ok in Hs as (source & Hsrc & (m & Hm & [= <- <- <-])%result_bind_ok).
    split; [apply confined_refl|]. intros ? ? [= <- <-].
    unfold _match_replay_or_raise in Hm. case_bool_decide as Hb; [|done]. cbn. destruct Hb. by eapply Hstored.
Qed.

Lemma evaluate_confined tx c k rules p d res d' :
  db_wf d → evaluate lim timeout check_schema tx c k rules p d = (res, d') →
  confined c d d' ∧ (is_ok res = true → owned c d' k).
Proof.
  intros Hwf Hs. apply commit_inv in Hs as [(e' & _ & -> & ->)|(s & Hs & ->)]; [split; [apply confined_refl|done]|].
  apply result_bind_ok in Hs as (? & _ & Hs). apply result_bind_ok in Hs as (run & Hrun & Hs).
  apply result_bind_ok in Hs as (? & _ & Hs). apply result_bind_ok in Hs as (? & _ & Hs).
  apply result_bind_ok in Hs as (d1 & Hi & [= _ <-]). apply insert_run_ok in Hi as [_ ->].
  set (job := new_run _ _ _ _ _ _ _ _ _ _ _) in *. apply get_run_for_client_ok in Hrun as [Hk Hc].
  destruct (wf_runs _ Hwf _ _ Hk) as [Eid _].
  pose proof (table_ok_fresh _ _ _ (wf_runs _ (db_wf_bump d Hwf))) as Hfresh.
  match goal with |- confined _ _ ?d2 ∧ _ =>
    assert (runs d2 = <[k := Run.set_evaluation_status EVAL_PENDING run]> (<[next_id (bump_draws d) := job]> (runs d)))
      as Hr by (by rewrite <- Eid) end.
  split.
  - eapply (confined_trans c d (put_run job d)).
    + eapply confined_put; [done|done|]. intros r0 Hr0.
      change (runs (bump_draws d) !! next_id (bump_draws d) = Some r0) in Hr0. congruence.
    + eapply confined_put; [exact Hr|done|]. intros r0 Hr0.
      change (<[next_id (bump_draws d) := job]> (runs d) !! k = Some r0) in Hr0.
      rewrite lookup_insert_ne in Hr0; [congruence|]. intros <-.
      change (runs d !! next_id (bump_draws d) = None) in Hfresh. congruence.
  - intros _. eexists. split; [rewrite Hr; apply lookup_insert_eq|done].
Qed.

(** ** What the service raises *)

Lemma get_run_for_client_raises c k d : raises (λ e, e = RunNotFoundError) (_get_run_for_client c k d).
Proof. unfold _get_run_for_client. destruct (runs d !! k); [case_bool_decide|]; done. Qed.

Lemma sql_evaluate_raises tx c k rules p d :
  validate_rules check_schema rules = Ok tt →
  raises (λ e, e ≠ InvalidCursorError) (fst (evaluate lim timeout check_schema tx c k rules p d)).
Proof.
  intros Hv. unfold evaluate, commit. rewrite Hv. cbn [mbind result_bind].
  match goal with |- raises _ (fst (match ?m with _ => _ end)) => assert (raises (λ e, e ≠ InvalidCursorError) m) as Hm end;
    [|destruct (_ ≫= _) as [[]|]; done].
  apply raises_bind; [|intros run _].
  { pose proof (get_run_for_client_raises c k d). destruct (_get_run_for_client c k d); cbn in *; [done|by subst]. }
  apply raises_bind; [by apply raises_unless|intros _ _].
  apply raises_bind; [|intros _ _; apply raises_bind; [unfold insert_run; by case_match|done]].
  unfold check_admission, check_provider_budget, check_scope. repeat (apply raises_bind; [|intros _ _]);
    try (by apply raises_unless); repeat case_match; done.
Qed.

Lemma sql_replay_raises tx c k key p d :
  raises (λ e, e ≠ InvalidCursorError) (fst (replay lim tx c k key p d)).
Proof.
  assert (raises (λ e, e ≠ InvalidCursorError) (_get_run_for_client c k d)) as Hget.
  { pose proof (get_run_for_client_raises c k d). destruct (_get_run_for_client c k d); cbn in *; [done|by subst]. }
  assert (∀ r h u, raises (λ e, e ≠ InvalidCursorError) (_match_replay_or_raise r h u)) as Hmatch.
  { intros. unfold _match_replay_or_raise. by case_match. }
  unfold replay, replay_seeing, commit.
  destruct (replay_body lim tx c k key p d d) as [[x d']|e] eqn:E; [done|]. case_bool_decide.
  - assert (raises (λ e, e ≠ InvalidCursorError) (replay_after_race c k key d)) as Hr.
    { unfold replay_after_race, _get_idempotent_run_after_race.
      apply raises_bind; [by case_match|intros r _]. apply raises_bind; [done|intros s _]. by apply raises_bind. }
    by destruct (replay_after_race c k key d) as [[]|].
  - assert (raises (λ e, e ≠ InvalidCursorError) (replay_body lim tx c k key p d d)) as Hr; [|by rewrite E in Hr].
    unfold replay_body. apply raises_bind; [done|intros s _]. apply raises_bind; [by apply raises_unless|intros _ _].
    destruct (_find_by_idempotency_key c key d); [by apply raises_bind|].
    apply raises_bind; [|intros _ _; apply raises_bind; [unfold insert_run; by case_match|done]].
    unfold check_admission, check_provider_budget, check_scope. repeat (apply raises_bind; [|intros _ _]);
      try (by apply raises_unless); repeat case_match; done.
Qed.

Lemma page_raises {A} created ident (rows : list A) l cur :
  raises (λ e, e = InvalidCursorError) (page created ident rows l cur).
Proof. unfold page. apply raises_bind; [|done]. destruct cur; [case_match|]; done. Qed.

Lemma lookup_then_page {A B} c k d created ident (rows : list A) l cur (f : A → B) :
  raises history_error
    (_get_run_for_client c k d;; r ← page created ident rows l cur; Ok (map f r)).
Proof.
  unfold history_error. apply raises_bind; [|intros _ _; apply raises_bind; [|done]].
  - pose proof (get_run_for_client_raises c k d). destruct (_get_run_for_client c k d); cbn in *; auto.
  - pose proof (page_raises created ident rows l cur). destruct (page _ _ _ _ _); cbn in *; auto.
Qed.

Lemma get_run_owned t d k s : db_wf d → get_run t k d = Ok s → owned t d (rs_id s) ∧ rs_id s = k.
Proof.
  intros Hwf (r & (Hk & Hc)%get_run_for_client_ok & [= <-])%result_bind_ok.
  cbn. destruct (wf_runs _ Hwf _ _ Hk) as [-> _]. split; [by exists r|done].
Qed.

(** The three histories start with the lookup of the run. *)
Lemma lookup_owned {A} t k d (m : unit → result A) :
  is_ok (_get_run_for_client t k d ≫= λ _, m tt) = true → owned t d k.
Proof.
  destruct (_get_run_for_client t k d) as [r|] eqn:Er; [|done]. intros _.
  apply get_run_for_client_ok in Er as [??]. by exists r.
Qed.

(** The implementation keeps the contract. *)
#[refine] Definition sql_contract :
  @RunServiceContract db (SqlAlchemyRunService lim timeout check_schema)
    (λ rules, validate_rules check_schema rules = Ok tt) := {|
  sound := db_wf; held_by := owned; only_of := confined; only_of_refl := confined_refl;
|}.
Proof.
  - intros *. apply submit_confined.
  - intros *. apply submit_confined.
  - intros *. apply replay_confined.
  - intros *. apply evaluate_confined.
  - intros *. apply get_run_owned.
  - intros *. apply (lookup_owned t k s (λ _, _)).
  - intros *. apply (lookup_owned t k s (λ _, _)).
  - intros *. apply (lookup_owned t k s (λ _, _)).
  - intros t k s. cbn. unfold get_run. apply raises_bind; [apply get_run_for_client_raises|done].
  - intros *. apply lookup_then_page.
  - intros *. apply lookup_then_page.
  - intros *. apply lookup_then_page.
  - intros *. apply sql_evaluate_raises.
  - intros *. apply sql_replay_raises.
Defined.
End Service.
