(* ===== verification/ExecutionService.v ===== *)
(** * Execution service

    [src/src/agent_runtime/infrastructure/database/execution_service.py]: claims,
    terminal writes, lease recovery and retry scheduling; and the types of
    [application/execution.py].

    Each method is one transaction: a function of the application clock [now], the
    transaction time [tx_now] and the database.  [now] is read after the row lock
    in [claim] and before it in the other methods; in both cases it is an argument.
    The batch methods lock their rows with [SKIP LOCKED]: [visible] says which rows
    no other transaction holds. *)

From S2P Require Import Prelude Float64 PyValue States Retry Models Quotas RunService.
Local Open Scope Z_scope.

Inductive ClaimDecision := CLAIMED | MISSING | TERMINAL | ACTIVE_LEASE | NOT_READY.
#[export] Instance ClaimDecision_eq_dec : EqDecision ClaimDecision.
Proof. solve_decision. Defined.

Record ClaimResult := {
  cr_decision : ClaimDecision;
  cr_run_id : uuid;
  cr_attempt_id : option uuid;
  cr_input_payload : option dict;
  cr_policy_snapshot : option dict;
  cr_provider : option string;
}.

(** [ClaimResult(decision=..., run_id=...)]. *)
Definition claim_result (decision : ClaimDecision) (run_id : uuid) : ClaimResult :=
  {| cr_decision := decision; cr_run_id := run_id; cr_attempt_id := None;
     cr_input_payload := None; cr_policy_snapshot := None; cr_provider := None |}.

Record ExecutionResult := {
  er_provider : string;
  er_result_payload : dict;
  er_usage_metadata : option dict;
}.

(** ** Row helpers *)

Definition attempts_of (run_id : uuid) (d : db) : list RunAttempt.t :=
  rows_where (λ a, bool_decide (RunAttempt.run_id a = run_id)) (attempts d).

(** [SELECT max(attempt_number)], [or 0], plus one. *)
Definition _next_attempt_number (run_id : uuid) (d : db) : Z :=
  match RunAttempt.attempt_number <$> attempts_of run_id d with
  | [] => 0
  | n :: l => foldl Z.max n l
  end + 1.

Definition newer_attempt (a b : RunAttempt.t) : bool :=
  RunAttempt.attempt_number b <? RunAttempt.attempt_number a.

(** The unfinished attempt with the highest number. *)
Definition _latest_open_attempt (run_id : uuid) (d : db) : option RunAttempt.t :=
  head (sort_by newer_attempt
    (filter (λ a, RunAttempt.finished_at a = None) (attempts_of run_id d))).

Definition _owns_active_lease (run : Run.t) (worker_id : string) (now : time) : bool :=
  bool_decide (Run.execution_status run = RUNNING)
  && bool_decide (Run.execution_lease_owner run = Some worker_id)
  && match Run.execution_lease_expires_at run with Some e => now <? e | None => false end.

Definition _clear_lease (run : Run.t) : Run.t :=
  Run.set_execution_lease_expires_at None (Run.set_execution_lease_owner None run).

Definition _finish_failed_attempt (a : RunAttempt.t) (now : time) (error_code : string)
    : RunAttempt.t :=
  RunAttempt.set_latency_ms (Some (elapsed_ms now (RunAttempt.started_at a)))
    (RunAttempt.set_retryable (Some (is_retryable_error error_code))
      (RunAttempt.set_error_code (Some error_code)
        (RunAttempt.set_outcome (Some "FAILED") (RunAttempt.set_finished_at (Some now) a)))).

Definition running_of_principal (principal : string) (r : Run.t) : bool :=
  bool_decide (Run.principal_id r = Some principal) && bool_decide (Run.execution_status r = RUNNING).
Definition running_of_tenant (tenant : string) (r : Run.t) : bool :=
  bool_decide (Run.client_id r = tenant) && bool_decide (Run.execution_status r = RUNNING).

Section ExecutionService.
Context `{Host} (lease_seconds : Z) (limits : QuotaLimits) (service_max_attempts : Z).

(** ** Evaluation jobs *)

Definition evaluation_order (a b : Evaluation.t) : bool :=
  row_lt Evaluation.created_at Evaluation.id b a.

(** The source run shows the status of its latest evaluation. *)
Definition propagate_status (evaluation : Evaluation.t) (d : db) : db :=
  let latest :=
    head (sort_by evaluation_order
      (rows_where (λ e, bool_decide (Evaluation.run_id e = Evaluation.run_id evaluation))
         (evaluations d))) in
  match runs d !! Evaluation.run_id evaluation, latest with
  | Some source, Some l =>
      if bool_decide (Evaluation.id l = Evaluation.id evaluation)
      then put_run (Run.set_evaluation_status (Evaluation.status evaluation) source) d
      else d
  | _, _ => d
  end.

Definition _finalize_evaluation_job (tx_now : time) (run : Run.t) (d : db) : result db :=
  if bool_decide (Run.work_kind run = wk_evaluation) then
    match head (rows_where (λ e, bool_decide (Evaluation.job_run_id e = Some (Run.id run)))
                  (evaluations d)) with
    | None => Err (RuntimeError "Evaluation job has no lifecycle record")
    | Some evaluation =>
        let evaluation :=
          if bool_decide (Run.execution_status run = SUCCEEDED) then
            let passed := match dget "passed" (default [] (Run.result_payload run)) with
                          | Some v => truthy v | None => false end in
            Evaluation.set_result (Run.result_payload run)
              (Evaluation.set_status (if passed then EVAL_PASSED else EVAL_FAILED) evaluation)
          else
            let code := match Run.error_code run with
                        | Some c => if bool_decide (c = "") then "EVALUATION_ERROR" else c
                        | None => "EVALUATION_ERROR"
                        end in
            Evaluation.set_details
              (Some (dset "error_code" (JStr code) (default [] (Evaluation.details evaluation))))
              (Evaluation.set_status EVAL_ERROR evaluation) in
        let evaluation := Evaluation.set_completed_at (Run.completed_at run) evaluation in
        let d := put_evaluation evaluation d in
        let d := propagate_status evaluation d in
        Ok (add_event tx_now (Evaluation.run_id evaluation) None
              ("EVALUATION_" +:+ evaluation_value (Evaluation.status evaluation))
              [("job_run_id", JStr (uuid_str (Run.id run)))] d)
    end
  else Ok d.

(** ** [claim] *)

(** The run goes back to [RETRY_SCHEDULED] for a second when a running limit is met. *)
Definition defer_run (now : time) (run : Run.t) : Run.t :=
  Run.set_next_attempt_at (Some (now + seconds 1)) (Run.set_execution_status RETRY_SCHEDULED run).

Definition reject_run (now : time) (run : Run.t) : Run.t :=
  Run.set_completed_at (Some now)
    (Run.set_error_code (Some "INVALID_STORED_POLICY") (Run.set_execution_status FAILED run)).

(** [retry_policy.provider_order[min(i, len(provider_order) - 1)]]. *)
Definition provider_at (p : RetryPolicy) (i : Z) : result string :=
  match provider_order p !! Z.to_nat (Z.min i (Z.of_nat (length (provider_order p)) - 1)) with
  | Some s => Ok s
  | None => Err (OtherException "IndexError")
  end.

Definition new_attempt (id run_id : uuid) (number : Z) (provider worker_id : string) (now : time)
    : RunAttempt.t :=
  {| RunAttempt.id := id; RunAttempt.run_id := run_id; RunAttempt.attempt_number := number;
     RunAttempt.provider := provider; RunAttempt.worker_id := worker_id;
     RunAttempt.started_at := now; RunAttempt.finished_at := None; RunAttempt.outcome := None;
     RunAttempt.error_code := None; RunAttempt.retryable := None; RunAttempt.latency_ms := None;
     RunAttempt.usage_metadata := None |}.

Definition lease_run (now : time) (worker_id : string) (run : Run.t) : Run.t :=
  Run.set_started_at (Some (default now (Run.started_at run)))
    (Run.set_execution_lease_expires_at (Some (now + seconds lease_seconds))
      (Run.set_execution_lease_owner (Some worker_id) (Run.set_execution_status RUNNING run))).

(** The claim of a [QUEUED] run within its attempt budget. *)
Definition start_attempt (now tx_now : time) (worker_id : string) (run : Run.t) (p : RetryPolicy)
    (number : Z) (d : db) : result (ClaimResult * db) :=
  provider ← provider_at p (number - 1);
  let attempt := new_attempt (next_id d) (Run.id run) number provider worker_id tx_now in
  let d1 := bump_draws (put_attempt attempt (put_run (lease_run now worker_id run) d)) in
  (if 1 <? number then provider_at p (number - 2);; Ok tt else Ok tt);;
  let d2 := add_event tx_now (Run.id run) (Some (RunAttempt.id attempt)) "RUN_CLAIMED"
              [("worker_id", JStr worker_id); ("attempt_number", JNum (NInt number))] d1 in
  Ok ({| cr_decision := CLAIMED; cr_run_id := Run.id run;
         cr_attempt_id := Some (RunAttempt.id attempt);
         cr_input_payload := Some (Run.input_payload run);
         cr_policy_snapshot :=
           Some (dset "attempt_timeout_seconds"
                   (JNum (num_min (NFloat (attempt_timeout_seconds p)) (NInt (lease_seconds - 1))))
                   (Run.policy_snapshot run));
         cr_provider := Some provider |}, d2).

(** The [try] block: the stored policy, with its attempt budget. *)
Definition claim_policy (run : Run.t) (number : Z) : result RetryPolicy :=
  p ← from_snapshot (Run.policy_snapshot run);
  raise_unless (number <=? Z.min (max_attempts p) service_max_attempts)
    (ValueError "Attempt budget exhausted");;
  Ok p.

Definition claim_queued (now tx_now : time) (worker_id : string) (run : Run.t) (d : db)
    : result (ClaimResult * db) :=
  let principal := principal_or (Run.principal_id run) (Run.client_id run) in
  if (principal_running limits <=? count_runs (running_of_principal principal) d)
     || (tenant_running limits <=? count_runs (running_of_tenant (Run.client_id run)) d)
  then Ok (claim_result NOT_READY (Run.id run), put_run (defer_run now run) d)
  else
    let number := _next_attempt_number (Run.id run) d in
    match claim_policy run number with
    | Ok p => start_attempt now tx_now worker_id run p number d
    | Err e =>
        if is_value_error e then
          let run' := reject_run now run in
          d' ← _finalize_evaluation_job tx_now run' (put_run run' d);
          Ok (claim_result TERMINAL (Run.id run), d')
        else Err e
    end.

Definition claim (now tx_now : time) (run_id : uuid) (worker_id : string) (d : db)
    : result ClaimResult * db :=
  commit d
    match runs d !! run_id with
    | None => Ok (claim_result MISSING run_id, d)
    | Some run =>
        if is_terminal_execution_status (Run.execution_status run)
        then Ok (claim_result TERMINAL (Run.id run), d)
        else
          match Run.execution_status run with
          | RUNNING =>
              match Run.execution_lease_expires_at run with
              | Some e => if now <? e then Ok (claim_result ACTIVE_LEASE (Run.id run), d)
                          else Ok (claim_result NOT_READY (Run.id run), d)
              | None => Ok (claim_result ACTIVE_LEASE (Run.id run), d)
              end
          | QUEUED => claim_queued now tx_now worker_id run d
          | _ => Ok (claim_result NOT_READY (Run.id run), d)
          end
    end.

(** ** Terminal writes *)

(** The open attempt [attempt_id] of the run [worker_id] holds, if it still does. *)
Definition owned_attempt (now : time) (run_id attempt_id : uuid) (worker_id : string) (d : db)
    : option (Run.t * RunAttempt.t) :=
  run ← runs d !! run_id;
  if _owns_active_lease run worker_id now then
    a ← attempts d !! attempt_id;
    if bool_decide (RunAttempt.run_id a = Run.id run ∧ RunAttempt.finished_at a = None)
    then Some (run, a) else None
  else None.

Definition succeed_attempt (now : time) (r : ExecutionResult) (a : RunAttempt.t) : RunAttempt.t :=
  RunAttempt.set_latency_ms (Some (elapsed_ms now (RunAttempt.started_at a)))
    (RunAttempt.set_outcome (Some "SUCCEEDED")
      (RunAttempt.set_finished_at (Some now)
        (RunAttempt.set_usage_metadata (er_usage_metadata r)
          (RunAttempt.set_provider (er_provider r) a)))).

Definition succeed_run (now : time) (r : ExecutionResult) (run : Run.t) : Run.t :=
  _clear_lease
    (Run.set_next_attempt_at None
      (Run.set_error_code None
        (Run.set_completed_at (Some now)
          (Run.set_result_payload (Some (er_result_payload r))
            (Run.set_execution_status SUCCEEDED run))))).

Definition complete_success (now tx_now : time) (run_id attempt_id : uuid) (worker_id : string)
    (r : ExecutionResult) (d : db) : result bool * db :=
  commit d
    match owned_attempt now run_id attempt_id worker_id d with
    | None => Ok (false, d)
    | Some (run, a) =>
        let run' := succeed_run now r run in
        let d1 := put_run run' (put_attempt (succeed_attempt now r a) d) in
        let d2 := add_event tx_now (Run.id run) (Some (RunAttempt.id a)) "RUN_SUCCEEDED"
                    [("provider", JStr (er_provider r))] d1 in
        d3 ← _finalize_evaluation_job tx_now run' d2;
        Ok (true, d3)
    end.

(** ** Retry or finish *)

Definition retry_run (error_code : string) (at_ : time) (run : Run.t) : Run.t :=
  Run.set_next_attempt_at (Some at_)
    (Run.set_execution_status RETRY_SCHEDULED (Run.set_error_code (Some error_code) (_clear_lease run))).

Definition finish_run (status : ExecutionStatus) (error_code : string) (now : time) (run : Run.t)
    : Run.t :=
  Run.set_execution_status status
    (Run.set_completed_at (Some now)
      (Run.set_next_attempt_at None (Run.set_error_code (Some error_code) (_clear_lease run)))).

Definition _schedule_retry_or_finalize (now tx_now : time) (run : Run.t) (a : RunAttempt.t)
    (error_code : string) (recovery : bool) (d : db) : result db :=
  p ← from_snapshot (Run.policy_snapshot run);
  let retryable := default false (RunAttempt.retryable a) in
  let number := RunAttempt.attempt_number a in
  if retryable && (number <? max_attempts p) then
    delay ← delay_after_attempt p number;
    next ← add_seconds now delay;
    Ok (add_event tx_now (Run.id run) (Some (RunAttempt.id a)) "RUN_RETRY_SCHEDULED"
          [("error_code", JStr error_code); ("attempt_number", JNum (NInt number));
           ("next_attempt_at", JStr (isoformat next)); ("delay_seconds", JNum (NFloat delay));
           ("recovery", JBool recovery)]
          (put_run (retry_run error_code next run) d))
  else if retryable then
    let run' := finish_run DEAD_LETTERED error_code now run in
    let d1 := add_outbox tx_now (Run.id run) "RUN_DEAD_LETTERED"
                [("trace_context", JObj (Run.trace_context run)); ("error_code", JStr error_code)]
                (put_run run' d) in
    let d2 := add_event tx_now (Run.id run) (Some (RunAttempt.id a)) "RUN_DEAD_LETTERED"
                [("error_code", JStr error_code); ("attempt_number", JNum (NInt number));
                 ("max_attempts", JNum (NInt (max_attempts p))); ("recovery", JBool recovery)] d1 in
    _finalize_evaluation_job tx_now run' d2
  else
    let run' := finish_run FAILED error_code now run in
    let d1 := add_event tx_now (Run.id run) (Some (RunAttempt.id a)) "RUN_FAILED"
                [("error_code", JStr error_code); ("recovery", JBool recovery)] (put_run run' d) in
    _finalize_evaluation_job tx_now run' d1.

(** A failed attempt and what follows for its run. *)
Definition fail_attempt (now tx_now : time) (run : Run.t) (a : RunAttempt.t) (error_code : string)
    (recovery : bool) (d : db) : result db :=
  let a' := _finish_failed_attempt a now error_code in
  _schedule_retry_or_finalize now tx_now run a' error_code recovery (put_attempt a' d).

Definition complete_failure (now tx_now : time) (run_id attempt_id : uuid) (worker_id : string)
    (error_code : string) (d : db) : result bool * db :=
  commit d
    match owned_attempt now run_id attempt_id worker_id d with
    | None => Ok (false, d)
    | Some (run, a) =>
        d' ← fail_attempt now tx_now run a error_code false d;
        Ok (true, d')
    end.

(** ** Batches *)

Definition opt_time_lt (key : Run.t → option time) (a b : Run.t) : bool :=
  match key a, key b with Some x, Some y => x <? y | _, _ => false end.

Definition lease_expired (now : time) (r : Run.t) : bool :=
  bool_decide (Run.execution_status r = RUNNING)
  && match Run.execution_lease_expires_at r with Some e => e <=? now | None => false end.

(** [ORDER BY key LIMIT batch_size], over the rows no other transaction has locked. *)
Definition select_batch (P : Run.t → bool) (key : Run.t → option time) (visible : uuid → bool)
    (batch_size : Z) (d : db) : list Run.t :=
  take (Z.to_nat batch_size)
    (sort_by (opt_time_lt key) (rows_where (λ r, P r && visible (Run.id r)) (runs d))).

(** One iteration of the loop of [recover_expired_leases]. *)
Definition recover_one (now tx_now : time) (d : db) (run : Run.t) : result db :=
  match _latest_open_attempt (Run.id run) d with
  | None => Ok d
  | Some a =>
      (* the row as this session holds it *)
      let run := default run (runs d !! Run.id run) in
      fail_attempt now tx_now run a "EXECUTION_LEASE_EXPIRED" true d
  end.

Fixpoint fold_result {A} (f : db → A → result db) (d : db) (l : list A) : result db :=
  match l with
  | [] => Ok d
  | x :: l' => d' ← f d x; fold_result f d' l'
  end.

Definition recover_expired_leases (now tx_now : time) (visible : uuid → bool) (batch_size : Z)
    (d : db) : result Z * db :=
  commit d (
    let batch := select_batch (lease_expired now) Run.execution_lease_expires_at visible batch_size d in
    d' ← fold_result (recover_one now tx_now) d batch;
    Ok (Z.of_nat (length batch), d')).

Definition retry_due (now : time) (r : Run.t) : bool :=
  bool_decide (Run.execution_status r = RETRY_SCHEDULED)
  && match Run.next_attempt_at r with Some t => t <=? now | None => false end.

Definition requeue_run (run : Run.t) : Run.t :=
  Run.set_next_attempt_at None (Run.set_execution_status QUEUED run).

Definition schedule_one (now tx_now : time) (d : db) (run : Run.t) : result db :=
  let d1 := add_outbox tx_now (Run.id run) "RUN_QUEUED"
              [("trace_context", JObj (Run.trace_context run)); ("reason", JStr "retry_due")]
              (put_run (requeue_run run) d) in
  Ok (add_event tx_now (Run.id run) None "RUN_RETRY_QUEUED"
        [("scheduled_at", JStr (isoformat now))] d1).

Definition schedule_due_retries (now tx_now : time) (visible : uuid → bool) (batch_size : Z)
    (d : db) : result Z * db :=
  commit d (
    let batch := select_batch (retry_due now) Run.next_attempt_at visible batch_size d in
    d' ← fold_result (schedule_one now tx_now) d batch;
    Ok (Z.of_nat (length batch), d')).
End ExecutionService.
