(* ===== verification/Providers.v ===== *)
(** * Provider adapters

    [src/src/agent_runtime/providers/]: the deterministic adapter, the adapter of OpenAI's
    Responses API and the registry that resolves an adapter by name.  The HTTP transport is
    a parameter: for a request body it gives what httpx reports, a timeout, a request error
    or a response with its status and, when it parses, its JSON body. *)

From S2P Require Import Prelude Float64 PyValue States Retry Models ExecutionService.
Local Open Scope Z_scope.

(** What [execute] of an adapter computes from the input and the policy snapshot. *)
Definition adapter := dict → dict → result ExecutionResult.

(** ** [deterministic.py] *)

Definition deterministic_execute (echo_input : bool) : adapter := λ input_payload _,
  Ok {| er_provider := "deterministic";
        er_result_payload :=
          ("accepted", JBool true) :: (if echo_input then [("accepted_input", JObj input_payload)] else []);
        er_usage_metadata := None |}.

(** ** [openai_responses.py] *)

Inductive http_outcome :=
| HttpTimeout
| HttpRequestError
| HttpResponse (status : Z) (body : option json).

(** [response.is_error] of httpx: a 4xx or 5xx status. *)
Definition is_error_status (status : Z) : bool := (400 <=? status) && (status <=? 599).

Definition nonblank_str (v : option json) : option string :=
  match v with Some (JStr s) => if Text.nonblank s then Some s else None | _ => None end.

(** [prompt] when it is a non-blank string, else [messages] when it is a non-empty list. *)
Definition provider_input (input_payload : dict) : result json :=
  match nonblank_str (dget "prompt" input_payload), dget "messages" input_payload with
  | Some prompt, _ => Ok (JStr prompt)
  | None, Some (JArr (m :: ms)) => Ok (JArr (m :: ms))
  | None, _ => Err ProviderConfigurationError
  end.

(** An optional key of the policy: absent or [None] adds nothing, a wrong type raises. *)
Definition optional_key (key : string) (v : option json) (ok : json → bool) : result dict :=
  match v with
  | None | Some JNull => Ok []
  | Some x => raise_unless (ok x) ProviderConfigurationError;; Ok [(key, x)]
  end.

Definition is_nonblank (v : json) : bool := match v with JStr s => Text.nonblank s | _ => false end.
Definition is_int (v : json) : bool := match v with JNum (NInt _) => true | _ => false end.

Definition _request_body (default_model : string) (input_payload policy_snapshot : dict) : result dict :=
  match dget_or "model" (JStr default_model) policy_snapshot with
  | JStr model =>
      raise_unless (Text.nonblank model) ProviderConfigurationError;;
      inp ← provider_input input_payload;
      instructions ← optional_key "instructions" (dget "instructions" policy_snapshot) is_nonblank;
      tokens ← optional_key "max_output_tokens" (dget "max_output_tokens" policy_snapshot) is_int;
      Ok ([("model", JStr model); ("input", inp); ("store", JBool false)] ++ instructions ++ tokens)
  | _ => Err ProviderConfigurationError
  end.

(** The texts of the [output_text] parts of one item of [output]. *)
Definition part_text (part : json) : list string :=
  match part with
  | JObj p =>
      match dget "type" p, dget "text" p with
      | Some (JStr t), Some (JStr text) => if bool_decide (t = "output_text") then [text] else []
      | _, _ => []
      end
  | _ => []
  end.
Definition item_texts (item : json) : list string :=
  match item with
  | JObj i => match dget "content" i with Some (JArr parts) => parts ≫= part_text | _ => [] end
  | _ => []
  end.

Definition _output_text (payload : dict) : string :=
  match dget "output_text" payload with
  | Some (JStr direct) => direct
  | _ =>
      match dget "output" payload with
      | Some (JArr items) => foldr String.append "" (items ≫= item_texts)
      | _ => ""
      end
  end.

(** [isinstance(x, int)] holds of booleans too. *)
Definition is_python_int (v : json) : bool :=
  match v with JNum (NInt _) | JBool _ => true | _ => false end.

Definition _usage_metadata (value : option json) : option dict :=
  match value with
  | Some (JObj v) =>
      let usage := ["input_tokens"; "output_tokens"; "total_tokens"] ≫= λ key,
        match dget key v with Some x => if is_python_int x then [(key, x)] else [] | None => [] end in
      match usage with [] => None | _ => Some usage end
  | _ => None
  end.

Definition _string_or_none (v : option json) : json :=
  match v with Some (JStr s) => JStr s | _ => JNull end.

Definition openai_result (payload : dict) : ExecutionResult :=
  {| er_provider := "openai";
     er_result_payload :=
       [("provider_response_id", _string_or_none (dget "id" payload));
        ("model", _string_or_none (dget "model" payload));
        ("output_text", JStr (_output_text payload))];
     er_usage_metadata := _usage_metadata (dget "usage" payload) |}.

Definition openai_execute (api_key : option string) (default_model : string)
    (transport : dict → http_outcome) : adapter := λ input_payload policy_snapshot,
  match api_key with
  | None => Err ProviderConfigurationError
  | Some _ =>
      body ← _request_body default_model input_payload policy_snapshot;
      match transport body with
      | HttpTimeout => Err TimeoutError
      | HttpRequestError => Err (RuntimeError "OpenAI request did not receive a response")
      | HttpResponse status b =>
          raise_unless (negb (is_error_status status)) (ProviderHttpError status);;
          match b with
          | None => Err (ValueError "Expecting value")
          | Some (JObj payload) => Ok (openai_result payload)
          | Some _ => Err (RuntimeError "OpenAI returned a non-object response")
          end
      end
  end.

(** ** [registry.py] *)

(** [{adapter.name: adapter ...}]: a later adapter replaces an earlier one of its name. *)
Definition registry := list (string * adapter).
Definition mk_registry (adapters : registry) : result registry :=
  raise_unless (negb (match adapters with [] => true | _ => false end))
    (ValueError "At least one provider adapter is required");;
  Ok adapters.
Definition lookup_adapter (provider : string) (r : registry) : option adapter :=
  snd <$> last (filter (λ a, a.1 = provider) r).
Definition registry_execute (r : registry) (provider : string) : adapter := λ input_payload policy_snapshot,
  match lookup_adapter provider r with
  | None => Err ProviderConfigurationError
  | Some a => a input_payload policy_snapshot
  end.

(** The adapters [_run_worker] configures. *)
Definition worker_adapters (echo_input : bool) (api_key : option string) (default_model : string)
    (transport : dict → http_outcome) : registry :=
  [("deterministic", deterministic_execute echo_input); ("openai", openai_execute api_key default_model transport)].

(** ** Theorems *)

Lemma provider_input_err i e : provider_input i = Err e → e = ProviderConfigurationError.
Proof. unfold provider_input. repeat case_match; congruence. Qed.

Lemma optional_key_err k v ok e : optional_key k v ok = Err e → e = ProviderConfigurationError.
Proof.
  unfold optional_key, raise_unless. destruct v as [[]|]; try done; destruct (ok _); cbn; congruence.
Qed.

Lemma request_body_err m i p e : _request_body m i p = Err e → e = ProviderConfigurationError.
Proof.
  unfold _request_body. destruct (dget_or _ _ _) as [| | |model| |]; try congruence.
  destruct (Text.nonblank model); cbn; [|congruence].
  destruct (provider_input i) eqn:Ei; cbn; [|intros [= ->]; by eapply provider_input_err].
  destruct (optional_key "instructions" _ _) eqn:E1; cbn; [|intros [= ->]; by eapply optional_key_err].
  destruct (optional_key "max_output_tokens" _ _) eqn:E2; cbn; [done|intros [= ->]; by eapply optional_key_err].
Qed.

(** The error code an attempt gets when its HTTP request ended with [o]. *)
Definition code_of_outcome (o : http_outcome) : option ExecutionErrorCode :=
  match o with
  | HttpTimeout => Some PROVIDER_TIMEOUT
  | HttpRequestError => Some EXECUTION_ERROR
  | HttpResponse s b =>
      if s =? 429 then Some PROVIDER_RATE_LIMITED
      else if (s =? 401) || (s =? 403) then Some PROVIDER_AUTH_FAILED
      else if (500 <=? s) && (s <=? 599) then Some PROVIDER_SERVER_ERROR
      else if (400 <=? s) && (s <=? 499) then Some PROVIDER_BAD_REQUEST
      else match b with Some (JObj _) => None | _ => Some EXECUTION_ERROR end
  end.

Lemma code_of_status s b :
  code_of_outcome (HttpResponse s b)
  = if is_error_status s then Some (classify_exception (ProviderHttpError s))
    else match b with Some (JObj _) => None | _ => Some EXECUTION_ERROR end.
Proof.
  unfold is_error_status. cbn.
  destruct (Z.eqb_spec s 429), (Z.eqb_spec s 401), (Z.eqb_spec s 403), (Z.leb_spec 500 s), (Z.leb_spec s 599),
    (Z.leb_spec 400 s), (Z.leb_spec s 499); cbn; lia || done.
Qed.

(** Every way an OpenAI attempt can end gets its code: without a key or with an input or
    policy the adapter cannot send, the attempt fails as a bad request,
    which is not retried; otherwise the request's timeouts, connection errors, statuses and
    unreadable bodies are classified as the table says, and the attempt succeeds exactly on a JSON object with a non-error status, with a result that holds nothing but the
    response id, the model and the text. *)
Theorem openai_outcome_classified api_key model transport input policy :
  let outcome := openai_execute api_key model transport input policy in
  match api_key, _request_body model input policy with
  | Some _, Ok body =>
      match code_of_outcome (transport body) with
      | Some code => ∃ e, outcome = Err e ∧ classify_exception e = code
      | None => ∃ r, outcome = Ok r ∧ er_provider r = "openai"
                  ∧ dkeys (er_result_payload r) = ["provider_response_id"; "model"; "output_text"]
      end
  | _, _ => outcome = Err ProviderConfigurationError
            ∧ is_retryable_error (error_code_value (classify_exception ProviderConfigurationError)) = false
  end.
Proof.
  intros outcome. unfold outcome, openai_execute. destruct api_key as [k|]; [|done].
  destruct (_request_body model input policy) as [body|e] eqn:Eb; cbn.
  2: { apply request_body_err in Eb as ->. done. }
  destruct (transport body) as [| |s b]; [by eexists|by eexists|].
  rewrite code_of_status. destruct (is_error_status s); cbn; [by eexists|].
  destruct b as [[| | | | |payload]|]; by eexists.
Qed.
