(* ===== verification/Lifecycle.v ===== *)
(** * The lifecycle of a run

    The abstract machine behind the services: [life] is the relation between the
    databases before and after one elementary change of the run, attempt and
    evaluation tables, with the guard under which the code makes it.  The
    operations of [RunService] and [ExecutionService] are shown to be sequences of
    such changes; the invariants of the runtime are proved once, on [life].

    [run_inv] is what holds of a run, its attempts and its evaluation; [db_inv] is
    the invariant of the whole database. *)

From S2P Require Import Prelude Float64 PyValue States Retry Models Quotas RunService ExecutionService.
Local Open Scope Z_scope.

(** ** The invariant of one run *)

Definition is_open (a : RunAttempt.t) : Prop := RunAttempt.finished_at a = None.
#[export] Instance is_open_dec a : Decision (is_open a).
Proof. unfold is_open. apply _. Defined.

(** Who may work on the run: while it is [RUNNING] there is a lease and exactly one
    open attempt, the latest, made by the lease owner; otherwise there is neither. *)
Definition lease_inv (att : list RunAttempt.t) (r : Run.t) : Prop :=
  match Run.execution_status r with
  | RUNNING =>
      ∃ w e a, Run.execution_lease_owner r = Some w ∧ Run.execution_lease_expires_at r = Some e
        ∧ filter is_open att ≡ₚ [a] ∧ RunAttempt.worker_id a = w
        ∧ RunAttempt.attempt_number a = len att
  | _ =>
      Run.execution_lease_owner r = None ∧ Run.execution_lease_expires_at r = None
      ∧ filter is_open att ≡ₚ []
  end.

(** The stored policy is readable and its backoff is at most a day. *)
Definition policy_ok (policy : dict) (p : RetryPolicy) : Prop :=
  from_snapshot policy = Ok p ∧ num_le (NFloat (max_backoff_seconds p)) (NInt 86400) = true.

Record run_inv (service_max : Z) (evals : gmap uuid Evaluation.t) (att : list RunAttempt.t)
    (r : Run.t) : Prop := {
  ri_numbers : RunAttempt.attempt_number <$> att ≡ₚ seqZ 1 (len att);
  ri_lease : lease_inv att r;
  ri_next : is_Some (Run.next_attempt_at r) ↔ Run.execution_status r = RETRY_SCHEDULED;
  ri_completed :
    is_Some (Run.completed_at r) ↔ is_active (Run.execution_status r) = false;
  ri_result : is_Some (Run.result_payload r) ↔ Run.execution_status r = SUCCEEDED;
  ri_policy : ∃ p, policy_ok (Run.policy_snapshot r) p
                ∧ len att ≤ Z.max 0 (Z.min (max_attempts p) service_max);
  ri_evaluation : Run.work_kind r = wk_evaluation →
    ∃ k e, evals !! k = Some e ∧ Evaluation.job_run_id e = Some (Run.id r);
  ri_principal : ∃ p, Run.principal_id r = Some p ∧ p ≠ "";
}.

(** A run as it is inserted. *)
Definition is_new (r : Run.t) : Prop :=
  Run.execution_status r = QUEUED ∧ Run.execution_lease_owner r = None
  ∧ Run.execution_lease_expires_at r = None ∧ Run.next_attempt_at r = None
  ∧ Run.completed_at r = None ∧ Run.result_payload r = None.

(** Changes of a run alone. *)
Inductive move : Run.t → Run.t → Prop :=
| move_defer now r : Run.execution_status r = QUEUED → move r (defer_run now r)
| move_reject now r : Run.execution_status r = QUEUED → move r (reject_run now r)
| move_requeue r : Run.execution_status r = RETRY_SCHEDULED → move r (requeue_run r)
| move_evaluation s r : move r (Run.set_evaluation_status s r).

(** How a running attempt ends. *)
Inductive ending : Run.t → Run.t → Prop :=
| end_success now x r : ending r (succeed_run now x r)
| end_retry code at_ r : ending r (retry_run code at_ r)
| end_dead now code r : ending r (finish_run DEAD_LETTERED code now r)
| end_failed now code r : ending r (finish_run FAILED code now r).

Definition finished_version (a a' : RunAttempt.t) : Prop :=
  RunAttempt.id a' = RunAttempt.id a ∧ RunAttempt.run_id a' = RunAttempt.run_id a
  ∧ RunAttempt.attempt_number a' = RunAttempt.attempt_number a ∧ is_Some (RunAttempt.finished_at a').

Lemma run_inv_perm sm evals att att' r :
  att ≡ₚ att' → run_inv sm evals att r → run_inv sm evals att' r.
Proof.
  intros Hp []. split; try done.
  - unfold len in *. by rewrite <- Hp.
  - unfold lease_inv, len in *. case_match; destruct_and?; split_and?; try done; try (by rewrite <- Hp).
    destruct ri_lease0 as (w & e & a & ?). exists w, e, a. by rewrite <- Hp.
  - unfold len in *. by setoid_rewrite <- Hp.
Qed.

Lemma run_inv_evals sm evals evals' att r :
  (∀ k e, evals !! k = Some e → ∃ e', evals' !! k = Some e'
     ∧ Evaluation.job_run_id e' = Evaluation.job_run_id e) →
  run_inv sm evals att r → run_inv sm evals' att r.
Proof.
  intros He []. split; try done. intros Hk. destruct (ri_evaluation0 Hk) as (k & e & Hke & Hj).
  destruct (He k e Hke) as (e' & ? & ?). exists k, e'. split; [done|congruence].
Qed.

Lemma is_Some_none {A} : is_Some (@None A) ↔ False.
Proof. split; [by intros []|done]. Qed.
Lemma is_Some_some {A} (x : A) : is_Some (Some x) ↔ True.
Proof. split; [done|]. eauto. Qed.

Lemma run_inv_new sm evals r p :
  is_new r → policy_ok (Run.policy_snapshot r) p →
  (Run.work_kind r = wk_evaluation →
    ∃ k e, evals !! k = Some e ∧ Evaluation.job_run_id e = Some (Run.id r)) →
  (∃ p, Run.principal_id r = Some p ∧ p ≠ "") →
  run_inv sm evals [] r.
Proof.
  intros (Hs & Ho & He & Hn & Hc & Hr) Hp Hev Hpr.
  split; try done; unfold lease_inv; rewrite ?Hs, ?Hn, ?Hc, ?Hr, ?is_Some_none; try done.
  exists p. split; [done|]. unfold len. cbn. lia.
Qed.

(** The fields of [run_inv] after an assignment. *)
Ltac solve_run_inv :=
  split; unfold lease_inv in *; cbn in *; rewrite ?is_Some_none, ?is_Some_some in *;
  try done; try (intuition congruence).

Lemma run_inv_move sm evals att r r' :
  run_inv sm evals att r → move r r' → run_inv sm evals att r'.
Proof.
  intros Hr Hm. destruct Hm as [now r Hs|now r Hs|r Hs|s r]; destruct Hr;
    unfold lease_inv in *; rewrite ?Hs in *; solve_run_inv.
Qed.

Lemma numbers_cons att a :
  RunAttempt.attempt_number <$> att ≡ₚ seqZ 1 (len att) →
  RunAttempt.attempt_number a = len att + 1 →
  RunAttempt.attempt_number <$> (a :: att) ≡ₚ seqZ 1 (len (a :: att)).
Proof.
  intros Hn Ha. rewrite len_cons, seqZ_app by (unfold len; lia). rewrite fmap_cons, Hn, Ha.
  rewrite Permutation_app_comm. unfold len. cbn. by replace (1 + Z.of_nat (length att)) with (Z.of_nat (length att) + 1) by lia.
Qed.

Lemma run_inv_start sm evals att r now worker lease provider p tx_now id :
  run_inv sm evals att r → Run.execution_status r = QUEUED →
  from_snapshot (Run.policy_snapshot r) = Ok p → len att + 1 ≤ Z.min (max_attempts p) sm →
  run_inv sm evals (new_attempt id (Run.id r) (len att + 1) provider worker tx_now :: att)
    (lease_run lease now worker r).
Proof.
  intros [] Hs Hp Hle. unfold lease_inv in *. rewrite Hs in *.
  remember (new_attempt id (Run.id r) (len att + 1) provider worker tx_now) as a eqn:Ha.
  assert (RunAttempt.attempt_number a = len att + 1 ∧ RunAttempt.worker_id a = worker ∧ is_open a)
    as (Hnum & Hw & Ho) by (by subst a).
  assert (filter is_open (a :: att) ≡ₚ [a]) as Hopen.
  { rewrite filter_cons, decide_True by done. by destruct ri_lease0 as (_ & _ & ->). }
  pose proof (numbers_cons att a ri_numbers0 Hnum). clear Ha.
  split; unfold lease_inv; rewrite ?len_cons in *; cbn [Run.execution_status lease_run]; try done.
  - exists worker, (now + seconds lease), a. by split_and!.
  - cbn in *. intuition congruence.
  - cbn in *. intuition congruence.
  - exists p. destruct ri_policy0 as (p' & [Hp' Hb] & _).
    assert (p' = p) as -> by congruence. split; [done|]. lia.
Qed.

Lemma run_inv_finish sm evals a a' rest r r' :
  run_inv sm evals (a :: rest) r → Run.execution_status r = RUNNING → is_open a →
  finished_version a a' → ending r r' → run_inv sm evals (a' :: rest) r'.
Proof.
  intros [] Hs Ho (Hid & Hrun & Hnum & Hfin) Hend. unfold lease_inv in ri_lease0. rewrite Hs in *.
  assert (filter is_open (a' :: rest) ≡ₚ []) as Hopen.
  { destruct ri_lease0 as (w & e & a0 & _ & _ & Hf & _).
    rewrite filter_cons, decide_True in Hf by done. apply Permutation_singleton_r in Hf.
    injection Hf as _ Hf. rewrite filter_cons, decide_False; [by rewrite Hf|].
    unfold is_open. intros Hn. rewrite Hn in Hfin. by destruct Hfin. }
  assert (RunAttempt.attempt_number <$> (a' :: rest) ≡ₚ seqZ 1 (len (a' :: rest))) as Hn.
  { rewrite fmap_cons, Hnum, <- fmap_cons. by rewrite ri_numbers0. }
  assert (len (a' :: rest) = len (a :: rest)) as Hlen by done.
  destruct Hend; solve_run_inv.
Qed.

(** ** The abstract machine *)

(** [d'] has an unpublished delivery intent for run [k]. *)
Definition announced (d' : db) (k : uuid) : Prop :=
  ∃ o, outbox d' !! OutboxEvent.id o = Some o ∧ OutboxEvent.aggregate_id o = k
       ∧ OutboxEvent.event_type o = "RUN_QUEUED" ∧ OutboxEvent.published_at o = None.

(** A delivery intent carries the trace context of the run it is about. *)
Definition about_run (rs : gmap uuid Run.t) (e : OutboxEvent.t) : Prop :=
  ∃ r, rs !! OutboxEvent.aggregate_id e = Some r
       ∧ dget "trace_context" (OutboxEvent.payload e) = Some (JObj (Run.trace_context r)).

(** The outbox only gains rows, each about a run of the new database. *)
Definition outbox_grows (d d' : db) : Prop :=
  outbox d ⊆ outbox d' ∧ ∀ o e, outbox d' !! o = Some e → outbox d !! o = Some e ∨ about_run (runs d') e.

Lemma outbox_grows_same d d' : outbox d' = outbox d → outbox_grows d d'.
Proof. intros Ho. split; rewrite Ho; [done|auto]. Qed.
#[export] Hint Extern 0 (outbox_grows _ _) => apply outbox_grows_same; reflexivity : core.

Section Life.
Context (limits : QuotaLimits) (sm lease : Z).

Definition principal_of (r : Run.t) : string := principal_or (Run.principal_id r) (Run.client_id r).

Inductive life (d d' : db) : Prop :=
| life_frame :
    runs d' = runs d → attempts d' = attempts d → evaluations d' = evaluations d →
    outbox_grows d d' → life d d'
| life_create r eo p :
    runs d !! Run.id r = None → runs d' = <[Run.id r := r]> (runs d) → attempts d' = attempts d →
    match eo with
    | None => evaluations d' = evaluations d ∧ Run.work_kind r ≠ wk_evaluation
    | Some e => evaluations d !! Evaluation.id e = None
                ∧ evaluations d' = <[Evaluation.id e := e]> (evaluations d)
                ∧ Evaluation.job_run_id e = Some (Run.id r)
    end →
    outbox_grows d d' → announced d' (Run.id r) →
    is_new r → policy_ok (Run.policy_snapshot r) p → (∃ p, Run.principal_id r = Some p ∧ p ≠ "") →
    (∀ s, Run.replay_of_run_id r = Some s → is_Some (runs d !! s)) →
    _find_by_idempotency_key (Run.client_id r) (Run.idempotency_key r) d = None →
    count_runs (active_of_principal (principal_of r)) d < principal_active limits →
    count_runs (active_of_tenant (Run.client_id r)) d < tenant_active limits → life d d'
| life_move r r' :
    runs d !! Run.id r = Some r → runs d' = <[Run.id r := r']> (runs d) → attempts d' = attempts d →
    evaluations d' = evaluations d → outbox_grows d d' → move r r' →
    (Run.execution_status r' = QUEUED → Run.execution_status r ≠ QUEUED → announced d' (Run.id r)) →
    life d d'
| life_start r a p now tx_now worker provider :
    runs d !! Run.id r = Some r → Run.execution_status r = QUEUED →
    attempts d !! RunAttempt.id a = None →
    a = new_attempt (RunAttempt.id a) (Run.id r) (_next_attempt_number (Run.id r) d) provider worker
          tx_now →
    from_snapshot (Run.policy_snapshot r) = Ok p →
    RunAttempt.attempt_number a ≤ Z.min (max_attempts p) sm →
    count_runs (running_of_principal (principal_of r)) d < principal_running limits →
    count_runs (running_of_tenant (Run.client_id r)) d < tenant_running limits →
    runs d' = <[Run.id r := lease_run lease now worker r]> (runs d) →
    attempts d' = <[RunAttempt.id a := a]> (attempts d) →
    evaluations d' = evaluations d → outbox_grows d d' → life d d'
| life_finish r r' a a' :
    runs d !! Run.id r = Some r → Run.execution_status r = RUNNING →
    attempts d !! RunAttempt.id a = Some a → RunAttempt.run_id a = Run.id r → is_open a →
    finished_version a a' → ending r r' →
    runs d' = <[Run.id r := r']> (runs d) → attempts d' = <[RunAttempt.id a := a']> (attempts d) →
    evaluations d' = evaluations d → outbox_grows d d' → life d d'
| life_evaluation e e' :
    evaluations d !! Evaluation.id e = Some e → Evaluation.id e' = Evaluation.id e →
    Evaluation.job_run_id e' = Evaluation.job_run_id e → Evaluation.run_id e' = Evaluation.run_id e →
    evaluations d' = <[Evaluation.id e := e']> (evaluations d) →
    runs d' = runs d → attempts d' = attempts d → outbox_grows d d' → life d d'.

(** ** The invariant of the database *)

(** Every evaluation job is a stored run, of one evaluation. *)
Definition jobs_ok (d : db) : Prop :=
  (∀ k e j, evaluations d !! k = Some e → Evaluation.job_run_id e = Some j → is_Some (runs d !! j))
  ∧ ∀ k k' e e' j, evaluations d !! k = Some e → evaluations d !! k' = Some e' →
      Evaluation.job_run_id e = Some j → Evaluation.job_run_id e' = Some j → k = k'.

Definition replays_ok (d : db) : Prop :=
  ∀ k r s, runs d !! k = Some r → Run.replay_of_run_id r = Some s → is_Some (runs d !! s).

Record db_inv (d : db) : Prop := {
  di_ids : ∀ k r, runs d !! k = Some r → Run.id r = k;
  di_keys : keys_unique d;
  di_runs : ∀ k r, runs d !! k = Some r → run_inv sm (evaluations d) (attempts_of k d) r;
  di_attempts : ∀ k a, attempts d !! k = Some a → is_Some (runs d !! RunAttempt.run_id a);
  di_replays : replays_ok d;
  di_jobs : jobs_ok d;
  di_running_principal : ∀ p, count_runs (running_of_principal p) d ≤ Z.max 0 (principal_running limits);
  di_running_tenant : ∀ t, count_runs (running_of_tenant t) d ≤ Z.max 0 (tenant_running limits);
  di_active_principal : ∀ p, count_runs (active_of_principal p) d ≤ Z.max 0 (principal_active limits);
  di_active_tenant : ∀ t, count_runs (active_of_tenant t) d ≤ Z.max 0 (tenant_active limits);
}.

Lemma db_inv_empty : db_inv empty_db.
Proof.
  split; try (intros k r Hk; by destruct (lookup_empty_Some _ _ Hk));
    try (intros; unfold count_runs; change (runs empty_db) with (∅ : gmap uuid Run.t);
         rewrite count_where_empty; lia).
  - intros k k' r r' Hk. by destruct (lookup_empty_Some _ _ Hk).
  - intros k r s Hk. by destruct (lookup_empty_Some _ _ Hk).
  - split; [intros k e j Hk|intros k k' e e' j Hk]; by destruct (lookup_empty_Some _ _ Hk).
Qed.

(** Columns that [move] and [ending] keep. *)
Lemma move_identity r r' : move r r' → run_identity r' = run_identity r.
Proof. by destruct 1. Qed.
Lemma ending_identity r r' : ending r r' → run_identity r' = run_identity r.
Proof. by destruct 1. Qed.

Lemma count_update_le (P : Run.t → bool) d d' k r r' :
  runs d !! k = Some r → runs d' = <[k := r']> (runs d) → (P r' = true → P r = true) →
  count_runs P d' ≤ count_runs P d.
Proof.
  intros Hk Hd HP. unfold count_runs. rewrite Hd.
  pose proof (count_where_update P (runs d) k r r' Hk). destruct (P r'), (P r); lia || naive_solver.
Qed.

Lemma keys_unique_update d d' k r r' :
  runs d !! k = Some r → runs d' = <[k := r']> (runs d) →
  Run.client_id r' = Run.client_id r → Run.idempotency_key r' = Run.idempotency_key r →
  keys_unique d → keys_unique d'.
Proof.
  intros Hk Hd Hc Hkey Hu k1 k2 r1 r2 H1 H2 Hc12 Hk12. rewrite Hd in H1, H2.
  apply lookup_insert_Some in H1 as [[<- <-]|[Hne1 H1]], H2 as [[<- <-]|[Hne2 H2]]; try done.
  - eapply Hu; eauto; congruence.
  - eapply Hu; eauto; congruence.
  - eapply Hu; eauto.
Qed.

Lemma attempts_of_update_other k d d' (a a' : RunAttempt.t) i :
  attempts d !! i = Some a → attempts d' = <[i := a']> (attempts d) →
  RunAttempt.run_id a ≠ k → RunAttempt.run_id a' ≠ k → attempts_of k d' ≡ₚ attempts_of k d.
Proof.
  intros Hi Hd Ha Ha'. unfold attempts_of. rewrite Hd.
  eapply rows_where_irrelevant; [done|by apply bool_decide_eq_false..].
Qed.

Lemma next_number k d :
  RunAttempt.attempt_number <$> attempts_of k d ≡ₚ seqZ 1 (len (attempts_of k d)) →
  _next_attempt_number k d = len (attempts_of k d) + 1.
Proof.
  unfold _next_attempt_number. intros Hp. f_equal.
  pose proof (length_fmap RunAttempt.attempt_number (attempts_of k d)) as Hlen.
  destruct (RunAttempt.attempt_number <$> attempts_of k d) as [|n l] eqn:E; unfold len in *;
    [by rewrite <- Hlen|].
  destruct (foldl_max_spec n l) as [Hin Hle]. rewrite Hp in Hin. apply elem_of_seqZ in Hin.
  specialize (Hle (Z.of_nat (length (attempts_of k d)))). rewrite Hp, elem_of_seqZ in Hle.
  cbn in Hlen. lia.
Qed.

Lemma replays_update d d' k r r' :
  runs d !! k = Some r → runs d' = <[k := r']> (runs d) →
  Run.replay_of_run_id r' = Run.replay_of_run_id r → replays_ok d → replays_ok d'.
Proof.
  intros Hk Hd Hrep Hr k1 r1 s H1 Hs. rewrite Hd in *. apply stored_insert.
  apply lookup_insert_Some in H1 as [[<- <-]|[_ H1]]; eapply Hr; eauto; congruence.
Qed.

Lemma jobs_mono d d' :
  evaluations d' = evaluations d → (∀ k, is_Some (runs d !! k) → is_Some (runs d' !! k)) → jobs_ok d → jobs_ok d'.
Proof. intros He Hr [Hf Hu]. unfold jobs_ok. rewrite He. split; eauto. Qed.

(** An update of run [k] that keeps its identity. *)
Lemma db_inv_update d d' k r r' :
  db_inv d → runs d !! k = Some r → runs d' = <[k := r']> (runs d) →
  run_identity r' = run_identity r → evaluations d' = evaluations d →
  (∀ k', k' ≠ k → attempts_of k' d' ≡ₚ attempts_of k' d) →
  (∀ i a, attempts d' !! i = Some a → is_Some (runs d !! RunAttempt.run_id a)) →
  run_inv sm (evaluations d) (attempts_of k d') r' →
  (is_active (Run.execution_status r') = true → is_active (Run.execution_status r) = true) →
  (∀ p, count_runs (running_of_principal p) d' ≤ Z.max 0 (principal_running limits)) →
  (∀ t, count_runs (running_of_tenant t) d' ≤ Z.max 0 (tenant_running limits)) →
  db_inv d'.
Proof.
  intros [] Hk Hd Hid He Hatt Hfk Hr' Hact Hrp Hrt.
  unfold run_identity in Hid. injection Hid. intros.
  split; try done.
  - intros k1 r1 Hl. rewrite Hd in Hl. apply lookup_insert_Some in Hl as [[<- <-]|[_ Hl]]; [|auto].
    apply di_ids0 in Hk. congruence.
  - eapply keys_unique_update; eauto.
  - intros k1 r1 Hl. rewrite Hd in Hl. rewrite He.
    apply lookup_insert_Some in Hl as [[<- <-]|[Hne Hl]]; [done|].
    eapply run_inv_perm; [symmetry; by apply Hatt|]. auto.
  - intros i a Hi. rewrite Hd. destruct (decide (RunAttempt.run_id a = k)) as [->|Hne].
    + rewrite lookup_insert_eq. eauto.
    + rewrite lookup_insert_ne by done. eauto.
  - eapply replays_update; eauto.
  - eapply jobs_mono; [done| |done]. intros k1. rewrite Hd. apply stored_insert.
  - intros p. etrans; [|apply (di_active_principal0 p)]. eapply count_update_le; eauto.
    unfold active_of_principal. intros ?. bool_to_prop. rewrite Hact by done.
    rewrite bool_decide_true; [done|congruence].
  - intros t. etrans; [|apply (di_active_tenant0 t)]. eapply count_update_le; eauto.
    unfold active_of_tenant. intros ?. bool_to_prop. rewrite Hact by done.
    rewrite bool_decide_true; [done|congruence].
Qed.

(** A run that does not start running does not raise the running counts. *)
Lemma running_counts_le d d' k r r' :
  db_inv d → runs d !! k = Some r → runs d' = <[k := r']> (runs d) →
  run_identity r' = run_identity r →
  (Run.execution_status r' = RUNNING → Run.execution_status r = RUNNING) →
  (∀ p, count_runs (running_of_principal p) d' ≤ Z.max 0 (principal_running limits))
  ∧ (∀ t, count_runs (running_of_tenant t) d' ≤ Z.max 0 (tenant_running limits)).
Proof.
  intros [] Hk Hd Hid Hrun. unfold run_identity in Hid. injection Hid. intros. split; intros x.
  - etrans; [|apply (di_running_principal0 x)]. eapply count_update_le; eauto.
    unfold running_of_principal. intros ?. bool_to_prop. rewrite !bool_decide_true; [done|auto|congruence].
  - etrans; [|apply (di_running_tenant0 x)]. eapply count_update_le; eauto.
    unfold running_of_tenant. intros ?. bool_to_prop. rewrite !bool_decide_true; [done|auto|congruence].
Qed.

Lemma life_move_inv d d' r r' :
  db_inv d → runs d !! Run.id r = Some r → runs d' = <[Run.id r := r']> (runs d) →
  attempts d' = attempts d → evaluations d' = evaluations d → move r r' → db_inv d'.
Proof.
  intros Hi Hk Hd Ha He Hm. pose proof (move_identity _ _ Hm) as Hid.
  destruct (running_counts_le _ _ _ _ _ Hi Hk Hd Hid) as [Hrp Hrt].
  { destruct Hm; cbn; try done. }
  assert (∀ k, attempts_of k d' = attempts_of k d) as Hao by (intros; unfold attempts_of; by rewrite Ha).
  eapply db_inv_update; eauto.
  - intros. by rewrite Hao.
  - rewrite Ha. apply Hi.
  - rewrite Hao. eapply run_inv_move; [|done]. by apply Hi.
  - destruct Hm; cbn; try done; intros _; by rewrite H.
Qed.

Lemma life_finish_inv d d' r r' a a' :
  db_inv d → runs d !! Run.id r = Some r → Run.execution_status r = RUNNING →
  attempts d !! RunAttempt.id a = Some a → RunAttempt.run_id a = Run.id r → is_open a →
  finished_version a a' → ending r r' →
  runs d' = <[Run.id r := r']> (runs d) → attempts d' = <[RunAttempt.id a := a']> (attempts d) →
  evaluations d' = evaluations d → db_inv d'.
Proof.
  intros Hi Hk Hs Ha Hrun Ho Hf Hend Hd Ha' He. pose proof (ending_identity _ _ Hend) as Hid.
  destruct (running_counts_le _ _ _ _ _ Hi Hk Hd Hid) as [Hrp Hrt]; [by intros _|].
  destruct Hf as (Hfid & Hfrun & Hfnum & Hfin).
  eapply db_inv_update; eauto.
  - intros k' Hne. eapply attempts_of_update_other; eauto; congruence.
  - intros i b Hb. rewrite Ha' in Hb. apply lookup_insert_Some in Hb as [[_ <-]|[_ Hb]].
    + rewrite Hfrun, Hrun. eauto.
    + by eapply (di_attempts _ Hi).
  - unfold attempts_of. rewrite Ha'. eapply run_inv_perm; [symmetry; apply rows_where_insert|].
    cbv beta. rewrite bool_decide_true by congruence.
    eapply run_inv_finish; [|done|done|by repeat split|done].
    eapply run_inv_perm; [|by apply Hi]. unfold attempts_of.
    rewrite (rows_where_split _ _ _ _ Ha). cbv beta. by rewrite bool_decide_true by done.
  - by rewrite Hs.
Qed.

Lemma principal_of_some r p : Run.principal_id r = Some p → p ≠ "" → principal_of r = p.
Proof. intros Hp Hne. unfold principal_of, principal_or. rewrite Hp. by rewrite bool_decide_false. Qed.

(** Adding one row that satisfies [P] only for the identity whose count was below the
    limit keeps every count within it. *)
Lemma count_start_le (P : string → Run.t → bool) key limit d d' k r r' :
  runs d !! k = Some r → runs d' = <[k := r']> (runs d) →
  (∀ x, P x r' = true → x = key) → count_runs (P key) d < limit →
  (∀ x, count_runs (P x) d ≤ Z.max 0 limit) → ∀ x, count_runs (P x) d' ≤ Z.max 0 limit.
Proof.
  intros Hk Hd Hkey Hlt Hall x. specialize (Hall x). unfold count_runs in *. rewrite Hd.
  pose proof (count_where_update (P x) (runs d) k r r' Hk) as Hc.
  destruct (P x r') eqn:E; [rewrite (Hkey x E) in *|]; destruct (P _ r); lia.
Qed.

Lemma count_fresh_le (P : string → Run.t → bool) key limit d d' k r' :
  runs d !! k = None → runs d' = <[k := r']> (runs d) →
  (∀ x, P x r' = true → x = key ∧ count_runs (P key) d < limit) →
  (∀ x, count_runs (P x) d ≤ Z.max 0 limit) → ∀ x, count_runs (P x) d' ≤ Z.max 0 limit.
Proof.
  intros Hk Hd Hkey Hall x. specialize (Hall x). unfold count_runs in *. rewrite Hd.
  rewrite count_where_fresh by done.
  destruct (P x r') eqn:E; [destruct (Hkey x E) as [-> ?]|]; lia.
Qed.

Lemma life_start_inv d d' r a p now tx_now worker provider :
  db_inv d → runs d !! Run.id r = Some r → Run.execution_status r = QUEUED →
  attempts d !! RunAttempt.id a = None →
  a = new_attempt (RunAttempt.id a) (Run.id r) (_next_attempt_number (Run.id r) d) provider worker
        tx_now →
  from_snapshot (Run.policy_snapshot r) = Ok p →
  RunAttempt.attempt_number a ≤ Z.min (max_attempts p) sm →
  count_runs (running_of_principal (principal_of r)) d < principal_running limits →
  count_runs (running_of_tenant (Run.client_id r)) d < tenant_running limits →
  runs d' = <[Run.id r := lease_run lease now worker r]> (runs d) →
  attempts d' = <[RunAttempt.id a := a]> (attempts d) → evaluations d' = evaluations d → db_inv d'.
Proof.
  intros Hi Hk Hs Hfresh Ha Hp Hnum Hcp Hct Hd Had He.
  pose proof (di_runs _ Hi _ _ Hk) as Hrun.
  rewrite (next_number _ _ (ri_numbers _ _ _ _ Hrun)) in Ha.
  assert (RunAttempt.run_id a = Run.id r ∧ RunAttempt.attempt_number a = len (attempts_of (Run.id r) d) + 1)
    as [Harun Han] by (rewrite Ha; done).
  assert (∀ k, attempts_of k d' ≡ₚ (if bool_decide (RunAttempt.run_id a = k) then [a] else []) ++ attempts_of k d)
    as Hao by (intros k; unfold attempts_of; rewrite Had; by rewrite rows_where_fresh).
  destruct (ri_principal _ _ _ _ Hrun) as (q & Hq & Hqne).
  eapply db_inv_update; eauto.
  - intros k' Hne. rewrite Hao, bool_decide_false by congruence. done.
  - intros i b Hb. rewrite Had in Hb. apply lookup_insert_Some in Hb as [[_ <-]|[_ Hb]].
    + rewrite Harun. eauto.
    + by eapply (di_attempts _ Hi).
  - eapply run_inv_perm; [symmetry; apply Hao|]. rewrite bool_decide_true by done. cbn [app].
    rewrite Ha. eapply run_inv_start; [done..|]. lia.
  - by rewrite Hs.
  - eapply count_start_le; [exact Hk|exact Hd| |exact Hcp|apply Hi].
    intros x Hx. unfold running_of_principal in Hx. bool_to_prop. cbn in *.
    rewrite (principal_of_some r q) by done. congruence.
  - eapply count_start_le; [exact Hk|exact Hd| |exact Hct|apply Hi].
    intros x Hx. unfold running_of_tenant in Hx. by bool_to_prop.
Qed.

Lemma life_create_inv d d' r p :
  db_inv d → runs d !! Run.id r = None → runs d' = <[Run.id r := r]> (runs d) →
  attempts d' = attempts d →
  (∀ k e, evaluations d !! k = Some e → evaluations d' !! k = Some e) →
  (Run.work_kind r = wk_evaluation →
    ∃ k e, evaluations d' !! k = Some e ∧ Evaluation.job_run_id e = Some (Run.id r)) →
  jobs_ok d' → is_new r → policy_ok (Run.policy_snapshot r) p → (∃ p, Run.principal_id r = Some p ∧ p ≠ "") →
  (∀ s, Run.replay_of_run_id r = Some s → is_Some (runs d !! s)) →
  _find_by_idempotency_key (Run.client_id r) (Run.idempotency_key r) d = None →
  count_runs (active_of_principal (principal_of r)) d < principal_active limits →
  count_runs (active_of_tenant (Run.client_id r)) d < tenant_active limits → db_inv d'.
Proof.
  intros Hi Hk Hd Ha He Hev Hjobs Hnew Hp Hpr Hrep Hfind Hcp Hct. pose proof Hnew as (Hs & _).
  pose proof Hpr as (q & Hq & Hqne). destruct Hi.
  assert (attempts_of (Run.id r) d = []) as Hnone.
  { destruct (attempts_of (Run.id r) d) as [|a l] eqn:E; [done|].
    assert (a ∈ attempts_of (Run.id r) d) as Hin by (rewrite E; by left).
    apply elem_of_rows_where in Hin as (i & Hia & Hb). bool_to_prop.
    apply di_attempts0 in Hia. rewrite Hb, Hk in Hia. by destruct Hia. }
  assert (∀ k, attempts_of k d' = attempts_of k d) as Hao by (intros; unfold attempts_of; by rewrite Ha).
  split.
  - intros k1 r1 Hl. rewrite Hd in Hl. apply lookup_insert_Some in Hl as [[<- <-]|[_ Hl]]; auto.
  - intros k1 k2 r1 r2 Hl1 Hl2 Hc Hkey. rewrite Hd in Hl1, Hl2. rewrite find_none in Hfind.
    apply lookup_insert_Some in Hl1 as [[<- <-]|[_ Hl1]], Hl2 as [[<- <-]|[_ Hl2]]; try done.
    + by destruct (Hfind _ _ Hl2).
    + by destruct (Hfind _ _ Hl1).
    + by eapply di_keys0.
  - intros k1 r1 Hl. rewrite Hd in Hl. rewrite Hao.
    apply lookup_insert_Some in Hl as [[<- <-]|[_ Hl]].
    + rewrite Hnone. by eapply run_inv_new.
    + eapply run_inv_evals; [|by apply di_runs0]. intros k e Hke. exists e. auto.
  - intros i a Hia. rewrite Ha in Hia. rewrite Hd. apply lookup_insert_is_Some'. right. eauto.
  - intros k1 r1 s1 Hl Hs1. rewrite Hd in Hl |- *. apply stored_insert.
    apply lookup_insert_Some in Hl as [[_ <-]|[_ Hl]]; eauto.
  - done.
  - eapply count_fresh_le with (key := ""); eauto.
    intros x Hx. unfold running_of_principal in Hx. bool_to_prop. congruence.
  - eapply count_fresh_le with (key := ""); eauto.
    intros x Hx. unfold running_of_tenant in Hx. bool_to_prop. congruence.
  - eapply count_fresh_le with (key := principal_of r); eauto.
    intros x Hx. unfold active_of_principal in Hx. bool_to_prop. split; [|done].
    rewrite (principal_of_some r q) by done. congruence.
  - eapply count_fresh_le with (key := Run.client_id r); eauto.
    intros x Hx. unfold active_of_tenant in Hx. bool_to_prop. done.
Qed.

(** The job of a new evaluation is a new run. *)
Lemma jobs_create d d' r eo :
  db_inv d → runs d !! Run.id r = None → runs d' = <[Run.id r := r]> (runs d) →
  match eo with
  | None => evaluations d' = evaluations d ∧ Run.work_kind r ≠ wk_evaluation
  | Some e => evaluations d !! Evaluation.id e = None
              ∧ evaluations d' = <[Evaluation.id e := e]> (evaluations d)
              ∧ Evaluation.job_run_id e = Some (Run.id r)
  end → jobs_ok d'.
Proof.
  intros Hi Hk Hd He. pose proof (di_jobs _ Hi) as [Hf Hu].
  assert (∀ k, is_Some (runs d !! k) → is_Some (runs d' !! k)) as Hmono by (intros k; rewrite Hd; apply stored_insert).
  destruct eo as [e|]; [|by eapply jobs_mono; [apply He|done|]]. destruct He as (Hfresh & He & Hj).
  assert (∀ k e', evaluations d !! k = Some e' → Evaluation.job_run_id e' ≠ Some (Run.id r)) as Hne.
  { intros k e' He' Hj'. destruct (Hf _ _ _ He' Hj') as [x Hx]. congruence. }
  split.
  - intros k e' j. rewrite He, lookup_insert_Some. intros [[_ <-]|[_ He']] Hj'; [|eauto].
    replace j with (Run.id r) by congruence. rewrite Hd. apply stored_self.
  - intros k1 k2 e1 e2 j. rewrite He, !lookup_insert_Some.
    intros [[<- <-]|[_ H1]] [[<- <-]|[_ H2]] Hj1 Hj2; [done|..|by eapply Hu].
    + destruct (Hne _ _ H2). congruence.
    + destruct (Hne _ _ H1). congruence.
Qed.

(** The running and active counts, the lease discipline, the attempt numbering and the
    rest of the invariant hold across every change of the machine. *)
Lemma life_inv d d' : life d d' → db_inv d → db_inv d'.
Proof.
  destruct 1; intros Hi.
  - destruct Hi. split; unfold count_runs, attempts_of, keys_unique, replays_ok, jobs_ok in *; by rewrite ?H, ?H0, ?H1.
  - eapply life_create_inv; eauto using jobs_create.
    + destruct eo as [e|]; [|by destruct H2 as [-> _]]. destruct H2 as (Hf & -> & _).
      intros k e' Hk. rewrite lookup_insert_ne; [done|congruence].
    + destruct eo as [e|]; [|by destruct H2]. destruct H2 as (_ & -> & Hj). intros _.
      exists (Evaluation.id e), e. by rewrite lookup_insert_eq.
  - eapply life_move_inv; eauto.
  - eapply life_start_inv; eauto.
  - eapply life_finish_inv; eauto.
  - assert (∀ k1 e1, evaluations d' !! k1 = Some e1 → ∃ e0, evaluations d !! k1 = Some e0
      ∧ Evaluation.job_run_id e0 = Evaluation.job_run_id e1) as Hback.
    { intros k1 e1. rewrite H3, lookup_insert_Some. intros [[<- <-]|[_ Hl]]; eauto. }
    destruct Hi. split; unfold count_runs, attempts_of, keys_unique, replays_ok in *; rewrite ?H4, ?H5; try done.
    + intros k r Hk. eapply run_inv_evals; [|by apply di_runs0].
      intros k1 e1 Hl. rewrite H3. destruct (decide (k1 = Evaluation.id e)) as [->|Hne].
      * exists e'. rewrite lookup_insert_eq. split; [done|]. congruence.
      * exists e1. by rewrite lookup_insert_ne by done.
    + destruct di_jobs0 as [Hf Hu]. split; rewrite ?H4.
      * intros k1 e1 j Hl Hj. destruct (Hback _ _ Hl) as (e0 & ? & ?). apply (Hf k1 e0 j); congruence.
      * intros k1 k2 e1 e2 j Hl1 Hl2 Hj1 Hj2.
        destruct (Hback _ _ Hl1) as (a1 & ? & ?), (Hback _ _ Hl2) as (a2 & ? & ?). apply (Hu k1 k2 a1 a2 j); congruence.
Qed.
End Life.
