(* ===== verification/Refinement.v ===== *)
(** * The services refine the lifecycle machine

    Every transaction of [RunService] and [ExecutionService], started in a
    well-formed database that satisfies the invariant, ends in a database reached by
    a sequence of [life] changes, and stays well formed; a transaction that raises
    changes nothing. *)

From S2P Require Import Prelude Float64 PyValue States Retry Models Quotas Canonical Safety RunService.
From S2P Require Import ExecutionService Lifecycle.
Local Open Scope Z_scope.

Section Refinement.
Context `{Host} (limits : QuotaLimits) (sm lease : Z) (job_timeout : num) (check_schema : json → bool).
Abbreviation life := (life limits sm lease).
Abbreviation db_inv := (db_inv limits sm).

(** What a transaction is shown to do. *)
Definition refines (d d' : db) : Prop := rtc life d d' ∧ db_wf d'.

Lemma refines_refl d : db_wf d → refines d d.
Proof. by split. Qed.
Lemma refines_trans d d1 d2 : refines d d1 → refines d1 d2 → refines d d2.
Proof. intros [? _] [? ?]. split; [by etrans|done]. Qed.
Lemma refines_once d d' : life d d' → db_wf d' → refines d d'.
Proof. split; [by apply rtc_once|done]. Qed.

Lemma rtc_life_inv d d' : rtc life d d' → db_inv d → db_inv d'.
Proof. induction 1; eauto using life_inv. Qed.
Lemma refines_inv d d' : refines d d' → db_inv d → db_inv d'.
Proof. intros [? _]. by apply rtc_life_inv. Qed.

(** Changes outside the run, attempt and evaluation tables. *)
Lemma life_add_event tx k a ty md d : life d (add_event tx k a ty md d).
Proof. by apply life_frame. Qed.

Lemma outbox_fresh d i : db_wf d → (draws d ≤ i)%nat → outbox d !! uuid4 i = None.
Proof.
  intros Hwf Hi. apply eq_None_not_Some. intros [o Ho].
  destruct (wf_outbox _ Hwf _ _ Ho) as [_ (j & Hj & Heq%uuid4_inj)]. lia.
Qed.

Lemma add_outbox_subseteq tx agg ty pl d : db_wf d → outbox d ⊆ outbox (add_outbox tx agg ty pl d).
Proof. intros Hwf. apply insert_subseteq. by apply outbox_fresh. Qed.

(** A row added for a run of the new database, with that run's trace context. *)
Lemma add_outbox_grows tx agg ty pl d d0 d' :
  db_wf d → outbox d = outbox d0 → outbox d' = outbox (add_outbox tx agg ty pl d) →
  (∃ r, runs d' !! agg = Some r ∧ dget "trace_context" pl = Some (JObj (Run.trace_context r))) →
  outbox_grows d0 d'.
Proof.
  intros Hwf Ho Ho' Hr. split.
  - rewrite Ho', <- Ho. by apply add_outbox_subseteq.
  - intros o e. rewrite Ho', <- Ho. cbn. rewrite lookup_insert_Some. intros [[_ <-]|[_ He]]; [by right|by left].
Qed.

Lemma add_outbox_announced tx agg pl d : announced (add_outbox tx agg "RUN_QUEUED" pl d) agg.
Proof. eexists. split_and!; [apply lookup_insert_eq|done..]. Qed.

(** ** Submission *)

Lemma db_wf_insert_run r d d' :
  db_wf d → Run.id r = next_id d → insert_run r d = Ok d' → db_wf d'.
Proof.
  intros Hwf Hid [_ ->]%insert_run_ok. rewrite bump_put_run. apply db_wf_put_run; [by apply db_wf_bump|].
  rewrite Hid. apply drawn_bump.
Qed.

Lemma insert_run_stored r d d' :
  insert_run r d = Ok d' →
  is_Some (runs d' !! Run.id r) ∧ ∀ k, is_Some (runs d !! k) → is_Some (runs d' !! k).
Proof. intros [_ ->]%insert_run_ok. cbn. eauto using stored_self, stored_insert. Qed.

Lemma create_run_refines tx c p key hash input policy kind d r d' pol :
  db_wf d → create_run tx c p key hash input policy kind d = Ok (r, d') →
  kind ≠ wk_evaluation → p ≠ "" → policy_ok policy pol →
  count_runs (active_of_principal p) d < principal_active limits →
  count_runs (active_of_tenant c) d < tenant_active limits → refines d d'.
Proof.
  intros Hwf Hc Hkind Hp Hpol Hcp Hct. apply refines_once.
  - pose proof (create_run_ok _ _ _ _ _ _ _ _ _ _ _ Hc)
      as (_ & Hfind & Hr & Ha & He & _ & (o & Ho & Hoid & Hagg & Hty & Hpub & Hpl) & _).
    eapply (life_create _ _ _ _ _ (new_run (next_id d) c p kind key hash input policy (tx_trace tx) None
              (tx_now tx)) None); cbn; try done.
    + by eapply table_ok_fresh, Hwf.
    + split; [rewrite Ho; apply insert_subseteq; rewrite Hoid; apply outbox_fresh; [done|lia]|].
      intros i x. rewrite Ho, lookup_insert_Some. intros [[_ <-]|[_ Hx]]; [right|by left].
      unfold about_run. rewrite Hr, Hagg, lookup_insert_eq, Hpl. eauto.
    + exists o. rewrite Ho. by rewrite lookup_insert_eq.
    + eauto.
    + unfold principal_of. cbn. by rewrite bool_decide_false.
  - unfold create_run in Hc. inv_result.
    match goal with Hi : insert_run _ _ = Ok ?d1 |- _ =>
      assert (db_wf d1) by (eapply db_wf_insert_run; [exact Hwf| |exact Hi]; done);
      apply insert_run_ok in Hi as [_ ->] end.
    destruct (_routing_decision policy); simplify_eq; auto 8 with arr.
Qed.

Lemma principal_or_nonempty p c : c ≠ "" → principal_or p c ≠ "".
Proof. intros. unfold principal_or. repeat case_match; try done. by bool_to_prop. Qed.

Lemma submit_refines tx c key input policy p kind d res d' pol :
  db_wf d → submit limits tx c key input policy p kind d = (res, d') →
  c ≠ "" → kind ≠ wk_evaluation → policy_ok policy pol → refines d d'.
Proof.
  intros Hwf Hs Hc Hkind Hpol. destruct res as [[s b]|e].
  - apply submit_inv in Hs as [(r & _ & _ & _ & _ & ->)|(r & Ha & Hcr & _)]; [by apply refines_refl|].
    unfold check_admission in Ha. inv_result. bool_to_prop.
    eapply create_run_refines; eauto. by apply principal_or_nonempty.
  - apply commit_inv in Hs as [(? & _ & _ & ->)|(? & _ & ?)]; [by apply refines_refl|done].
Qed.

(** A created run with its outbox row, for any later change of the events. *)
Lemma life_new_run r d d1 tx pl d' pol :
  db_wf d → Run.id r = next_id d → insert_run r d = Ok d1 →
  runs d' = runs d1 → attempts d' = attempts d → evaluations d' = evaluations d →
  outbox d' = outbox (add_outbox tx (Run.id r) "RUN_QUEUED" pl d1) →
  dget "trace_context" pl = Some (JObj (Run.trace_context r)) →
  is_new r → policy_ok (Run.policy_snapshot r) pol → (∃ p, Run.principal_id r = Some p ∧ p ≠ "") →
  (∀ s, Run.replay_of_run_id r = Some s → is_Some (runs d !! s)) →
  Run.work_kind r ≠ wk_evaluation →
  count_runs (active_of_principal (principal_of r)) d < principal_active limits →
  count_runs (active_of_tenant (Run.client_id r)) d < tenant_active limits → life d d'.
Proof.
  intros Hwf Hid Hins Hr Ha He Ho Hpl Hnew Hpol Hpr Hrep Hk Hcp Hct.
  pose proof (db_wf_insert_run _ _ _ Hwf Hid Hins) as Hwf1.
  apply insert_run_ok in Hins as [Hfind ->].
  eapply (life_create _ _ _ _ _ r None); try done.
  - rewrite Hid. eapply table_ok_fresh, Hwf.
  - eapply (add_outbox_grows _ _ _ _ _ _ _ Hwf1); [done|exact Ho|]. exists r. rewrite Hr.
    split; [apply lookup_insert_eq|done].
  - destruct (add_outbox_announced tx (Run.id r) pl (bump_draws (put_run r d))) as (o & Hl & Hrest).
    exists o. by rewrite Ho.
Qed.

Lemma replay_refines tx c k key p d res d' :
  db_wf d → db_inv d → replay limits tx c k key p d = (res, d') → c ≠ "" → refines d d'.
Proof.
  intros Hwf Hinv Hs Hc.
  apply commit_inv in Hs as [(e & _ & _ & ->)|(x & Hs & _)]; [by apply refines_refl|].
  destruct (replay_body _ _ _ _ _ _ _ _) as [[x' d0]|e] eqn:E.
  2: { case_bool_decide; [|done]. unfold replay_after_race in Hs. inv_result. by apply refines_refl. }
  simplify_eq. unfold replay_body in E.
  apply result_bind_ok in E as (source & Hsrc & E). apply get_run_for_client_ok in Hsrc as [Hsrc _].
  apply result_bind_ok in E as ([] & _ & E).
  destruct (_find_by_idempotency_key c key d) as [r|] eqn:Ef.
  { inv_result. by apply refines_refl. }
  apply result_bind_ok in E as ([] & Ha & E). apply result_bind_ok in E as (d1 & Hins & E).
  inv_result. unfold check_admission in Ha. inv_result. bool_to_prop.
  pose proof (principal_or_nonempty p c Hc) as Hpne.
  destruct (ri_policy _ _ _ _ (di_runs _ _ _ Hinv _ _ Hsrc)) as (pol & Hpol & _).
  assert (db_wf d1) as Hwf1 by (eapply db_wf_insert_run; [exact Hwf| |exact Hins]; done).
  pose proof (di_ids _ _ _ Hinv _ _ Hsrc) as Hid. destruct (insert_run_stored _ _ _ Hins) as [Hnew Hold].
  assert (is_Some (runs d1 !! Run.id source)) by (apply Hold; rewrite Hid; eauto).
  apply refines_once; [|auto 8 with arr].
  eapply (life_new_run _ _ _ (tx_now tx)); [done| |exact Hins|..]; try done.
  - by apply insert_run_ok in Hins as [_ ->].
  - by apply insert_run_ok in Hins as [_ ->].
  - eauto.
  - intros ? [= <-]. rewrite Hid. eauto.
  - unfold principal_of. cbn. by rewrite bool_decide_false.
Qed.

Lemma job_policy_ok : num_in 1 3600 job_timeout → ∃ p, policy_ok (job_policy job_timeout) p.
Proof.
  intros Hj. pose proof unit64_pos as Hu.
  pose proof Hj as (t & Ht & Htr).
  unfold policy_ok.
  rewrite (from_snapshot_fields (job_policy job_timeout) 1 (JNum job_timeout) (JNum (NInt 1))
             (JNum (NInt 1)) ["deterministic"] (Fin t) (Fin (1 * unit64)) (Fin (1 * unit64)));
    try reflexivity; try lia.
  - exists {| max_attempts := 1; attempt_timeout_seconds := Fin t;
              initial_backoff_seconds := Fin (1 * unit64); max_backoff_seconds := Fin (1 * unit64);
              provider_order := ["deterministic"] |}.
    split; [|cbn [max_backoff_seconds]; rewrite (num_le_fin (NFloat (Fin (1 * unit64))) (NInt 86400) (1 * unit64) (86400 * unit64)) by done;
             apply Z.leb_le; lia].
    unfold mk_RetryPolicy. erewrite post_init_intro; [reflexivity|cbn; try done; try lia..].
    all: lia.
  - intros name. rewrite <- Ht. by eapply (positive_float_in 1 3600).
Qed.

Lemma evaluate_refines tx c k rules p d res d' :
  db_wf d → db_inv d → evaluate limits job_timeout check_schema tx c k rules p d = (res, d') →
  c ≠ "" → num_in 1 3600 job_timeout → refines d d'.
Proof.
  intros Hwf Hinv Hs Hc Hj.
  apply commit_inv in Hs as [(e & _ & _ & ->)|(x & Hs & _)]; [by apply refines_refl|].
  apply result_bind_ok in Hs as ([] & _ & Hs). apply result_bind_ok in Hs as (run & Hrun & Hs).
  apply get_run_for_client_ok in Hrun as [Hrun _].
  apply result_bind_ok in Hs as ([] & _ & Hs). apply result_bind_ok in Hs as ([] & Ha & Hs).
  apply result_bind_ok in Hs as (d1 & Hins & Hs). injection Hs as _ <-.
  unfold check_admission in Ha. inv_result. bool_to_prop.
  pose proof (principal_or_nonempty p c Hc) as Hpne.
  destruct (job_policy_ok Hj) as (pol & Hpol).
  pose proof (db_wf_bump d Hwf) as Hwf0.
  assert (db_wf d1) as Hwf1 by (eapply db_wf_insert_run; [exact Hwf0| |exact Hins]; done).
  pose proof (di_ids _ _ _ Hinv _ _ Hrun) as Hid.
  assert (drawn d1 (Run.id run)) as Hdrawn.
  { destruct (wf_runs _ Hwf _ _ Hrun) as [-> Hd]. eapply drawn_mono; [|exact Hd].
    apply insert_run_ok in Hins as [_ ->]. cbn. lia. }
  set (job := new_run _ _ _ _ _ _ _ _ _ _ _) in *.
  set (ev := new_evaluation _ _ _ _ _).
  destruct (insert_run_stored _ _ _ Hins) as [Hjobin Hold].
  assert (is_Some (runs d1 !! Run.id run)) as Hrunin by (apply Hold; cbn; rewrite Hid; eauto).
  set (mid := bump_draws (put_evaluation ev (put_run (Run.set_evaluation_status EVAL_PENDING run) d1))).
  assert (db_wf mid) as Hwfm.
  { unfold mid. rewrite bump_put_evaluation. apply db_wf_put_evaluation; [auto with arr| |cbn; auto using stored_insert].
    apply (drawn_bump (put_run (Run.set_evaluation_status EVAL_PENDING run) d1)). }
  set (d6 := add_event _ _ _ _ _ (add_event _ _ _ _ _ _)).
  split; [|subst d6; subst mid; auto 8 with arr].
  apply insert_run_ok in Hins as [Hfind Hd1].
  assert (Run.id run ≠ Run.id job) as Hne.
  { destruct (wf_runs _ Hwf0 _ _ Hrun) as [Hi Hd]. rewrite Hi. by apply drawn_next. }
  assert (evaluations d1 = evaluations d ∧ outbox d1 = outbox d) as [Hev Hout] by (by rewrite Hd1).
  eapply (rtc_l _ _ (with_runs (runs d1) d6)); [|apply rtc_once].
  - eapply (life_create _ _ _ _ _ job (Some ev)); cbn.
    + eapply table_ok_fresh, Hwf0.
    + by rewrite Hd1.
    + by rewrite Hd1.
    + rewrite <- Hev. split_and!; [|done..]. eapply table_ok_fresh, Hwf1.
    + apply (add_outbox_grows (tx_now tx) (Run.id job) "RUN_QUEUED"
        [("trace_context", JObj (tx_trace tx))] mid); [done..|]. exists job.
      rewrite Hd1. split; [apply lookup_insert_eq|done].
    + destruct (add_outbox_announced (tx_now tx) (Run.id job)
        [("trace_context", JObj (tx_trace tx))] mid) as (o & Ho). by exists o.
    + done.
    + done.
    + eauto.
    + done.
    + done.
    + unfold principal_of. cbn. by rewrite bool_decide_false.
    + done.
  - eapply (life_move _ _ _ _ _ run (Run.set_evaluation_status EVAL_PENDING run)); try done.
    + cbn. rewrite Hd1. cbn. rewrite lookup_insert_ne by done. by rewrite Hid.
    + constructor.
Qed.

(** ** Finalizing an evaluation job *)

(** [d'] differs from [d] in the runs only by evaluation statuses. *)
Definition eval_only (d d' : db) : Prop :=
  attempts d' = attempts d ∧ outbox d' = outbox d ∧
  ∀ k, runs d' !! k = runs d !! k
       ∨ ∃ r s, runs d !! k = Some r ∧ runs d' !! k = Some (Run.set_evaluation_status s r).

Lemma eval_only_stored d d' k : eval_only d d' → is_Some (runs d !! k) → is_Some (runs d' !! k).
Proof. intros (_ & _ & Hk) Hr. destruct (Hk k) as [->|(r & s & _ & ->)]; eauto. Qed.

Lemma wf_run_drawn d k r : db_wf d → runs d !! k = Some r → Run.id r = k ∧ drawn d (Run.id r).
Proof. intros Hwf Hk. destruct (wf_runs _ Hwf _ _ Hk) as [<- ?]. done. Qed.
Lemma wf_attempt_drawn d k a :
  db_wf d → attempts d !! k = Some a → RunAttempt.id a = k ∧ drawn d (RunAttempt.id a).
Proof. intros Hwf Hk. destruct (wf_attempts _ Hwf _ _ Hk) as [<- ?]. done. Qed.

Lemma finalize_refines tx run d d' :
  db_wf d → _finalize_evaluation_job tx run d = Ok d' → refines d d' ∧ eval_only d d'.
Proof.
  intros Hwf Hf. unfold _finalize_evaluation_job in Hf.
  case_bool_decide; [|injection Hf as <-; split; [by apply refines_refl|by repeat split; auto]].
  destruct (head _) as [e|] eqn:Eh; [|done]. injection Hf as <-.
  assert (e ∈ rows_where (λ e, bool_decide (Evaluation.job_run_id e = Some (Run.id run))) (evaluations d))
    as Hin by (destruct (rows_where _ _); [done|]; injection Eh as ->; by left).
  apply elem_of_rows_where in Hin as (i & Hi & _).
  destruct (wf_evaluations _ Hwf _ _ Hi) as [<- Hdr].
  set (e' := Evaluation.set_completed_at _ _).
  assert (Evaluation.id e' = Evaluation.id e ∧ Evaluation.job_run_id e' = Evaluation.job_run_id e
          ∧ Evaluation.run_id e' = Evaluation.run_id e) as (Hid & Hjob & Hrun)
    by (unfold e'; case_bool_decide; done).
  clearbody e'. set (d1 := put_evaluation e' d).
  assert (is_Some (runs d1 !! Evaluation.run_id e')) as Hsrc by (rewrite Hrun; by eapply (wf_evaluation_refs _ Hwf)).
  assert (db_wf d1) as Hwf1 by (apply db_wf_put_evaluation; [done|by rewrite Hid|exact Hsrc]).
  assert (life d d1) as Hl1.
  { eapply (life_evaluation _ _ _ _ _ e e'); try done. unfold d1. cbn. by rewrite Hid. }
  set (d2 := propagate_status e' d1).
  assert (refines d1 d2 ∧ eval_only d1 d2) as [Hr2 He2].
  { unfold d2, propagate_status. destruct (runs d1 !! Evaluation.run_id e') as [src|] eqn:Es;
      [|split; [by apply refines_refl|by repeat split; auto]].
    destruct (head (sort_by _ _)); [|split; [by apply refines_refl|by repeat split; auto]].
    case_bool_decide; [|split; [by apply refines_refl|by repeat split; auto]].
    destruct (wf_run_drawn _ _ _ Hwf1 Es) as [Hsid Hsd]. split.
    - apply refines_once; [|by apply db_wf_put_run].
      eapply (life_move _ _ _ _ _ src); try done; [by rewrite Hsid|constructor].
    - split_and!; [done..|]. intros k. cbn. destruct (decide (k = Run.id src)) as [->|Hne].
      + right. exists src. eexists. rewrite lookup_insert_eq. split; [|done].
        rewrite Hsid. exact Es.
      + left. by rewrite lookup_insert_ne. }
  split.
  - eapply refines_trans; [by apply (refines_once d d1)|]. eapply refines_trans; [exact Hr2|].
    destruct Hr2 as [_ ?]. apply refines_once; [apply life_add_event|].
    apply db_wf_add_event; [done| |done].
    match goal with |- is_Some (_ !! ?k) => replace k with (Evaluation.run_id e') by (rewrite Hrun; by case_bool_decide) end.
    exact (eval_only_stored _ _ _ He2 Hsrc).
  - exact He2.
Qed.

(** ** Claims *)

Lemma start_attempt_refines now tx worker run p d x d' :
  db_wf d → runs d !! Run.id run = Some run → Run.execution_status run = QUEUED →
  claim_policy sm run (_next_attempt_number (Run.id run) d) = Ok p →
  count_runs (running_of_principal (principal_of run)) d < principal_running limits →
  count_runs (running_of_tenant (Run.client_id run)) d < tenant_running limits →
  start_attempt lease now tx worker run p (_next_attempt_number (Run.id run) d) d = Ok (x, d') →
  refines d d'.
Proof.
  intros Hwf Hrun Hs Hp Hcp Hct Hst. unfold start_attempt in Hst.
  apply result_bind_ok in Hst as (provider & _ & Hst). apply result_bind_ok in Hst as ([] & _ & Hst).
  injection Hst as _ <-. unfold claim_policy in Hp. inv_result. bool_to_prop.
  destruct (wf_run_drawn _ _ _ Hwf Hrun) as [_ Hdr].
  set (a := new_attempt _ _ _ _ _ _).
  set (d1 := bump_draws _).
  assert (db_wf d1) as Hwf1.
  { unfold d1. rewrite bump_put_attempt. apply db_wf_put_attempt; [by apply db_wf_bump, db_wf_put_run|].
    apply (drawn_bump (put_run _ d)). }
  apply refines_once; [|unfold d1 in *; auto with arr].
  eapply (life_start _ _ _ _ _ run a p now tx worker provider); try done.
  eapply table_ok_fresh, Hwf.
Qed.

Lemma claim_refines now tx k worker d res d' :
  db_wf d → claim lease limits sm now tx k worker d = (res, d') → refines d d'.
Proof.
  intros Hwf Hc. apply commit_inv in Hc as [(e & _ & _ & ->)|(x & Hc & _)]; [by apply refines_refl|].
  destruct (runs d !! k) as [run|] eqn:Hk; [|inv_result; by apply refines_refl].
  destruct (wf_run_drawn _ _ _ Hwf Hk) as [Hid Hdr]. rewrite <- Hid in Hk. clear Hid.
  destruct (is_terminal_execution_status _); [inv_result; by apply refines_refl|].
  destruct (Run.execution_status run) eqn:Hs;
    try (repeat split_match_in Hc; inv_result; by apply refines_refl).
  unfold claim_queued in Hc. split_match_in Hc.
  - injection Hc as _ <-. apply refines_once; [|by apply db_wf_put_run].
    by eapply (life_move _ _ _ _ _ run); [..|by constructor|done].
  - bool_to_prop. destruct (claim_policy _ _ _) as [p|e] eqn:Ep; [by eapply start_attempt_refines|].
    destruct (is_value_error e); [|done]. apply result_bind_ok in Hc as (d1 & Hf & Hc). inv_result.
    eapply refines_trans; [|by eapply finalize_refines, Hf; apply db_wf_put_run].
    apply refines_once; [|by apply db_wf_put_run].
    by eapply (life_move _ _ _ _ _ run); [..|by constructor|done].
Qed.

(** ** Terminal writes *)

Lemma owned_attempt_some now k i worker d run a :
  db_wf d → owned_attempt now k i worker d = Some (run, a) →
  runs d !! Run.id run = Some run ∧ Run.execution_status run = RUNNING
  ∧ attempts d !! RunAttempt.id a = Some a ∧ RunAttempt.run_id a = Run.id run ∧ is_open a
  ∧ Run.id run = k ∧ RunAttempt.id a = i ∧ _owns_active_lease run worker now = true.
Proof.
  intros Hwf Ho. unfold owned_attempt in Ho. apply bind_Some in Ho as (r & Hr & Ho).
  destruct (_owns_active_lease r worker now) eqn:El; [|done].
  apply bind_Some in Ho as (b & Hb & Ho). case_bool_decide as Hc; [|done]. simplify_eq.
  destruct (wf_run_drawn _ _ _ Hwf Hr) as [<- _], (wf_attempt_drawn _ _ _ Hwf Hb) as [<- _], Hc.
  split_and!; try done. unfold _owns_active_lease in El. by bool_to_prop.
Qed.

(** The end of attempt [a] of run [run], written in [d1]. *)
Lemma life_end run run' a a' d d1 :
  runs d !! Run.id run = Some run → Run.execution_status run = RUNNING →
  attempts d !! RunAttempt.id a = Some a → RunAttempt.run_id a = Run.id run → is_open a →
  finished_version a a' → ending run run' → Run.id run' = Run.id run →
  runs d1 = runs (put_run run' d) → attempts d1 = attempts (put_attempt a' d) →
  evaluations d1 = evaluations d → outbox_grows d d1 → life d d1.
Proof.
  intros Hr Hs Ha Hrun Ho Hf He Hid H1 H2 H3 H4.
  eapply (life_finish _ _ _ _ _ run run' a a'); try done.
  - by rewrite H1, <- Hid.
  - by rewrite H2, <- (proj1 Hf).
Qed.

Lemma finished_failed a now code : finished_version a (_finish_failed_attempt a now code).
Proof. repeat split; try done. Qed.

Lemma complete_success_refines now tx k i worker x d res d' :
  db_wf d → complete_success now tx k i worker x d = (res, d') → refines d d'.
Proof.
  intros Hwf Hc. apply commit_inv in Hc as [(e & _ & _ & ->)|(b & Hc & _)]; [by apply refines_refl|].
  destruct (owned_attempt now k i worker d) as [[run a]|] eqn:Eo; [|inv_result; by apply refines_refl].
  destruct (owned_attempt_some _ _ _ _ _ _ _ Hwf Eo) as (Hr & Hs & Ha & Hrun & Ho & _).
  apply result_bind_ok in Hc as (d3 & Hf & Hc). inv_result.
  destruct (wf_run_drawn _ _ _ Hwf Hr) as [_ Hrd], (wf_attempt_drawn _ _ _ Hwf Ha) as [_ Had].
  set (d1 := put_run _ _) in Hf. assert (db_wf d1) as Hwf1 by (by apply db_wf_put_run, Hrd; apply db_wf_put_attempt).
  match type of Hf with _finalize_evaluation_job _ _ ?D = _ => assert (db_wf D) as Hwf2 by (subst d1; auto with arr) end.
  apply finalize_refines in Hf as [Hf _]; [|done].
  eapply refines_trans; [|exact Hf]. apply refines_once; [|done].
  eapply (life_end run (succeed_run now x run) a (succeed_attempt now x a)); try done. constructor.
Qed.

(** A failed attempt ends its run's execution; other runs keep their status. *)
Lemma fail_attempt_refines now tx run a code rec d d' :
  db_wf d → runs d !! Run.id run = Some run → Run.execution_status run = RUNNING →
  attempts d !! RunAttempt.id a = Some a → RunAttempt.run_id a = Run.id run → is_open a →
  fail_attempt now tx run a code rec d = Ok d' →
  refines d d'
  ∧ (∀ k, k ≠ Run.id run → runs d' !! k = runs d !! k
       ∨ ∃ r s, runs d !! k = Some r ∧ runs d' !! k = Some (Run.set_evaluation_status s r))
  ∧ ∃ r', runs d' !! Run.id run = Some r' ∧ Run.execution_status r' ≠ RUNNING.
Proof.
  intros Hwf Hr Hs Ha Hrun Ho Hf. unfold fail_attempt, _schedule_retry_or_finalize in Hf.
  set (a' := _finish_failed_attempt a now code) in *.
  pose proof (finished_failed a now code) as Hfin.
  destruct (wf_run_drawn _ _ _ Hwf Hr) as [_ Hrd], (wf_attempt_drawn _ _ _ Hwf Ha) as [_ Had].
  assert (db_wf (put_attempt a' d)) as Hwfa by (by apply db_wf_put_attempt).
  apply result_bind_ok in Hf as (p & _ & Hf).
  assert (∀ run' d1 d2 c, ending run run' → Run.id run' = Run.id run → Run.execution_status run' ≠ RUNNING →
    runs d1 = runs (put_run run' d) → attempts d1 = attempts (put_attempt a' d) →
    evaluations d1 = evaluations d → outbox_grows d d1 → db_wf d1 →
    (d2 = d1 ∨ _finalize_evaluation_job tx c d1 = Ok d2) →
    refines d d2
    ∧ (∀ k, k ≠ Run.id run → runs d2 !! k = runs d !! k
         ∨ ∃ r s, runs d !! k = Some r ∧ runs d2 !! k = Some (Run.set_evaluation_status s r))
    ∧ ∃ r', runs d2 !! Run.id run = Some r' ∧ Run.execution_status r' ≠ RUNNING) as Hgen.
  { intros run' d1 d2 c He Hid Hns H1 H2 H3 H4 Hwf1 Hfin2.
    assert (refines d d1) as Hd1 by (apply refines_once; [by eapply (life_end run run' a a')|done]).
    assert (refines d1 d2 ∧ eval_only d1 d2) as [Hd2 (_ & _ & Hk)].
    { destruct Hfin2 as [->|Hfin2]; [split; [by apply refines_refl|by repeat split; auto]|].
      by eapply finalize_refines. }
    assert (∀ k, k ≠ Run.id run → runs d1 !! k = runs d !! k) as Hne.
    { intros k Hne. rewrite H1. cbn. rewrite Hid. by rewrite lookup_insert_ne. }
    split; [by eapply refines_trans|]. split.
    - intros k Hkn. destruct (Hk k) as [->|Hk']; rewrite Hne in * by done; auto.
    - assert (runs d1 !! Run.id run = Some run') as Hrun' by (rewrite H1; cbn; rewrite Hid; apply lookup_insert_eq).
      destruct (Hk (Run.id run)) as [->|(r & s & Hr0 & ->)]; [eauto|].
      eexists; split; [done|]. cbn. congruence. }
  split_match_in Hf; [|split_match_in Hf].
  - apply result_bind_ok in Hf as (delay & _ & Hf). apply result_bind_ok in Hf as (next & _ & Hf).
    injection Hf as <-.
    match goal with |- refines _ ?D ∧ _ =>
      apply (Hgen (retry_run code next run) D D run); [constructor|done..|auto|auto 8 with arr|by left] end.
  - match type of Hf with _finalize_evaluation_job _ ?R ?D = _ =>
      apply (Hgen R D d' R); [constructor|done..| |auto 8 with arr|by right] end.
    eapply (add_outbox_grows _ _ _ _ (put_run _ (put_attempt a' d))); [by apply db_wf_put_run|done..|].
    eexists. split; [apply lookup_insert_eq|done].
  - match type of Hf with _finalize_evaluation_job _ ?R ?D = _ =>
      apply (Hgen R D d' R); [constructor|done..|auto|auto 8 with arr|by right] end.
Qed.

Lemma complete_failure_refines now tx k i worker code d res d' :
  db_wf d → complete_failure now tx k i worker code d = (res, d') → refines d d'.
Proof.
  intros Hwf Hc. apply commit_inv in Hc as [(e & _ & _ & ->)|(b & Hc & _)]; [by apply refines_refl|].
  destruct (owned_attempt now k i worker d) as [[run a]|] eqn:Eo; [|inv_result; by apply refines_refl].
  destruct (owned_attempt_some _ _ _ _ _ _ _ Hwf Eo) as (Hr & Hs & Ha & Hrun & Ho & _).
  apply result_bind_ok in Hc as (d3 & Hf & Hc). inv_result. by eapply fail_attempt_refines.
Qed.

(** ** Batches *)

Lemma take_elem {A} (x : A) n l : x ∈ take n l → x ∈ l.
Proof. intros [i Hi]%list_elem_of_lookup. apply lookup_take_Some in Hi as [Hi _]. by eapply list_elem_of_lookup_2. Qed.

Lemma select_batch_elem P key vis n d r :
  db_wf d → r ∈ select_batch P key vis n d → runs d !! Run.id r = Some r ∧ P r = true.
Proof.
  intros Hwf Hr%take_elem. rewrite sort_by_perm in Hr.
  apply elem_of_rows_where in Hr as (k & Hk & HP). bool_to_prop.
  by destruct (wf_run_drawn _ _ _ Hwf Hk) as [-> _].
Qed.

Lemma select_batch_nodup P key vis n d : db_wf d → NoDup (Run.id <$> select_batch P key vis n d).
Proof.
  intros Hwf. unfold select_batch. rewrite fmap_take. eapply sublist_NoDup; [|apply sublist_take].
  rewrite sort_by_perm. eapply table_ids, Hwf.
Qed.

Lemma latest_open_attempt_some k d a :
  db_wf d → _latest_open_attempt k d = Some a →
  attempts d !! RunAttempt.id a = Some a ∧ RunAttempt.run_id a = k ∧ is_open a.
Proof.
  intros Hwf Hl. unfold _latest_open_attempt in Hl.
  assert (a ∈ sort_by newer_attempt (filter (λ a, RunAttempt.finished_at a = None) (attempts_of k d)))
    as Hin by (destruct (sort_by _ _); [done|]; injection Hl as ->; by left).
  rewrite sort_by_perm in Hin. apply list_elem_of_filter in Hin as [Ho Hin].
  apply elem_of_rows_where in Hin as (i & Hi & Hk). bool_to_prop.
  by destruct (wf_attempt_drawn _ _ _ Hwf Hi) as [-> _].
Qed.

Definition still (s : ExecutionStatus) (d : db) (r : Run.t) : Prop :=
  ∃ r0, runs d !! Run.id r = Some r0 ∧ Run.execution_status r0 = s.

Lemma recover_one_refines now tx d run d' :
  db_wf d → still RUNNING d run → recover_one now tx d run = Ok d' →
  refines d d' ∧ ∀ r, Run.id r ≠ Run.id run → still RUNNING d r → still RUNNING d' r.
Proof.
  intros Hwf (r0 & Hr0 & Hs0) Hf. unfold recover_one in Hf.
  destruct (_latest_open_attempt (Run.id run) d) as [a|] eqn:El;
    [|injection Hf as <-; split; [by apply refines_refl|done]].
  destruct (latest_open_attempt_some _ _ _ Hwf El) as (Ha & Hrun & Ho).
  rewrite Hr0 in Hf. cbn in Hf. destruct (wf_run_drawn _ _ _ Hwf Hr0) as [Hid _].
  rewrite <- Hid in Hr0, Hrun.
  destruct (fail_attempt_refines _ _ _ _ _ _ _ _ Hwf Hr0 Hs0 Ha Hrun Ho Hf) as (Href & Hoth & _).
  split; [done|]. intros r Hne (r1 & Hr1 & Hs1). rewrite <- Hid in Hne.
  destruct (Hoth _ Hne) as [Heq|(r2 & s & Hr2 & Hr2')].
  - exists r1. by rewrite Heq.
  - eexists. split; [exact Hr2'|]. cbn. congruence.
Qed.

Lemma recover_fold_refines now tx l : ∀ d d',
  db_wf d → NoDup (Run.id <$> l) → Forall (still RUNNING d) l →
  fold_result (recover_one now tx) d l = Ok d' → refines d d'.
Proof.
  induction l as [|r l IH]; intros d d' Hwf Hnd Hst Hf; cbn in Hf;
    [injection Hf as <-; by apply refines_refl|].
  apply NoDup_cons in Hnd as [Hnin Hnd]. apply Forall_cons in Hst as [Hr Hl].
  apply result_bind_ok in Hf as (d1 & H1 & Hf).
  destruct (recover_one_refines _ _ _ _ _ Hwf Hr H1) as [Href Hkeep].
  eapply refines_trans; [exact Href|]. apply (IH d1); [apply Href|done| |done].
  rewrite Forall_forall in Hl |- *. intros x Hx. apply Hkeep; [|auto].
  intros Heq. apply Hnin. rewrite <- Heq. by apply list_elem_of_fmap_2.
Qed.

Lemma recover_refines now tx vis n d res d' :
  db_wf d → recover_expired_leases now tx vis n d = (res, d') → refines d d'.
Proof.
  intros Hwf Hc. apply commit_inv in Hc as [(e & _ & _ & ->)|(b & Hc & _)]; [by apply refines_refl|].
  apply result_bind_ok in Hc as (d1 & Hf & Hc). inv_result.
  eapply recover_fold_refines; [done|by apply select_batch_nodup| |exact Hf].
  apply Forall_forall. intros r Hr. apply select_batch_elem in Hr as [Hr HP]; [|done].
  exists r. unfold lease_expired in HP. by bool_to_prop.
Qed.

Lemma schedule_one_refines now tx d run d' :
  db_wf d → runs d !! Run.id run = Some run → Run.execution_status run = RETRY_SCHEDULED →
  schedule_one now tx d run = Ok d' →
  refines d d' ∧ runs d' = <[Run.id run := requeue_run run]> (runs d) ∧ announced d' (Run.id run).
Proof.
  intros Hwf Hr Hs [= <-]. destruct (wf_run_drawn _ _ _ Hwf Hr) as [_ Hrd].
  assert (db_wf (put_run (requeue_run run) d)) as Hwf1 by (by apply db_wf_put_run).
  split_and!; [|done|].
  - apply refines_once; [|auto 8 with arr].
    eapply (life_move _ _ _ _ _ run (requeue_run run)); try done.
    + apply (add_outbox_grows tx (Run.id run) "RUN_QUEUED"
        [("trace_context", JObj (Run.trace_context run)); ("reason", JStr "retry_due")]
        (put_run (requeue_run run) d)); [done..|].
      exists (requeue_run run). split; [apply lookup_insert_eq|done].
    + by constructor.
    + intros _ _. by apply (add_outbox_announced tx (Run.id run) _ (put_run (requeue_run run) d)).
  - by apply (add_outbox_announced tx (Run.id run) _ (put_run (requeue_run run) d)).
Qed.

Lemma schedule_fold_refines now tx l : ∀ d d',
  db_wf d → NoDup (Run.id <$> l) →
  Forall (λ r, runs d !! Run.id r = Some r ∧ Run.execution_status r = RETRY_SCHEDULED) l →
  fold_result (schedule_one now tx) d l = Ok d' → refines d d'.
Proof.
  induction l as [|r l IH]; intros d d' Hwf Hnd Hst Hf; cbn [fold_result] in Hf;
    [injection Hf as <-; by apply refines_refl|].
  apply NoDup_cons in Hnd as [Hnin Hnd]. apply Forall_cons in Hst as [[Hr Hs] Hl].
  apply result_bind_ok in Hf as (d1 & H1 & Hf).
  destruct (schedule_one_refines _ _ _ _ _ Hwf Hr Hs H1) as (Href & Hd1 & _).
  eapply refines_trans; [exact Href|]. apply (IH d1); [apply Href|done| |done].
  rewrite Forall_forall in Hl |- *. intros x Hx. rewrite Hd1, lookup_insert_ne; [auto|].
  intros Heq. apply Hnin. rewrite Heq. by apply list_elem_of_fmap_2.
Qed.

Lemma schedule_refines now tx vis n d res d' :
  db_wf d → schedule_due_retries now tx vis n d = (res, d') → refines d d'.
Proof.
  intros Hwf Hc. apply commit_inv in Hc as [(e & _ & _ & ->)|(b & Hc & _)]; [by apply refines_refl|].
  apply result_bind_ok in Hc as (d1 & Hf & Hc). inv_result.
  eapply schedule_fold_refines; [done|by apply select_batch_nodup| |exact Hf].
  apply Forall_forall. intros r Hr. apply select_batch_elem in Hr as [Hr HP]; [|done].
  unfold retry_due in HP. by bool_to_prop.
Qed.
End Refinement.
