(* ===== verification/Messaging.v ===== *)
(** * Outbox dispatcher, publisher and worker

    [src/src/agent_runtime/infrastructure/messaging/]: [dispatcher.py] publishes
    outbox rows, [publisher.py] builds the messages and chooses their destination,
    [worker.py] consumes them.  A message body is the JSON value it carries, or
    [None] when it is not JSON. *)

From S2P Require Import Prelude Float64 PyValue States Retry Models Quotas Telemetry RunService.
From S2P Require Import ExecutionService.
Local Open Scope Z_scope.

(** ** Publisher *)

Definition EXCHANGE_NAME : string := "agent_runtime".
Definition ROUTING_KEY : string := "run.queued".
Definition DEAD_LETTER_EXCHANGE_NAME : string := "agent_runtime.dlx".
Definition DEAD_LETTER_ROUTING_KEY : string := "run.dead_lettered".
Definition POISON_ROUTING_KEY : string := "poison".
Definition QUEUE_NAME : string := "agent_runtime.execution.v2".
Definition DEAD_LETTER_QUEUE_NAME : string := "agent_runtime.dead_letter".

Definition _destination_for (e : OutboxEvent.t) : result (string * string) :=
  if bool_decide (OutboxEvent.event_type e = "RUN_QUEUED") then Ok (EXCHANGE_NAME, ROUTING_KEY)
  else if bool_decide (OutboxEvent.event_type e = "RUN_DEAD_LETTERED")
  then Ok (DEAD_LETTER_EXCHANGE_NAME, DEAD_LETTER_ROUTING_KEY)
  else Err (ValueError ("Unsupported outbox event type: " +:+ OutboxEvent.event_type e)).

(** The bindings [_get_exchanges] declares: the queue a routed message lands in. *)
Definition bound_queue (exchange routing_key : string) : option string :=
  if bool_decide (exchange = EXCHANGE_NAME ∧ routing_key = ROUTING_KEY) then Some QUEUE_NAME
  else if bool_decide (exchange = DEAD_LETTER_EXCHANGE_NAME
                       ∧ routing_key ∈ [DEAD_LETTER_ROUTING_KEY; POISON_ROUTING_KEY])
  then Some DEAD_LETTER_QUEUE_NAME
  else None.

Definition json_obj (v : json) : dict := match v with JObj d => d | _ => [] end.

Section Messaging.
Context `{Host}.

Definition message_payload (e : OutboxEvent.t) : dict :=
  [("event_id", JStr (uuid_str (OutboxEvent.id e)));
   ("run_id", JStr (uuid_str (OutboxEvent.aggregate_id e)));
   ("trace_context",
    JObj (sanitize_trace_context
            (json_obj (dget_or "trace_context" (JObj []) (OutboxEvent.payload e)))))].

(** [publish]: the destination must exist, then the broker answers ([broker]): a
    confirmation, a negative confirmation or a transport error. *)
Definition publish (broker : OutboxEvent.t → result unit) (e : OutboxEvent.t) : result unit :=
  _destination_for e;; broker e.

(** ** Dispatcher *)

(** [type(exc).__name__]. *)
Definition exn_name (e : exn) : string :=
  match e with
  | ValueError _ => "ValueError" | TypeError => "TypeError" | KeyError => "KeyError"
  | OverflowError => "OverflowError" | RuntimeError _ => "RuntimeError"
  | TimeoutError => "TimeoutError" | InvalidExecutionTransition => "InvalidExecutionTransition"
  | QuotaExceededError _ => "QuotaExceededError"
  | IdempotencyConflictError => "IdempotencyConflictError"
  | InvalidCursorError => "InvalidCursorError" | RunNotFoundError => "RunNotFoundError"
  | RunNotSucceededError => "RunNotSucceededError"
  | EvaluationConfigurationError _ => "EvaluationConfigurationError"
  | ProviderConfigurationError => "ProviderConfigurationError"
  | ProviderHttpError _ => "ProviderHttpError"
  | PublishNotConfirmedError => "PublishNotConfirmedError"
  | OtherException n => n
  end.

Record DispatchResult := { found_event : bool; published : bool }.

Definition unpublished (e : OutboxEvent.t) : bool := bool_decide (OutboxEvent.published_at e = None).

(** The oldest unpublished row no other dispatcher holds. *)
Definition next_outbox (visible : uuid → bool) (d : db) : option OutboxEvent.t :=
  head (sort_by (λ a b, OutboxEvent.created_at a <? OutboxEvent.created_at b)
    (rows_where (λ e, unpublished e && visible (OutboxEvent.id e)) (outbox d))).

Definition mark_published (now : time) (e : OutboxEvent.t) : OutboxEvent.t :=
  OutboxEvent.set_last_error None
    (OutboxEvent.set_published_at (Some now)
      (OutboxEvent.set_publish_attempts (OutboxEvent.publish_attempts e + 1) e)).

Definition mark_failed (x : exn) (e : OutboxEvent.t) : OutboxEvent.t :=
  OutboxEvent.set_last_error (Some (exn_name x))
    (OutboxEvent.set_publish_attempts (OutboxEvent.publish_attempts e + 1) e).

Definition _dispatch_one (now tx_now : time) (visible : uuid → bool)
    (broker : OutboxEvent.t → result unit) (d : db) : DispatchResult * db :=
  match next_outbox visible d with
  | None => ({| found_event := false; published := false |}, d)
  | Some e =>
      match publish broker e with
      | Err x =>
          ({| found_event := true; published := false |},
           add_event tx_now (OutboxEvent.aggregate_id e) None "OUTBOX_PUBLISH_FAILED"
             [("event_id", JStr (uuid_str (OutboxEvent.id e))); ("error_type", JStr (exn_name x))]
             (put_outbox (mark_failed x e) d))
      | Ok _ =>
          ({| found_event := true; published := true |},
           add_event tx_now (OutboxEvent.aggregate_id e) None "OUTBOX_PUBLISHED"
             [("event_id", JStr (uuid_str (OutboxEvent.id e)))]
             (put_outbox (mark_published now e) d))
      end
  end.

(** The [for _ in range(batch_size)] loop; [env] gives each iteration its clocks and
    the rows it sees. *)
Fixpoint dispatch_loop (broker : OutboxEvent.t → result unit)
    (env : nat → time * time * (uuid → bool)) (n : nat) (count : Z) (d : db) : Z * db :=
  match n with
  | O => (count, d)
  | S n =>
      let '(now, tx_now, visible) := env n in
      let '(r, d') := _dispatch_one now tx_now visible broker d in
      if negb (found_event r) then (count, d')
      else if negb (published r) then (count, d')
      else dispatch_loop broker env n (count + 1) d'
  end.

Definition dispatch_once (broker : OutboxEvent.t → result unit)
    (env : nat → time * time * (uuid → bool)) (batch_size : Z) (d : db) : Z * db :=
  dispatch_loop broker env (Z.to_nat batch_size) 0 d.

(** ** Worker *)

Definition body := option json.

Definition _message_payload (b : body) : result dict :=
  match b with
  | None => Err (ValueError "Message body is not JSON")
  | Some (JObj payload) => Ok payload
  | Some _ => Err (ValueError "Message body is not an object")
  end.

Definition run_id_from_message (b : body) : result uuid :=
  payload ← _message_payload b;
  match dget "run_id" payload with
  | Some (JStr s) =>
      match uuid_parse s with
      | Some u => Ok u
      | None => Err (ValueError "Message run_id is invalid")
      end
  | _ => Err (ValueError "Message does not contain a run_id")
  end.

Definition is_trace_entry (kv : string * json) : bool :=
  match kv.2 with JStr _ => bool_decide (kv.1 ∈ ["traceparent"; "tracestate"]) | _ => false end.

Definition trace_context_from_message (b : body) : dict :=
  match _message_payload b with
  | Err _ => []
  | Ok payload =>
      match dget_or "trace_context" (JObj []) payload with
      | JObj t => sanitize_trace_context (filter (λ kv, is_trace_entry kv = true) t)
      | _ => []
      end
  end.

(** What the worker tells the broker about a delivery. *)
Inductive disposition := Ack | NackRequeue | Reject.
#[export] Instance disposition_eq_dec : EqDecision disposition.
Proof. solve_decision. Defined.

Section Worker.
Context (lease_seconds : Z) (limits : QuotaLimits) (service_max_attempts : Z) (worker_id : string).

(** The first half of a delivery: parse, claim.  [inl] settles the message, [inr] goes on
    to execute the claim.  A failure of the claim transaction is not acknowledged. *)
Definition receive (now tx_now : time) (b : body) (d : db) : (disposition + ClaimResult) * db :=
  match run_id_from_message b with
  | Err _ => (inl Reject, d)
  | Ok run_id =>
      match claim lease_seconds limits service_max_attempts now tx_now run_id worker_id d with
      | (Err _, d') => (inl NackRequeue, d')
      | (Ok c, d') =>
          if bool_decide (cr_decision c = CLAIMED) then (inr c, d') else (inl Ack, d')
      end
  end.

(** The snapshot handed to the executor. *)
Definition runtime_policy (c : ClaimResult) (policy : dict) (attempt_id : uuid) : dict :=
  dset "_runtime_attempt_id" (JStr (uuid_str attempt_id))
    (dset "_runtime_worker_id" (JStr worker_id)
      (dset "_runtime_run_id" (JStr (uuid_str (cr_run_id c))) policy)).

(** The [try] block of [_execute_claim]: the stored policy, then the executor under
    [asyncio.wait_for]; [executor] stands for both, a timeout being [TimeoutError]. *)
Definition attempt_outcome (executor : f64 → string → dict → dict → result ExecutionResult)
    (c : ClaimResult) (policy input : dict) (provider : string) (attempt_id : uuid)
    : result ExecutionResult :=
  p ← from_snapshot policy;
  executor (attempt_timeout_seconds p) provider input (runtime_policy c policy attempt_id).

(** The second half of [_execute_claim]: the durable outcome of the attempt. *)
Definition persist_outcome (now tx_now : time) (c : ClaimResult) (attempt_id : uuid)
    (outcome : result ExecutionResult) (d : db) : result bool * db :=
  match outcome with
  | Err e =>
      complete_failure now tx_now (cr_run_id c) attempt_id worker_id
        (error_code_value (classify_exception e)) d
  | Ok r => complete_success now tx_now (cr_run_id c) attempt_id worker_id r d
  end.

Definition _execute_claim (executor : f64 → string → dict → dict → result ExecutionResult)
    (now tx_now : time) (c : ClaimResult) (d : db) : result bool * db :=
  match cr_attempt_id c, cr_input_payload c, cr_policy_snapshot c, cr_provider c with
  | Some attempt_id, Some input, Some policy, Some provider =>
      persist_outcome now tx_now c attempt_id
        (attempt_outcome executor c policy input provider attempt_id) d
  | _, _, _, _ => (Err (RuntimeError "Claimed run must include attempt and execution payload"), d)
  end.

(** The second half of a delivery: execute, persist, settle the message. *)
Definition settle (executor : f64 → string → dict → dict → result ExecutionResult)
    (now tx_now : time) (c : ClaimResult) (d : db) : disposition * db :=
  match _execute_claim executor now tx_now c d with
  | (Ok true, d') => (Ack, d')
  | (Ok false, d') => (NackRequeue, d')
  | (Err _, d') => (NackRequeue, d')
  end.
End Worker.
End Messaging.
