(* ===== verification/Regression.v ===== *)
(** * Regression runs

    [src/src/agent_runtime/evaluation/regression.py]: datasets, targets and gates, the runner
    that executes every case against a baseline and a candidate, and the comparison.  The
    executor and the clock act on a state of their own, of any type. *)

From S2P Require Import Prelude Float64 PyValue States Retry Models Safety Engine ExecutionService Providers.
From S2P Require Import Messaging.
Local Open Scope Z_scope.

(** ** Datasets, targets, gates *)

Record RegressionCase := { case_id : string; case_input : dict; case_rules : list dict }.
Record RegressionDataset := { dataset_id : string; dataset_version : string; cases : list RegressionCase }.

Definition all_objects (l : list json) : option (list dict) :=
  mapM (λ v, match v with JObj d => Some d | _ => None end) l.

(** A non-blank string, or the error. *)
Definition required_text (v : option json) (msg : string) : result string :=
  match v with
  | Some (JStr s) => if Text.nonblank s then Ok s else Err (ValueError msg)
  | _ => Err (ValueError msg)
  end.

Definition parse_case (seen : list string) (raw_case : json) : result RegressionCase :=
  match raw_case with
  | JObj c =>
      id ← required_text (dget "case_id" c) "every dataset case requires a non-empty case_id";
      raise_unless (negb (bool_decide (id ∈ seen))) (ValueError "dataset case_id values must be unique");;
      match dget "input" c with
      | Some (JObj (x :: xs)) =>
          match dget "rules" c with
          | Some (JArr (r :: rs)) =>
              match all_objects (r :: rs) with
              | Some rules => Ok {| case_id := id; case_input := x :: xs; case_rules := rules |}
              | None => Err (ValueError "every dataset case requires a non-empty rules list")
              end
          | _ => Err (ValueError "every dataset case requires a non-empty rules list")
          end
      | _ => Err (ValueError "every dataset case requires a non-empty input object")
      end
  | _ => Err (ValueError "every dataset case must be an object")
  end.

Fixpoint parse_cases (seen : list string) (raw_cases : list json) : result (list RegressionCase) :=
  match raw_cases with
  | [] => Ok []
  | raw_case :: rest =>
      c ← parse_case seen raw_case;
      cs ← parse_cases (case_id c :: seen) rest;
      Ok (c :: cs)
  end.

(** [RegressionDataset.from_mapping]. *)
Definition from_mapping (value : dict) : result RegressionDataset :=
  id ← required_text (dget "dataset_id" value) "dataset_id must be a non-empty string";
  version ← required_text (dget "version" value) "dataset.version must be a non-empty string";
  match dget "cases" value with
  | Some (JArr (c :: cs)) =>
      l ← parse_cases [] (c :: cs);
      Ok {| dataset_id := id; dataset_version := version; cases := l |}
  | _ => Err (ValueError "dataset.cases must be a non-empty list")
  end.

Record ProviderModelTarget := { tgt_provider : string; tgt_model : option string; tgt_cost : Z }.

Definition mk_target (provider : string) (model : option string) (cost : Z) : result ProviderModelTarget :=
  raise_unless (Text.nonblank provider) (ValueError "target.provider must be a non-empty string");;
  raise_unless (match model with Some m => Text.nonblank m | None => true end)
    (ValueError "target.model must be non-empty when provided");;
  raise_unless (0 <=? cost) (ValueError "target.estimated_cost_microusd must be non-negative");;
  Ok {| tgt_provider := provider; tgt_model := model; tgt_cost := cost |}.

Definition opt_str (o : option string) : json := match o with Some s => JStr s | None => JNull end.
Definition target_dict (t : ProviderModelTarget) : dict :=
  [("provider", JStr (tgt_provider t)); ("model", opt_str (tgt_model t));
   ("estimated_cost_microusd", JNum (NInt (tgt_cost t)))].

Record RegressionGates := {
  max_quality_regression_points : num;
  max_latency_regression_percent : option num;
  max_cost_regression_percent : option num;
}.

Definition gate_ok (g : option num) : bool := match g with Some v => negb (num_lt v (NInt 0)) | None => true end.
Definition gates_valid (g : RegressionGates) : bool :=
  gate_ok (Some (max_quality_regression_points g)) && gate_ok (max_latency_regression_percent g)
  && gate_ok (max_cost_regression_percent g).
Definition mk_gates (g : RegressionGates) : result RegressionGates :=
  raise_unless (gates_valid g) (ValueError "regression gates must be non-negative");; Ok g.

Definition _target_policy (t : ProviderModelTarget) : dict :=
  ("provider_order", JArr [JStr (tgt_provider t)])
  :: match tgt_model t with Some m => [("model", JStr m)] | None => [] end.

(** ** One target *)

Record case_result := {
  res_case_id : string;
  res_passed : bool;
  res_latency_ms : Z;
  res_cost : Z;
  res_detail : list rule_result + string;
}.
Definition errored (c : case_result) : bool := match res_detail c with inr _ => true | inl _ => false end.

Record summary := {
  passed_cases : Z;
  failed_cases : Z;
  pass_rate : f64;
  average_latency_ms : f64;
  total_cost : Z;
}.

Definition summarize (l : list case_result) : result summary :=
  let p := sum_by (λ c, if res_passed c then 1 else 0) l in
  ratio ← int_div p (len l);
  rate ← py_round ratio 6;
  mean ← int_div (sum_by res_latency_ms l) (len l);
  avg ← py_round mean 3;
  Ok {| passed_cases := p; failed_cases := len l - p; pass_rate := rate; average_latency_ms := avg;
        total_cost := sum_by res_cost l |}.

Record target_result := { tr_target : ProviderModelTarget; tr_cases : list case_result; tr_summary : summary }.

Section Runner.
Context {S : Type} (check_schema : json → bool) (schema_valid : json → json → bool)
        (executor : string → dict → dict → S → result ExecutionResult * S) (perf_counter : S → f64 * S).

(** [round((time.perf_counter() - started_at) * 1000)]. *)
Definition measure (started_at : f64) (s : S) : result Z * S :=
  let '(t, s') := perf_counter s in
  (py_round_int (f64_mul (f64_sub t started_at) (Fin (1000 * unit64))), s').

(** The [try] block: the provider's answer, its latency, the verdict of the rules. *)
Definition attempt_case (t : ProviderModelTarget) (c : RegressionCase) (started_at : f64) (s : S)
    : result case_result * S :=
  match executor (tgt_provider t) (case_input c) (_target_policy t) s with
  | (Err e, s1) => (Err e, s1)
  | (Ok r, s1) =>
      let '(lat, s2) := measure started_at s1 in
      (latency_ms ← lat;
       outcome ← evaluate_rules check_schema schema_valid (case_rules c) (er_result_payload r) (Some latency_ms);
       Ok {| res_case_id := case_id c; res_passed := passed outcome; res_latency_ms := latency_ms;
             res_cost := tgt_cost t; res_detail := inl (rule_results outcome) |}, s2)
  end.

Definition run_case (t : ProviderModelTarget) (c : RegressionCase) (s : S) : result case_result * S :=
  let '(started_at, s0) := perf_counter s in
  match attempt_case t c started_at s0 with
  | (Ok r, s1) => (Ok r, s1)
  | (Err (QuotaExceededError m), s1) => (Err (QuotaExceededError m), s1)
  | (Err e, s1) =>
      let '(lat, s2) := measure started_at s1 in
      (latency_ms ← lat;
       Ok {| res_case_id := case_id c; res_passed := false; res_latency_ms := latency_ms;
             res_cost := tgt_cost t; res_detail := inr (exn_name e) |}, s2)
  end.

Fixpoint run_cases (t : ProviderModelTarget) (l : list RegressionCase) (s : S)
    : result (list case_result) * S :=
  match l with
  | [] => (Ok [], s)
  | c :: l =>
      match run_case t c s with
      | (Err e, s1) => (Err e, s1)
      | (Ok r, s1) => let '(rs, s2) := run_cases t l s1 in (rs' ← rs; Ok (r :: rs'), s2)
      end
  end.

Definition _run_target (d : RegressionDataset) (t : ProviderModelTarget) (s : S) : result target_result * S :=
  let '(rs, s') := run_cases t (cases d) s in
  (l ← rs; sm ← summarize l; Ok {| tr_target := t; tr_cases := l; tr_summary := sm |}, s').
End Runner.

(** ** The comparison *)

(** [a - b], [a / b] and [-a] of two numbers of the same kind. *)
Definition num_sub (a b : num) : num :=
  match a, b with
  | NInt x, NInt y => NInt (x - y)
  | _, _ => NFloat (f64_sub (num_value a) (num_value b))
  end.
Definition num_div (a b : num) : result f64 :=
  match a, b with
  | NInt x, NInt y => int_div x y
  | _, _ => f64_div (num_value a) (num_value b)
  end.
Definition num_neg (a : num) : num := match a with NInt x => NInt (- x) | NFloat f => NFloat (f64_neg f) end.
(** [round(a, 3)]: an integer stays what it is. *)
Definition num_round3 (a : num) : result num :=
  match a with NInt x => Ok (NInt x) | NFloat f => r ← py_round f 3; Ok (NFloat r) end.

Record metric := {
  m_baseline : num; m_candidate : num; m_absolute_delta : num; m_percent_delta : option f64;
  m_max_regression_percent : option num; m_regressed : bool;
}.

Definition percent_delta (baseline candidate : num) : result (option f64) :=
  if num_eqb baseline (NInt 0) then Ok (if num_eqb candidate (NInt 0) then Some (Fin 0) else None)
  else
    q ← num_div (num_sub candidate baseline) baseline;
    r ← py_round (f64_mul q (Fin (100 * unit64))) 3;
    Ok (Some r).

Definition _metric_comparison (baseline candidate : num) (allowed_percent : option num) : result metric :=
  absolute ← num_round3 (num_sub candidate baseline);
  percent ← percent_delta baseline candidate;
  let regressed :=
    match allowed_percent, percent with
    | None, _ => false
    | Some _, None => num_lt baseline candidate
    | Some a, Some p => num_lt a (NFloat p)
    end in
  Ok {| m_baseline := baseline; m_candidate := candidate; m_absolute_delta := absolute;
        m_percent_delta := percent; m_max_regression_percent := allowed_percent; m_regressed := regressed |}.

Record comparison := {
  c_baseline_pass_rate : f64; c_candidate_pass_rate : f64; c_delta_points : f64;
  c_max_regression_points : num; c_quality_regressed : bool;
  c_latency : metric; c_cost : metric; c_passed : bool;
}.

Definition _comparison (baseline candidate : summary) (gates : RegressionGates) : result comparison :=
  delta ← py_round (f64_mul (f64_sub (pass_rate candidate) (pass_rate baseline)) (Fin (100 * unit64))) 3;
  latency ← _metric_comparison (NFloat (average_latency_ms baseline)) (NFloat (average_latency_ms candidate))
              (max_latency_regression_percent gates);
  cost ← _metric_comparison (NInt (total_cost baseline)) (NInt (total_cost candidate))
           (max_cost_regression_percent gates);
  let quality := num_lt (NFloat delta) (num_neg (max_quality_regression_points gates)) in
  Ok {| c_baseline_pass_rate := pass_rate baseline; c_candidate_pass_rate := pass_rate candidate;
        c_delta_points := delta; c_max_regression_points := max_quality_regression_points gates;
        c_quality_regressed := quality; c_latency := latency; c_cost := cost;
        c_passed := negb quality && negb (m_regressed latency) && negb (m_regressed cost) |}.

Record report := {
  rp_dataset : RegressionDataset;
  rp_baseline : target_result;
  rp_candidate : target_result;
  rp_comparison : comparison;
  rp_passed : bool;
}.

Section Run.
Context {S : Type} (check_schema : json → bool) (schema_valid : json → json → bool)
        (executor : string → dict → dict → S → result ExecutionResult * S) (perf_counter : S → f64 * S).
Abbreviation run_target := (_run_target check_schema schema_valid executor perf_counter).

(** [EvaluationRegressionRunner.run]; an errored case on either side fails the comparison. *)
Definition run (d : RegressionDataset) (baseline candidate : ProviderModelTarget) (gates : RegressionGates)
    (s : S) : result report * S :=
  match run_target d baseline s with
  | (Err e, s1) => (Err e, s1)
  | (Ok b, s1) =>
      match run_target d candidate s1 with
      | (Err e, s2) => (Err e, s2)
      | (Ok c, s2) =>
          (cmp ← _comparison (tr_summary b) (tr_summary c) gates;
           let errors := existsb errored (tr_cases b ++ tr_cases c) in
           let ok := c_passed cmp && negb errors in
           Ok {| rp_dataset := d; rp_baseline := b; rp_candidate := c;
                 rp_comparison := {| c_baseline_pass_rate := c_baseline_pass_rate cmp;
                                     c_candidate_pass_rate := c_candidate_pass_rate cmp;
                                     c_delta_points := c_delta_points cmp;
                                     c_max_regression_points := c_max_regression_points cmp;
                                     c_quality_regressed := c_quality_regressed cmp;
                                     c_latency := c_latency cmp; c_cost := c_cost cmp; c_passed := ok |};
                 rp_passed := ok |}, s2)
      end
  end.
End Run.

(** ** The report as JSON *)

Definition case_json (c : case_result) : json :=
  JObj ([("case_id", JStr (res_case_id c)); ("passed", JBool (res_passed c));
         ("latency_ms", JNum (NInt (res_latency_ms c))); ("estimated_cost_microusd", JNum (NInt (res_cost c)))]
        ++ match res_detail c with
           | inl rules => [("rules", JArr (rule_result_json <$> rules))]
           | inr error_type => [("error_type", JStr error_type)]
           end).
Definition summary_json (s : summary) : json :=
  JObj [("passed_cases", JNum (NInt (passed_cases s))); ("failed_cases", JNum (NInt (failed_cases s)));
        ("pass_rate", JNum (NFloat (pass_rate s))); ("average_latency_ms", JNum (NFloat (average_latency_ms s)));
        ("estimated_cost_microusd", JNum (NInt (total_cost s)))].
Definition target_json (t : target_result) : json :=
  JObj [("target", JObj (target_dict (tr_target t))); ("cases", JArr (case_json <$> tr_cases t));
        ("summary", summary_json (tr_summary t))].
Definition opt_num (o : option num) : json := match o with Some n => JNum n | None => JNull end.
Definition metric_json (m : metric) : json :=
  JObj [("baseline", JNum (m_baseline m)); ("candidate", JNum (m_candidate m));
        ("absolute_delta", JNum (m_absolute_delta m)); ("percent_delta", opt_num (NFloat <$> m_percent_delta m));
        ("max_regression_percent", opt_num (m_max_regression_percent m)); ("regressed", JBool (m_regressed m))].
Definition comparison_json (c : comparison) : json :=
  JObj [("quality", JObj [("baseline_pass_rate", JNum (NFloat (c_baseline_pass_rate c)));
                          ("candidate_pass_rate", JNum (NFloat (c_candidate_pass_rate c)));
                          ("delta_points", JNum (NFloat (c_delta_points c)));
                          ("max_regression_points", JNum (c_max_regression_points c));
                          ("regressed", JBool (c_quality_regressed c))]);
        ("latency", metric_json (c_latency c)); ("cost", metric_json (c_cost c)); ("passed", JBool (c_passed c))].

Definition REPORT_SCHEMA_VERSION : string := "evaluation-regression-report.v1".
Definition report_dict (r : report) : dict :=
  [("schema_version", JStr REPORT_SCHEMA_VERSION);
   ("dataset", JObj [("dataset_id", JStr (dataset_id (rp_dataset r))); ("version", JStr (dataset_version (rp_dataset r)));
                     ("case_count", JNum (NInt (len (cases (rp_dataset r)))))]);
   ("baseline", target_json (rp_baseline r)); ("candidate", target_json (rp_candidate r));
   ("comparison", comparison_json (rp_comparison r)); ("passed", JBool (rp_passed r))].

(** ** Signs of floats *)

Definition nonneg (f : f64) : Prop := match f with Fin m => 0 ≤ m | PInf => True | _ => False end.
Definition nonpos (f : f64) : Prop := match f with Fin m => m ≤ 0 | NInf => True | _ => False end.

Lemma limit64_pos : 0 < limit64.
Proof. reflexivity. Qed.

Lemma signed64_nonneg sgn m : 0 < sgn ∨ m = 0 → 0 ≤ m → nonneg (signed64 sgn m).
Proof.
  intros Hs Hm. pose proof limit64_pos. unfold signed64. generalize dependent limit64. intros lim Hlim.
  destruct (Z.ltb_spec m lim); cbn; [destruct Hs; nia|].
  destruct Hs as [Hs| ->]; [by rewrite (proj2 (Z.ltb_lt _ _) Hs)|lia].
Qed.
Lemma signed64_nonpos sgn m : sgn ≤ 0 → 0 ≤ m → nonpos (signed64 sgn m).
Proof.
  intros Hs Hm. unfold signed64. destruct (m <? limit64); cbn; [nia|].
  by rewrite (proj2 (Z.ltb_ge _ _)) by lia.
Qed.

Lemma f64_round_nonpos n d : n ≤ 0 → 0 < d → nonpos (f64_round n d).
Proof.
  intros Hn Hd. apply signed64_nonpos; [lia|]. pose proof unit64_pos. apply round53_pos; nia.
Qed.

Lemma rounded_zero s : round53 (Z.abs 0) 1 s = 0 ∨ s < 0.
Proof. destruct (Z.lt_ge_cases s 0); [by right|left]. by apply round53_0. Qed.

Lemma sgn_cases n : 0 ≤ n → 0 < Z.sgn n ∨ n = 0.
Proof. lia. Qed.

Lemma f64_sub_nonneg a b : b ≤ a → nonneg (f64_sub (Fin a) (Fin b)).
Proof.
  intros Hab. unfold f64_sub, f64_add. cbn. apply signed64_nonneg; [|apply round53_pos; lia].
  destruct (sgn_cases (a + - b)) as [?|E]; [lia|by left|right]. rewrite E. by apply round53_0.
Qed.
Lemma f64_sub_nonpos a b : a ≤ b → nonpos (f64_sub (Fin a) (Fin b)).
Proof. intros Hab. unfold f64_sub, f64_add. cbn. apply signed64_nonpos; [lia|apply round53_pos; lia]. Qed.

(** Scaling by a positive factor keeps the sign. *)
Lemma f64_scale_nonneg f k : 0 < k → nonneg f → nonneg (f64_mul f (Fin k)).
Proof.
  intros Hk. destruct f as [m| | |]; intros Hm; cbn in Hm; unfold f64_mul; try exact (False_ind _ Hm).
  - apply signed64_nonneg; [|apply round53_pos; lia].
    destruct (sgn_cases (m * k)) as [?|E]; [nia|by left|right]. rewrite E. by apply round53_0.
  - by rewrite (proj2 (Z.eqb_neq k 0)), (proj2 (Z.ltb_lt 0 k)) by lia.
Qed.
Lemma f64_scale_nonpos f k : 0 < k → nonpos f → nonpos (f64_mul f (Fin k)).
Proof.
  intros Hk. destruct f as [m| | |]; intros Hm; cbn in Hm; unfold f64_mul; try exact (False_ind _ Hm).
  - apply signed64_nonpos; [nia|apply round53_pos; lia].
  - by rewrite (proj2 (Z.eqb_neq k 0)), (proj2 (Z.ltb_lt 0 k)) by lia.
Qed.

Lemma hundred_pos : 0 < 100 * unit64.
Proof. apply Z.mul_pos_pos; [done|apply unit64_pos]. Qed.

Lemma py_round_fin m nd f : py_round (Fin m) nd = Ok f → ∃ x, f = Fin x.
Proof. unfold py_round. destruct (f64_round_digits _ _); try done. intros [= <-]. eauto. Qed.

Lemma py_round_nonneg f nd r : 0 ≤ nd → nonneg f → py_round f nd = Ok r → nonneg r.
Proof.
  intros Hnd Hf Hr. destruct f as [m| | |]; try done; [|by injection Hr as <-].
  destruct (py_round_fin _ _ _ Hr) as [x ->]. cbn in Hf.
  pose proof (py_round_mono (Fin m) (Fin m) nd x x m m eq_refl eq_refl ltac:(lia) Hnd Hr Hr). cbn. lia.
Qed.
Lemma py_round_nonpos f nd r : 0 ≤ nd → nonpos f → py_round f nd = Ok r → nonpos r.
Proof.
  intros Hnd Hf Hr. destruct f as [m| | |]; try done; [|by injection Hr as <-].
  unfold py_round in Hr. cbn in Hf. assert (0 < 10 ^ nd) by (apply Z.pow_pos_nonneg; lia).
  assert (nonpos (f64_round_digits (Fin m) nd)) as Hs.
  { unfold f64_round_digits. apply f64_round_nonpos; [|done].
    assert (0 ≤ rhe_div_pow (Z.abs m * 10 ^ nd) 1 1074); [|nia].
    rewrite rhe_div_pow_spec, Z.mul_1_l by lia. rewrite <- (rhe_div_exact 0 (2 ^ 1074)) by (by apply Z.pow_pos_nonneg).
    apply rhe_div_mono; [by apply Z.pow_pos_nonneg|nia]. }
  destruct (f64_round_digits (Fin m) nd); try done. by injection Hr as <-.
Qed.

(** A non-negative gate admits what does not exceed zero. *)
Lemma gate_admits g f : gate_ok (Some g) = true → nonpos f → num_lt g (NFloat f) = false.
Proof.
  unfold gate_ok. intros Hg Hf. apply negb_true_iff in Hg. unfold num_lt in *. cbn [num_value] in *.
  destruct (num_value g), f; cbn in *; try done. bool_to_prop. apply Z.ltb_ge. lia.
Qed.
Lemma quality_gate_admits g f :
  gate_ok (Some g) = true → nonneg f → num_lt (NFloat f) (num_neg g) = false.
Proof.
  unfold gate_ok. intros Hg Hf. apply negb_true_iff in Hg. unfold num_lt in *.
  assert (num_value (num_neg g) = f64_neg (num_value g)) as -> by (destruct g; cbn; [f_equal; lia|done]).
  cbn [num_value] in *. destruct (num_value g), f; cbn in *; try done. bool_to_prop. apply Z.ltb_ge. lia.
Qed.

(** ** Gates *)

Lemma f64_div_nonpos f b q : nonpos f → 0 < b → f64_div f (Fin b) = Ok q → nonpos q.
Proof.
  intros Hf Hb. pose proof unit64_pos. unfold f64_div. destruct f as [m| | |]; cbn in Hf; try exact (False_ind _ Hf).
  - destruct b; try lia. intros [= <-]. apply signed64_nonpos; [nia|apply round53_pos; lia].
  - destruct b; try lia. by intros [= <-].
Qed.

Lemma percent_nonpos b c x y p :
  num_value b = Fin x → num_value c = Fin y → 0 ≤ y ≤ x →
  percent_delta b c = Ok p → ∃ f, p = Some f ∧ nonpos f.
Proof.
  intros Hb Hc Hxy. pose proof unit64_pos as Hu. unfold percent_delta, num_eqb. rewrite Hb, Hc. cbn [num_value f64_eqb].
  destruct (Z.eqb_spec x (0 * unit64)) as [E|Hx].
  { rewrite (proj2 (Z.eqb_eq y (0 * unit64))) by lia. intros [= <-]. by exists (Fin 0). }
  intros (q & Hq & (r & Hr & [= <-])%result_bind_ok)%result_bind_ok. exists r. split; [done|].
  refine (py_round_nonpos _ 3 _ _ _ Hr); [lia|]. apply f64_scale_nonpos; [apply hundred_pos|].
  assert (∀ bf cf, num_value (NFloat bf) = Fin x → num_value (NFloat cf) = Fin y →
            f64_div (f64_sub cf bf) bf = Ok q → nonpos q) as Hfl.
  { cbn. intros ? ? -> -> Hd. refine (f64_div_nonpos _ x _ _ _ Hd); [apply f64_sub_nonpos|]; lia. }
  destruct b as [bz|bf], c as [cz|cf]; cbn [num_sub num_div num_value] in *.
  - injection Hb as Hb. injection Hc as Hc. unfold int_div in Hq. rewrite (proj2 (Z.eqb_neq bz 0)) in Hq by nia.
    assert (nonpos (f64_round (Z.sgn bz * (cz - bz)) (Z.abs bz))) as Hs by (apply f64_round_nonpos; nia).
    destruct (f64_round _ _); try done. by injection Hq as <-.
  - rewrite Hb in Hq. by eapply (Hfl (Fin x) cf).
  - rewrite Hc in Hq. by eapply (Hfl bf (Fin y)).
  - by eapply Hfl.
Qed.

Lemma metric_no_worse b c x y g m :
  num_value b = Fin x → num_value c = Fin y → 0 ≤ y ≤ x → gate_ok g = true →
  _metric_comparison b c g = Ok m → m_regressed m = false.
Proof.
  intros Hb Hc Hxy Hg. unfold _metric_comparison.
  intros (a & _ & (p & Hp & [= <-])%result_bind_ok)%result_bind_ok. cbn.
  destruct (percent_nonpos b c x y p) as (f & -> & Hf); [done..|].
  destruct g as [g|]; [|done]. by apply gate_admits.
Qed.

(** The rounded quotients of two sums over the same number of cases keep the order of the sums. *)
Lemma rounded_mean_mono p p' n nd q q' r r' :
  0 ≤ p ≤ p' → 0 < n → 0 ≤ nd →
  int_div p n = Ok q → int_div p' n = Ok q' → py_round q nd = Ok r → py_round q' nd = Ok r' →
  ∃ x x', r = Fin x ∧ r' = Fin x' ∧ 0 ≤ x ≤ x'.
Proof.
  intros Hp Hn Hnd. unfold int_div. rewrite (proj2 (Z.eqb_neq n 0)), Z.sgn_pos, Z.abs_eq, !Z.mul_1_l by lia.
  destruct (f64_round p n) as [a| | |] eqn:Ea; try done. intros [= <-].
  destruct (f64_round p' n) as [b| | |] eqn:Eb; try done. intros [= <-] Hr Hr'.
  destruct (py_round_fin _ _ _ Hr) as [x ->], (py_round_fin _ _ _ Hr') as [x' ->].
  pose proof (f64_round_mono _ _ _ _ _ Hp Hn Ea Eb).
  exists x, x'. split; [done|split; [done|]]. refine (py_round_mono _ _ nd _ _ a b eq_refl eq_refl _ _ Hr Hr'); lia.
Qed.

(** ** The cases of a run *)

Section Theorems.
Context {S : Type} (check_schema : json → bool) (schema_valid : json → json → bool)
        (executor : string → dict → dict → S → result ExecutionResult * S) (perf_counter : S → f64 * S).
Abbreviation run_case := (run_case check_schema schema_valid executor perf_counter).
Abbreviation run_cases := (run_cases check_schema schema_valid executor perf_counter).
Abbreviation run_target := (_run_target check_schema schema_valid executor perf_counter).
Abbreviation run := (run check_schema schema_valid executor perf_counter).

(** What every recorded case says of its dataset case. *)
Definition records (t : ProviderModelTarget) (c : RegressionCase) (r : case_result) : Prop :=
  res_case_id r = case_id c ∧ res_cost r = tgt_cost t ∧ (errored r = true → res_passed r = false).

Lemma run_case_records t c s r s' : run_case t c s = (Ok r, s') → records t c r.
Proof.
  unfold Regression.run_case, attempt_case, measure, records.
  destruct (perf_counter s) as [t0 s0]. destruct (executor _ _ _ s0) as [[a|e] s1].
  - destruct (perf_counter s1) as [t1 s2]. destruct (py_round_int _ ≫= _) as [x|e] eqn:E.
    + intros [= <- _]. apply result_bind_ok in E as (l & _ & (o & _ & [= <-])%result_bind_ok). done.
    + destruct (perf_counter s2) as [t2 s3].
      destruct e; try done; intros [= (l & _ & [= <-])%result_bind_ok _]; done.
  - destruct (perf_counter s1) as [t1 s2].
    destruct e; try done; intros [= (l & _ & [= <-])%result_bind_ok _]; done.
Qed.

Lemma run_cases_records t l s rs s' : run_cases t l s = (Ok rs, s') → Forall2 (records t) l rs.
Proof.
  revert s rs s'. induction l as [|c l IH]; intros s rs s'; cbn.
  - by intros [= <- _].
  - destruct (run_case t c s) as [[r|e] s1] eqn:E; [|done].
    destruct (run_cases t l s1) as [rs' s2] eqn:El. intros [= (l' & -> & [= <-])%result_bind_ok _].
    constructor; [by eapply run_case_records|by eapply IH].
Qed.

Lemma records_ids t l rs : Forall2 (records t) l rs → res_case_id <$> rs = case_id <$> l.
Proof. induction 1 as [|? ? ? ? (E & _)]; csimpl; congruence. Qed.
Lemma records_cost t l rs : Forall2 (records t) l rs → sum_by res_cost rs = tgt_cost t * len l.
Proof. induction 1 as [|c r l k (_ & E & _) _ IH]; [unfold len; cbn; lia|].
  cbn [sum_by foldr]. fold (sum_by res_cost k). rewrite E, IH, len_cons. lia. Qed.

Lemma passed_count_bounds l : 0 ≤ sum_by (λ c, if res_passed c then 1 else 0) l ≤ len l.
Proof.
  induction l as [|c l IH]; [done|]. rewrite len_cons. cbn [sum_by foldr]. fold (sum_by (λ c, if res_passed c then 1 else 0) l).
  destruct (res_passed c); lia.
Qed.

Lemma count_passed l : sum_by (λ c, if res_passed c then 1 else 0) l = len (List.filter res_passed l).
Proof.
  induction l as [|c l IH]; [done|]. cbn [sum_by foldr List.filter].
  fold (sum_by (λ c, if res_passed c then 1 else 0) l). destruct (res_passed c); rewrite ?len_cons, IH; lia.
Qed.

Lemma existsb_none {A} (p : A → bool) l : existsb p l = false ↔ ∀ x, x ∈ l → p x = false.
Proof.
  rewrite <- not_true_iff_false, existsb_exists. setoid_rewrite <- list_elem_of_In.
  setoid_rewrite <- not_true_iff_false. naive_solver.
Qed.

(** What a finished target holds. *)
Definition target_of (d : RegressionDataset) (t : ProviderModelTarget) (r : target_result) : Prop :=
  tr_target r = t ∧ Forall2 (records t) (cases d) (tr_cases r) ∧ summarize (tr_cases r) = Ok (tr_summary r).

Lemma run_target_of d t s r s' : run_target d t s = (Ok r, s') → target_of d t r.
Proof.
  unfold _run_target. destruct (run_cases t (cases d) s) as [rs s1] eqn:E.
  intros [= (l & -> & (sm & Hs & [= <-])%result_bind_ok)%result_bind_ok _].
  split_and!; [done| |done]. by eapply run_cases_records.
Qed.

Lemma summarize_ok l sm :
  summarize l = Ok sm →
  passed_cases sm = sum_by (λ c, if res_passed c then 1 else 0) l
  ∧ failed_cases sm = len l - passed_cases sm ∧ total_cost sm = sum_by res_cost l ∧ 0 < len l
  ∧ (∃ q, int_div (passed_cases sm) (len l) = Ok q ∧ py_round q 6 = Ok (pass_rate sm))
  ∧ (∃ q, int_div (sum_by res_latency_ms l) (len l) = Ok q ∧ py_round q 3 = Ok (average_latency_ms sm)).
Proof.
  unfold summarize.
  intros (a & Ha & (b & Hb & (c & Hc & (e & He & [= <-])%result_bind_ok)%result_bind_ok)%result_bind_ok)%result_bind_ok.
  split_and!; try done; [|by exists a|by exists c].
  destruct l; [done|]. rewrite len_cons. pose proof (len_nonneg l). lia.
Qed.

Lemma run_parts d b c g s r s' :
  run d b c g s = (Ok r, s') →
  rp_dataset r = d ∧ target_of d b (rp_baseline r) ∧ target_of d c (rp_candidate r)
  ∧ ∃ cmp, _comparison (tr_summary (rp_baseline r)) (tr_summary (rp_candidate r)) g = Ok cmp
  ∧ rp_passed r = c_passed cmp && negb (existsb errored (tr_cases (rp_baseline r) ++ tr_cases (rp_candidate r)))
  ∧ c_passed (rp_comparison r) = rp_passed r
  ∧ c_quality_regressed (rp_comparison r) = c_quality_regressed cmp
  ∧ c_latency (rp_comparison r) = c_latency cmp ∧ c_cost (rp_comparison r) = c_cost cmp.
Proof.
  unfold Regression.run. destruct (run_target d b s) as [[rb|] s1] eqn:Eb; [|done].
  destruct (run_target d c s1) as [[rc|] s2] eqn:Ec; [|done].
  intros [= (cmp & Hcmp & [= <-])%result_bind_ok _]. cbn.
  split_and!; try done; [by eapply run_target_of..|]. by exists cmp.
Qed.

Lemma comparison_passed b c g cmp :
  _comparison b c g = Ok cmp →
  c_passed cmp = negb (c_quality_regressed cmp) && negb (m_regressed (c_latency cmp)) && negb (m_regressed (c_cost cmp)).
Proof.
  unfold _comparison.
  by intros (? & _ & (? & _ & (? & _ & [= <-])%result_bind_ok)%result_bind_ok)%result_bind_ok.
Qed.

(** A target that does no worse on every summed measure passes the gates. *)
Lemma no_worse_comparison lb lc sb sc g cmp :
  summarize lb = Ok sb → summarize lc = Ok sc → len lb = len lc →
  passed_cases sb ≤ passed_cases sc →
  0 ≤ sum_by res_latency_ms lc ≤ sum_by res_latency_ms lb →
  0 ≤ total_cost sc ≤ total_cost sb →
  gates_valid g = true → _comparison sb sc g = Ok cmp → c_passed cmp = true.
Proof.
  intros (Pb & _ & Cb & Nb & (qb & Hqb & Rb) & (mb & Hmb & Lb))%summarize_ok
         (Pc & _ & Cc & Nc & (qc & Hqc & Rc) & (mc & Hmc & Lc))%summarize_ok Hlen Hp Hl Hc Hg Hcmp.
  rewrite Hlen in *. rewrite (comparison_passed _ _ _ _ Hcmp). revert Hcmp. unfold _comparison.
  intros (dl & Hd & (la & Hla & (co & Hco & [= <-])%result_bind_ok)%result_bind_ok)%result_bind_ok. cbn.
  unfold gates_valid in Hg. apply andb_true_iff in Hg as [[Hg1 Hg2]%andb_true_iff Hg3].
  pose proof (passed_count_bounds lb) as Hb0. rewrite <- Pb in Hb0.
  destruct (rounded_mean_mono _ _ _ 6 _ _ _ _ (conj (proj1 Hb0) Hp) Nc ltac:(lia) Hqb Hqc Rb Rc) as (x & x' & E & E' & Hx).
  destruct (rounded_mean_mono _ _ _ 3 _ _ _ _ Hl Nc ltac:(lia) Hmc Hmb Lc Lb) as (y & y' & Ey & Ey' & Hy).
  rewrite (quality_gate_admits _ dl Hg1); [|refine (py_round_nonneg _ 3 _ _ _ Hd); [lia|]].
  - rewrite (metric_no_worse (NFloat _) (NFloat _) y' y _ _ Ey' Ey Hy Hg2 Hla).
    pose proof unit64_pos.
    assert (0 ≤ total_cost sc * unit64 ≤ total_cost sb * unit64) as Hu.
    { split; [apply Z.mul_nonneg_nonneg|apply Z.mul_le_mono_nonneg_r]; lia. }
    by rewrite (metric_no_worse (NInt _) (NInt _) _ _ _ _ eq_refl eq_refl Hu Hg3 Hco).
  - apply f64_scale_nonneg; [apply hundred_pos|]. rewrite E, E'. apply f64_sub_nonneg. lia.
Qed.

(** A report accounts for the whole dataset on both sides: one record per case, in the
    order of the dataset and with its id, passed and failed cases adding up to the number of
    cases, the cost being that of one call per case; and it passes exactly when the provider
    answered every case on both sides and neither quality, latency nor cost regressed. *)
Theorem regression_report_complete d b c g s r s' :
  run d b c g s = (Ok r, s') →
  (∀ t side, (t = b ∧ side = rp_baseline r) ∨ (t = c ∧ side = rp_candidate r) →
     res_case_id <$> tr_cases side = case_id <$> cases d
     ∧ passed_cases (tr_summary side) = len (List.filter res_passed (tr_cases side))
     ∧ passed_cases (tr_summary side) + failed_cases (tr_summary side) = len (cases d)
     ∧ total_cost (tr_summary side) = tgt_cost t * len (cases d))
  ∧ (rp_passed r = true ↔
       (∀ x, x ∈ tr_cases (rp_baseline r) ++ tr_cases (rp_candidate r) → errored x = false)
       ∧ c_quality_regressed (rp_comparison r) = false
       ∧ m_regressed (c_latency (rp_comparison r)) = false
       ∧ m_regressed (c_cost (rp_comparison r)) = false).
Proof.
  intros (_ & Hb & Hc & cmp & Hcmp & Hp & _ & Hq & Hl & Hk)%run_parts. split.
  - assert (∀ t side, target_of d t side → res_case_id <$> tr_cases side = case_id <$> cases d
       ∧ passed_cases (tr_summary side) = len (List.filter res_passed (tr_cases side))
       ∧ passed_cases (tr_summary side) + failed_cases (tr_summary side) = len (cases d)
       ∧ total_cost (tr_summary side) = tgt_cost t * len (cases d)) as Hside; [|naive_solver].
    intros t side (_ & Hr & (Hpc & Hfc & Htc & _)%summarize_ok).
    pose proof (Forall2_length _ _ _ Hr) as Hlen. split_and!; [by eapply records_ids| | |].
    + by rewrite Hpc, count_passed.
    + rewrite Hfc. unfold len. lia.
    + by rewrite Htc, (records_cost _ _ _ Hr).
  - rewrite Hp, (comparison_passed _ _ _ _ Hcmp), Hq, Hl, Hk, !andb_true_iff, !negb_true_iff, existsb_none. tauto.
Qed.

(** Gates never reject a candidate that did no worse: with every case answered, at least as
    many cases passed, no more latency and no more cost than the baseline, the report passes
    under every non-negative gate, whatever the rounding of the rates and averages. *)
Theorem no_worse_candidate_passes d b c g s r s' :
  run d b c g s = (Ok r, s') → gates_valid g = true →
  existsb errored (tr_cases (rp_baseline r) ++ tr_cases (rp_candidate r)) = false →
  passed_cases (tr_summary (rp_baseline r)) ≤ passed_cases (tr_summary (rp_candidate r)) →
  0 ≤ sum_by res_latency_ms (tr_cases (rp_candidate r)) ≤ sum_by res_latency_ms (tr_cases (rp_baseline r)) →
  0 ≤ tgt_cost c ≤ tgt_cost b →
  rp_passed r = true.
Proof.
  intros (_ & (_ & Rb & Sb) & (_ & Rc & Sc) & cmp & Hcmp & Hp & _)%run_parts Hg He Hq Hl Hc.
  rewrite Hp, He, andb_true_r. pose proof (len_nonneg (cases d)).
  refine (no_worse_comparison _ _ _ _ _ _ Sb Sc _ Hq Hl _ Hg Hcmp).
  - unfold len. by rewrite <- (Forall2_length _ _ _ Rb), <- (Forall2_length _ _ _ Rc).
  - apply summarize_ok in Sb as (_ & _ & -> & _), Sc as (_ & _ & -> & _).
    rewrite (records_cost _ _ _ Rb), (records_cost _ _ _ Rc). nia.
Qed.
End Theorems.

(** ** Two dataset cases against the deterministic provider *)

Definition sample_dataset : RegressionDataset :=
  {| dataset_id := "smoke"; dataset_version := "1";
     cases := (λ id, {| case_id := id; case_input := [("prompt", JStr "hi")];
                        case_rules := [[("type", JStr "non_empty"); ("path", JStr "accepted")]] |}) <$> ["a"; "b"] |}.
Definition sample_target : ProviderModelTarget :=
  {| tgt_provider := "deterministic"; tgt_model := None; tgt_cost := 7 |}.
Definition sample_gates : RegressionGates :=
  {| max_quality_regression_points := NFloat (Fin 0); max_latency_regression_percent := Some (NInt 0);
     max_cost_regression_percent := Some (NInt 0) |}.
Definition sample_executor (provider : string) (input policy : dict) (n : nat) : result ExecutionResult * nat :=
  (deterministic_execute false input policy, n).
(** A clock that advances a quarter of a second at each reading. *)
Definition sample_clock (n : nat) : f64 * nat := (Fin (Z.of_nat n * 2 ^ 1072), S n).
Definition sample_run : result report * nat :=
  run (λ _, true) (λ _ _, true) sample_executor sample_clock sample_dataset sample_target sample_target sample_gates 0%nat.

Lemma regression_report_complete_witness :
  ∃ r n, sample_run = (Ok r, n) ∧ passed_cases (tr_summary (rp_baseline r)) + failed_cases (tr_summary (rp_baseline r)) = 2.
Proof.
  destruct sample_run as [[r|e] n] eqn:E; [|by vm_compute in E]. exists r, n. split; [done|].
  destruct (regression_report_complete _ _ _ _ _ _ _ _ _ _ _ E) as [Hs _].
  destruct (Hs sample_target (rp_baseline r) (or_introl (conj eq_refl eq_refl))) as (_ & _ & -> & _). reflexivity.
Defined.

Lemma no_worse_candidate_passes_witness : ∃ r n, sample_run = (Ok r, n) ∧ rp_passed r = true.
Proof.
  destruct sample_run as [[r|e] n] eqn:E; [|by vm_compute in E]. exists r, n. split; [done|].
  pose proof E as E'. vm_compute in E'. injection E' as Hr _.
  apply (no_worse_candidate_passes _ _ _ _ _ _ _ _ _ _ _ E); [reflexivity|rewrite <- Hr..|];
    vm_compute; first [reflexivity|split; discriminate|discriminate].
Defined.
