(* ===== verification/RegressionGate.v ===== *)
(** * What the regression gates measure

    The flags of [_comparison] and [_metric_comparison]
    ([src/src/agent_runtime/evaluation/regression.py]) against the cases they are computed from.
    The code divides, subtracts, scales and rounds to three decimals in floating point; here is
    what a comparison whose flags are down says of the exact counts, costs and latencies, with the
    rounding errors of [FloatError] summed up.  Thresholds are floats: the statements are about
    the finite ones.  An infinite threshold sets no limit, and neither does one that is not a
    number. *)

From S2P Require Import Prelude Float64 FloatError PyValue Safety Regression.
Local Open Scope Z_scope.

(** ** Arithmetic *)

(** The quotient of [p] by [n] as a float. *)
Lemma quotient_bounds n p x u :
  0 < n → 0 <= p <= n → 2 ^ 100 <= u → rounds_to (p * u) n (x * n) →
  0 <= x <= 2 * u
  ∧ 2 ^ 53 * (p * u) <= n * (2 ^ 53 * x + u + 2 ^ 52)
  ∧ n * (2 ^ 53 * x) <= 2 ^ 53 * (p * u) + n * (u + 2 ^ 52).
Proof.
  intros Hn Hp Hu He. unfold rounds_to in He.
  assert (0 <= p * u) as H0 by (apply Z.mul_nonneg_nonneg; lia).
  assert (p * u <= n * u) as H1 by (apply Z.mul_le_mono_nonneg_r; lia).
  rewrite (Z.abs_eq (p * u)) in He by lia.
  assert (n * (2 ^ 53 * x) <= n * (2 ^ 53 * u + u + 2 ^ 52)) as H2 by lia.
  assert (n * (- (2 ^ 52)) <= n * (2 ^ 53 * x)) as H3 by lia.
  apply Z.mul_le_mono_pos_l in H2, H3; [|lia..].
  split_and!; lia.
Qed.

Lemma product_bound z w u :
  0 < u → rounds_to (z * (100 * u)) u (w * u) → 2 ^ 53 * Z.abs (w - 100 * z) <= Z.abs (100 * z) + 2 ^ 52.
Proof.
  intros Hu Hw. unfold rounds_to in Hw.
  replace (w * u - z * (100 * u)) with ((w - 100 * z) * u) in Hw by ring.
  replace (z * (100 * u)) with (100 * z * u) in Hw by ring.
  rewrite !(Z.abs_mul _ u), (Z.abs_eq u) in Hw by lia.
  assert (u * (2 ^ 53 * Z.abs (w - 100 * z)) <= u * (Z.abs (100 * z) + 2 ^ 52)) as H1 by lia.
  by apply Z.mul_le_mono_pos_l in H1.
Qed.

Lemma rounds_near t w z k :
  Z.abs t <= k → rounds_to t w z → 2 ^ 53 * (z - t) <= k + 2 ^ 52 * w ∧ 2 ^ 53 * (t - z) <= k + 2 ^ 52 * w.
Proof. unfold rounds_to. lia. Qed.

(** The linear part of the chain: [Rb], [Rc] and [R3] are multiples of the unit. *)
Lemma quality_linear u xb xc Rb Rc yb yc z w R3 d g :
  2 ^ 100 <= u → 0 <= xb <= 2 * u → 0 <= xc <= 2 * u →
  2 * Z.abs (Rb - xb * 1000000) <= u → rounds_to Rb 1000000 (yb * 1000000) →
  2 * Z.abs (Rc - xc * 1000000) <= u → rounds_to Rc 1000000 (yc * 1000000) →
  2 ^ 53 * Z.abs (z - (yc - yb)) <= Z.abs (yc - yb) →
  2 ^ 53 * Z.abs (w - 100 * z) <= Z.abs (100 * z) + 2 ^ 52 →
  2 * Z.abs (R3 - w * 1000) <= u → rounds_to R3 1000 (d * 1000) → - g <= d →
  100000 * (2 ^ 53 * (xb - xc) + 2 * u + 2 ^ 53) <= 2 ^ 53 * (1000 * g + u).
Proof.
  intros Hu Hxb Hxc Hrb Hyb Hrc Hyc Hz Hw Hr3 Hd Hg.
  assert (Z.abs Rb <= 3000000 * u) as Kb by (clear -Hu Hxb Hrb; lia).
  assert (Z.abs Rc <= 3000000 * u) as Kc by (clear -Hu Hxc Hrc; lia).
  apply (rounds_near _ _ _ _ Kb) in Hyb as [Hyb1 Hyb2]. apply (rounds_near _ _ _ _ Kc) in Hyc as [Hyc1 Hyc2].
  change (2 ^ 53) with 9007199254740992 in *. change (2 ^ 52) with 4503599627370496 in *.
  change (2 ^ 100) with 1267650600228229401496703205376 in *.
  assert (-4 * u <= yb <= 4 * u) as My by (clear -Hu Kb Hyb1 Hyb2; lia).
  assert (-4 * u <= yc <= 4 * u) as Mc by (clear -Hu Kc Hyc1 Hyc2; lia).
  assert (Z.abs (yc - yb) <= 8 * u) as Kd by (clear -My Mc; lia).
  assert (9007199254740992 * ((yc - yb) - z) <= 8 * u ∧ 9007199254740992 * (z - (yc - yb)) <= 8 * u) as [Hz1 Hz2]
    by (clear -Hz Kd; lia).
  assert (Z.abs (100 * z) <= 900 * u) as Kz by (clear -Hz1 Hz2 Kd Hu; lia).
  assert (9007199254740992 * (100 * z - w) <= 900 * u + 4503599627370496
    ∧ 9007199254740992 * (w - 100 * z) <= 900 * u + 4503599627370496) as [Hw1 Hw2] by (clear -Hw Kz; lia).
  assert (Z.abs R3 <= 1000000 * u) as K3 by (clear -Hw1 Hw2 Kz Hr3 Hu; lia).
  apply (rounds_near _ _ _ _ K3) in Hd as [Hd1 Hd2].
  change (2 ^ 53) with 9007199254740992 in *. change (2 ^ 52) with 4503599627370496 in *.
  assert (2 * (R3 - w * 1000) <= u) as Hr3' by (clear -Hr3; lia).
  assert (2 * (Rb - xb * 1000000) >= - u) as Hrb' by (clear -Hrb; lia).
  assert (2 * (Rc - xc * 1000000) <= u) as Hrc' by (clear -Hrc; lia).
  clear Hz Hw Hr3 Hrb Hrc Kb Kc Kd Kz K3 My Mc Hxb Hxc.
  lia.
Qed.

(** The chain of a metric's gate: the relative difference [t / x] as a float, scaled by 100 and
    rounded to three decimals, is at most [P]. *)
Lemma percent_chain x t d q w r p P :
  0 < x → 0 < t → 2 ^ 53 * Z.abs (d - t) <= t → rounds_to (d * unit64) x (q * x) →
  rounds_to (q * (100 * unit64)) unit64 (w * unit64) →
  2 * Z.abs (r * unit64 - w * 10 ^ 3) <= unit64 → rounds_to (r * unit64) (10 ^ 3) (p * 10 ^ 3) → p <= P →
  (2 ^ 51 - 1) * (100000 * (t * unit64)) <= 2 ^ 51 * (x * (1000 * P + unit64)).
Proof.
  assert (2 ^ 100 <= unit64) as Hu by (apply Z.leb_le; vm_compute; reflexivity).
  generalize dependent unit64. intros u Hu Hx Ht Hd Hq Hw%product_bound Hr Hp HP; [|lia].
  assert (0 < d) as Hd0 by lia. assert (0 < d * u) as Hdu by (apply Z.mul_pos_pos; lia).
  assert (2 * (2 ^ 53 - 1) * (d * u) <= 2 ^ 54 * (q * x) + 2 ^ 53 * x) as H2
    by (clear -Hq Hdu; unfold rounds_to in Hq; lia).
  assert (0 <= q) as Hq0.
  { assert (x * (-1) < x * (2 * q)) as H0 by (clear -H2 Hdu Hx; lia). apply Z.mul_lt_mono_pos_l in H0; lia. }
  assert (200 * (2 ^ 53 - 1) * q <= 2 ^ 54 * w + 2 ^ 53) as H3 by (clear -Hw Hq0; lia).
  assert (0 <= w) as Hw0 by (clear -H3 Hq0; lia).
  assert (2000 * w <= 2 * (r * u) + u) as H4 by (change (10 ^ 3) with 1000 in Hr; clear -Hr; lia).
  assert (0 <= r) as Hr0.
  { assert (u * (-1) <= u * (2 * r)) as H0 by (clear -H4 Hw0; lia). apply Z.mul_le_mono_pos_l in H0; lia. }
  assert (0 <= r * u) as Hru by (apply Z.mul_nonneg_nonneg; lia).
  assert (2 * (2 ^ 53 - 1) * (r * u) <= 2000 * 2 ^ 53 * P + 1000 * 2 ^ 53) as H5.
  { change (10 ^ 3) with 1000 in Hp. unfold rounds_to in Hp. clear -Hp Hru HP. lia. }
  assert ((2 ^ 53 - 1) * t <= 2 ^ 53 * d) as H1 by (clear -Hd; lia).
  clear Hd Hq Hw Hr Hp HP Hd0 Hdu Hq0 Hw0 Hr0 Hru.
  (* each inequality times the unit or the divisor *)
  apply (Z.mul_le_mono_nonneg_r _ _ u) in H1; [|lia].
  apply (Z.mul_le_mono_nonneg_r _ _ x) in H3, H4, H5; [|lia..].
  assert (102000 * x <= u * x) as Hux by (apply Z.mul_le_mono_nonneg_r; lia).
  assert (0 < t * u) as Htu by (apply Z.mul_pos_pos; lia).
  lia.
Qed.

(** ** The gates *)

(** The gate [g] is a number [P], in units of [2^-1074]. *)
Definition threshold (g : num) (P : Z) : Prop := num_value g = Fin P.

(** At most [g] points, plus a thousandth, of the pass rate are lost from the cases [lb] to [lc]:
    [100 (pb - pc) / n <= g + 0.001] for the numbers [pb] and [pc] of passed cases out of [n]. *)
Definition passed_count (l : list case_result) : Z := len (List.filter res_passed l).
Definition quality_within (g : num) (lb lc : list case_result) : Prop :=
  ∀ G, threshold g G →
  100000 * ((passed_count lb - passed_count lc) * unit64) <= len lb * (1000 * G + unit64).

(** The metric grows from [x] to [y] by at most [g] percent, plus a thousandth, up to a relative
    error of [2^-51]: [(1 - 2^-51) * 100 (y - x) / x <= g + 0.001]; not at all from zero. *)
Definition metric_within (g : option num) (x y : Z) : Prop :=
  ∀ v P, g = Some v → threshold v P → 0 <= x →
  (2 ^ 51 - 1) * (100000 * ((y - x) * unit64)) <= 2 ^ 51 * (x * (1000 * P + unit64)).

Lemma gate_nonneg v P : gate_ok (Some v) = true → threshold v P → 0 <= P.
Proof.
  unfold gate_ok, threshold. intros Hg%negb_true_iff Hv. unfold num_lt in Hg. rewrite Hv in Hg. cbn in Hg. lia.
Qed.

(** A rounded value of a non-negative number is finite or positive infinity. *)
Lemma signed_nonneg t m : 0 <= t → (t = 0 → m < limit64) → (∃ z, signed64 (Z.sgn t) m = Fin z) ∨ signed64 (Z.sgn t) m = PInf.
Proof.
  intros Ht Hm. unfold signed64. destruct (Z.ltb_spec m limit64); [eauto|].
  destruct (decide (t = 0)) as [->|]; [specialize (Hm eq_refl); lia|].
  rewrite Z.sgn_pos by lia. by right.
Qed.

Lemma round53_zero_small d s : 0 < d → 0 <= s → round53 0 d s < limit64.
Proof. intros. rewrite round53_0 by done. reflexivity. Qed.

(** The rounded percentage of a positive quotient is infinite or bounds the growth. *)
Lemma scaled_percent x t d q r :
  0 < x → 0 < t → 2 ^ 53 * Z.abs (d - t) <= t → rounds_to (d * unit64) x (q * x) →
  py_round (f64_mul (Fin q) (Fin (100 * unit64))) 3 = Ok r →
  r = PInf ∨ ∃ p, r = Fin p ∧ ∀ P, p <= P →
    (2 ^ 51 - 1) * (100000 * (t * unit64)) <= 2 ^ 51 * (x * (1000 * P + unit64)).
Proof.
  intros Hx Ht Hd Hq Hr. pose proof unit64_pos as Hu.
  assert (0 <= q) as Hq0.
  { assert (0 < d) by lia. assert (0 < d * unit64) by (apply Z.mul_pos_pos; lia).
    assert (x * (-1) < x * (2 * q)) as H1 by (clear -Hq H0 Hx; unfold rounds_to in Hq; lia).
    apply Z.mul_lt_mono_pos_l in H1; lia. }
  destruct (f64_mul (Fin q) (Fin (100 * unit64))) as [w| | |] eqn:Ew.
  - destruct (py_round_fin _ _ _ Hr) as [p ->]. right. exists p. split; [done|]. intros P HP.
    apply f64_mul_error in Ew. destruct (py_round_error w 3 p ltac:(lia) Hr) as (r0 & H1 & H2). by eapply percent_chain.
  - injection Hr as <-. by left.
  - exfalso. unfold f64_mul in Ew.
    destruct (signed_nonneg (q * (100 * unit64)) (round53 (Z.abs (q * (100 * unit64))) 1 1074)) as [[? E]|E];
      [nia| |congruence..]. intros ->. by apply round53_zero_small.
  - exfalso. unfold f64_mul, signed64 in Ew. repeat case_match; congruence.
Qed.

(** The same of a quotient of floats. *)
Lemma float_percent x y q r :
  0 < x < y → f64_div (f64_sub (Fin y) (Fin x)) (Fin x) = Ok q → py_round (f64_mul q (Fin (100 * unit64))) 3 = Ok r →
  r = PInf ∨ ∃ p, r = Fin p ∧ ∀ P, p <= P →
    (2 ^ 51 - 1) * (100000 * ((y - x) * unit64)) <= 2 ^ 51 * (x * (1000 * P + unit64)).
Proof.
  intros Hxy Hd Hr. destruct (f64_sub (Fin y) (Fin x)) as [d| | |] eqn:Es.
  - apply f64_sub_error in Es. rewrite (Z.abs_eq (y - x)) in Es by lia. destruct q as [q| | |].
    + apply (scaled_percent x (y - x) d q); [lia..|exact Es| |done]. apply f64_div_error; [lia|done].
    + left. by injection Hr as <-.
    + exfalso. assert (0 < d) by lia. pose proof unit64_pos.
      unfold f64_div in Hd. destruct x; try lia. injection Hd as Hd. unfold signed64 in Hd.
      rewrite Z.sgn_pos in Hd by nia. by destruct (_ <? _).
    + exfalso. unfold f64_div, signed64 in Hd. destruct x; try lia. injection Hd as Hd. repeat case_match; congruence.
  - left. unfold f64_div in Hd. destruct x; try lia. injection Hd as <-. by injection Hr as <-.
  - exfalso. unfold f64_sub, f64_add, f64_neg, signed64 in Es. rewrite Z.sgn_pos in Es by lia. by destruct (_ <? _).
  - exfalso. unfold f64_sub, f64_add, f64_neg, signed64 in Es. repeat case_match; congruence.
Qed.

(** What the rounded percentage of a growing metric is. *)
Lemma percent_grown b c x y f :
  num_value b = Fin x → num_value c = Fin y → 0 < x < y → percent_delta b c = Ok (Some f) →
  f = PInf ∨ ∃ p, f = Fin p ∧ ∀ P, p <= P →
    (2 ^ 51 - 1) * (100000 * ((y - x) * unit64)) <= 2 ^ 51 * (x * (1000 * P + unit64)).
Proof.
  intros Hb Hc Hxy. pose proof unit64_pos as Hu. unfold percent_delta, num_eqb. rewrite Hb. cbn [num_value f64_eqb].
  rewrite (proj2 (Z.eqb_neq x (0 * unit64))) by lia.
  intros (q & Hq & (r & Hr & [= <-])%result_bind_ok)%result_bind_ok.
  destruct b as [bz|bf], c as [cz|cf]; cbn [num_sub num_div num_value] in *; subst.
  - injection Hb as <-. injection Hc as <-. assert (0 < bz) by nia. assert (bz < cz) by nia.
    destruct q as [q| | |]; try (exfalso; unfold int_div in Hq; repeat case_match; congruence).
    destruct (scaled_percent bz (cz - bz) (cz - bz) q r) as [->|(p & -> & Hall)];
      [lia|lia|rewrite Z.sub_diag; cbn; lia|by apply int_div_error|done|by left|].
    right. exists p. split; [done|]. intros P HP. specialize (Hall P HP).
    apply (Z.mul_le_mono_nonneg_r _ _ unit64) in Hall; lia.
  - rewrite Hb in Hq. by eapply float_percent.
  - rewrite Hc in Hq. by eapply float_percent.
  - by eapply float_percent.
Qed.

(** A difference of moderate size is finite. *)
Lemma f64_sub_finite a b : Z.abs (a - b) <= 8 * unit64 → ∃ z, f64_sub (Fin a) (Fin b) = Fin z.
Proof.
  intros Hab. unfold f64_sub, f64_neg, f64_add, signed64. replace (a + - b) with (a - b) by lia.
  pose proof (round53_bound (Z.abs (a - b)) 0 ltac:(lia) ltac:(lia)) as Hr. rewrite Z.div_1_r in Hr.
  assert (2 * (8 * unit64) + 1 < limit64) by (vm_compute; reflexivity).
  rewrite (proj2 (Z.ltb_lt _ _)) by lia. eauto.
Qed.

(** A pass rate, rounded to six decimals, is of moderate size. *)
Lemma rate_moderate u x R y :
  2 ^ 100 <= u → 0 <= x <= 2 * u → 2 * Z.abs (R - x * 1000000) <= u → rounds_to R 1000000 (y * 1000000) →
  -4 * u <= y <= 4 * u.
Proof.
  intros Hu Hx Hr Hy. assert (Z.abs R <= 3000000 * u) as K by lia.
  apply (rounds_near _ _ _ _ K) in Hy as [H1 H2].
  change (2 ^ 53) with 9007199254740992 in *. change (2 ^ 52) with 4503599627370496 in *.
  change (2 ^ 100) with 1267650600228229401496703205376 in *. lia.
Qed.

(** A metric whose flag is down stays within its gate. *)
Lemma metric_gate_sound b c g m x y :
  num_value b = Fin x → num_value c = Fin y → gate_ok g = true →
  _metric_comparison b c g = Ok m → m_regressed m = false → metric_within g x y.
Proof.
  intros Hb Hc Hg Hm Hr v P -> Hv Hx. pose proof unit64_pos as Hu. pose proof (gate_nonneg _ _ Hg Hv) as HP.
  revert Hm. unfold _metric_comparison. intros (a & _ & (p & Hp & [= <-])%result_bind_ok)%result_bind_ok.
  cbn in Hr. destruct (Z.le_gt_cases y x) as [Hle|Hgt].
  { assert (0 <= x * (1000 * P + unit64)) by (apply Z.mul_nonneg_nonneg; lia).
    assert (0 <= (x - y) * unit64) by (apply Z.mul_nonneg_nonneg; lia). lia. }
  destruct p as [f|].
  - destruct (decide (x = 0)) as [->|Hx0].
    { exfalso. unfold percent_delta, num_eqb in Hp. rewrite Hb, Hc in Hp. cbn [num_value f64_eqb] in Hp.
      rewrite (proj2 (Z.eqb_eq 0 (0 * unit64))), (proj2 (Z.eqb_neq y (0 * unit64))) in Hp by lia. done. }
    destruct (percent_grown _ _ _ _ _ Hb Hc ltac:(lia) Hp) as [->|(p & -> & Hall)].
    + unfold num_lt in Hr. rewrite Hv in Hr. done.
    + apply Hall. unfold num_lt in Hr. rewrite Hv in Hr. cbn in Hr. lia.
  - exfalso. unfold num_lt in Hr. rewrite Hb, Hc in Hr. cbn in Hr. lia.
Qed.

(** The chain of the quality gate, from the two rates to the reported points. *)
Lemma points_lost yb yc delta g G :
  -4 * unit64 <= yb <= 4 * unit64 → -4 * unit64 <= yc <= 4 * unit64 →
  py_round (f64_mul (f64_sub (Fin yc) (Fin yb)) (Fin (100 * unit64))) 3 = Ok delta →
  threshold g G → num_lt (NFloat delta) (num_neg g) = false →
  ∃ z w r d, 2 ^ 53 * Z.abs (z - (yc - yb)) <= Z.abs (yc - yb)
  ∧ 2 ^ 53 * Z.abs (w - 100 * z) <= Z.abs (100 * z) + 2 ^ 52
  ∧ 2 * Z.abs (r - w * 1000) <= unit64 ∧ rounds_to r 1000 (d * 1000) ∧ - G <= d.
Proof.
  intros Mb Mc Hd HG Hq. pose proof unit64_pos as Hu.
  destruct (f64_sub_finite yc yb) as [z Ez]; [lia|]. rewrite Ez in Hd. apply f64_sub_error in Ez.
  assert (Z.abs (z * (100 * unit64)) < 2 ^ 2000 * unit64) as Kp.
  { assert (Z.abs z <= 100 * unit64) as Kz by lia. rewrite Z.abs_mul, (Z.abs_eq (100 * unit64)) by lia.
    assert (10000 * unit64 < 2 ^ 2000) by (vm_compute; reflexivity). nia. }
  apply f64_mul_finite in Kp. destruct (f64_mul (Fin z) (Fin (100 * unit64))) as [w| | |] eqn:Ew; try done.
  apply f64_mul_error, product_bound in Ew; [|lia].
  destruct (py_round_fin _ _ _ Hd) as [d ->]. destruct (py_round_error w 3 d ltac:(lia) Hd) as (r & Hr & Hrd).
  change (10 ^ 3) with 1000 in *. exists z, w, (r * unit64), d. split_and!; [done..|].
  revert Hq HG. unfold threshold, num_lt, num_neg. destruct g as [v|v]; cbn.
  - intros Hq [= <-]. lia.
  - destruct v as [v| | |]; cbn; try done. intros Hq [= <-]. lia.
Qed.

(** A pass rate against the number of passed cases. *)
Lemma summarize_rate l sm :
  summarize l = Ok sm →
  0 < len l ∧ ∃ x r y, pass_rate sm = Fin y ∧ rounds_to (passed_count l * unit64) (len l) (x * len l)
  ∧ 2 * Z.abs (r - x * 1000000) <= unit64 ∧ rounds_to r 1000000 (y * 1000000).
Proof.
  intros (Hp & _ & _ & Hn & (q & Hq & Hr) & _)%summarize_ok. split; [done|].
  rewrite Hp, count_passed in Hq. fold (passed_count l) in Hq.
  destruct q as [x| | |]; try (exfalso; unfold int_div in Hq; repeat case_match; congruence).
  destruct (py_round_fin _ _ _ Hr) as [y Ey]. rewrite Ey in Hr. apply int_div_error in Hq; [|lia].
  destruct (py_round_error x 6 y ltac:(lia) Hr) as (r & H1 & H2). change (10 ^ 6) with 1000000 in *. by exists x, (r * unit64), y.
Qed.

(** The quality flag against the cases. *)
Lemma quality_gate_sound lb lc sb sc g cmp :
  summarize lb = Ok sb → summarize lc = Ok sc → len lb = len lc → _comparison sb sc g = Ok cmp →
  c_quality_regressed cmp = false → quality_within (max_quality_regression_points g) lb lc.
Proof.
  intros (Nb & xb & rb & yb & Eb & Hqb & Hrb & Hyb)%summarize_rate (_ & xc & rc & yc & Ec & Hqc & Hrc & Hyc)%summarize_rate
    Hlen Hcmp Hq G HG.
  pose proof (passed_count_bounds lb) as Bb. pose proof (passed_count_bounds lc) as Bc.
  rewrite count_passed in Bb, Bc. fold (passed_count lb) in Bb. fold (passed_count lc) in Bc. rewrite <- Hlen in *.
  revert Hcmp Hq. unfold _comparison. rewrite Eb, Ec.
  intros (delta & Hd & (? & _ & (? & _ & [= <-])%result_bind_ok)%result_bind_ok)%result_bind_ok Hq. cbn in Hq.
  assert (2 ^ 100 <= unit64) as Hu by (apply Z.leb_le; vm_compute; reflexivity).
  destruct (quotient_bounds _ _ _ _ Nb Bb Hu Hqb) as (Xb & Lb & _), (quotient_bounds _ _ _ _ Nb Bc Hu Hqc) as (Xc & _ & Lc).
  pose proof (rate_moderate _ _ _ _ Hu Xb Hrb Hyb) as Mb. pose proof (rate_moderate _ _ _ _ Hu Xc Hrc Hyc) as Mc.
  destruct (points_lost _ _ _ _ _ Mb Mc Hd HG Hq) as (z & w & r & d & Ez & Ew & Hr & Hrd & HGd).
  pose proof (quality_linear _ _ _ _ _ _ _ _ _ _ _ _ Hu Xb Xc Hrb Hyb Hrc Hyc Ez Ew Hr Hrd HGd) as Hlin.
  clear -Hlin Lb Lc Nb. generalize dependent unit64. intros u Lb Lc Hlin.
  apply (Z.mul_le_mono_nonneg_l _ _ (len lb)) in Hlin; [|lia]. lia.
Qed.

(** ** Averages *)

(** [a] is the mean latency of the cases [l], up to a thousandth of a millisecond and a relative
    error of [2^-51]. *)
Definition average_of (a : Z) (l : list case_result) : Prop :=
  2 ^ 51 * (1000 * Z.abs (a * len l - sum_by res_latency_ms l * unit64))
  <= 2 ^ 51 * (len l * unit64) + 1000 * Z.abs (sum_by res_latency_ms l * unit64).

Lemma mean_error n t q r a u :
  0 < n → 2 ^ 100 <= u → rounds_to t n (q * n) → 2 * Z.abs (r - q * 1000) <= u → rounds_to r 1000 (a * 1000) →
  2 ^ 51 * (1000 * Z.abs (a * n - t)) <= 2 ^ 51 * (n * u) + 1000 * Z.abs t.
Proof.
  unfold rounds_to. intros Hn Hu Hq Hr Ha.
  (* every inequality at the scale of [t] *)
  assert (2 * Z.abs (r * n - q * n * 1000) <= n * u) as Hr'.
  { replace (r * n - q * n * 1000) with ((r - q * 1000) * n) by ring. rewrite Z.abs_mul, (Z.abs_eq n) by lia.
    apply (Z.mul_le_mono_nonneg_r _ _ n) in Hr; lia. }
  assert (2 ^ 53 * Z.abs (a * n * 1000 - r * n) <= Z.abs (r * n) + 2 ^ 52 * 1000 * n) as Ha'.
  { replace (a * n * 1000 - r * n) with ((a * 1000 - r) * n) by ring. rewrite !Z.abs_mul, (Z.abs_eq n) by lia.
    apply (Z.mul_le_mono_nonneg_r _ _ n) in Ha; lia. }
  assert (2 ^ 100 * n <= n * u) as Hnu by (rewrite (Z.mul_comm n u); apply Z.mul_le_mono_nonneg_r; lia).
  clear Hr Ha. change (2 ^ 53) with 9007199254740992 in *. change (2 ^ 52) with 4503599627370496 in *.
  change (2 ^ 51) with 2251799813685248 in *. change (2 ^ 100) with 1267650600228229401496703205376 in *.
  lia.
Qed.

Lemma summarize_average l sm :
  summarize l = Ok sm → ∃ a, average_latency_ms sm = Fin a ∧ average_of a l.
Proof.
  intros (_ & _ & _ & Hn & _ & (q & Hq & Hr))%summarize_ok.
  destruct q as [q| | |]; try (exfalso; unfold int_div in Hq; repeat case_match; congruence).
  destruct (py_round_fin _ _ _ Hr) as [a Ea]. rewrite Ea in Hr. exists a. split; [done|].
  apply int_div_error in Hq; [|lia]. destruct (py_round_error q 3 a ltac:(lia) Hr) as (r & H1 & H2).
  eapply mean_error; [lia| |done..]. apply Z.leb_le. vm_compute. reflexivity.
Qed.

(** ** A report that passes *)

(** The candidate [c] keeps the limits [g] against the baseline [b], on the cases themselves. *)
Definition within_limits (g : RegressionGates) (b c : target_result) : Prop :=
  quality_within (max_quality_regression_points g) (tr_cases b) (tr_cases c)
  ∧ metric_within (max_cost_regression_percent g)
      (sum_by res_cost (tr_cases b) * unit64) (sum_by res_cost (tr_cases c) * unit64)
  ∧ ∃ x y, average_of x (tr_cases b) ∧ average_of y (tr_cases c)
      ∧ metric_within (max_latency_regression_percent g) x y.

Lemma comparison_within lb lc sb sc g cmp :
  summarize lb = Ok sb → summarize lc = Ok sc → len lb = len lc → gates_valid g = true →
  _comparison sb sc g = Ok cmp → c_passed cmp = true →
  quality_within (max_quality_regression_points g) lb lc
  ∧ metric_within (max_cost_regression_percent g) (sum_by res_cost lb * unit64) (sum_by res_cost lc * unit64)
  ∧ ∃ x y, average_of x lb ∧ average_of y lc ∧ metric_within (max_latency_regression_percent g) x y.
Proof.
  intros Sb Sc Hlen [[_ Gl]%andb_true_iff Gc]%andb_true_iff Hcmp Hp.
  rewrite (comparison_passed _ _ _ _ Hcmp), !andb_true_iff, !negb_true_iff in Hp. destruct Hp as [[Hq Hl] Hc].
  split; [by eapply quality_gate_sound|].
  destruct (summarize_average _ _ Sb) as (x & Ex & Ax), (summarize_average _ _ Sc) as (y & Ey & Ay).
  apply summarize_ok in Sb as (_ & _ & Tb & _), Sc as (_ & _ & Tc & _).
  revert Hcmp Hl Hc. unfold _comparison.
  intros (? & _ & (la & Hla & (co & Hco & [= <-])%result_bind_ok)%result_bind_ok)%result_bind_ok. cbn. intros Hl Hc.
  split.
  - rewrite <- Tb, <- Tc. eapply metric_gate_sound; [| |exact Gc|exact Hco|exact Hc]; reflexivity.
  - exists x, y. split_and!; [done..|]. eapply metric_gate_sound; [| |exact Gl|exact Hla|exact Hl]; cbn; congruence.
Qed.

Lemma passed_report_within {S : Type} check_schema schema_valid executor perf_counter d b c g (s s' : S) r :
  run check_schema schema_valid executor perf_counter d b c g s = (Ok r, s') → gates_valid g = true →
  rp_passed r = true → within_limits g (rp_baseline r) (rp_candidate r).
Proof.
  intros (_ & (_ & Rb & Sb) & (_ & Rc & Sc) & cmp & Hcmp & Hp & _)%run_parts Hg Hr.
  rewrite Hp, andb_true_iff in Hr. eapply comparison_within; [exact Sb|exact Sc| |done|exact Hcmp|tauto].
  unfold len. by rewrite <- (Forall2_length _ _ _ Rb), <- (Forall2_length _ _ _ Rc).
Qed.

(** A zero limit on the quality: no case fewer passes, in datasets below a hundred thousand. *)
Corollary zero_points_keep_passes g lb lc :
  threshold g 0 → len lb < 100000 → quality_within g lb lc → passed_count lb <= passed_count lc.
Proof.
  intros H0 Hn Hq. specialize (Hq _ H0). pose proof unit64_pos as Hu.
  assert (len lb * (1000 * 0 + unit64) < 100000 * unit64) as H1 by nia.
  assert ((passed_count lb - passed_count lc) * unit64 < 1 * unit64) as H2 by lia.
  apply Z.mul_lt_mono_pos_r in H2; lia.
Qed.
