(* ===== verification/RunnerLemmas.v ===== *)
(** * Lemmas on the regression runner

    Which exceptions evaluation and comparison may raise, and how an invariant of the state of
    the executor goes through a run of [EvaluationRegressionRunner]. *)

From S2P Require Import Prelude Float64 PyValue States Retry Models Safety Engine ExecutionService Providers.
From S2P Require Import Messaging Regression.
Local Open Scope Z_scope.

(** ** Exceptions *)

Definition not_quota (e : exn) : Prop := match e with QuotaExceededError _ => False | _ => True end.

Lemma visit_raises n v : raises not_quota (visit n v).
Proof. unfold visit. solve_raises. Qed.
#[export] Hint Resolve visit_raises : raises.
Lemma bounded_loop_raises fuel n dp l c sz : raises not_quota (bounded_loop fuel n dp l c sz).
Proof.
  revert l c sz. induction fuel as [|fuel IH]; intros [|[v d] l] c sz; cbn [bounded_loop raises not_quota]; try done.
  solve_raises.
Qed.
Lemma bounded_value_raises v n dp : raises not_quota (bounded_value v n dp).
Proof. apply bounded_loop_raises. Qed.
Lemma visit_schema_raises v c d : raises not_quota (visit_schema v c d).
Proof. unfold visit_schema. solve_raises. Qed.
#[export] Hint Resolve bounded_value_raises visit_schema_raises : raises.
Lemma schema_loop_raises fuel l c : raises not_quota (schema_loop fuel l c).
Proof.
  revert l c. induction fuel as [|fuel IH]; intros [|[v d] l] c; cbn [schema_loop raises not_quota]; try done.
  solve_raises.
Qed.
#[export] Hint Resolve schema_loop_raises : raises.
Lemma validate_rules_raises check l : raises not_quota (validate_rules check l).
Proof.
  unfold validate_rules. apply raises_bind; [solve_raises|intros _ _]. apply raises_bind; [solve_raises|intros _ _].
  induction l as [|r l IH]; [done|]. cbn [for_each]. apply raises_bind; [|done].
  unfold validate_rule, validate_kind, validate_schema. solve_raises.
Qed.
Lemma walk_raises v l : raises not_quota (walk v l).
Proof.
  revert v. induction l as [|p l IH]; intros v; [done|]. cbn [walk]. unfold path_step, parse_int.
  solve_raises.
Qed.
#[export] Hint Resolve validate_rules_raises walk_raises : raises.
Lemma evaluate_rules_raises check valid l p ms : raises not_quota (evaluate_rules check valid l p ms).
Proof. unfold evaluate_rules, _evaluate_rule, _value_at_path. solve_raises. Qed.
Lemma int_div_raises a b : raises not_quota (int_div a b).
Proof. unfold int_div. destruct (b =? 0); [done|]. by destruct (f64_round _ _). Qed.
Lemma py_round_raises f nd : raises not_quota (py_round f nd).
Proof. unfold py_round. destruct f; try done. by destruct (f64_round_digits _ _). Qed.
Lemma f64_div_raises a b : raises not_quota (f64_div a b).
Proof. by destruct a, b as [[]| | |]. Qed.
#[export] Hint Resolve evaluate_rules_raises int_div_raises py_round_raises f64_div_raises : raises.
Lemma summarize_raises l : raises not_quota (summarize l).
Proof. unfold summarize. solve_raises. Qed.
Lemma metric_raises b c g : raises not_quota (_metric_comparison b c g).
Proof.
  unfold _metric_comparison, num_round3, percent_delta, num_div.
  apply raises_bind; [destruct (num_sub c b); solve_raises|intros ? _]. apply raises_bind; [|done].
  destruct (num_eqb b _); [done|]. apply raises_bind; [destruct (num_sub c b), b; auto with raises|].
  intros ? _. by apply raises_bind; [apply py_round_raises|].
Qed.
#[export] Hint Resolve summarize_raises metric_raises : raises.
Lemma comparison_raises b c g : raises not_quota (_comparison b c g).
Proof. unfold _comparison. solve_raises. Qed.
#[export] Hint Resolve comparison_raises : raises.

(** ** Invariants of a run

    [I k s] is an invariant of the executor's state after at most [k] calls; the runner calls it
    once for every case of either target. *)
Section Invariant.
Context {S : Type} (check_schema : json → bool) (schema_valid : json → json → bool)
        (executor : string → dict → dict → S → result ExecutionResult * S) (perf_counter : S → f64 * S).
Context (I : Z → S → Prop) (P : exn → Prop) (bound : Z).
Context (Hclock : ∀ k s x s', I k s → perf_counter s = (x, s') → I k s')
        (Hexec : ∀ k p i pol s r s',
           I k s → k < bound → executor p i pol s = (r, s') → I (k + 1) s' ∧ raises P r)
        (HP : ∀ e, not_quota e → P e).
Abbreviation run_case := (run_case check_schema schema_valid executor perf_counter).
Abbreviation run_cases := (run_cases check_schema schema_valid executor perf_counter).
Abbreviation run_target := (_run_target check_schema schema_valid executor perf_counter).

Lemma raises_weaken {A} (r : result A) : raises not_quota r → raises P r.
Proof. destruct r; cbn; auto. Qed.

Lemma measure_inv k t s r s' : I k s → measure perf_counter t s = (r, s') → I k s' ∧ raises not_quota r.
Proof.
  unfold measure. destruct (perf_counter s) as [x s1] eqn:E. intros Hs [= <- <-].
  split; [by eapply Hclock|]. by destruct (f64_mul _ _).
Qed.

Lemma run_case_inv k t c s r s' :
  I k s → k < bound → run_case t c s = (r, s') → I (k + 1) s' ∧ raises P r.
Proof.
  intros Hs Hk. unfold Regression.run_case, attempt_case.
  destruct (perf_counter s) as [t0 s0] eqn:E0. apply (Hclock k) in E0; [|done].
  (* the handler records any exception but a refused quota *)
  assert (∀ e s1, I (k + 1) s1 → (∀ m, e = QuotaExceededError m → P e) →
    (match (Err e : result case_result, s1) with
     | (Ok r, s1) => (Ok r, s1)
     | (Err (QuotaExceededError m), s1) => (Err (QuotaExceededError m), s1)
     | (Err e, s1) =>
         let '(lat, s2) := measure perf_counter t0 s1 in
         (latency_ms ← lat;
          Ok {| res_case_id := case_id c; res_passed := false; res_latency_ms := latency_ms;
                res_cost := tgt_cost t; res_detail := inr (exn_name e) |}, s2)
     end) = (r, s') → I (k + 1) s' ∧ raises P r) as Hhandler.
  { intros e s1 H1 He. destruct e;
      try (intros [= <- <-]; split; [done|]; by eapply He);
      destruct (measure perf_counter t0 s1) as [lat s2] eqn:Em; intros [= <- <-];
      destruct (measure_inv _ _ _ _ _ H1 Em); (split; [done|]); apply raises_weaken;
      (apply raises_bind; [done|]); done. }
  destruct (executor _ _ _ s0) as [[a|e] s1] eqn:E1; destruct (Hexec _ _ _ _ _ _ _ E0 Hk E1) as [H1 HE].
  - destruct (measure perf_counter t0 s1) as [lat s2] eqn:Em. destruct (measure_inv _ _ _ _ _ H1 Em) as [H2 Hlat].
    destruct (lat ≫= _) as [x|e] eqn:E; [intros [= <- <-]; done|].
    apply Hhandler; [done|]. intros m ->. exfalso.
    assert (raises not_quota (Err (QuotaExceededError m) : result case_result)) as Hr; [|done].
    rewrite <- E. apply raises_bind; [done|intros]. apply raises_bind; [auto with raises|done].
  - by apply Hhandler.
Qed.

Lemma run_cases_inv k t l s r s' :
  I k s → k + len l ≤ bound → run_cases t l s = (r, s') → (∃ j, j ≤ k + len l ∧ I j s') ∧ raises P r.
Proof.
  revert k s r s'. induction l as [|c l IH]; intros k s r s' Hs Hk; cbn.
  - intros [= <- <-]. split; [exists k; split; [unfold len; cbn; lia|done]|done].
  - rewrite len_cons in *. pose proof (len_nonneg l).
    destruct (run_case t c s) as [[x|e] s1] eqn:E; destruct (run_case_inv k _ _ _ _ _ Hs ltac:(lia) E) as [H1 HE].
    + destruct (run_cases t l s1) as [rs s2] eqn:El. intros [= <- <-].
      destruct (IH (k + 1) s1 rs s2 H1 ltac:(lia) El) as [(j & Hj & HI) Hr].
      split; [exists j; split; [lia|done]|]. by apply raises_bind.
    + intros [= <- <-]. split; [|done]. exists (k + 1). split; [lia|done].
Qed.

Lemma run_target_inv k d t s r s' :
  I k s → k + len (cases d) ≤ bound → run_target d t s = (r, s') →
  (∃ j, j ≤ k + len (cases d) ∧ I j s') ∧ raises P r.
Proof.
  intros Hs Hk. unfold _run_target. destruct (run_cases t (cases d) s) as [rs s1] eqn:E. intros [= <- <-].
  destruct (run_cases_inv _ _ _ _ _ _ Hs Hk E) as [HI Hr]. split; [done|].
  apply raises_bind; [done|intros l _]. apply raises_bind; [|done]. apply raises_weaken; auto with raises.
Qed.

(** The invariant holds after a run, and a run raises only what the executor may. *)
Lemma run_inv k d b c g s r s' :
  I k s → k + 2 * len (cases d) ≤ bound →
  run check_schema schema_valid executor perf_counter d b c g s = (r, s') →
  (∃ j, j ≤ k + 2 * len (cases d) ∧ I j s') ∧ raises P r.
Proof.
  intros Hs Hk. pose proof (len_nonneg (cases d)). unfold run.
  destruct (run_target d b s) as [[rb|e] s1] eqn:Eb;
    destruct (run_target_inv k d _ _ _ _ Hs ltac:(lia) Eb) as [(j & Hj & HI) Hr];
    [|intros [= <- <-]; split; [exists j; split; [lia|done]|done]].
  destruct (run_target d c s1) as [[rc|e] s2] eqn:Ec;
    destruct (run_target_inv j d _ _ _ _ HI ltac:(lia) Ec) as [(j' & Hj' & HI') Hr'];
    intros [= <- <-]; (split; [exists j'; split; [lia|done]|]); [|done].
  apply raises_bind; [|done]. apply raises_weaken; auto with raises.
Qed.
End Invariant.
