(* ===== verification/ResourceExecutor.v ===== *)
(** * Resource executor

    [src/src/agent_runtime/execution/resource_executor.py]: what a worker does with a claimed
    job.  An execution calls its provider once, a regression calls the providers of two targets
    for every case, and an evaluation reads the result of its source.  Every provider call is
    preceded by a transaction of its own that checks the lease and charges the quotas.

    Between two transactions the other processes change the database: [interfere k] is what they
    do before the executor's [k]-th event, and the clocks are read at that event.  The wire of
    the HTTP provider ([transport]) and the expiry of [asyncio.wait_for] ([timed_out]) are
    arbitrary.  [calls_log] records the provider calls; no definition reads it. *)

From S2P Require Import Prelude Float64 PyValue States Retry Models Quotas Canonical Safety Engine Settings.
From S2P Require Import RunService ExecutionService Providers Messaging Regression RunnerLemmas.
Local Open Scope Z_scope.

Record provider_call := {
  pc_provider : string;
  pc_policy : dict;
  pc_now : time;
  pc_epoch : Z;
  pc_seen : db;
  pc_charged : db;
}.

Record session := { s_db : db; s_event : nat; s_calls : Z; calls_log : list provider_call }.

Definition budget_exceeded : exn := QuotaExceededError "Job provider-call budget exceeded".

Section Executor.
Context `{Host} (settings : Settings)
        (check_schema : json → bool) (schema_valid : json → json → bool)
        (interfere : nat → db → db) (now_at : nat → time) (epoch_at : nat → Z) (clock_at : nat → f64)
        (transport : nat → dict → http_outcome) (timed_out : nat → bool).

Definition quotas_of : QuotaLimits := from_settings settings.

(** The registry [_run_worker] builds; its HTTP exchange is the one of the event. *)
Definition providers_at (k : nat) : registry :=
  worker_adapters (deterministic_echo_input settings) (openai_api_key settings) (openai_default_model settings)
    (transport k).

(** What the executor finds at its next event. *)
Definition observed (s : session) : db := interfere (s_event s) (s_db s).
Definition advance (d : db) (s : session) : session :=
  {| s_db := d; s_event := S (s_event s); s_calls := s_calls s; calls_log := calls_log s |}.
Definition charge_logged (c : provider_call) (s : session) : session :=
  {| s_db := pc_charged c; s_event := S (s_event s); s_calls := s_calls s + 1; calls_log := calls_log s ++ [c] |}.

Definition perf_counter (s : session) : f64 * session := (clock_at (s_event s), advance (observed s) s).

(** ** [ChargedExecutor.execute] *)

Definition attempt_active (run_id attempt_id : uuid) (d : db) : bool :=
  match attempts d !! attempt_id with
  | Some a => bool_decide (RunAttempt.run_id a = run_id) && bool_decide (RunAttempt.finished_at a = None)
  | None => false
  end.

Definition lease_active (worker_id : json) (now : time) (run : Run.t) : bool :=
  bool_decide (Run.execution_status run = RUNNING)
  && bool_decide (opt_str (Run.execution_lease_owner run) = worker_id)
  && match Run.execution_lease_expires_at run with Some e => now <? e | None => false end.

(** The transaction before a call: the attempt is open, the lease is held, the quotas are charged. *)
Definition charge_tx (run_id attempt_id : uuid) (worker_id : json) (now : time) (epoch : Z) (d : db)
    : result db :=
  raise_unless (attempt_active run_id attempt_id d) (RuntimeError "Execution attempt is no longer active");;
  match runs d !! run_id with
  | Some active =>
      raise_unless (lease_active worker_id now active) (RuntimeError "Execution lease is no longer active");;
      q ← charge_provider_call (quotas d) epoch (principal_or (Run.principal_id active) (Run.client_id active))
            (Run.client_id active) quotas_of;
      Ok (with_quotas q d)
  | None => Err (RuntimeError "Execution lease is no longer active")
  end.

(** [min(policy.get("max_output_tokens", cap), cap)]; a value that is not a number raises. *)
Definition output_tokens (policy_snapshot : dict) : result json :=
  let cap := NInt (provider_max_output_tokens settings) in
  let v := dget_or "max_output_tokens" (JNum cap) policy_snapshot in
  match as_num v with
  | Some n => Ok (if num_lt cap n then JNum cap else v)
  | None => Err TypeError
  end.

Definition charged_execute (budget : Z) (run_id attempt_id : uuid) (worker_id : json)
    (provider : string) (input_payload policy_snapshot : dict) (s : session)
    : result ExecutionResult * session :=
  if budget <=? s_calls s then (Err budget_exceeded, s)
  else
    let d := observed s in
    let now := now_at (s_event s) in
    let epoch := epoch_at (s_event s) in
    match charge_tx run_id attempt_id worker_id now epoch d with
    | Err e => (Err e, advance d s)
    | Ok d' =>
        let call tokens := {| pc_provider := provider; pc_policy := dset "max_output_tokens" tokens policy_snapshot;
                              pc_now := now; pc_epoch := epoch; pc_seen := d; pc_charged := d' |} in
        match output_tokens policy_snapshot with
        | Err e => (Err e, {| s_db := d'; s_event := S (s_event s); s_calls := s_calls s + 1; calls_log := calls_log s |})
        | Ok tokens =>
            (if timed_out (s_event s) then Err TimeoutError
             else registry_execute (providers_at (s_event s)) provider input_payload (pc_policy (call tokens)),
             charge_logged (call tokens) s)
        end
    end.

(** ** The three kinds of job *)

(** [UUID(value)]. *)
Definition uuid_of (v : option json) : result uuid :=
  match v with
  | None => Err KeyError
  | Some (JStr s) =>
      match uuid_parse s with Some u => Ok u | None => Err (ValueError "badly formed hexadecimal UUID string") end
  | Some JNull => Err TypeError
  | Some _ => Err (OtherException "AttributeError")
  end.

Definition item (k : string) (d : dict) : result json :=
  match dget k d with Some v => Ok v | None => Err KeyError end.

(** The latency of the last successful attempt of the source. *)
Definition succeeded (a : RunAttempt.t) : bool := bool_decide (RunAttempt.outcome a = Some "SUCCEEDED").
Definition source_latency (source : uuid) (d : db) : option Z :=
  match head (sort_by newer_attempt (List.filter succeeded (attempts_of source d))) with
  | Some a => RunAttempt.latency_ms a
  | None => None
  end.

(** The payloads hold what the request schemas admit; another shape raises. *)
Definition stored_object (v : json) : result dict :=
  match v with JObj d => Ok d | _ => Err TypeError end.
Definition stored_rules (v : json) : result (list dict) :=
  match v with
  | JArr l => match all_objects l with Some rules => Ok rules | None => Err (OtherException "AttributeError") end
  | _ => Err TypeError
  end.

Definition execute_evaluation (tenant_id : string) (input_payload : dict) (d : db) : result ExecutionResult :=
  source_id ← uuid_of (dget "source_run_id" input_payload);
  payload ← match runs d !! source_id with
            | Some source =>
                match Run.result_payload source with
                | Some p => if bool_decide (Run.client_id source = tenant_id) then Ok p
                            else Err (RuntimeError "Evaluation source is unavailable")
                | None => Err (RuntimeError "Evaluation source is unavailable")
                end
            | None => Err (RuntimeError "Evaluation source is unavailable")
            end;
  raw ← item "rules" input_payload;
  rules ← stored_rules raw;
  outcome ← evaluate_rules check_schema schema_valid rules payload (source_latency source_id d);
  Ok {| er_provider := "evaluation"; er_result_payload := as_persisted_result outcome; er_usage_metadata := None |}.

(** [ProviderModelTarget( ** value)] and [RegressionGates( ** value)]. *)
Definition target_of_json (v : json) : result ProviderModelTarget :=
  d ← stored_object v;
  raise_unless (only_keys ["provider"; "model"; "estimated_cost_microusd"] d) TypeError;;
  match dget "provider" d, dget_or "model" JNull d, dget_or "estimated_cost_microusd" (JNum (NInt 0)) d with
  | Some (JStr p), JNull, JNum (NInt c) => mk_target p None c
  | Some (JStr p), JStr m, JNum (NInt c) => mk_target p (Some m) c
  | None, _, _ => Err TypeError
  | _, _, _ => Err (OtherException "AttributeError")
  end.

Definition gate_of_json (v : json) : result (option num) :=
  match v with JNull => Ok None | JNum n => Ok (Some n) | _ => Err TypeError end.
Definition gates_of_json (v : json) : result RegressionGates :=
  d ← stored_object v;
  raise_unless (only_keys ["max_quality_regression_points"; "max_latency_regression_percent";
                           "max_cost_regression_percent"] d) TypeError;;
  q ← gate_of_json (dget_or "max_quality_regression_points" (JNum (NFloat (Fin 0))) d);
  l ← gate_of_json (dget_or "max_latency_regression_percent" JNull d);
  c ← gate_of_json (dget_or "max_cost_regression_percent" JNull d);
  match q with
  | Some q => mk_gates {| max_quality_regression_points := q; max_latency_regression_percent := l;
                          max_cost_regression_percent := c |}
  | None => Err TypeError
  end.

(** The arguments of the runner, in evaluation order. *)
Definition regression_job (budget : Z) (input_payload : dict)
    : result (RegressionDataset * ProviderModelTarget * ProviderModelTarget * RegressionGates) :=
  raw ← item "dataset" input_payload;
  value ← stored_object raw;
  d ← from_mapping value;
  raise_unless ((len (cases d) <=? regression_max_cases settings) && (2 * len (cases d) <=? budget))
    (QuotaExceededError "Regression exceeds the server budget");;
  rb ← item "baseline" input_payload;
  b ← target_of_json rb;
  rc ← item "candidate" input_payload;
  c ← target_of_json rc;
  g ← gates_of_json (dget_or "gates" (JObj []) input_payload);
  Ok (d, b, c, g).

Definition regression_result (r : report) : ExecutionResult :=
  {| er_provider := "regression"; er_result_payload := report_dict r; er_usage_metadata := None |}.

Definition budget_of (k : WorkKind) : Z :=
  match k with wk_regression => regression_provider_call_budget settings | _ => 1 end.

(** The run, the worker and the attempt the policy names. *)
Definition runtime_ids (policy_snapshot : dict) : result (uuid * json * uuid) :=
  run_id ← uuid_of (dget "_runtime_run_id" policy_snapshot);
  worker_id ← item "_runtime_worker_id" policy_snapshot;
  attempt_id ← uuid_of (dget "_runtime_attempt_id" policy_snapshot);
  Ok (run_id, worker_id, attempt_id).

(** [ResourceExecutor.execute]. *)
Definition execute (provider : string) (input_payload policy_snapshot : dict) (s : session)
    : result ExecutionResult * session :=
  match runtime_ids policy_snapshot with
  | Err e => (Err e, s)
  | Ok (run_id, worker_id, attempt_id) =>
      let d := observed s in
      let s := advance d s in
      match runs d !! run_id with
      | None => (Err (RuntimeError "Missing durable execution"), s)
      | Some run =>
          let budget := budget_of (Run.work_kind run) in
          let charged := charged_execute budget run_id attempt_id worker_id in
          match Run.work_kind run with
          | wk_evaluation =>
              let d := observed s in
              (execute_evaluation (Run.client_id run) input_payload d, advance d s)
          | wk_regression =>
              match regression_job budget input_payload with
              | Err e => (Err e, s)
              | Ok (ds, b, c, g) =>
                  let '(r, s') := Regression.run check_schema schema_valid charged perf_counter ds b c g s in
                  (regression_result <$> r, s')
              end
          | wk_execution => charged provider input_payload policy_snapshot s
          end
      end
  end.

(** ** Lemmas *)

Lemma openai_raises k m t i p : raises not_quota (openai_execute k m t i p).
Proof. unfold openai_execute, _request_body, provider_input, optional_key. solve_raises. Qed.

Lemma registry_raises k provider i p : raises not_quota (registry_execute (providers_at k) provider i p).
Proof.
  unfold registry_execute, lookup_adapter, providers_at, worker_adapters. cbn.
  destruct (decide (_ = _)), (decide (_ = _)); cbn; done || apply openai_raises.
Qed.

Lemma parse_cases_raises seen l : raises not_quota (parse_cases seen l).
Proof.
  revert seen. induction l as [|c l IH]; intros seen; [done|]. cbn [parse_cases].
  apply raises_bind; [|intros ? _; apply raises_bind; [done|done]].
  unfold parse_case, required_text. solve_raises.
Qed.
#[local] Hint Resolve parse_cases_raises : raises.
Lemma from_mapping_raises v : raises not_quota (from_mapping v).
Proof. unfold from_mapping, required_text. solve_raises. Qed.
#[local] Hint Resolve registry_raises from_mapping_raises : raises.

Definition keeps_budget (e : exn) : Prop := e ≠ budget_exceeded.
Lemma not_quota_keeps e : not_quota e → keeps_budget e.
Proof. by intros He ->. Qed.

Lemma regression_job_raises b i : raises keeps_budget (regression_job b i).
Proof.
  assert (∀ A (r : result A), raises not_quota r → raises keeps_budget r) as Hw.
  { intros A [] ?; [done|]. by apply not_quota_keeps. }
  unfold regression_job, item. apply raises_bind; [by apply Hw; solve_raises|intros ? _].
  apply raises_bind; [by apply Hw; unfold stored_object; solve_raises|intros ? _].
  apply raises_bind; [by apply Hw; solve_raises|intros ? _].
  apply raises_bind; [by apply raises_unless|intros _ _].
  apply Hw. unfold target_of_json, mk_target, gates_of_json, gate_of_json, stored_object, mk_gates. solve_raises.
Qed.

Lemma regression_job_size b i d tb tc g : regression_job b i = Ok (d, tb, tc, g) → 2 * len (cases d) ≤ b.
Proof. unfold regression_job. intros. inv_result. bool_to_prop. simplify_eq. lia. Qed.

Lemma evaluation_raises tenant i d : raises not_quota (execute_evaluation tenant i d).
Proof. unfold execute_evaluation, uuid_of, item, stored_rules. solve_raises. Qed.

Lemma runtime_ids_ok worker_id c policy attempt_id :
  runtime_ids (runtime_policy worker_id c policy attempt_id) = Ok (cr_run_id c, JStr worker_id, attempt_id).
Proof.
  unfold runtime_ids, runtime_policy, item.
  rewrite dget_dset_eq. rewrite !(dget_dset_ne "_runtime_run_id"), dget_dset_eq by done.
  rewrite (dget_dset_ne "_runtime_worker_id"), dget_dset_eq by done.
  unfold uuid_of. by rewrite !uuid_parse_str.
Qed.

(** ** Provider calls *)

Section Job.
Context (run_id attempt_id : uuid) (worker_id : string).

(** The call was made for an open attempt under a lease its worker held, after both quotas were
    charged for it, with an output limit within the server's. *)
Record sanctioned (c : provider_call) : Prop := {
  call_attempt : ∃ a, attempts (pc_seen c) !! attempt_id = Some a
                      ∧ RunAttempt.run_id a = run_id ∧ RunAttempt.finished_at a = None;
  call_lease : ∃ run e, runs (pc_seen c) !! run_id = Some run ∧ Run.execution_status run = RUNNING
                 ∧ Run.execution_lease_owner run = Some worker_id
                 ∧ Run.execution_lease_expires_at run = Some e ∧ pc_now c < e
                 ∧ ∃ q, charge_provider_call (quotas (pc_seen c)) (pc_epoch c)
                          (principal_or (Run.principal_id run) (Run.client_id run)) (Run.client_id run) quotas_of = Ok q
                        ∧ pc_charged c = with_quotas q (pc_seen c);
  call_tokens : ∃ v n, dget "max_output_tokens" (pc_policy c) = Some v ∧ as_num v = Some n
                  ∧ num_lt (NInt (provider_max_output_tokens settings)) n = false;
}.

Lemma charge_tx_ok now epoch d d' :
  charge_tx run_id attempt_id (JStr worker_id) now epoch d = Ok d' →
  (∃ a, attempts d !! attempt_id = Some a ∧ RunAttempt.run_id a = run_id ∧ RunAttempt.finished_at a = None)
  ∧ ∃ run e, runs d !! run_id = Some run ∧ Run.execution_status run = RUNNING
      ∧ Run.execution_lease_owner run = Some worker_id
      ∧ Run.execution_lease_expires_at run = Some e ∧ now < e
      ∧ ∃ q, charge_provider_call (quotas d) epoch
               (principal_or (Run.principal_id run) (Run.client_id run)) (Run.client_id run) quotas_of = Ok q
             ∧ d' = with_quotas q d.
Proof.
  unfold charge_tx, attempt_active, lease_active. intros (? & Ha%raise_unless_ok & Ht)%result_bind_ok. split.
  - destruct (attempts d !! attempt_id) as [a|]; [|done]. bool_to_prop. by exists a.
  - destruct (runs d !! run_id) as [run|]; [|done].
    apply result_bind_ok in Ht as (? & Hl%raise_unless_ok & (q & Hq & [= <-])%result_bind_ok).
    bool_to_prop. destruct (Run.execution_lease_expires_at run) as [e|] eqn:Ee; [|done].
    destruct (Run.execution_lease_owner run) as [o|] eqn:Eo; cbn in *; simplify_eq. bool_to_prop.
    exists run, e. rewrite Eo. split_and!; eauto.
Qed.

Lemma charge_tx_raises now epoch d :
  raises keeps_budget (charge_tx run_id attempt_id (JStr worker_id) now epoch d).
Proof.
  unfold charge_tx. apply raises_bind; [by apply raises_unless|intros _ _].
  destruct (runs d !! run_id); [|done]. apply raises_bind; [by apply raises_unless|intros _ _].
  apply raises_bind; [|done]. unfold charge_provider_call, open_scope_row.
  apply raises_bind; [|intros ? _; apply raises_bind; [|done]]; case_match; done.
Qed.

Lemma output_tokens_capped p v :
  output_tokens p = Ok v →
  ∃ n, as_num v = Some n ∧ num_lt (NInt (provider_max_output_tokens settings)) n = false.
Proof.
  unfold output_tokens. destruct (as_num _) as [n|] eqn:E; [|done]. intros [= <-].
  destruct (num_lt _ n) eqn:El; [|by exists n]. exists (NInt (provider_max_output_tokens settings)).
  split; [done|]. unfold num_lt. cbn. apply Z.ltb_irrefl.
Qed.

(** After at most [k] charges: every logged call was sanctioned, and charged. *)
Definition charged_inv (k : Z) (s : session) : Prop :=
  s_calls s ≤ k ∧ len (calls_log s) ≤ s_calls s ∧ Forall sanctioned (calls_log s).

Lemma charged_execute_inv budget k p i pol s r s' :
  charged_inv k s → k < budget →
  charged_execute budget run_id attempt_id (JStr worker_id) p i pol s = (r, s') →
  charged_inv (k + 1) s' ∧ raises keeps_budget r.
Proof.
  intros (Hk & Hl & HF) Hb. unfold charged_execute. rewrite (proj2 (Z.leb_gt _ _)) by lia.
  destruct (charge_tx _ _ _ _ _ _) as [d'|e] eqn:Et.
  2:{ intros [= <- <-]. split; [split_and!; cbn; [lia|done..]|].
      pose proof (charge_tx_raises (now_at (s_event s)) (epoch_at (s_event s)) (observed s)) as Hr.
      by rewrite Et in Hr. }
  destruct (output_tokens pol) as [v|e] eqn:Eo.
  - intros [= <- <-]. split; [split_and!; cbn|].
    + lia.
    + rewrite len_app. unfold len at 2. cbn. lia.
    + apply Forall_app. split; [done|]. apply Forall_singleton.
      apply charge_tx_ok in Et as [Ha Hr]. apply output_tokens_capped in Eo as (n & Hn & Hc).
      split; cbn; [done|done|]. exists v, n. by rewrite dget_dset_eq.
    + case_match; [done|]. pose proof (registry_raises (s_event s) p i (dset "max_output_tokens" v pol)).
      cbn in *. destruct (registry_execute _ _ _ _); [done|]. by apply not_quota_keeps.
  - intros [= <- <-]. split; [split_and!; cbn; [lia|lia|done]|].
    unfold output_tokens in Eo. destruct (as_num _); by simplify_eq.
Qed.

Lemma perf_counter_inv k s x s' : charged_inv k s → perf_counter s = (x, s') → charged_inv k s'.
Proof. by intros Hs [= <- <-]. Qed.
End Job.

(** The session of a job that was just claimed, and the calls its kind allows. *)
Definition start (d : db) : session := {| s_db := d; s_event := 0; s_calls := 0; calls_log := [] |}.
Definition allowed_calls (run : Run.t) : Z :=
  match Run.work_kind run with wk_evaluation => 0 | k => Z.max 0 (budget_of k) end.

(** (C9) A claimed job calls providers only as it may: whatever the other processes do meanwhile,
    every call is made for the job's open attempt, while its worker holds an unexpired lease,
    after both quotas were charged for that call, with at most the server's output tokens;
    calls never outnumber charges, charges stay within the budget of the kind of job (one for
    an execution, none for an evaluation), and the job never runs into that budget: a dataset
    it starts on is one it can finish. *)
Theorem provider_calls_sanctioned c policy attempt_id worker_id provider input d r s' :
  execute provider input (runtime_policy worker_id c policy attempt_id) (start d) = (r, s') →
  Forall (sanctioned (cr_run_id c) attempt_id worker_id) (calls_log s')
  ∧ len (calls_log s') ≤ s_calls s'
  ∧ s_calls s' ≤ match runs (interfere 0 d) !! cr_run_id c with Some run => allowed_calls run | None => 0 end
  ∧ r ≠ Err budget_exceeded.
Proof.
  assert (∀ k (e : result ExecutionResult) s, charged_inv (cr_run_id c) attempt_id worker_id k s → raises keeps_budget e →
    Forall (sanctioned (cr_run_id c) attempt_id worker_id) (calls_log s) ∧ len (calls_log s) ≤ s_calls s
    ∧ s_calls s ≤ k ∧ e ≠ Err budget_exceeded) as Hdone.
  { intros k e s (? & ? & ?) He. split_and!; [done..|]. by intros ->. }
  assert (∀ d k s, charged_inv (cr_run_id c) attempt_id worker_id k s →
            charged_inv (cr_run_id c) attempt_id worker_id k (advance d s)) as Hadv by done.
  assert (charged_inv (cr_run_id c) attempt_id worker_id 0 (start d)) as H0 by done.
  unfold execute. rewrite runtime_ids_ok. change (observed (start d)) with (interfere 0 d).
  destruct (runs (interfere 0 d) !! cr_run_id c) as [run|]; [|intros [= <- <-]; by apply Hdone; [apply Hadv|]].
  unfold allowed_calls. destruct (Run.work_kind run); cbn [budget_of].
  - intros E. refine (_ (charged_execute_inv _ _ _ 1 0 _ _ _ _ _ _ _ _ E)); [|by apply Hadv|lia].
    intros [? ?]. by apply Hdone.
  - intros [= <- <-]. apply Hdone; [by apply Hadv, Hadv|].
    pose proof (evaluation_raises (Run.client_id run) input
      (observed (advance (interfere 0 d) (start d)))) as He. unfold start in *.
    destruct (execute_evaluation _ _ _); [done|]. by apply not_quota_keeps.
  - pose proof (regression_job_raises (regression_provider_call_budget settings) input) as Hraise.
    destruct (regression_job _ _) as [[[[ds tb] tc] g]|e] eqn:Ej.
    2:{ intros [= <- <-]. apply Hdone; [|done]. destruct (Hadv (interfere 0 d) 0 _ H0) as (? & ? & ?).
        split_and!; [cbn; lia|done..]. }
    apply regression_job_size in Ej.
    destruct (Regression.run _ _ _ _ _ _ _ _ _) as [rr s1] eqn:Er. intros [= <- <-].
    destruct (run_inv check_schema schema_valid _ perf_counter (charged_inv (cr_run_id c) attempt_id worker_id)
      keeps_budget (regression_provider_call_budget settings) (perf_counter_inv _ _ _)
      (charged_execute_inv _ _ _ _) not_quota_keeps 0 ds tb tc g _ rr s1 (Hadv _ _ _ H0) ltac:(lia) Er)
      as [(j & Hj & Hs1 & Hrest) Hr].
    apply Hdone; [split; [lia|done]|]. by destruct rr.
Qed.
End Executor.

(** ** An execution under a lease *)

Definition leased_run : Run.t :=
  {| Run.id := 1%N; Run.client_id := "acme"; Run.principal_id := Some "alice"; Run.work_kind := wk_execution;
     Run.idempotency_key := "k"; Run.request_hash := "h"; Run.input_payload := [("prompt", JStr "hi")];
     Run.policy_snapshot := []; Run.trace_context := []; Run.execution_status := RUNNING;
     Run.evaluation_status := EVAL_NOT_RUN; Run.result_payload := None; Run.error_code := None;
     Run.created_at := 0; Run.started_at := Some 1; Run.completed_at := None;
     Run.execution_lease_owner := Some "w1"; Run.execution_lease_expires_at := Some 100;
     Run.next_attempt_at := None; Run.replay_of_run_id := None |}.
Definition leased_db : db :=
  put_attempt (new_attempt 2%N 1%N 1 "deterministic" "w1" 1) (put_run leased_run empty_db).
Definition leased_claim : ClaimResult := claim_result CLAIMED 1%N.

Definition sample_execute : result ExecutionResult * session :=
  execute (H := demo_host) sample_settings (λ _, true) (λ _ _, true) (λ _ d, d) (λ _, 10) (λ _, 10)
    (λ _, Fin 0) (λ _ _, HttpTimeout) (λ _, false) "deterministic" [("prompt", JStr "hi")]
    (runtime_policy (H := demo_host) "w1" leased_claim [] 2%N) (start leased_db).

Lemma provider_calls_sanctioned_witness :
  ∃ r s c, sample_execute = (Ok r, s) ∧ calls_log s = [c] ∧ sanctioned sample_settings 1%N 2%N "w1" c.
Proof.
  destruct sample_execute as [[r|e] s] eqn:E; [|by vm_compute in E].
  destruct (provider_calls_sanctioned (H := demo_host) _ _ _ _ _ _ _ _ _ _ _ _ _ _ _ _ _ _ E) as (HF & _).
  assert (len (calls_log s) = 1) as Hl.
  { replace s with (snd sample_execute) by (by rewrite E). by vm_compute. }
  exists r, s. destruct (calls_log s) as [|c [|c' l]]; [done| |].
  - exists c. split; [done|split; [done|]]. exact (proj1 (Forall_singleton _ _) HF).
  - rewrite !len_cons in Hl. pose proof (len_nonneg l). lia.
Defined.
