(* ===== verification/Commands.v ===== *)
(** * The operator commands

    [src/src/agent_runtime/evaluation/cli.py] (the regression gate run in a pipeline),
    [security/cli.py] (provisioning a credential) and [security/retention_cli.py] (previewing and destroying tenant keys).

    The arguments are the values [argparse] returns.  The wire of the HTTP provider, the
    clocks, the random tokens and the parser of JSON text are parameters, as in the components
    the commands call. *)

From S2P Require Import Prelude Float64 PyValue States Retry Models Quotas Canonical Telemetry Observability Safety.
From S2P Require Import Engine Credentials Settings Boundary AuditRetention Envelope RunService ExecutionService.
From S2P Require Import Providers Messaging Regression RegressionGate.
Local Open Scope Z_scope.

(** How a command ends: status 0, [SystemExit(1)], [SystemExit] with a message, or an exception
    nobody catches. *)
Inductive command_exit := Succeeds | FailsGate | Refuses (message : string) | Crashes (e : exn).

(** ** [evaluation/cli.py] *)

Record regression_args := {
  ra_dataset : string;
  ra_baseline_provider : string;
  ra_baseline_model : option string;
  ra_baseline_cost_microusd : Z;
  ra_candidate_provider : string;
  ra_candidate_model : option string;
  ra_candidate_cost_microusd : Z;
  ra_max_quality_regression_points : f64;
  ra_max_latency_regression_percent : option f64;
  ra_max_cost_regression_percent : option f64;
  ra_output : option string;
}.

Definition OSError : exn := OtherException "OSError".
(** [except (OSError, ValueError, json.JSONDecodeError)]. *)
Definition refused (e : exn) : bool := is_value_error e || bool_decide (e = OSError).

Definition _load_json (path : string) (fs : files) : result dict :=
  match fs !! path with
  | None => Err OSError
  | Some Undecodable => Err unicode_decode_error
  | Some NotJson => Err (ValueError "JSONDecodeError")
  | Some (Json (JObj value)) => Ok value
  | Some (Json _) => Err (ValueError "dataset root must be an object")
  end.

Definition target_configured (settings : Settings) (t : ProviderModelTarget) : result unit :=
  raise_unless (bool_decide (tgt_provider t ∈ ["deterministic"; "openai"]))
    (ValueError ("provider '" +:+ tgt_provider t +:+ "' is not configured"));;
  raise_unless (negb (bool_decide (tgt_provider t = "openai" ∧ openai_api_key settings = None)))
    (ValueError "openai target requires APP_OPENAI_API_KEY").
Definition _validate_configured_targets (settings : Settings) (targets : list ProviderModelTarget) : result unit :=
  result_map (target_configured settings) targets;; Ok tt.

Section RegressionCommand.
Context `{Host} (check_schema : json → bool) (schema_valid : json → json → bool)
        (transport : nat → dict → http_outcome) (clock_at : nat → f64).

(** The registry of the command; its HTTP exchange is the one of event [k]. *)
Definition _provider_registry (settings : Settings) (k : nat) : registry :=
  [("deterministic", deterministic_execute (deterministic_echo_input settings));
   ("openai", openai_execute (openai_api_key settings) (openai_default_model settings) (transport k))].

(** The state of the runner counts its events: provider calls and clock readings. *)
Definition command_executor (settings : Settings) (provider : string) (input policy : dict) (k : nat)
    : result ExecutionResult * nat :=
  (registry_execute (_provider_registry settings k) provider input policy, S k).
Definition command_clock (k : nat) : f64 * nat := (clock_at k, S k).

Definition gates_of (a : regression_args) : RegressionGates :=
  {| max_quality_regression_points := NFloat (ra_max_quality_regression_points a);
     max_latency_regression_percent := NFloat <$> ra_max_latency_regression_percent a;
     max_cost_regression_percent := NFloat <$> ra_max_cost_regression_percent a |}.

(** What the [try] block checks before it runs anything. *)
Definition regression_request (a : regression_args) (get_settings : result Settings) (fs : files)
    : result (RegressionDataset * ProviderModelTarget * ProviderModelTarget * Settings * RegressionGates) :=
  value ← _load_json (ra_dataset a) fs;
  dataset ← from_mapping value;
  baseline ← mk_target (ra_baseline_provider a) (ra_baseline_model a) (ra_baseline_cost_microusd a);
  candidate ← mk_target (ra_candidate_provider a) (ra_candidate_model a) (ra_candidate_cost_microusd a);
  settings ← get_settings;
  _validate_configured_targets settings [baseline; candidate];;
  gates ← mk_gates (gates_of a);
  Ok (dataset, baseline, candidate, settings, gates).

(** The [try] block; the second component counts the events of the run. *)
Definition regression_report (a : regression_args) (get_settings : result Settings) (fs : files)
    : result report * nat :=
  match regression_request a get_settings fs with
  | Err e => (Err e, 0%nat)
  | Ok (dataset, baseline, candidate, settings, gates) =>
      Regression.run check_schema schema_valid (command_executor settings) command_clock dataset baseline candidate gates 0%nat
  end.

(** [main]: the exit, what is printed, the files afterwards.  [writable] says whether
    [write_text] succeeds. *)
Definition regression_main (a : regression_args) (get_settings : result Settings) (writable : string → bool) (fs : files)
    : command_exit * option dict * files :=
  match fst (regression_report a get_settings fs) with
  | Err e => (if refused e then Refuses "Evaluation regression request is invalid" else Crashes e, None, fs)
  | Ok r =>
      let finish fs' := (if rp_passed r then Succeeds else FailsGate, Some (report_dict r), fs') in
      match ra_output a with
      | None => finish fs
      | Some path => if writable path then finish (<[path := Json (JObj (report_dict r))]> fs)
                     else (Crashes OSError, None, fs)
      end
  end.
End RegressionCommand.

(** ** [security/cli.py] *)

Section Provisioning.
Context `{Crypto} (dump_datetime : time → string).

(** [main]: what is printed once; [pepper] is [os.environ.get("APP_AUTH_PEPPER")]. *)
Definition security_main (i : nat) (principal tenant : string) (expires_at : option time) (pepper : option string)
    : result dict :=
  match issue_credential i principal tenant (default "" pepper) expires_at with
  | Ok (raw_key, record) => Ok [("api_key", JStr raw_key); ("credential", JObj (registry_entry dump_datetime record))]
  | Err e => Err (if is_value_error e then parser_error else e)
  end.
End Provisioning.

(** ** [security/retention_cli.py] *)

Record retention_args := {
  rt_apply : bool;
  rt_tenant_id : option string;
  rt_confirm_tenant : option string;
  rt_principal_id : string;
}.

(** [main] and [_run]: what is printed, and the vault after the transaction.  [now] gives the
    cutoff and [erased_at] is the time of the erasure; the listing has its default limit. *)
Definition retention_cutoff (s : Settings) (now : time) : time := now - seconds (payload_retention_days s * 86400).
Definition retention_main (a : retention_args) (s : Settings) (now erased_at : time) (v : vault) : result dict * vault :=
  if rt_apply a then
    match rt_tenant_id a with
    | Some tenant =>
        if bool_decide (tenant = "") || negb (bool_decide (rt_confirm_tenant a = Some tenant))
        then (Err parser_error, v)
        else
          match erase_tenant_key erased_at tenant (rt_principal_id a) false (rt_confirm_tenant a)
                  (Some (retention_cutoff s now)) v with
          | Ok (changed, v') =>
              (Ok [("dry_run", JBool false); ("destroyed", JBool changed); ("tenant_id", JStr tenant)], v')
          | Err e => (Err e, v)
          end
    | None => (Err parser_error, v)
    end
  else (Ok [("dry_run", JBool true);
            ("candidates", JArr (JStr <$> retention_candidates (retention_cutoff s now) 100 v))], v).

(** ** Properties of the regression gate *)

Lemma target_configured_ok s t :
  target_configured s t = Ok tt →
  tgt_provider t = "deterministic" ∨ (tgt_provider t = "openai" ∧ openai_api_key s ≠ None).
Proof.
  intros (? & Hp%raise_unless_ok%bool_decide_eq_true & Hk%raise_unless_ok%negb_true_iff%bool_decide_eq_false)%result_bind_ok.
  rewrite elem_of_cons, list_elem_of_singleton in Hp. destruct Hp; [by left|right]. split; [done|tauto].
Qed.

Lemma regression_request_ok a gs fs d b c s g :
  regression_request a gs fs = Ok (d, b, c, s, g) →
  (∃ value, fs !! ra_dataset a = Some (Json (JObj value)) ∧ from_mapping value = Ok d)
  ∧ gs = Ok s ∧ target_configured s b = Ok tt ∧ target_configured s c = Ok tt
  ∧ g = gates_of a ∧ gates_valid g = true.
Proof.
  unfold regression_request. intros (value & Hl & Hr)%result_bind_ok. apply result_bind_ok in Hr as (d' & Hd & Hr).
  apply result_bind_ok in Hr as (b' & _ & Hr). apply result_bind_ok in Hr as (c' & _ & Hr).
  apply result_bind_ok in Hr as (s' & Hs & Hr). apply result_bind_ok in Hr as (u & Hv & Hr).
  apply result_bind_ok in Hr as (g' & Hg & [= <- <- <- <- <-]).
  apply result_bind_ok in Hg as ([] & Hg%raise_unless_ok & [= <-]). split_and!; [|done| | |done|done].
  - exists value. split; [|done]. unfold _load_json in Hl. repeat case_match; congruence.
  - unfold _validate_configured_targets in Hv. cbn in Hv. by destruct (target_configured s' b') as [[]|].
  - unfold _validate_configured_targets in Hv. cbn in Hv. destruct (target_configured s' b') as [[]|]; [|done].
    cbn in Hv. by destruct (target_configured s' c') as [[]|].
Qed.

Section RegressionGate.
Context `{Host} (check_schema : json → bool) (schema_valid : json → json → bool)
        (transport : nat → dict → http_outcome) (clock_at : nat → f64).
Abbreviation regression_main := (regression_main check_schema schema_valid transport clock_at).

(** [r] is a complete comparison of the two targets the arguments name, on the dataset of the
    file, and its verdict is what the report says. *)
Definition compared (a : regression_args) (get_settings : result Settings) (fs : files) (r : report) : Prop :=
  ∃ d b c s g n,
    regression_request a get_settings fs = Ok (d, b, c, s, g)
    ∧ Regression.run check_schema schema_valid (command_executor transport s) (command_clock clock_at) d b c g 0%nat
      = (Ok r, n)
    ∧ (∃ value, fs !! ra_dataset a = Some (Json (JObj value)) ∧ from_mapping value = Ok d)
    ∧ (∀ t, t ∈ [b; c] → tgt_provider t = "deterministic" ∨ (tgt_provider t = "openai" ∧ openai_api_key s ≠ None))
    ∧ res_case_id <$> tr_cases (rp_baseline r) = case_id <$> cases d
    ∧ res_case_id <$> tr_cases (rp_candidate r) = case_id <$> cases d
    ∧ (rp_passed r = true ↔
         (∀ x, x ∈ tr_cases (rp_baseline r) ++ tr_cases (rp_candidate r) → errored x = false)
         ∧ c_quality_regressed (rp_comparison r) = false
         ∧ m_regressed (c_latency (rp_comparison r)) = false ∧ m_regressed (c_cost (rp_comparison r)) = false)
    ∧ (rp_passed r = true → within_limits (gates_of a) (rp_baseline r) (rp_candidate r)).

Lemma regression_report_compared a get_settings fs r n :
  regression_report check_schema schema_valid transport clock_at a get_settings fs = (Ok r, n) →
  compared a get_settings fs r.
Proof.
  unfold regression_report. destruct (regression_request a get_settings fs) as [[[[[d b] c] s] g]|] eqn:Eq; [|done].
  intros E. destruct (regression_request_ok _ _ _ _ _ _ _ _ Eq) as (Hv & _ & Hb & Hc & Hga & Hg).
  destruct (regression_report_complete _ _ _ _ _ _ _ _ _ _ _ E) as [Hside Hp].
  exists d, b, c, s, g, n. split_and!; [done..| | | |done|].
  - intros t. rewrite elem_of_cons, list_elem_of_singleton. intros [->| ->]; by apply target_configured_ok.
  - by apply (Hside b (rp_baseline r)); left.
  - by apply (Hside c (rp_candidate r)); right.
  - rewrite <- Hga. by eapply passed_report_within.
Qed.

End RegressionGate.

(** A gate that is not a number never fails: [--max-quality-regression-points nan] passes the
    validation of the gates and switches the check off. *)
Lemma nan_gate_disables_quality b c l k cmp :
  let g := {| max_quality_regression_points := NFloat NaN; max_latency_regression_percent := l;
              max_cost_regression_percent := k |} in
  gates_valid g = gate_ok l && gate_ok k ∧ (_comparison b c g = Ok cmp → c_quality_regressed cmp = false).
Proof.
  split; [done|]. unfold _comparison.
  intros (delta & _ & (? & _ & (? & _ & [= <-])%result_bind_ok)%result_bind_ok)%result_bind_ok. cbn. by destruct delta.
Qed.

(** ** Properties of provisioning *)

Lemma issue_credential_ok `{Crypto} i p t pepper expires raw r :
  issue_credential i p t pepper expires = Ok (raw, r) →
  32 ≤ len (Text.to_list pepper) ∧ CredentialRecord.valid r = true
  ∧ hex_digits 64 (CredentialRecord.verifier r) = true
  ∧ CredentialRecord.principal_id r = p ∧ CredentialRecord.tenant_id r = t ∧ CredentialRecord.expires_at r = expires.
Proof.
  unfold issue_credential. intros ([] & Hp%raise_unless_ok & (v & Hv & ([] & Hr%raise_unless_ok & [= <- <-])%result_bind_ok)%result_bind_ok)%result_bind_ok.
  bool_to_prop. split_and!; [lia|done| |done..]. cbn.
  revert Hv. unfold derive_verifier. rewrite bool_decide_true by done.
  intros (b & _ & [= <-])%result_bind_ok. apply (hex_digits_bytes _ 32), hmac_length.
Qed.

(** (C21) A provisioned credential works end to end.  What the command prints is the raw key and
    a registry entry.  Put that entry anywhere into a JSON registry whose other entries read as
    distinct records with one tenant per principal, where its key id is new and its principal,
    if already there, has the same tenant; configure the text under the same pepper in settings
    that are otherwise sound.  Then the process starts, holding exactly the other records and
    the new one, provided some record is active; and the printed key authenticates, in
    [X-API-Key] or as a bearer token, as exactly the principal and tenant the command was given,
    until the expiry it was given and not from then on.  Of the expiry's text it is assumed that
    it reads back as that time. *)
Theorem provisioned_key_authenticates `{Crypto} `{Host} `{RegistryReader} dump_datetime i p t expires pepper printed :
  security_main dump_datetime i p t expires (Some pepper) = Ok printed →
  (∀ e, expires = Some e → aware_datetime (JStr (dump_datetime e)) = Some e) →
  ∃ raw r, issue_credential i p t pepper expires = Ok (raw, r)
  ∧ printed = [("api_key", JStr raw); ("credential", JObj (registry_entry dump_datetime r))]
  ∧ ∀ vs vs' rs rs' text s now,
      mapM record_of_json vs = Some rs → mapM record_of_json vs' = Some rs' →
      json_loads text = Some (JArr (vs ++ JObj (registry_entry dump_datetime r) :: vs')) →
      deployable s → auth_mode s = auth_api_key → auth_pepper s = Some pepper → auth_credentials s = Some text →
      check_registry [] ∅ (rs ++ rs') = Ok tt →
      CredentialRecord.key_id r ∉ (CredentialRecord.key_id <$> rs ++ rs') →
      (∀ x, x ∈ rs ++ rs' → CredentialRecord.principal_id x = p → CredentialRecord.tenant_id x = t) →
      Exists (λ x, CredentialRecord.is_active now x = true) (rs ++ r :: rs') →
      load now s = Ok (rs ++ r :: rs')
      ∧ ∀ later x_api_key authorization,
        (x_api_key, authorization) ∈ [(Some raw, None); (None, Some ("Bearer " +:+ raw))] →
        authenticate_api_key s (rs ++ r :: rs') later x_api_key authorization =
          Ok (if match expires with None => true | Some e => later <? e end
              then {| authenticated := true; credential_fingerprint := Some (fingerprint (CredentialRecord.key_id r));
                      failure_code := None; auth_principal_id := Some p; auth_tenant_id := Some t |}
              else auth_failure "INVALID_CREDENTIAL").
Proof.
  unfold security_main. change (default "" (Some pepper)) with pepper.
  destruct (issue_credential i p t pepper expires) as [[raw r]|e] eqn:Ei; [|done]. intros [= <-] Hd.
  destruct (issue_credential_ok _ _ _ _ _ _ _ Ei) as (Hlen & Hvalid & Hhex & Hp & Ht & He).
  exists raw, r. split; [done|]. split; [done|].
  intros vs vs' rs rs' text s now Hvs Hvs' Htext Hs Hm Hpep Hc Hreg Hnew Hone Hact.
  assert (check_registry [] ∅ (rs ++ r :: rs') = Ok tt) as Hall
    by (apply check_registry_insert; [done..|]; intros x Hx; rewrite Hp, Ht; auto).
  split.
  - eapply load_registry; [done..| |done|done]. unfold validate_json. rewrite Htext. cbn [mbind option_bind registry_of_json].
    apply mapM_Some. apply mapM_Some in Hvs, Hvs'. apply Forall2_app; [done|]. constructor; [|done].
    apply registry_entry_reads; [done|]. intros e. rewrite He. apply Hd.
  - intros later x au Hways. eapply (issued_key_authenticates s); [exact Ei|done|done| | |done].
    + apply elem_of_app. right. by left.
    + by apply check_registry_ok in Hall as (_ & ? & _).
Qed.

(** ** Properties of the retention command *)

(** The retention command destroys one confirmed key or nothing: whatever the arguments, the
    vault changes only when [--apply] is given with a non-empty tenant restated in
    [--confirm-tenant], and then only that tenant's key is destroyed, under one audit record,
    while the runs and every other key stay; and the preview is exact: every tenant it lists is
    destroyed by the confirmed command run at the same time. *)
Theorem retention_command_guarded a s now erased v :
  (let '(out, v') := retention_main a s now erased v in
   v' = v ∨ ∃ t row, rt_apply a = true ∧ t ≠ "" ∧ rt_tenant_id a = Some t ∧ rt_confirm_tenant a = Some t
     ∧ out = Ok [("dry_run", JBool false); ("destroyed", JBool true); ("tenant_id", JStr t)]
     ∧ tenant_keys v !! t = Some row ∧ tenant_keys v' = <[t := tombstone erased row]> (tenant_keys v)
     ∧ v_runs v' = v_runs v ∧ v_audit v' = v_audit v ++ [erasure_record t (rt_principal_id a)])
  ∧ ∀ t p, t ≠ "" → t ∈ retention_candidates (retention_cutoff s now) 100 v →
      fst (retention_main {| rt_apply := true; rt_tenant_id := Some t; rt_confirm_tenant := Some t; rt_principal_id := p |}
             s now erased v)
      = Ok [("dry_run", JBool false); ("destroyed", JBool true); ("tenant_id", JStr t)].
Proof.
  split.
  - unfold retention_main. destruct (rt_apply a) eqn:Ea; [|by left].
    destruct (rt_tenant_id a) as [t|]; [|by left].
    destruct (bool_decide_reflect (t = "")); [by left|].
    destruct (bool_decide_reflect (rt_confirm_tenant a = Some t)) as [Hc|]; [|by left]. cbn [orb negb].
    unfold erase_tenant_key. destruct (tenant_keys v !! t) as [row|] eqn:Er; [|by left].
    destruct (negb _); [by left|]. destruct (sealed_after _ row); [by left|].
    destruct (has_unsafe_run _ _ _); [by left|]. cbn [raise_unless].
    destruct (bool_decide_reflect (rt_confirm_tenant a = Some t)); [|done].
    right. exists t, row. by split_and!.
  - intros t p Ht Hin. destruct (candidates_are_erasable (retention_cutoff s now) 100 v erased p) as (_ & _ & He & _).
    specialize (He t Hin). unfold erase_tenant_key in He. unfold retention_main, erase_tenant_key.
    cbn [rt_apply rt_tenant_id rt_confirm_tenant rt_principal_id].
    rewrite (bool_decide_false (t = "")), !bool_decide_true by done. cbn [orb negb].
    destruct (tenant_keys v !! t) as [row|]; [|done]. destruct (negb _); [done|].
    destruct (sealed_after _ row); [done|]. by destruct (has_unsafe_run _ _ _).
Qed.

(** ** The commands at work *)

Section CommandWitnesses.
#[local] Existing Instance demo_host.

(** Bob is given a key that expires; its entry joins the registry of the sample settings. *)
Definition issued_to_bob : string * CredentialRecord.t :=
  match issue_credential 0 "bob" "acme" demo_pepper (Some (seconds 100)) with Ok x => x | Err _ => ("", no_record) end.
Definition bob_settings : Settings := settings_with (registry_text (sample_registry ++ [issued_to_bob.2])).

Lemma provisioned_key_authenticates_witness :
  security_main isoformat 0 "bob" "acme" (Some (seconds 100)) (Some demo_pepper)
    = Ok [("api_key", JStr issued_to_bob.1); ("credential", JObj (registry_entry isoformat issued_to_bob.2))]
  ∧ load (seconds 50) bob_settings = Ok (sample_registry ++ [issued_to_bob.2])
  ∧ authenticate_api_key bob_settings (sample_registry ++ [issued_to_bob.2]) (seconds 50) (Some issued_to_bob.1) None
    = Ok {| authenticated := true; credential_fingerprint := Some (fingerprint (CredentialRecord.key_id issued_to_bob.2));
            failure_code := None; auth_principal_id := Some "bob"; auth_tenant_id := Some "acme" |}.
Proof.
  assert (issue_credential 0 "bob" "acme" demo_pepper (Some (seconds 100)) = Ok issued_to_bob) as Hi by (by vm_compute).
  assert (security_main isoformat 0 "bob" "acme" (Some (seconds 100)) (Some demo_pepper)
    = Ok [("api_key", JStr issued_to_bob.1); ("credential", JObj (registry_entry isoformat issued_to_bob.2))])
    as Hmain by (unfold security_main; change (default "" (Some demo_pepper)) with demo_pepper; by rewrite Hi).
  split; [done|].
  destruct (provisioned_key_authenticates isoformat 0 "bob" "acme" (Some (seconds 100)) demo_pepper _ Hmain)
    as (raw & r & Hr & _ & Hworks); [intros e [= <-]; by vm_compute|].
  assert ((raw, r) = issued_to_bob) as Hbob by congruence.
  assert (raw = issued_to_bob.1) as -> by (by rewrite <- Hbob).
  assert (r = issued_to_bob.2) as -> by (by rewrite <- Hbob).
  destruct (Hworks [JObj (registry_entry isoformat (hd no_record sample_registry))] [] sample_registry []
    (registry_text (sample_registry ++ [issued_to_bob.2])) bob_settings (seconds 50)) as [Hload Hauth];
    [by vm_compute|by vm_compute|by vm_compute|split; [|split]; by vm_compute
    |by vm_compute|by vm_compute|by vm_compute|by vm_compute| | | |].
  - vm_compute. set_solver.
  - intros x [->|[]%not_elem_of_nil]%elem_of_cons. by vm_compute.
  - left. by vm_compute.
  - split; [exact Hload|]. apply (Hauth (seconds 50)). by left.
Defined.
End CommandWitnesses.
