(* ===== verification/Schemas.v ===== *)
(** * Request and response models

    [src/src/agent_runtime/api/schemas.py].  A validator takes the JSON body; a refusal is the
    [ValueError] that FastAPI answers with status 422.  Pydantic's coercions outside strict mode
    and the size of its own serialization are parameters. *)

From S2P Require Import Prelude Float64 PyValue States Routing Retry Models Safety Engine RunService.
From S2P Require Import ExecutionService Regression.
Local Open Scope Z_scope.

(** Pydantic: [lax_int] and [lax_float] coerce a value to a number when it can be one, and
    [dump_size] is the length in bytes of [model_dump_json]. *)
Class Pydantic := {
  lax_int : json → option Z;
  lax_float : json → option f64;
  dump_size : json → Z;
}.

Definition MAX_INPUT_BYTES : Z := 65536.
Definition MAX_REQUEST_BYTES : Z := 131072.

(** ** Fields *)

Definition body_object (v : json) : result dict := match v with JObj d => Ok d | _ => invalid end.
Definition field {A} (k : string) (d : dict) (parse : json → result A) : result A :=
  match dget k d with Some v => parse v | None => invalid end.
(** [dict[str, JsonValue] = Field(min_length=1)]. *)
Definition nonempty_object (v : json) : result dict :=
  match v with JObj (x :: d) => Ok (x :: d) | _ => invalid end.
(** [list[dict[str, JsonValue]] = Field(min_length=1, max_length=16)]. *)
Definition rule_list (v : json) : result (list dict) :=
  match v with
  | JArr l =>
      raise_unless ((1 <=? len l) && (len l <=? 16)) (ValueError "validation error");;
      match all_objects l with Some rules => Ok rules | None => invalid end
  | _ => invalid
  end.
Fixpoint each {A} (parse : json → result A) (l : list json) : result (list A) :=
  match l with
  | [] => Ok []
  | v :: l => x ← parse v; xs ← each parse l; Ok (x :: xs)
  end.

Section Schemas.
Context `{Pydantic} (check_schema : json → bool).

(** ** [CreateRunRequest] *)

Record CreateRunRequest := { crr_input : dict; crr_policy : RunPolicyRequest }.

Definition opt_json {A} (f : A → json) (o : option A) : json := match o with Some a => f a | None => JNull end.
(** [model_dump] keeps the fields that are [None]. *)
Definition policy_json (r : RunPolicyRequest) : json :=
  JObj [("max_attempts", opt_json (λ z, JNum (NInt z)) (req_max_attempts r));
        ("attempt_timeout_seconds", opt_json (λ f, JNum (NFloat f)) (req_attempt_timeout_seconds r));
        ("initial_backoff_seconds", opt_json (λ f, JNum (NFloat f)) (req_initial_backoff_seconds r));
        ("max_backoff_seconds", opt_json (λ f, JNum (NFloat f)) (req_max_backoff_seconds r));
        ("provider_order", opt_json names_json (req_provider_order r));
        ("routing", opt_json (λ rt, JObj [("strategy", JStr (req_strategy rt));
                                          ("candidates", opt_json names_json (req_candidates rt))]) (req_routing r));
        ("model", opt_json JStr (req_model r)); ("instructions", opt_json JStr (req_instructions r));
        ("max_output_tokens", opt_json (λ z, JNum (NInt z)) (req_max_output_tokens r))].

Definition CreateRunRequest_validate (v : json) : result CreateRunRequest :=
  d ← body_object v;
  no_extra d ["input"; "policy"];;
  input ← field "input" d nonempty_object;
  p ← body_object (dget_or "policy" (JObj []) d);
  policy ← RunPolicyRequest_validate p;
  raise_unless (dump_size (JObj [("input", JObj input)]) <=? MAX_INPUT_BYTES)
    (ValueError "input must not exceed 65536 bytes");;
  raise_unless (dump_size (JObj [("input", JObj input); ("policy", policy_json policy)]) <=? MAX_REQUEST_BYTES)
    (ValueError "request must not exceed 131072 bytes");;
  Ok {| crr_input := input; crr_policy := policy |}.

(** ** [EvaluateRunRequest] *)

Definition EvaluateRunRequest_validate (v : json) : result (list dict) :=
  d ← body_object v;
  no_extra d ["rules"];;
  rules ← field "rules" d rule_list;
  validate_rules check_schema rules;;
  Ok rules.

(** ** [EvaluationRegressionRequest] *)

Record TargetRequest := { tr_provider : string; tr_model : option string; tr_cost : Z }.
Record GatesRequest := { gr_quality : f64; gr_latency : option f64; gr_cost : option f64 }.
Record RegressionRequest := {
  rq_dataset_id : string;
  rq_version : string;
  rq_cases : list RegressionCase;
  rq_baseline : TargetRequest;
  rq_candidate : TargetRequest;
  rq_gates : GatesRequest;
}.

Definition case_validate (v : json) : result RegressionCase :=
  d ← body_object v;
  no_extra d ["case_id"; "input"; "rules"];;
  id ← field "case_id" d (bounded_str 1 128);
  input ← field "input" d nonempty_object;
  rules ← field "rules" d rule_list;
  validate_rules check_schema rules;;
  Ok {| case_id := id; case_input := input; case_rules := rules |}.

Definition case_list (v : json) : result (list RegressionCase) :=
  match v with
  | JArr l =>
      raise_unless ((1 <=? len l) && (len l <=? 10)) (ValueError "validation error");;
      each case_validate l
  | _ => invalid
  end.

(** [int = Field(ge=0)] and [float = Field(ge=0)] with [allow_inf_nan=False]. *)
Definition nonneg_int (v : json) : result Z :=
  match lax_int v with Some z => if 0 <=? z then Ok z else invalid | None => invalid end.
Definition nonneg_float (v : json) : result f64 :=
  match lax_float v with
  | Some f => if isfinite f && num_le (NInt 0) (NFloat f) then Ok f else invalid
  | None => invalid
  end.

Definition target_validate (v : json) : result TargetRequest :=
  d ← body_object v;
  no_extra d ["provider"; "model"; "estimated_cost_microusd"];;
  provider ← field "provider" d (bounded_str 1 64);
  model ← opt_field "model" d (bounded_str 1 128);
  cost ← nonneg_int (dget_or "estimated_cost_microusd" (JNum (NInt 0)) d);
  Ok {| tr_provider := provider; tr_model := model; tr_cost := cost |}.

Definition gates_validate (v : json) : result GatesRequest :=
  d ← body_object v;
  no_extra d ["max_quality_regression_points"; "max_latency_regression_percent"; "max_cost_regression_percent"];;
  quality ← match dget "max_quality_regression_points" d with Some x => nonneg_float x | None => Ok (Fin 0) end;
  latency ← opt_field "max_latency_regression_percent" d nonneg_float;
  cost ← opt_field "max_cost_regression_percent" d nonneg_float;
  Ok {| gr_quality := quality; gr_latency := latency; gr_cost := cost |}.

Definition EvaluationRegressionRequest_validate (v : json) : result RegressionRequest :=
  d ← body_object v;
  no_extra d ["dataset"; "baseline"; "candidate"; "gates"];;
  ds ← field "dataset" d body_object;
  no_extra ds ["dataset_id"; "version"; "cases"];;
  id ← field "dataset_id" ds (bounded_str 1 128);
  version ← field "version" ds (bounded_str 1 64);
  cs ← field "cases" ds case_list;
  baseline ← field "baseline" d target_validate;
  candidate ← field "candidate" d target_validate;
  gates ← match dget "gates" d with
          | Some g => gates_validate g
          | None => Ok {| gr_quality := Fin 0; gr_latency := None; gr_cost := None |}
          end;
  Ok {| rq_dataset_id := id; rq_version := version; rq_cases := cs; rq_baseline := baseline;
        rq_candidate := candidate; rq_gates := gates |}.
End Schemas.

(** ** [model_dump] of a regression request *)

Definition case_dump (c : RegressionCase) : json :=
  JObj [("case_id", JStr (case_id c)); ("input", JObj (case_input c)); ("rules", JArr (map JObj (case_rules c)))].
Definition dataset_dump (r : RegressionRequest) : dict :=
  [("dataset_id", JStr (rq_dataset_id r)); ("version", JStr (rq_version r));
   ("cases", JArr (map case_dump (rq_cases r)))].
Definition target_dump (t : TargetRequest) : dict :=
  [("provider", JStr (tr_provider t)); ("model", opt_str (tr_model t));
   ("estimated_cost_microusd", JNum (NInt (tr_cost t)))].
Definition gates_dump (g : GatesRequest) : dict :=
  [("max_quality_regression_points", JNum (NFloat (gr_quality g)));
   ("max_latency_regression_percent", opt_json (λ f, JNum (NFloat f)) (gr_latency g));
   ("max_cost_regression_percent", opt_json (λ f, JNum (NFloat f)) (gr_cost g))].
Definition request_dump (r : RegressionRequest) : dict :=
  [("dataset", JObj (dataset_dump r)); ("baseline", JObj (target_dump (rq_baseline r)));
   ("candidate", JObj (target_dump (rq_candidate r))); ("gates", JObj (gates_dump (rq_gates r)))].

(** ** Responses *)

Record RunResponse := {
  rr_run_id : uuid; rr_execution_status : ExecutionStatus; rr_evaluation_status : EvaluationStatus;
  rr_created_at : time; rr_started_at : option time; rr_completed_at : option time;
  rr_replay_of_run_id : option uuid; rr_error_code : option string; rr_routing_decision : option dict;
}.
Definition _to_run_response (s : RunSnapshot) : RunResponse :=
  {| rr_run_id := rs_id s; rr_execution_status := rs_execution_status s;
     rr_evaluation_status := rs_evaluation_status s; rr_created_at := rs_created_at s;
     rr_started_at := rs_started_at s; rr_completed_at := rs_completed_at s;
     rr_replay_of_run_id := rs_replay_of_run_id s; rr_error_code := rs_error_code s;
     rr_routing_decision := rs_routing_decision s |}.

(** The attempt, event and evaluation responses copy every field of their snapshots. *)
Definition _to_attempt_response (s : AttemptSnapshot) : AttemptSnapshot := s.
Definition _to_event_response (s : EventSnapshot) : EventSnapshot := s.
Definition _to_evaluation_response (s : EvaluationSnapshot) : EvaluationSnapshot := s.

Record CreateRunResponse := {
  cr_run : uuid; cr_status : ExecutionStatus; cr_replayed : bool; cr_routing_decision : option dict;
}.
Record ReplayRunResponse := {
  rp_run_id : uuid; rp_status : ExecutionStatus; rp_replay_of_run_id : uuid; rp_replayed : bool;
}.
Record JobResponse := {
  jb_id : uuid; jb_status : ExecutionStatus; jb_result : option dict; jb_error_code : option string;
}.
Record JobAccepted := { ja_id : uuid; ja_status : ExecutionStatus; ja_replayed : bool }.
