(* ===== verification/Api.v ===== *)
(** * HTTP API

    The handlers of [src/src/agent_runtime/api/main.py] on any [RunSubmissionService], the exception
    handlers, and their composition with the security boundary.  Routing, parameter parsing and
    serialization are FastAPI's: an [endpoint] is a routed request with its parsed path and
    query parameters and its JSON body.  Messages of problems are not modelled. *)

From S2P Require Import Prelude Float64 PyValue States Routing Retry Models Quotas Canonical Safety Engine.
From S2P Require Import Telemetry Credentials Settings RateLimiter Boundary RunService RunPort ExecutionService.
From S2P Require Import Regression ResourceExecutor Schemas.
Local Open Scope Z_scope.

(** What a handler may raise: an [ApiProblem] or any other exception. *)
Inductive api_exn :=
| ApiProblem (status : Z) (code : string)
| Raised (e : exn).
Abbreviation outcome A := (A + api_exn)%type.

Definition outcome_bind {A B} (m : outcome A) (f : A → outcome B) : outcome B :=
  match m with inl a => f a | inr e => inr e end.
Local Notation "x <~ m ; k" := (outcome_bind m (λ x, k)) (at level 100, m at next level, right associativity).

Inductive ApiBody :=
| HealthBody
| CreatedBody (b : CreateRunResponse)
| RunBody (b : RunResponse)
| AttemptsBody (l : list AttemptSnapshot)
| EventsBody (l : list EventSnapshot)
| EvaluationBody (b : EvaluationSnapshot)
| EvaluationsBody (l : list EvaluationSnapshot)
| JobAcceptedBody (b : JobAccepted)
| JobBody (b : JobResponse)
| ReplayBody (b : ReplayRunResponse)
| ErrorBody (code : string).

Record ApiResponse := {
  ap_status : Z;
  ap_body : ApiBody;
  ap_next_cursor : option uuid;
  ap_retry_after : option Z;
}.
Definition plain_response (status : Z) (b : ApiBody) : ApiResponse :=
  {| ap_status := status; ap_body := b; ap_next_cursor := None; ap_retry_after := None |}.

(** A routed request. *)
Inductive endpoint :=
| Healthz
| CreateRun (body : json) (idempotency_key : option string)
| GetRun (run_id : uuid)
| GetAttempts (run_id : uuid) (limit : Z) (cursor : option uuid)
| GetEvents (run_id : uuid) (limit : Z) (cursor : option uuid)
| EvaluateRun (run_id : uuid) (body : json)
| GetEvaluations (run_id : uuid) (limit : Z) (cursor : option uuid)
| RunEvaluationRegression (body : json) (idempotency_key : option string)
| GetJob (job_id : uuid)
| ReplayRun (run_id : uuid) (idempotency_key : option string).

(** [[A-Za-z0-9][A-Za-z0-9._:-]{7,254}]. *)
Definition IDEMPOTENCY_KEY_PATTERN (s : string) : bool :=
  match Text.to_list s with
  | c :: l => is_letter_digit c && forallb is_identity_char l && (7 <=? len l) && (len l <=? 254)
  | [] => false
  end.
Definition _validate_idempotency_key (value : string) : outcome string :=
  if IDEMPOTENCY_KEY_PATTERN value then inl value else inr (ApiProblem 422 "INVALID_IDEMPOTENCY_KEY").

(** [except ExceptionType as exc: raise ApiProblem(...)]. *)
Definition or_raise {A} (handle : exn → api_exn) (r : result A) : outcome A :=
  match r with Ok a => inl a | Err e => inr (handle e) end.

(** The [except] clauses of the two submissions. *)
Definition submission_problem (invalid_code : string) (e : exn) : api_exn :=
  match e with
  | IdempotencyConflictError => ApiProblem 409 "IDEMPOTENCY_KEY_REUSED"
  | QuotaExceededError _ => Raised e
  | _ => if is_value_error e then ApiProblem 422 invalid_code else Raised e
  end.
Definition read_problem (e : exn) : api_exn :=
  match e with RunNotFoundError => ApiProblem 404 "RUN_NOT_FOUND" | _ => Raised e end.
Definition evaluate_problem (e : exn) : api_exn :=
  match e with
  | RunNotFoundError => ApiProblem 404 "RUN_NOT_FOUND"
  | RunNotSucceededError => ApiProblem 409 "RUN_NOT_SUCCEEDED"
  | _ => Raised e
  end.
Definition replay_problem (e : exn) : api_exn :=
  match e with
  | RunNotFoundError => ApiProblem 404 "RUN_NOT_FOUND"
  | IdempotencyConflictError => ApiProblem 409 "IDEMPOTENCY_KEY_REUSED"
  | _ => Raised e
  end.
Definition job_problem (e : exn) : api_exn :=
  match e with RunNotFoundError => ApiProblem 404 "JOB_NOT_FOUND" | _ => Raised e end.

(** [RequestValidationError]. *)
Definition validated {A} (r : result A) : outcome A := or_raise (λ _, ApiProblem 422 "VALIDATION_ERROR") r.
Definition missing_key : api_exn := ApiProblem 422 "MISSING_IDEMPOTENCY_KEY".

Section Api.
Context `{Host} `{Pydantic} (settings : Settings) (check_schema : json → bool).

(** ** Identities *)

Definition _required_client_id (id : Identity) (client_id : option string) : outcome string :=
  match auth_mode settings with
  | auth_api_key =>
      match id_tenant id with Some t => inl t | None => inr (Raised (RuntimeError "Missing authenticated tenant")) end
  | auth_disabled =>
      match client_id with
      | Some c => if Text.nonblank c then inl (Text.strip c) else inr (ApiProblem 422 "MISSING_CLIENT_ID")
      | None => inr (ApiProblem 422 "MISSING_CLIENT_ID")
      end
  end.

Definition _principal_id (id : Identity) (tenant : string) : outcome string :=
  match id_principal id with
  | Some p => inl p
  | None =>
      match auth_mode settings with
      | auth_disabled => inl ("local-" +:+ sha256_hex (Text.of_list (encode tenant)))
      | auth_api_key => inr (Raised (RuntimeError "Missing authenticated principal"))
      end
  end.

(** ** Handlers, on any run service *)

Context {S : Type} `{svc : RunSubmissionService S}.

Section Handlers.
Context (tx : Tx) (id : Identity) (client_id : option string).

(** Run a transaction of the service, or keep the database when a check fails first. *)
Definition transact {A B} (pre : outcome A) (run : A → S → outcome B * S) (d : S) : outcome B * S :=
  match pre with inl a => run a d | inr e => (inr e, d) end.

(** What a handler that calls a mutating operation establishes before the call: its arguments. *)
Definition create_run_args (body : json) (idempotency_key : option string)
    : outcome (CreateRunRequest * string * dict * string * string) :=
  payload <~ validated (CreateRunRequest_validate body);
  key <~ match idempotency_key with Some k => inl k | None => inr missing_key end;
  tenant <~ _required_client_id id client_id;
  policy <~ or_raise (submission_problem "INVALID_RETRY_POLICY")
    (build_policy_snapshot (RunPolicyRequest_dump (crr_policy payload)) (server_policy settings));
  principal <~ _principal_id id tenant;
  key <~ _validate_idempotency_key key;
  inl (payload, tenant, policy, principal, key).

Definition handle_create_run (body : json) (idempotency_key : option string) (d : S) : outcome CreateRunResponse * S :=
  transact (create_run_args body idempotency_key)
    (λ '(payload, tenant, policy, principal, key) d,
       let '(r, d') := svc_submit tx tenant key (crr_input payload) policy (Some principal) d in
       (p <~ or_raise (submission_problem "INVALID_RETRY_POLICY") r;
        let '(run, replayed) := p in
        inl {| cr_run := rs_id run; cr_status := rs_execution_status run; cr_replayed := replayed;
               cr_routing_decision := rs_routing_decision run |}, d')) d.

Definition handle_get_run (run_id : uuid) (d : S) : outcome RunResponse :=
  tenant <~ _required_client_id id client_id;
  run <~ or_raise read_problem (svc_get_run tenant run_id d);
  inl (_to_run_response run).

(** [limit: Query(ge=1, le=100)]; a request that fails it does not reach the handler. *)
Definition query_limit (limit : Z) : outcome Z :=
  if (1 <=? limit) && (limit <=? 100) then inl limit else inr (ApiProblem 422 "VALIDATION_ERROR").

Definition handle_history {A} (get : string → uuid → Z → option uuid → S → result (list A)) (ident : A → uuid)
    (run_id : uuid) (limit : Z) (cursor : option uuid) (d : S) : outcome (list A * option uuid) :=
  limit <~ query_limit limit;
  tenant <~ _required_client_id id client_id;
  rows <~ or_raise read_problem (get tenant run_id limit cursor d);
  inl (rows, next_cursor ident limit rows).
Definition handle_get_attempts := handle_history svc_get_attempts as_id.
Definition handle_get_events := handle_history svc_get_events es_id.
Definition handle_get_evaluations := handle_history svc_get_evaluations vs_id.

Definition evaluate_run_args (body : json) : outcome (list dict * string * string) :=
  rules <~ validated (EvaluateRunRequest_validate check_schema body);
  tenant <~ _required_client_id id client_id;
  principal <~ _principal_id id tenant;
  inl (rules, tenant, principal).

Definition handle_evaluate_run (run_id : uuid) (body : json) (d : S) : outcome EvaluationSnapshot * S :=
  transact (evaluate_run_args body)
    (λ '(rules, tenant, principal) d,
       let '(r, d') := svc_evaluate tx tenant run_id rules (Some principal) d in
       (evaluation <~ or_raise evaluate_problem r; inl (_to_evaluation_response evaluation), d')) d.

Definition provider_available (provider : string) : result unit :=
  raise_unless (bool_decide (provider ∈ ["deterministic"; "openai"]))
    (ValueError ("provider '" +:+ provider +:+ "' is not configured"));;
  raise_unless (negb (bool_decide (provider = "openai" ∧ openai_api_key settings = None)))
    (ValueError "openai target requires APP_OPENAI_API_KEY").
Definition _validate_regression_targets (baseline candidate : ProviderModelTarget) : result unit :=
  provider_available (tgt_provider baseline);; provider_available (tgt_provider candidate).

(** The checks of [run_evaluation_regression] inside its [try] block. *)
Definition check_regression (r : RegressionRequest) : result unit :=
  from_mapping (dataset_dump r);;
  b ← mk_target (tr_provider (rq_baseline r)) (tr_model (rq_baseline r)) (tr_cost (rq_baseline r));
  c ← mk_target (tr_provider (rq_candidate r)) (tr_model (rq_candidate r)) (tr_cost (rq_candidate r));
  _validate_regression_targets b c.

Definition regression_args (body : json) (idempotency_key : option string)
    : outcome (RegressionRequest * string * string * string) :=
  payload <~ validated (EvaluationRegressionRequest_validate check_schema body);
  _ <~ match auth_mode settings with
       | auth_api_key => inl tt
       | auth_disabled => inr (ApiProblem 401 "AUTHENTICATION_REQUIRED")
       end;
  tenant <~ _required_client_id id None;
  _ <~ (if (len (rq_cases payload) <=? regression_max_cases settings)
           && (2 * len (rq_cases payload) <=? regression_provider_call_budget settings)
        then inl tt else inr (ApiProblem 422 "REGRESSION_BUDGET_EXCEEDED"));
  key <~ match idempotency_key with Some k => inl k | None => inr missing_key end;
  _ <~ or_raise (submission_problem "INVALID_REGRESSION_REQUEST") (check_regression payload);
  principal <~ _principal_id id tenant;
  key <~ _validate_idempotency_key key;
  inl (payload, tenant, principal, key).

Definition handle_regression (body : json) (idempotency_key : option string) (d : S) : outcome JobAccepted * S :=
  transact (regression_args body idempotency_key)
    (λ '(payload, tenant, principal, key) d,
       let '(r, d') := svc_submit_regression tx tenant principal (request_dump payload) key d in
       (p <~ or_raise (submission_problem "INVALID_REGRESSION_REQUEST") r;
        let '(job, replayed) := p in
        inl {| ja_id := rs_id job; ja_status := rs_execution_status job; ja_replayed := replayed |}, d')) d.

Definition handle_get_job (job_id : uuid) (d : S) : outcome JobResponse :=
  tenant <~ _required_client_id id client_id;
  job <~ or_raise job_problem
    (job ← svc_get_run tenant job_id d;
     raise_unless (bool_decide (rs_work_kind job ∈ ["evaluation"; "regression"])) RunNotFoundError;;
     Ok job);
  inl {| jb_id := rs_id job; jb_status := rs_execution_status job; jb_result := rs_result_payload job;
         jb_error_code := rs_error_code job |}.

Definition replay_run_args (idempotency_key : option string) : outcome (string * string * string) :=
  key <~ match idempotency_key with Some k => inl k | None => inr missing_key end;
  tenant <~ _required_client_id id client_id;
  principal <~ _principal_id id tenant;
  key <~ _validate_idempotency_key key;
  inl (tenant, principal, key).

Definition handle_replay_run (run_id : uuid) (idempotency_key : option string) (d : S)
    : outcome ReplayRunResponse * S :=
  transact (replay_run_args idempotency_key)
    (λ '(tenant, principal, key) d,
       let '(r, d') := svc_replay tx tenant run_id key (Some principal) d in
       (p <~ or_raise replay_problem r;
        let '(run, replayed) := p in
        match rs_replay_of_run_id run with
        | Some source => inl {| rp_run_id := rs_id run; rp_status := rs_execution_status run;
                                rp_replay_of_run_id := source; rp_replayed := replayed |}
        | None => inr (Raised (RuntimeError "Replay must retain its source run"))
        end, d')) d.

(** ** Routes *)

Definition answer_with {A} (status : Z) (body : A → ApiBody) (r : outcome A) : outcome ApiResponse :=
  match r with inl a => inl (plain_response status (body a)) | inr e => inr e end.
Definition answer_page {A} (body : list A → ApiBody) (r : outcome (list A * option uuid)) : outcome ApiResponse :=
  match r with
  | inl (rows, cursor) => inl {| ap_status := 200; ap_body := body rows; ap_next_cursor := cursor; ap_retry_after := None |}
  | inr e => inr e
  end.

Definition route (e : endpoint) (d : S) : outcome ApiResponse * S :=
  match e with
  | Healthz => (inl (plain_response 200 HealthBody), d)
  | CreateRun body key => let '(r, d') := handle_create_run body key d in (answer_with 202 CreatedBody r, d')
  | GetRun run_id => (answer_with 200 RunBody (handle_get_run run_id d), d)
  | GetAttempts run_id limit cursor => (answer_page AttemptsBody (handle_get_attempts run_id limit cursor d), d)
  | GetEvents run_id limit cursor => (answer_page EventsBody (handle_get_events run_id limit cursor d), d)
  | EvaluateRun run_id body => let '(r, d') := handle_evaluate_run run_id body d in (answer_with 202 EvaluationBody r, d')
  | GetEvaluations run_id limit cursor =>
      (answer_page EvaluationsBody (handle_get_evaluations run_id limit cursor d), d)
  | RunEvaluationRegression body key => let '(r, d') := handle_regression body key d in (answer_with 202 JobAcceptedBody r, d')
  | GetJob job_id => (answer_with 200 JobBody (handle_get_job job_id d), d)
  | ReplayRun run_id key => let '(r, d') := handle_replay_run run_id key d in (answer_with 202 ReplayBody r, d')
  end.

(** ** Exception handlers *)

Definition error_response (status : Z) (code : string) : ApiResponse := plain_response status (ErrorBody code).

(** [api_problem_handler], [validation_error_handler], [quota_error_handler] and
    [cursor_error_handler]; another exception leaves the application. *)
Definition handle_exception (e : api_exn) : result ApiResponse :=
  match e with
  | ApiProblem status code => Ok (error_response status code)
  | Raised (QuotaExceededError _) =>
      Ok {| ap_status := 429; ap_body := ErrorBody "RESOURCE_QUOTA_EXCEEDED"; ap_next_cursor := None;
            ap_retry_after := Some (quota_window_seconds settings) |}
  | Raised InvalidCursorError => Ok (error_response 422 "INVALID_CURSOR")
  | Raised e => Err e
  end.
Definition call_app (e : endpoint) (d : S) : result ApiResponse * S :=
  match route e d with
  | (inl r, d') => (Ok r, d')
  | (inr x, d') => (handle_exception x, d')
  end.
End Handlers.

(** [internal_error_handler], outside every middleware. *)
Definition internal_error_handler (r : result Response) : Response :=
  match r with Ok x => x | Err _ => _security_error 500 "INTERNAL_ERROR" end.

(** ** The application behind the boundary *)

Definition to_response (r : ApiResponse) : Response :=
  {| status_code := ap_status r;
     error_code := match ap_body r with ErrorBody c => Some c | _ => None end;
     retry_after := ap_retry_after r |}.

Section Exchange.
Context `{Crypto} (credentials : list CredentialRecord.t) (limiter : string → option RateLimitDecision)
        (sink : SecurityAuditRecord → bool).

Definition http_exchange (now : time) (tx : Tx) (req : Request) (e : endpoint) (d : S) : Exchange * S :=
  let client_id := head (req_client_ids req) in
  let x := enforce_security_boundary settings credentials limiter sink
             (λ id, to_response <$> fst (call_app tx id client_id e d)) now req in
  (x, match handled x with Some id => snd (call_app tx id client_id e d) | None => d end).
End Exchange.
End Api.

(** The service [create_app] makes from the settings when none is given. *)
Definition sql_service `{Host} (settings : Settings) (check_schema : json → bool) : RunSubmissionService db :=
  SqlAlchemyRunService (from_settings settings) (attempt_timeout settings) check_schema.
