(* ===== verification/ApiTheorems.v ===== *)
(** * Guarantees of the API

    Tenants are confined to their own rows through the whole path from the credential to the
    tables, every answer has the declared shape, and an accepted regression request is one the
    worker will execute.  The handlers are reasoned about through [RunPort.RunServiceContract];
    only the statements about the database fix the service to [SqlAlchemyRunService]. *)

From S2P Require Import Prelude Float64 PyValue States Routing Retry Models Quotas Canonical Safety Engine.
From S2P Require Import Telemetry Credentials Settings RateLimiter Boundary RunService RunPort ExecutionService.
From S2P Require Import Providers Messaging Regression RunnerLemmas ResourceExecutor Schemas Api.
Local Open Scope Z_scope.

(** ** Confinement of the application *)

Section App.
Context `{Host} `{Pydantic} (settings : Settings) (check_schema : json → bool).
Context {S : Type} `{contract : RunServiceContract S rules_ok}.
Abbreviation call_app := (call_app settings check_schema).

(** The runs an answer is about. *)
Definition disclosed (e : endpoint) (b : ApiBody) : list uuid :=
  match e with
  | GetAttempts r _ _ | GetEvents r _ _ | GetEvaluations r _ _ | EvaluateRun r _ => [r]
  | _ => []
  end ++
  match b with
  | RunBody b => [rr_run_id b]
  | CreatedBody b => [cr_run b]
  | JobAcceptedBody b => [ja_id b]
  | JobBody b => [jb_id b]
  | ReplayBody b => [rp_run_id b; rp_replay_of_run_id b]
  | _ => []
  end.

Definition is_error (r : ApiResponse) : bool := match ap_body r with ErrorBody _ => true | _ => false end.

Lemma bind_inl {A B} (m : outcome A) (f : A → outcome B) b :
  outcome_bind m f = inl b → ∃ a, m = inl a ∧ f a = inl b.
Proof. destruct m; cbn; [eauto|done]. Qed.
Lemma or_raise_inl {A} h (r : result A) a : or_raise h r = inl a → r = Ok a.
Proof. by destruct r; intros [= ->]. Qed.

(** The tenant of an identity in API-key mode. *)
Lemma tenant_of_identity id client t t' :
  auth_mode settings = auth_api_key → id_tenant id = Some t → _required_client_id settings id client = inl t' → t' = t.
Proof. unfold _required_client_id. intros -> -> [= ->]. done. Qed.

Section Handlers.
Context (tx : Tx) (id : Identity) (client : option string) (t : string).
Context (Hmode : auth_mode settings = auth_api_key) (Hid : id_tenant id = Some t).

Lemma required_tenant c : _required_client_id settings id c = inl t.
Proof. unfold _required_client_id. by rewrite Hmode, Hid. Qed.

(** What a handler guarantees: only rows of [t] change, and on success the runs it names are
    runs of [t]. *)
Definition guards {A} (names : A → list uuid) (d : S) (x : outcome A * S) : Prop :=
  only_of t d x.2 ∧ ∀ a u, x.1 = inl a → u ∈ names a → held_by t x.2 u.

Lemma guards_err {A} (names : A → list uuid) d e : guards names d (inr e, d).
Proof. split; [apply only_of_refl|done]. Qed.

Lemma create_run_guards body key d :
  sound d → guards (λ b, [cr_run b]) d (handle_create_run settings tx id client body key d).
Proof.
  intros Hwf. unfold handle_create_run, create_run_args, transact.
  match goal with |- context [match ?pre with _ => _ end] => destruct pre as [[[[[pl c] pol] pr] k]|] eqn:E end;
    [|apply guards_err].
  repeat (apply bind_inl in E as (? & ? & E)). injection E as <- <- <- <- <-.
  match goal with Hc : _required_client_id _ _ _ = inl _ |- _ => rewrite required_tenant in Hc; injection Hc as <- end.
  destruct (svc_submit _ _ _ _ _ _ _) as [r d'] eqn:Es.
  destruct (submit_only _ _ _ _ _ _ _ _ _ Hwf Es) as [Hc Ho]. split; [done|]. cbn.
  intros a u Ha Hu. destruct r as [[s b]|]; [|done]. injection Ha as <-. apply list_elem_of_singleton in Hu as ->. by eapply Ho.
Qed.

Lemma regression_guards body key d :
  sound d → guards (λ b, [ja_id b]) d (handle_regression settings check_schema tx id body key d).
Proof.
  intros Hwf. unfold handle_regression, regression_args, transact.
  match goal with |- context [match ?pre with _ => _ end] => destruct pre as [[[[pl c] pr] k]|] eqn:E end;
    [|apply guards_err].
  repeat (apply bind_inl in E as (? & ? & E)). injection E as <- <- <- <-.
  match goal with Hc : _required_client_id _ _ _ = inl _ |- _ => rewrite required_tenant in Hc; injection Hc as <- end.
  destruct (svc_submit_regression _ _ _ _ _ _) as [r d'] eqn:Es.
  destruct (regression_only_of _ _ _ _ _ _ _ _ Hwf Es) as [Hc Ho]. split; [done|]. cbn.
  intros a u Ha Hu. destruct r as [[s b]|]; [|done]. injection Ha as <-. apply list_elem_of_singleton in Hu as ->. by eapply Ho.
Qed.

Lemma replay_guards k key d :
  sound d → guards (λ b, [rp_run_id b; rp_replay_of_run_id b]) d (handle_replay_run settings tx id client k key d).
Proof.
  intros Hwf. unfold handle_replay_run, replay_run_args, transact.
  match goal with |- context [match ?pre with _ => _ end] => destruct pre as [[[c pr] k0]|] eqn:E end;
    [|apply guards_err].
  repeat (apply bind_inl in E as (? & ? & E)). injection E as <- <- <-.
  match goal with Hc : _required_client_id _ _ _ = inl _ |- _ => rewrite required_tenant in Hc; injection Hc as <- end.
  destruct (svc_replay _ _ _ _ _ _) as [r d'] eqn:Es.
  destruct (replay_only_of _ _ _ _ _ _ _ _ Hwf Es) as [Hc Ho]. split; [done|]. cbn.
  intros a u Ha Hu. destruct r as [[s b]|]; [|done]. cbn in Ha. destruct (Ho s b eq_refl) as (Ho1 & Hr & Ho2).
  rewrite Hr in Ha. injection Ha as <-. cbn in Hu. apply elem_of_cons in Hu as [->|Hu]; [done|].
  by apply list_elem_of_singleton in Hu as ->.
Qed.

Lemma evaluate_guards k body d :
  sound d → guards (λ _, [k]) d (handle_evaluate_run settings check_schema tx id client k body d).
Proof.
  intros Hwf. unfold handle_evaluate_run, evaluate_run_args, transact.
  match goal with |- context [match ?pre with _ => _ end] => destruct pre as [[[rl c] pr]|] eqn:E end;
    [|apply guards_err].
  repeat (apply bind_inl in E as (? & ? & E)). injection E as <- <- <-.
  match goal with Hc : _required_client_id _ _ _ = inl _ |- _ => rewrite required_tenant in Hc; injection Hc as <- end.
  destruct (svc_evaluate _ _ _ _ _ _) as [r d'] eqn:Es.
  destruct (evaluate_only_of _ _ _ _ _ _ _ _ Hwf Es) as [Hc Ho]. split; [done|]. cbn.
  intros a u Ha Hu. apply list_elem_of_singleton in Hu as ->. destruct r; [by apply Ho|done].
Qed.

(** A page of a history is of a run of the tenant. *)
Lemma history_owned {A} (get : string → uuid → Z → option uuid → S → result (list A)) ident k l cur d a :
  (∀ c, is_ok (get c k l cur d) = true → held_by c d k) →
  handle_history settings id client get ident k l cur d = inl a → held_by t d k.
Proof.
  intros Hget. unfold handle_history, query_limit. destruct (_ && _); [|done]. cbn. rewrite required_tenant. cbn.
  destruct (get t k l cur d) as [rows|] eqn:E; [|done]. intros _. apply Hget. by rewrite E.
Qed.

Lemma route_guards e d : sound d → guards (λ r, disclosed e (ap_body r)) d (route settings check_schema tx id client e d).
Proof.
  intros Hwf.
  assert (∀ A (names : A → list uuid) status body x,
    (∀ a, disclosed e (body a) = names a) → guards names d x →
    guards (λ r, disclosed e (ap_body r)) d (answer_with status body x.1, x.2)) as Hlift.
  { intros A names status body [[a|] d'] Hn [Hc Ho]; split; try done.
    intros r u [= <-]. cbn. rewrite Hn. by apply Ho. }
  assert (∀ A (rows : outcome (list A * option uuid)) body k,
    (∀ l, disclosed e (body l) = [k]) → (∀ a, rows = inl a → held_by t d k) →
    guards (λ r, disclosed e (ap_body r)) d (answer_page body rows, d)) as Hpage.
  { intros A [[l cur]|] body k Hn Ho; split; try apply only_of_refl; try done.
    intros r u [= <-]. cbn. rewrite Hn. intros ->%list_elem_of_singleton. by eapply Ho. }
  destruct e as [|body key|k|k l cur|k l cur|k body|k l cur|body key|k|k key]; cbn [route].
  - split; [apply only_of_refl|]. intros r u [= <-]. by intros ?%not_elem_of_nil.
  - pose proof (create_run_guards body key d Hwf) as Hg.
    destruct (handle_create_run _ _ _ _ _ _ _) as [r d'] eqn:E. exact (Hlift _ _ 202 CreatedBody (r, d') (λ _, eq_refl) Hg).
  - refine (Hlift _ (λ b, [rr_run_id b]) 200 RunBody (handle_get_run settings id client k d, d) (λ _, eq_refl) _).
    split; [apply only_of_refl|]. cbn. unfold handle_get_run. rewrite required_tenant. cbn.
    destruct (svc_get_run t k d) as [s|] eqn:Es; [|done]. intros a u [= <-] ->%list_elem_of_singleton. by eapply get_run_held.
  - eapply Hpage; [done|]. intros a. eapply history_owned. intros c. apply attempts_held.
  - eapply Hpage; [done|]. intros a. eapply history_owned. intros c. apply events_held.
  - pose proof (evaluate_guards k body d Hwf) as Hg.
    destruct (handle_evaluate_run _ _ _ _ _ _ _ _) as [r d'] eqn:E. exact (Hlift _ _ 202 EvaluationBody (r, d') (λ _, eq_refl) Hg).
  - eapply Hpage; [done|]. intros a. eapply history_owned. intros c. apply evaluations_held.
  - pose proof (regression_guards body key d Hwf) as Hg.
    destruct (handle_regression _ _ _ _ _ _ _) as [r d'] eqn:E. exact (Hlift _ _ 202 JobAcceptedBody (r, d') (λ _, eq_refl) Hg).
  - refine (Hlift _ (λ b, [jb_id b]) 200 JobBody (handle_get_job settings id client k d, d) (λ _, eq_refl) _).
    split; [apply only_of_refl|]. cbn. unfold handle_get_job. rewrite required_tenant. cbn.
    destruct (svc_get_run t k d) as [s|] eqn:Es; [|done]. cbn. case_bool_decide; [|done].
    intros a u [= <-] ->%list_elem_of_singleton. by eapply get_run_held.
  - pose proof (replay_guards k key d Hwf) as Hg.
    destruct (handle_replay_run _ _ _ _ _ _ _) as [r d'] eqn:E. exact (Hlift _ _ 202 ReplayBody (r, d') (λ _, eq_refl) Hg).
Qed.

Lemma call_app_guards e d resp d' :
  sound d → call_app tx id client e d = (resp, d') →
  only_of t d d' ∧ ∀ r u, resp = Ok r → is_error r = false → u ∈ disclosed e (ap_body r) → held_by t d' u.
Proof.
  intros Hwf. unfold Api.call_app. pose proof (route_guards e d Hwf) as [Hc Ho].
  destruct (route _ _ _ _ _ e d) as [[r|x] d0]; cbn in *; intros [= <- <-]; (split; [done|]).
  - intros r0 u [= <-] _. by apply Ho.
  - intros r u Hr Hs. exfalso. destruct x as [st code|e0]; cbn in Hr; [by simplify_eq|].
    destruct e0; by simplify_eq.
Qed.
End Handlers.

End App.

(** ** Confinement of the deployed application *)

Section Deployed.
Context `{Host} `{Pydantic} `{Crypto} (settings : Settings) (check_schema : json → bool).
#[local] Instance deployed_service : RunSubmissionService db := sql_service settings check_schema.
Abbreviation call_app := (call_app settings check_schema).

(** (C8) Tenants are confined end to end: with API keys on, a non-public request either changes
    nothing and never reaches the application, or it carried the key of an active credential;
    then only runs of that credential's tenant are changed or added, and every run a successful
    answer is about belongs to that tenant, whatever headers, paths and bodies the request had. *)
Theorem api_confined_to_tenant credentials limiter sink now tx req e d x d' :
  auth_mode settings = auth_api_key → is_public req = false → db_wf d →
  http_exchange settings check_schema credentials limiter sink now tx req e d = (x, d') →
  (handled x = None ∧ d' = d)
  ∨ ∃ r id, proves settings credentials now req r ∧ handled x = Some id
      ∧ confined (CredentialRecord.tenant_id r) d d'
      ∧ ∀ resp u, fst (call_app tx id (head (req_client_ids req)) e d) = Ok resp → is_error resp = false →
          u ∈ disclosed e (ap_body resp) → owned (CredentialRecord.tenant_id r) d' u.
Proof.
  intros Hm Hpub Hwf. unfold http_exchange. set (bx := enforce_security_boundary _ _ _ _ _ _ _). intros [= <- <-].
  destruct (handled bx) as [id|] eqn:Eh; [right|by left].
  destruct (boundary_admits settings credentials limiter sink _ now req id Hm Hpub Eh) as (_ & r & lim & Hr & -> & _).
  eexists r, _. split; [done|]. split; [done|].
  destruct (call_app tx _ (head (req_client_ids req)) e d) as [resp d'] eqn:Ec.
  destruct (call_app_guards settings check_schema (contract := sql_contract _ _ _) tx {| id_tenant := Some (CredentialRecord.tenant_id r);
    id_principal := Some (CredentialRecord.principal_id r) |} _ _ Hm eq_refl e d resp d' Hwf Ec) as [Hc Ho].
  split; [done|]. cbn. intros resp0 u ->. by apply Ho.
Qed.
End Deployed.

(** ** The shape of answers *)

Definition success_status (e : endpoint) : Z :=
  match e with CreateRun _ _ | EvaluateRun _ _ | RunEvaluationRegression _ _ | ReplayRun _ _ => 202 | _ => 200 end.
Definition success_body (e : endpoint) (b : ApiBody) : bool :=
  match e, b with
  | Healthz, HealthBody | CreateRun _ _, CreatedBody _ | GetRun _, RunBody _ | GetAttempts _ _ _, AttemptsBody _
  | GetEvents _ _ _, EventsBody _ | EvaluateRun _ _, EvaluationBody _ | GetEvaluations _ _ _, EvaluationsBody _
  | RunEvaluationRegression _ _, JobAcceptedBody _ | GetJob _, JobBody _ | ReplayRun _ _, ReplayBody _ => true
  | _, _ => false
  end.

(** The errors a client of each endpoint has to expect. *)
Definition declared_errors (e : endpoint) : list (Z * string) :=
  let client := (422, "MISSING_CLIENT_ID") in
  let quota := (429, "RESOURCE_QUOTA_EXCEEDED") in
  let validation := (422, "VALIDATION_ERROR") in
  let keys := [(422, "MISSING_IDEMPOTENCY_KEY"); (422, "INVALID_IDEMPOTENCY_KEY"); (409, "IDEMPOTENCY_KEY_REUSED")] in
  match e with
  | Healthz => []
  | CreateRun _ _ => keys ++ [client; quota; validation; (422, "INVALID_RETRY_POLICY")]
  | GetRun _ => [client; (404, "RUN_NOT_FOUND")]
  | GetAttempts _ _ _ | GetEvents _ _ _ | GetEvaluations _ _ _ =>
      [client; validation; (404, "RUN_NOT_FOUND"); (422, "INVALID_CURSOR")]
  | EvaluateRun _ _ => [client; quota; validation; (404, "RUN_NOT_FOUND"); (409, "RUN_NOT_SUCCEEDED")]
  | RunEvaluationRegression _ _ =>
      keys ++ [client; quota; validation; (401, "AUTHENTICATION_REQUIRED"); (422, "REGRESSION_BUDGET_EXCEEDED");
               (422, "INVALID_REGRESSION_REQUEST")]
  | GetJob _ => [client; (404, "JOB_NOT_FOUND")]
  | ReplayRun _ _ => keys ++ [client; quota; (404, "RUN_NOT_FOUND")]
  end.

(** The request model of evaluations validates the rules. *)
Lemma evaluate_request_rules `{Pydantic} check_schema v rules :
  EvaluateRunRequest_validate check_schema v = Ok rules → validate_rules check_schema rules = Ok tt.
Proof.
  unfold EvaluateRunRequest_validate.
  intros (? & _ & (? & _ & (rl & _ & ([] & Hv & [= <-])%result_bind_ok)%result_bind_ok)%result_bind_ok)%result_bind_ok. done.
Qed.

Section Shape.
Context `{Host} `{Pydantic} (settings : Settings) (check_schema : json → bool).
Context {S : Type} `{contract : RunServiceContract S rules_ok}.
(** Rules that pass the request model are accepted by the service. *)
Context (Hrules : ∀ v rules, EvaluateRunRequest_validate check_schema v = Ok rules → rules_ok rules).
Abbreviation call_app := (call_app settings check_schema).

(** An exception of a handler becomes one of the declared errors, or leaves the application. *)
Definition becomes_declared (e : endpoint) (x : api_exn) : Prop :=
  match handle_exception settings x with
  | Ok r => ∃ c, ap_body r = ErrorBody c ∧ (ap_status r, c) ∈ declared_errors e
  | Err _ => True
  end.

Definition only {A} (P : api_exn → Prop) (m : outcome A) : Prop := match m with inl _ => True | inr x => P x end.
Lemma only_bind {A B} P (m : outcome A) (f : A → outcome B) :
  only P m → (∀ a, m = inl a → only P (f a)) → only P (outcome_bind m f).
Proof. destruct m; cbn; auto. Qed.
Lemma only_raise {A} P h (r : result A) : raises (λ e, P (h e)) r → only P (or_raise h r).
Proof. by destruct r. Qed.
Lemma only_transact {A B} P (pre : outcome A) (f : A → S → outcome B * S) d :
  only P pre → (∀ a, pre = inl a → only P (fst (f a d))) → only P (fst (transact pre f d)).
Proof. destruct pre; cbn; auto. Qed.
Lemma raises_all {A} (P : exn → Prop) (r : result A) : (∀ e, P e) → raises P r.
Proof. destruct r; cbn; auto. Qed.

(** A listed error. *)
Ltac listed := unfold only, becomes_declared; cbn; eexists; split; [done|set_solver].
Ltac solve_only := repeat first
  [ apply only_bind; [|intros ? ?] | progress cbn [only] | exact I
  | match goal with |- only _ (match ?x with _ => _ end) => destruct x end ].

Lemma client_only e c id : (422, "MISSING_CLIENT_ID") ∈ declared_errors e →
  only (becomes_declared e) (_required_client_id settings id c).
Proof. intros He. unfold _required_client_id. solve_only; unfold becomes_declared; cbn; eauto. Qed.
Lemma principal_only e id t : only (becomes_declared e) (_principal_id settings id t).
Proof. unfold _principal_id. solve_only; done. Qed.
Lemma key_only e k : (422, "INVALID_IDEMPOTENCY_KEY") ∈ declared_errors e →
  only (becomes_declared e) (_validate_idempotency_key k).
Proof. intros He. unfold _validate_idempotency_key. solve_only; unfold becomes_declared; cbn; eauto. Qed.
Lemma validated_only {A} e (r : result A) : (422, "VALIDATION_ERROR") ∈ declared_errors e →
  only (becomes_declared e) (validated r).
Proof. intros He. apply only_raise, raises_all. intros _. unfold becomes_declared. cbn. eauto. Qed.
Lemma submission_only {A} e code (r : result A) :
  (409, "IDEMPOTENCY_KEY_REUSED") ∈ declared_errors e → (429, "RESOURCE_QUOTA_EXCEEDED") ∈ declared_errors e →
  (422, code) ∈ declared_errors e → only (becomes_declared e) (or_raise (submission_problem code) r).
Proof.
  intros H1' H2' H3'. apply only_raise, raises_all. intros x.
  destruct x; unfold becomes_declared; cbn; eauto.
Qed.

Lemma answer_only {A} P status (body : A → ApiBody) m : only P m → only P (answer_with status body m).
Proof. by destruct m. Qed.
Lemma answer_page_only {A} P (body : list A → ApiBody) m : only P m → only P (answer_page body m).
Proof. by destruct m as [[]|]. Qed.

Lemma history_only {A} e (get : string → uuid → Z → option uuid → S → result (list A)) ident id c k l cur d :
  declared_errors e = declared_errors (GetAttempts k l cur) →
  (∀ t l cur, raises history_error (get t k l cur d)) →
  only (becomes_declared e) (handle_history settings id c get ident k l cur d).
Proof.
  intros He Hget. unfold handle_history. apply only_bind; [|intros l' _].
  { unfold query_limit. case_match; [done|]. unfold becomes_declared. rewrite He. cbn. eexists. split; [done|set_solver]. }
  apply only_bind; [apply client_only; rewrite He; set_solver|intros t _]. apply only_bind; [|done].
  apply only_raise. specialize (Hget t l' cur). destruct (get t k l' cur d); [done|].
  unfold becomes_declared. rewrite He. destruct Hget as [->| ->]; cbn; eexists; (split; [done|set_solver]).
Qed.

Lemma create_only tx id client body key d :
  only (becomes_declared (CreateRun body key)) (fst (handle_create_run settings tx id client body key d)).
Proof.
  apply only_transact.
  - unfold create_run_args. repeat (apply only_bind; [|intros ? ?]); try done.
    + apply validated_only. set_solver.
    + destruct key; [done|]. listed.
    + apply client_only. set_solver.
    + apply submission_only; set_solver.
    + apply principal_only.
    + apply key_only. set_solver.
  - intros [[[[pl c] pol] pr] k] _. destruct (svc_submit _ _ _ _ _ _ _) as [r d']. cbn [fst].
    apply only_bind; [apply submission_only; set_solver|]. by intros [] _.
Qed.

Lemma evaluate_only tx id client k body d :
  only (becomes_declared (EvaluateRun k body)) (fst (handle_evaluate_run settings check_schema tx id client k body d)).
Proof.
  apply only_transact.
  - unfold evaluate_run_args. repeat (apply only_bind; [|intros ? ?]); try done.
    + apply validated_only. set_solver.
    + apply client_only. set_solver.
    + apply principal_only.
  - intros [[rl c] pr] E. apply bind_inl in E as (rules & Hr%or_raise_inl & E).
    apply bind_inl in E as (t & _ & E). apply bind_inl in E as (p & _ & E). injection E as <- <- <-.
    pose proof (evaluate_raises tx t k rules (Some p) d (Hrules _ _ Hr)) as He.
    destruct (svc_evaluate _ _ _ _ _ _) as [r d']. cbn [fst] in *.
    apply only_bind; [|done]. apply only_raise. destruct r as [|x0]; [done|]. cbn in *.
    destruct x0; unfold becomes_declared; cbn; try done; try (eexists; split; [done|set_solver]).
Qed.

Lemma regression_only tx id body key d :
  only (becomes_declared (RunEvaluationRegression body key)) (fst (handle_regression settings check_schema tx id body key d)).
Proof.
  apply only_transact.
  - unfold regression_args. repeat (apply only_bind; [|intros ? ?]); try done.
    + apply validated_only. set_solver.
    + destruct (auth_mode settings); [|done]. listed.
    + apply client_only. set_solver.
    + destruct (_ && _); [done|]. listed.
    + destruct key; [done|]. listed.
    + apply submission_only; set_solver.
    + apply principal_only.
    + apply key_only. set_solver.
  - intros [[[pl c] pr] k] _. destruct (svc_submit_regression _ _ _ _ _ _) as [r d']. cbn [fst].
    apply only_bind; [apply submission_only; set_solver|]. by intros [] _.
Qed.

Lemma replay_only tx id client k key d :
  only (becomes_declared (ReplayRun k key)) (fst (handle_replay_run settings tx id client k key d)).
Proof.
  apply only_transact.
  - unfold replay_run_args. repeat (apply only_bind; [|intros ? ?]); try done.
    + destruct key; [done|]. listed.
    + apply client_only. set_solver.
    + apply principal_only.
    + apply key_only. set_solver.
  - intros [[c pr] k0] _. pose proof (replay_raises tx c k k0 (Some pr) d) as Hr.
    destruct (svc_replay _ _ _ _ _ _) as [r d']. cbn [fst] in *. apply only_bind.
    + apply only_raise. destruct r as [|x0]; [done|]. cbn in *.
      destruct x0; unfold becomes_declared; cbn; try done; try (eexists; split; [done|set_solver]).
    + intros [run b] _. by destruct (rs_replay_of_run_id run).
Qed.

Lemma route_only tx id client e d : only (becomes_declared e) (fst (route settings check_schema tx id client e d)).
Proof.
  destruct e as [|body key|k|k l cur|k l cur|k body|k l cur|body key|k|k key]; cbn [route].
  - done.
  - pose proof (create_only tx id client body key d) as Ho.
    destruct (handle_create_run _ _ _ _ _ _ _). by apply answer_only.
  - apply answer_only. unfold handle_get_run. apply only_bind; [apply client_only; set_solver|intros t _].
    apply only_bind; [|done]. apply only_raise.
    pose proof (get_run_raises t k d) as Hr. destruct (svc_get_run t k d); cbn in *; [done|]. rewrite Hr. listed.
  - apply answer_page_only, history_only; [done|]. intros. apply attempts_raise.
  - apply answer_page_only, history_only; [done|]. intros. apply events_raise.
  - pose proof (evaluate_only tx id client k body d) as Ho.
    destruct (handle_evaluate_run _ _ _ _ _ _ _ _). by apply answer_only.
  - apply answer_page_only, history_only; [done|]. intros. apply evaluations_raise.
  - pose proof (regression_only tx id body key d) as Ho.
    destruct (handle_regression _ _ _ _ _ _ _). by apply answer_only.
  - apply answer_only. unfold handle_get_job. apply only_bind; [apply client_only; set_solver|intros t _].
    apply only_bind; [|done]. apply only_raise.
    pose proof (get_run_raises t k d) as Hr. destruct (svc_get_run t k d); cbn in *.
    + case_bool_decide; [done|]. listed.
    + rewrite Hr. listed.
  - pose proof (replay_only tx id client k key d) as Ho.
    destruct (handle_replay_run _ _ _ _ _ _ _). by apply answer_only.
Qed.

Lemma call_app_typed tx id client e d r :
  fst (call_app tx id client e d) = Ok r →
  (ap_status r = success_status e ∧ success_body e (ap_body r) = true)
  ∨ ∃ c, ap_body r = ErrorBody c ∧ (ap_status r, c) ∈ declared_errors e.
Proof.
  unfold Api.call_app. pose proof (route_only tx id client e d) as Ho.
  destruct (route _ _ _ _ _ e d) as [[r0|x] d'] eqn:E; cbn in *.
  - intros [= <-]. left. destruct e; cbn [route] in E.
    all: try (destruct (handle_create_run _ _ _ _ _ _ _) as [[b|x] d0]).
    all: try (destruct (handle_evaluate_run _ _ _ _ _ _ _ _) as [[b|x] d0]).
    all: try (destruct (handle_regression _ _ _ _ _ _ _) as [[b|x] d0]).
    all: try (destruct (handle_replay_run _ _ _ _ _ _ _) as [[b|x] d0]).
    all: try (unfold handle_get_attempts, handle_get_events, handle_get_evaluations in E).
    all: try (destruct (handle_history _ _ _ _ _ _ _ _) as [[]|]).
    all: try (destruct (handle_get_run _ _ _ _ _) as [|]).
    all: try (destruct (handle_get_job _ _ _ _ _) as [|]).
    all: cbn in E; simplify_eq; done.
  - intros Hr. unfold becomes_declared in Ho. rewrite Hr in Ho. by right.
Qed.

(** (C31) Every answer has its declared shape: a handler's success has the status and the body
    type of its endpoint, and every other answer of the application is an error body with a
    status and code listed for that endpoint; anything else leaves the application as an
    exception, which becomes the generic error 500. *)
Theorem api_answers_well_typed tx id client e d r :
  fst (call_app tx id client e d) = Ok r →
  (ap_status r = success_status e ∧ success_body e (ap_body r) = true)
  ∨ ∃ c, ap_body r = ErrorBody c ∧ (ap_status r, c) ∈ declared_errors e.
Proof. apply call_app_typed. Qed.

End Shape.

(** ** Accepted regressions *)

Section Regressions.
Context `{Host} `{Pydantic} (settings : Settings) (check_schema : json → bool).
#[local] Instance regression_service : RunSubmissionService db := sql_service settings check_schema.


Lemma parse_cases_length seen l cs : parse_cases seen l = Ok cs → len cs = len l.
Proof.
  revert seen cs. induction l as [|v l IH]; intros seen cs; cbn.
  - by intros [= <-].
  - intros (c & _ & (cs' & Hc & [= <-])%result_bind_ok)%result_bind_ok. rewrite !len_cons. by rewrite (IH _ _ Hc).
Qed.

Lemma from_dump_length r ds : from_mapping (dataset_dump r) = Ok ds → len (cases ds) = len (rq_cases r).
Proof.
  unfold from_mapping. intros (? & _ & (? & _ & Hc)%result_bind_ok)%result_bind_ok.
  change (dget "cases" (dataset_dump r)) with (Some (JArr (map case_dump (rq_cases r)))) in Hc.
  destruct (map case_dump (rq_cases r)) as [|v l] eqn:E; [done|].
  apply result_bind_ok in Hc as (cs & Hp & [= <-]). cbn. rewrite (parse_cases_length _ _ _ Hp), <- E.
  unfold len. by rewrite length_map.
Qed.

Lemma target_of_dump t : target_of_json (JObj (target_dump t)) = mk_target (tr_provider t) (tr_model t) (tr_cost t).
Proof. by destruct t as [p [m|] c]. Qed.

Lemma nonneg_gate v f : nonneg_float v = Ok f → gate_ok (Some (NFloat f)) = true.
Proof.
  unfold nonneg_float. destruct (lax_float v) as [f0|]; [|done]. destruct (_ && _) eqn:E; [|done]. intros [= <-].
  apply andb_true_iff in E as [Hf Hle]. destruct f0 as [m| | |]; try done.
  unfold gate_ok. rewrite (num_le_fin (NInt 0) (NFloat (Fin m)) 0 m) in Hle by done.
  rewrite (num_lt_fin (NFloat (Fin m)) (NInt 0) m 0) by done. bool_to_prop. by rewrite (proj2 (Z.ltb_ge _ _)).
Qed.
Lemma opt_gate k d o : opt_field k d nonneg_float = Ok o → gate_ok (NFloat <$> o) = true.
Proof.
  unfold opt_field. destruct (dget k d) as [[]|]; try (intros [= <-]; done);
    intros (f & Hf & [= <-])%result_bind_ok; by eapply nonneg_gate.
Qed.

Definition gates_of (g : GatesRequest) : RegressionGates :=
  {| max_quality_regression_points := NFloat (gr_quality g);
     max_latency_regression_percent := NFloat <$> gr_latency g;
     max_cost_regression_percent := NFloat <$> gr_cost g |}.
Lemma gates_of_dump g :
  gates_valid (gates_of g) = true → gates_of_json (JObj (gates_dump g)) = Ok (gates_of g).
Proof.
  intros Hg. assert (gates_of_json (JObj (gates_dump g)) = mk_gates (gates_of g)) as -> by (by destruct g as [q [l|] [c|]]).
  unfold mk_gates. by rewrite Hg.
Qed.

Lemma gates_request_valid v g : gates_validate v = Ok g → gates_valid (gates_of g) = true.
Proof.
  unfold gates_validate. intros (d & _ & (? & _ & Hg)%result_bind_ok)%result_bind_ok.
  apply result_bind_ok in Hg as (q & Hq & (l & Hl & (c & Hc & [= <-])%result_bind_ok)%result_bind_ok).
  unfold gates_valid, gates_of. cbn [max_quality_regression_points max_latency_regression_percent
    max_cost_regression_percent gr_quality gr_latency gr_cost].
  rewrite (opt_gate _ _ _ Hl), (opt_gate _ _ _ Hc), !andb_true_r.
  destruct (dget "max_quality_regression_points" d); [by eapply nonneg_gate|by injection Hq as <-].
Qed.

Lemma request_gates v r : EvaluationRegressionRequest_validate check_schema v = Ok r → gates_valid (gates_of (rq_gates r)) = true.
Proof.
  unfold EvaluationRegressionRequest_validate. intros Hv.
  do 10 apply result_bind_ok in Hv as (? & ? & Hv). injection Hv as <-. cbn [rq_gates].
  match goal with Hg : match dget "gates" _ with _ => _ end = Ok _ |- _ => revert Hg end.
  destruct (dget "gates" _); [apply gates_request_valid|by intros [= <-]].
Qed.

(** (C32) A regression the API accepts is one the worker can start: the job it stores for a new
    request is a regression job whose payload the worker, under the same settings, parses to
    the dataset, targets and gates it runs, within the case limit and the call budget. *)
Theorem admitted_regression_is_executable tx id body key d ja d' :
  handle_regression settings check_schema tx id body key d = (inl ja, d') → ja_replayed ja = false →
  ∃ run ds b c g,
    runs d' !! ja_id ja = Some run ∧ Run.work_kind run = wk_regression ∧ Run.execution_status run = QUEUED
    ∧ regression_job settings (regression_provider_call_budget settings) (Run.input_payload run) = Ok (ds, b, c, g)
    ∧ 2 * len (cases ds) ≤ regression_provider_call_budget settings.
Proof.
  unfold handle_regression, regression_args, transact.
  match goal with |- context [match ?pre with _ => _ end] => destruct pre as [[[[pl t] pr] k]|] eqn:E end; [|done].
  apply bind_inl in E as (p & Hp%or_raise_inl & E). apply bind_inl in E as (? & _ & E).
  apply bind_inl in E as (t0 & _ & E). apply bind_inl in E as (? & Hsize & E). apply bind_inl in E as (k0 & _ & E).
  apply bind_inl in E as (? & Hcheck%or_raise_inl & E). apply bind_inl in E as (pr0 & _ & E).
  apply bind_inl in E as (k1 & _ & E). injection E as <- <- <- <-.
  destruct (svc_submit_regression _ _ _ _ _ _) as [r d0] eqn:Es. destruct r as [[s b]|]; [|done].
  intros [= <- <-]. cbn. intros ->.
  apply submit_inv in Es as [(? & _ & _ & _ & ? & _)|(run & _ & Hcr & -> & _)]; [done|].
  apply create_run_ok in Hcr as (-> & _ & Hr & _).
  destruct (_ && _) eqn:Esz in Hsize; [|done]. bool_to_prop.
  unfold check_regression in Hcheck.
  apply result_bind_ok in Hcheck as (ds & Hds & (tb & Hb & (tc & Hc & _)%result_bind_ok)%result_bind_ok).
  pose proof (from_dump_length _ _ Hds) as Hlen.
  eexists _, ds, tb, tc, (gates_of (rq_gates p)). split; [rewrite Hr; apply lookup_insert_eq|].
  split; [done|]. split; [done|]. split; [|lia]. cbn [Run.input_payload new_run].
  unfold regression_job, item. cbn [request_dump].
  change (dget "dataset" (request_dump p)) with (Some (JObj (dataset_dump p))).
  change (dget "baseline" (request_dump p)) with (Some (JObj (target_dump (rq_baseline p)))).
  change (dget "candidate" (request_dump p)) with (Some (JObj (target_dump (rq_candidate p)))).
  change (dget_or "gates" (JObj []) (request_dump p)) with (JObj (gates_dump (rq_gates p))).
  cbn [mbind result_bind stored_object]. rewrite Hds. cbn [mbind result_bind].
  rewrite Hlen, (proj2 (Z.leb_le _ _)), (proj2 (Z.leb_le _ _)) by lia. cbn [andb raise_unless mbind result_bind].
  rewrite (target_of_dump (rq_baseline p)), Hb. cbn [mbind result_bind].
  rewrite (target_of_dump (rq_candidate p)), Hc. cbn [mbind result_bind].
  rewrite (gates_of_dump _ (request_gates _ _ Hp)). done.
Qed.
End Regressions.

(** ** Requests against an empty database *)

Definition demo_pydantic : Pydantic := {|
  lax_int := λ v, match v with JNum (NInt z) => Some z | _ => None end;
  lax_float := λ v, match v with JNum (NFloat f) => Some f | _ => None end;
  dump_size := λ _, 0;
|}.
Definition demo_service : RunSubmissionService db := sql_service (H := demo_host) sample_settings (λ _, true).
#[local] Existing Instance demo_service.
Definition demo_identity : Identity := {| id_tenant := Some "acme"; id_principal := Some "alice" |}.
Definition api_tx : Tx := {| tx_now := 0; tx_epoch := 0; tx_trace := [] |}.
Definition demo_regression : json :=
  JObj [("dataset", JObj [("dataset_id", JStr "smoke"); ("version", JStr "1");
           ("cases", JArr [JObj [("case_id", JStr "a"); ("input", JObj [("prompt", JStr "hi")]);
                                 ("rules", JArr [JObj [("type", JStr "non_empty")]])]])]);
        ("baseline", JObj [("provider", JStr "deterministic")]);
        ("candidate", JObj [("provider", JStr "deterministic")])].
Definition demo_submission : outcome JobAccepted * db :=
  handle_regression (H := demo_host) (H0 := demo_pydantic) sample_settings (λ _, true) api_tx demo_identity
    demo_regression (Some "regression-1") empty_db.

Lemma admitted_regression_is_executable_witness :
  ∃ ja d run, demo_submission = (inl ja, d) ∧ runs d !! ja_id ja = Some run ∧ Run.work_kind run = wk_regression.
Proof.
  assert (match fst demo_submission with inl ja => ja_replayed ja = false | inr _ => False end) as Hok by (by vm_compute).
  destruct demo_submission as [[ja|] d] eqn:E; [|done].
  destruct (admitted_regression_is_executable (H := demo_host) (H0 := demo_pydantic) sample_settings (λ _, true)
    api_tx demo_identity demo_regression (Some "regression-1") empty_db ja d E Hok) as (run & _ & _ & _ & _ & Hr & Hk & _).
  by exists ja, d, run.
Defined.

Lemma api_answers_well_typed_witness :
  ∃ r, fst (call_app (H := demo_host) (H0 := demo_pydantic) sample_settings (λ _, true) api_tx demo_identity None
              (GetRun 1%N) empty_db) = Ok r ∧ (ap_status r, "RUN_NOT_FOUND") ∈ declared_errors (GetRun 1%N).
Proof.
  eexists. split; [reflexivity|].
  destruct (api_answers_well_typed (H := demo_host) (H0 := demo_pydantic) sample_settings (λ _, true)
    (contract := sql_contract (H := demo_host) (from_settings sample_settings) (attempt_timeout sample_settings) (λ _, true))
    (evaluate_request_rules (H := demo_pydantic) (λ _, true)) api_tx demo_identity
    None (GetRun 1%N) empty_db _ eq_refl) as [[Hs _]|(c & Hc & Hin)]; [by vm_compute in Hs|]. injection Hc as <-. exact Hin.
Defined.

Definition demo_post : Request :=
  {| req_method := "POST"; req_path := "/v1/evaluation-regressions"; req_client_ids := [];
     req_x_api_key := Some demo_issued.1; req_authorization := None |}.
Definition demo_exchange : Exchange * db :=
  http_exchange (H := demo_host) (H0 := demo_pydantic) (H1 := demo_crypto) sample_settings (λ _, true) demo_registry
    open_limiter (λ _, true) (seconds 50) api_tx demo_post (RunEvaluationRegression demo_regression (Some "regression-1"))
    empty_db.

Lemma api_confined_to_tenant_witness :
  ∃ x d r, demo_exchange = (x, d) ∧ handled x = Some demo_identity ∧ confined (CredentialRecord.tenant_id r) empty_db d.
Proof.
  assert (handled (fst demo_exchange) = Some demo_identity) as Hh by (by vm_compute).
  destruct demo_exchange as [x d] eqn:E.
  destruct (api_confined_to_tenant (H := demo_host) (H0 := demo_pydantic) sample_settings (λ _, true) (H1 := demo_crypto)
    demo_registry open_limiter (λ _, true) (seconds 50) api_tx demo_post
    (RunEvaluationRegression demo_regression (Some "regression-1")) empty_db x d)
    as [[Hn _]|(r & id & _ & _ & Hc & _)]; [done|by vm_compute|apply db_wf_empty|exact E|..].
  - cbn in Hh. by rewrite Hn in Hh.
  - by exists x, d, r.
Defined.
