(* ===== verification/Client.v ===== *)
(** * The Python client

    [src/src/agent_runtime/client.py]: the synchronous client of the API.  Its methods run on a
    [Platform]: the HTTP transport, the monotonic clock, [time.sleep] and the random source act on
    a state [W] that the client threads through.  A method returns its value or raises. *)

From S2P Require Import Prelude Float64 PyValue States Routing Retry Models Quotas Canonical Base64 Safety.
From S2P Require Import Engine Telemetry Credentials Settings RateLimiter Boundary RunService RunPort ExecutionService.
From S2P Require Import Providers Messaging Regression RunnerLemmas ResourceExecutor Schemas Api ApiTheorems.
Local Open Scope Z_scope.

(** ** Requests and responses on the wire *)

Record wire_request := {
  w_method : string; w_url : string; w_headers : gmap string string; w_json : option json;
}.
(** [response.json()] is [None] when the body is not JSON. *)
Record wire_response := { wr_status : Z; wr_json : option json; wr_next_cursor : option string }.

(** [AgentRuntimeTransportError], [AgentRuntimeApiError], [ValueError] and [TimeoutError]. *)
Inductive client_exn :=
| TransportError (msg : string)
| ApiError (status_code : Z) (code message : string)
| ClientValueError (msg : string)
| ClientTimeout.

(** [http] answers [None] when httpx raises [HTTPError]. *)
Class Platform (W : Type) := {
  http : wire_request → W → option wire_response * W;
  monotonic : W → f64 * W;
  sleep : num → W → W;
  uuid4_hex : W → string * W;
}.

(** ** The client's objects *)

Definition TERMINAL_STATUSES : list string := ["SUCCEEDED"; "FAILED"; "DEAD_LETTERED"].

Record SubmittedRun := {
  sr_run_id : uuid; sr_execution_status : string; sr_replayed : bool; sr_idempotency_key : string;
  sr_routing_decision : option dict;
}.
Record RunDetails := {
  rd_run_id : uuid; rd_execution_status : string; rd_evaluation_status : string;
  rd_error_code : option string; rd_routing_decision : option dict; rd_raw : dict;
}.
Definition is_terminal (r : RunDetails) : bool := bool_decide (rd_execution_status r ∈ TERMINAL_STATUSES).
Record ReplayedRun := {
  rl_run_id : uuid; rl_execution_status : string; rl_replay_of_run_id : uuid; rl_replayed : bool;
  rl_idempotency_key : string;
}.
Record HistoryPage := { hp_items : list dict; hp_next_cursor : option string }.

Record client := { base_url : string; cl_client_id : string; cl_api_key : option string; owns_http_client : bool }.

Definition mk_client (url client_id : string) (api_key : option string) (timeout_seconds : num) (given : bool)
    : client + client_exn :=
  if negb (Text.nonblank client_id) then inr (ClientValueError "client_id must be a non-empty string")
  else if num_le timeout_seconds (NInt 0) then inr (ClientValueError "timeout_seconds must be positive")
  else inl {| base_url := rstrip_slash url; cl_client_id := client_id; cl_api_key := api_key;
              owns_http_client := negb given |}.

(** ** Reading a response *)

Abbreviation answer A := (A + client_exn)%type.
Definition answer_bind {A B} (m : answer A) (f : A → answer B) : answer B :=
  match m with inl a => f a | inr e => inr e end.
Local Notation "x <~ m ; k" := (answer_bind m (λ x, k)) (at level 100, m at next level, right associativity).

Definition _api_error (r : wire_response) : client_exn :=
  let '(code, message) :=
    match wr_json r with
    | Some (JObj payload) =>
        match dget "error" payload with
        | Some (JObj error) =>
            (match dget "code" error with Some (JStr s) => s | _ => "HTTP_ERROR" end,
             match dget "message" error with Some (JStr s) => s | _ => "API request failed" end)
        | _ => ("HTTP_ERROR", "API request failed")
        end
    | _ => ("HTTP_ERROR", "API request failed")
    end in
  ApiError (wr_status r) code message.

Section Parsers.
Context `{Host} (payload : dict).

Definition _string (field : string) : answer string :=
  match dget field payload with
  | Some (JStr s) => inl s
  | _ => inr (TransportError ("API response was missing string " +:+ field))
  end.
Definition _uuid (field : string) : answer uuid :=
  value <~ _string field;
  match uuid_parse value with
  | Some u => inl u
  | None => inr (TransportError ("API response had an invalid " +:+ field))
  end.
Definition _boolean (field : string) : answer bool :=
  match dget field payload with
  | Some (JBool b) => inl b
  | _ => inr (TransportError ("API response was missing boolean " +:+ field))
  end.
Definition _optional_string (field : string) : answer (option string) :=
  match dget field payload with
  | None | Some JNull => inl None
  | Some (JStr s) => inl (Some s)
  | Some _ => inr (TransportError ("API response had invalid " +:+ field))
  end.
Definition _optional_object (field : string) : answer (option dict) :=
  match dget field payload with
  | None | Some JNull => inl None
  | Some (JObj d) => inl (Some d)
  | Some _ => inr (TransportError ("API response had invalid " +:+ field))
  end.

Definition submitted_run (key : string) : answer SubmittedRun :=
  run_id <~ _uuid "run_id";
  execution_status <~ _string "execution_status";
  replayed <~ _boolean "replayed";
  routing_decision <~ _optional_object "routing_decision";
  inl {| sr_run_id := run_id; sr_execution_status := execution_status; sr_replayed := replayed;
         sr_idempotency_key := key; sr_routing_decision := routing_decision |}.
Definition run_details : answer RunDetails :=
  run_id <~ _uuid "run_id";
  execution_status <~ _string "execution_status";
  evaluation_status <~ _string "evaluation_status";
  error_code <~ _optional_string "error_code";
  routing_decision <~ _optional_object "routing_decision";
  inl {| rd_run_id := run_id; rd_execution_status := execution_status; rd_evaluation_status := evaluation_status;
         rd_error_code := error_code; rd_routing_decision := routing_decision; rd_raw := payload |}.
Definition replayed_run (key : string) : answer ReplayedRun :=
  run_id <~ _uuid "run_id";
  execution_status <~ _string "execution_status";
  replay_of_run_id <~ _uuid "replay_of_run_id";
  replayed <~ _boolean "replayed";
  inl {| rl_run_id := run_id; rl_execution_status := execution_status; rl_replay_of_run_id := replay_of_run_id;
         rl_replayed := replayed; rl_idempotency_key := key |}.
End Parsers.

(** [urllib.parse.quote_plus]. *)
Definition unreserved (c : Ascii.ascii) : bool := is_letter_digit c || bool_decide (Text.code c ∈ [95; 46; 45; 126]).
Definition hex_upper (n : Z) : Ascii.ascii := byte (if n <? 10 then 48 + n else 55 + n).
Definition percent (c : Ascii.ascii) : chars := [byte 37; hex_upper (Text.code c / 16); hex_upper (Text.code c mod 16)].
Definition quote_plus (s : string) : string :=
  Text.of_list (utf8 (Text.to_list s) ≫= λ c,
    if unreserved c then [c] else if Text.code c =? 32 then [byte 43] else percent c).
Definition urlencode (params : list (string * string)) : string :=
  String.concat "&" (map (λ kv, quote_plus kv.1 +:+ "=" +:+ quote_plus kv.2) params).

(** ** The methods *)

Section Client.
Context `{Host} {W : Type} `{Platform W} (cl : client).

Definition own_headers : gmap string string :=
  match cl_api_key cl with
  | Some key => {["X-Client-Id" := cl_client_id cl; "X-API-Key" := key]}
  | None => {["X-Client-Id" := cl_client_id cl]}
  end.
Definition _send (method path : string) (headers : gmap string string) (body : option json) (w : W)
    : answer wire_response * W :=
  match http {| w_method := method; w_url := base_url cl +:+ path; w_headers := headers ∪ own_headers; w_json := body |} w with
  | (None, w') => (inr (TransportError "API request could not be completed"), w')
  | (Some r, w') => (if is_error_status (wr_status r) then inr (_api_error r) else inl r, w')
  end.

Definition json_object (r : wire_response) : answer dict :=
  match wr_json r with
  | None => inr (TransportError "API response was not JSON")
  | Some (JObj payload) => inl payload
  | Some _ => inr (TransportError "API response was not an object")
  end.
Definition json_objects (r : wire_response) : answer (list dict) :=
  match wr_json r with
  | None => inr (TransportError "API response was not JSON")
  | Some (JArr l) =>
      match all_objects l with
      | Some items => inl items
      | None => inr (TransportError "API response was not an object list")
      end
  | Some _ => inr (TransportError "API response was not an object list")
  end.

(** A request whose response is read by [read]. *)
Definition exchange {A} (method path : string) (headers : gmap string string) (body : option json)
    (read : wire_response → answer A) (w : W) : answer A * W :=
  let '(r, w') := _send method path headers body w in (response <~ r; read response, w').
Definition _request (method path : string) (headers : gmap string string) (body : option json)
    : W → answer dict * W :=
  exchange method path headers body json_object.
Definition _request_list (method path : string) : W → answer (list dict) * W :=
  exchange method path ∅ None json_objects.

(** [idempotency_key or f"{prefix}{uuid.uuid4().hex}"]. *)
Definition key_or (prefix : string) (key : option string) (w : W) : string * W :=
  match key with
  | Some k => if bool_decide (k = "") then let '(hex, w') := uuid4_hex w in (prefix +:+ hex, w') else (k, w)
  | None => let '(hex, w') := uuid4_hex w in (prefix +:+ hex, w')
  end.

Definition string_items (payload : dict) : list (string * string) :=
  omap (λ kv, match kv.2 with JStr s => Some (kv.1, s) | _ => None end) payload.
Definition client_healthz (w : W) : answer (list (string * string)) * W :=
  let '(r, w') := _request "GET" "/healthz" ∅ None w in (payload <~ r; inl (string_items payload), w').

Definition client_run (input_payload : dict) (policy : option dict) (idempotency_key : option string) (w : W)
    : answer SubmittedRun * W :=
  let '(key, w1) := key_or "sdk-" idempotency_key w in
  let '(r, w2) := _request "POST" "/v1/runs" {["Idempotency-Key" := key]}
      (Some (JObj [("input", JObj input_payload); ("policy", JObj (default [] policy))])) w1 in
  (payload <~ r; submitted_run payload key, w2).

Definition client_get_run (run_id : string) (w : W) : answer RunDetails * W :=
  let '(r, w') := _request "GET" ("/v1/runs/" +:+ run_id) ∅ None w in (payload <~ r; run_details payload, w').
Definition client_get_attempts (run_id : string) : W → answer (list dict) * W :=
  _request_list "GET" ("/v1/runs/" +:+ run_id +:+ "/attempts").
Definition client_get_events (run_id : string) : W → answer (list dict) * W :=
  _request_list "GET" ("/v1/runs/" +:+ run_id +:+ "/events").

Definition history_params (limit : Z) (cursor : option uuid) : list (string * string) :=
  ("limit", Text.of_list (int_repr limit)) ::
  match cursor with Some c => [("cursor", uuid_str c)] | None => [] end.
Definition get_history_page (run_id resource : string) (limit : Z) (cursor : option string) (w : W)
    : answer HistoryPage * W :=
  if negb (bool_decide (resource ∈ ["attempts"; "events"; "evaluations"]))
  then (inr (ClientValueError "Unsupported history resource"), w)
  else if negb ((1 <=? limit) && (limit <=? 100))
  then (inr (ClientValueError "limit must be between 1 and 100"), w)
  else
    match match cursor with
          | None => Some None
          | Some c => Some <$> uuid_parse c
          end with
    | None => (inr (ClientValueError "badly formed hexadecimal UUID string"), w)
    | Some cursor =>
        exchange "GET"
          ("/v1/runs/" +:+ run_id +:+ "/" +:+ resource +:+ "?" +:+ urlencode (history_params limit cursor)) ∅ None
          (λ r, items <~ json_objects r; inl {| hp_items := items; hp_next_cursor := wr_next_cursor r |}) w
    end.

Definition client_get_job (job_id : string) : W → answer dict * W :=
  _request "GET" ("/v1/jobs/" +:+ job_id) ∅ None.

Definition client_replay (run_id : string) (idempotency_key : option string) (w : W) : answer ReplayedRun * W :=
  let '(key, w1) := key_or "sdk-replay-" idempotency_key w in
  let '(r, w2) := _request "POST" ("/v1/runs/" +:+ run_id +:+ "/replay") {["Idempotency-Key" := key]} None w1 in
  (payload <~ r; replayed_run payload key, w2).

(** The [while True] loop of [wait_for_terminal]; [None] when the fuel runs out. *)
Fixpoint wait_loop (fuel : nat) (run_id : string) (deadline poll_seconds : f64) (w : W)
    : option (answer RunDetails * W) :=
  match fuel with
  | O => None
  | S fuel =>
      let '(r, w1) := client_get_run run_id w in
      match r with
      | inr e => Some (inr e, w1)
      | inl run =>
          if is_terminal run then Some (inl run, w1)
          else
            let '(now, w2) := monotonic w1 in
            if num_le (NFloat deadline) (NFloat now) then Some (inr ClientTimeout, w2)
            else
              let '(now', w3) := monotonic w2 in
              wait_loop fuel run_id deadline poll_seconds
                (sleep (num_min (NFloat poll_seconds) (num_max (NInt 0) (NFloat (f64_sub deadline now')))) w3)
      end
  end.
Definition wait_for_terminal (fuel : nat) (run_id : string) (timeout_seconds poll_seconds : f64) (w : W)
    : option (answer RunDetails * W) :=
  if num_le (NFloat timeout_seconds) (NInt 0) || num_le (NFloat poll_seconds) (NInt 0)
  then Some (inr (ClientValueError "timeout_seconds and poll_seconds must be positive"), w)
  else let '(now, w1) := monotonic w in wait_loop fuel run_id (f64_add now timeout_seconds) poll_seconds w1.
End Client.

(** ** The wire format of the API

    FastAPI serializes the response models of [api/schemas.py]: identifiers and enumerations as
    text, instants as ISO 8601 text ([iso]), absent values as [null].  [message] and [details] are
    the rest of an error body, which the model of the API leaves out. *)

Section Wire.
Context `{Host} (iso : time → string) (message : string → string) (details : string → dict).

Definition id_json (u : uuid) : json := JStr (uuid_str u).
Definition time_json (t : time) : json := JStr (iso t).

Definition created_json (b : CreateRunResponse) : dict :=
  [("run_id", id_json (cr_run b)); ("execution_status", JStr (status_value (cr_status b)));
   ("replayed", JBool (cr_replayed b)); ("routing_decision", opt_json JObj (cr_routing_decision b))].
Definition run_json (b : RunResponse) : dict :=
  [("run_id", id_json (rr_run_id b)); ("execution_status", JStr (status_value (rr_execution_status b)));
   ("evaluation_status", JStr (evaluation_value (rr_evaluation_status b)));
   ("created_at", time_json (rr_created_at b)); ("started_at", opt_json time_json (rr_started_at b));
   ("completed_at", opt_json time_json (rr_completed_at b));
   ("replay_of_run_id", opt_json id_json (rr_replay_of_run_id b));
   ("error_code", opt_json JStr (rr_error_code b)); ("routing_decision", opt_json JObj (rr_routing_decision b))].
Definition attempt_json (a : AttemptSnapshot) : dict :=
  [("attempt_id", id_json (as_id a)); ("attempt_number", JNum (NInt (as_attempt_number a)));
   ("provider", JStr (as_provider a)); ("started_at", time_json (as_started_at a));
   ("finished_at", opt_json time_json (as_finished_at a)); ("outcome", opt_json JStr (as_outcome a));
   ("error_code", opt_json JStr (as_error_code a)); ("retryable", opt_json JBool (as_retryable a));
   ("latency_ms", opt_json (λ z, JNum (NInt z)) (as_latency_ms a))].
Definition event_json (e : EventSnapshot) : dict :=
  [("event_id", id_json (es_id e)); ("attempt_id", opt_json id_json (es_attempt_id e));
   ("event_type", JStr (es_event_type e)); ("metadata", opt_json JObj (es_metadata e));
   ("created_at", time_json (es_created_at e))].
Definition evaluation_json (v : EvaluationSnapshot) : dict :=
  [("evaluation_id", id_json (vs_id v)); ("evaluator", JStr (vs_evaluator v));
   ("status", JStr (evaluation_value (vs_status v))); ("score", opt_json (λ f, JNum (NFloat f)) (vs_score v));
   ("result", opt_json JObj (vs_result v)); ("details", opt_json JObj (vs_details v));
   ("created_at", time_json (vs_created_at v)); ("completed_at", opt_json time_json (vs_completed_at v))].
Definition accepted_json (b : JobAccepted) : dict :=
  [("job_id", id_json (ja_id b)); ("execution_status", JStr (status_value (ja_status b)));
   ("replayed", JBool (ja_replayed b)); ("status_url", JStr ("/v1/jobs/" +:+ uuid_str (ja_id b)))].
Definition job_json (b : JobResponse) : dict :=
  [("job_id", id_json (jb_id b)); ("execution_status", JStr (status_value (jb_status b)));
   ("result", opt_json JObj (jb_result b)); ("error_code", opt_json JStr (jb_error_code b))].
Definition replay_json (b : ReplayRunResponse) : dict :=
  [("run_id", id_json (rp_run_id b)); ("execution_status", JStr (status_value (rp_status b)));
   ("replay_of_run_id", id_json (rp_replay_of_run_id b)); ("replayed", JBool (rp_replayed b))].
Definition error_json (code : string) : dict :=
  [("error", JObj ([("code", JStr code); ("message", JStr (message code))] ++ details code))].

Definition body_json (b : ApiBody) : json :=
  match b with
  | HealthBody => JObj [("status", JStr "ok"); ("service", JStr "api")]
  | CreatedBody b => JObj (created_json b)
  | RunBody b => JObj (run_json b)
  | AttemptsBody l => JArr (JObj <$> (attempt_json <$> l))
  | EventsBody l => JArr (JObj <$> (event_json <$> l))
  | EvaluationBody v => JObj (evaluation_json v)
  | EvaluationsBody l => JArr (JObj <$> (evaluation_json <$> l))
  | JobAcceptedBody b => JObj (accepted_json b)
  | JobBody b => JObj (job_json b)
  | ReplayBody b => JObj (replay_json b)
  | ErrorBody code => JObj (error_json code)
  end.
Definition serialize (r : ApiResponse) : wire_response :=
  {| wr_status := ap_status r; wr_json := Some (body_json (ap_body r)); wr_next_cursor := uuid_str <$> ap_next_cursor r |}.

(** ** Calls, the requests they send and the values they stand for *)

Inductive history_resource := Attempts | Events | Evaluations.
Definition resource_text (x : history_resource) : string :=
  match x with Attempts => "attempts" | Events => "events" | Evaluations => "evaluations" end.

Inductive client_call :=
| CallHealthz
| CallRun (input : dict) (policy : option dict) (key : option string)
| CallGetRun (run_id : uuid)
| CallGetAttempts (run_id : uuid)
| CallGetEvents (run_id : uuid)
| CallHistory (run_id : uuid) (resource : history_resource) (limit : Z) (cursor : option uuid)
| CallGetJob (job_id : uuid)
| CallReplay (run_id : uuid) (key : option string).

Inductive client_value :=
| VHealth (l : list (string * string))
| VSubmitted (r : SubmittedRun)
| VRun (r : RunDetails)
| VItems (l : list dict)
| VPage (p : HistoryPage)
| VJob (d : dict)
| VReplay (r : ReplayedRun).

(** The routed request of a call: what the routes of the API make of it. *)
Definition run_body (input : dict) (policy : option dict) : json :=
  JObj [("input", JObj input); ("policy", JObj (default [] policy))].
Definition endpoint_of (c : client_call) (key : string) : endpoint :=
  match c with
  | CallHealthz => Healthz
  | CallRun input policy _ => CreateRun (run_body input policy) (Some key)
  | CallGetRun u => GetRun u
  | CallGetAttempts u => GetAttempts u 50 None
  | CallGetEvents u => GetEvents u 50 None
  | CallHistory u Attempts l c => GetAttempts u l c
  | CallHistory u Events l c => GetEvents u l c
  | CallHistory u Evaluations l c => GetEvaluations u l c
  | CallGetJob u => GetJob u
  | CallReplay u _ => ReplayRun u (Some key)
  end.

(** The value of a successful answer. *)
Definition understood (c : client_call) (key : string) (r : ApiResponse) : client_value :=
  match ap_body r with
  | CreatedBody b =>
      VSubmitted {| sr_run_id := cr_run b; sr_execution_status := status_value (cr_status b);
                    sr_replayed := cr_replayed b; sr_idempotency_key := key; sr_routing_decision := cr_routing_decision b |}
  | RunBody b =>
      VRun {| rd_run_id := rr_run_id b; rd_execution_status := status_value (rr_execution_status b);
              rd_evaluation_status := evaluation_value (rr_evaluation_status b); rd_error_code := rr_error_code b;
              rd_routing_decision := rr_routing_decision b; rd_raw := run_json b |}
  | ReplayBody b =>
      VReplay {| rl_run_id := rp_run_id b; rl_execution_status := status_value (rp_status b);
                 rl_replay_of_run_id := rp_replay_of_run_id b; rl_replayed := rp_replayed b; rl_idempotency_key := key |}
  | JobBody b => VJob (job_json b)
  | AttemptsBody _ | EventsBody _ | EvaluationsBody _ =>
      let items := match ap_body r with
                   | AttemptsBody l => attempt_json <$> l | EventsBody l => event_json <$> l
                   | EvaluationsBody l => evaluation_json <$> l | _ => [] end in
      match c with
      | CallHistory _ _ _ _ => VPage {| hp_items := items; hp_next_cursor := uuid_str <$> ap_next_cursor r |}
      | _ => VItems items
      end
  | _ => VHealth [("status", "ok"); ("service", "api")]
  end.

Context {W : Type} `{Platform W} (cl : client).

Definition tagged {A} (f : A → client_value) (x : answer A * W) : answer client_value * W :=
  (a <~ fst x; inl (f a), snd x).
Definition perform (c : client_call) (w : W) : answer client_value * W :=
  match c with
  | CallHealthz => tagged VHealth (client_healthz cl w)
  | CallRun input policy key => tagged VSubmitted (client_run cl input policy key w)
  | CallGetRun u => tagged VRun (client_get_run cl (uuid_str u) w)
  | CallGetAttempts u => tagged VItems (client_get_attempts cl (uuid_str u) w)
  | CallGetEvents u => tagged VItems (client_get_events cl (uuid_str u) w)
  | CallHistory u x l cur => tagged VPage (get_history_page cl (uuid_str u) (resource_text x) l (uuid_str <$> cur) w)
  | CallGetJob u => tagged VJob (client_get_job cl (uuid_str u) w)
  | CallReplay u key => tagged VReplay (client_replay cl (uuid_str u) key w)
  end.

(** The key of a call, drawn when the caller gave none. *)
Definition key_of (c : client_call) (w : W) : string * W :=
  match c with
  | CallRun _ _ key => key_or "sdk-" key w
  | CallReplay _ key => key_or "sdk-replay-" key w
  | _ => ("", w)
  end.
Definition path_of (c : client_call) : string :=
  match c with
  | CallHealthz => "/healthz"
  | CallRun _ _ _ => "/v1/runs"
  | CallGetRun u => "/v1/runs/" +:+ uuid_str u
  | CallGetAttempts u => "/v1/runs/" +:+ uuid_str u +:+ "/attempts"
  | CallGetEvents u => "/v1/runs/" +:+ uuid_str u +:+ "/events"
  | CallHistory u x l cur =>
      "/v1/runs/" +:+ uuid_str u +:+ "/" +:+ resource_text x +:+ "?" +:+ urlencode (history_params l cur)
  | CallGetJob u => "/v1/jobs/" +:+ uuid_str u
  | CallReplay u _ => "/v1/runs/" +:+ uuid_str u +:+ "/replay"
  end.
Definition sent (c : client_call) (key : string) : wire_request :=
  let idempotency : gmap string string :=
    match c with CallRun _ _ _ | CallReplay _ _ => {["Idempotency-Key" := key]} | _ => ∅ end in
  {| w_method := match c with CallRun _ _ _ | CallReplay _ _ => "POST" | _ => "GET" end;
     w_url := base_url cl +:+ path_of c;
     w_headers := idempotency ∪ own_headers cl;
     w_json := match c with CallRun input policy _ => Some (run_body input policy) | _ => None end |}.

(** ** The client understands the API *)

Context `{!Pydantic} (settings : Settings) (check_schema : json → bool).
Context {S : Type} `{contract : RunServiceContract S rules_ok}.
Context (Hrules : ∀ v rules, EvaluateRunRequest_validate check_schema v = Ok rules → rules_ok rules).

Lemma all_objects_map (l : list dict) : all_objects (JObj <$> l) = Some l.
Proof. unfold all_objects. induction l as [|d l IH]; [done|]. cbn. cbn in IH. by rewrite IH. Qed.

Lemma declared_error_status e status code : (status, code) ∈ declared_errors e → is_error_status status = true.
Proof.
  destruct e; cbn [declared_errors app]; rewrite ?elem_of_cons, ?elem_of_nil; intros Hin;
    destruct_or?; simplify_eq; done.
Qed.

(** A request that was answered is read from the serialized answer. *)
Lemma exchange_answered {A} method path headers body (read : wire_response → answer A) r w w' :
  http {| w_method := method; w_url := base_url cl +:+ path; w_headers := headers ∪ own_headers cl; w_json := body |} w
    = (Some r, w') →
  exchange cl method path headers body read w = (if is_error_status (wr_status r) then inr (_api_error r) else read r, w').
Proof. intros Hh. unfold exchange, _send. rewrite Hh. by destruct (is_error_status _). Qed.

(** What a call makes of a successful response. *)
Definition read_value (c : client_call) (key : string) (x : wire_response) : answer client_value :=
  match c with
  | CallHealthz => p <~ json_object x; inl (VHealth (string_items p))
  | CallRun _ _ _ => p <~ json_object x; r <~ submitted_run p key; inl (VSubmitted r)
  | CallGetRun _ => p <~ json_object x; r <~ run_details p; inl (VRun r)
  | CallGetAttempts _ | CallGetEvents _ => l <~ json_objects x; inl (VItems l)
  | CallHistory _ _ _ _ => l <~ json_objects x; inl (VPage {| hp_items := l; hp_next_cursor := wr_next_cursor x |})
  | CallGetJob _ => p <~ json_object x; inl (VJob p)
  | CallReplay _ _ => p <~ json_object x; r <~ replayed_run p key; inl (VReplay r)
  end.

Definition call_ok (c : client_call) : Prop := match c with CallHistory _ _ l _ => 1 ≤ l ≤ 100 | _ => True end.

Lemma perform_answered c w key w1 x w2 :
  call_ok c → key_of c w = (key, w1) → http (sent c key) w1 = (Some x, w2) →
  perform c w = (if is_error_status (wr_status x) then inr (_api_error x) else read_value c key x, w2).
Proof.
  intros Hok Hk Hh. destruct c as [|input policy k|u|u|u|u y l cur|u|u k]; cbn in Hk.
  2: unfold perform, client_run; rewrite Hk; unfold _request;
    rewrite (exchange_answered _ _ _ _ _ x _ w2) by exact Hh; destruct (is_error_status _); [done|]; cbn;
    destruct (json_object x) as [p|]; [|done]; cbn; by destruct (submitted_run p key).
  7: unfold perform, client_replay; rewrite Hk; unfold _request;
    rewrite (exchange_answered _ _ _ _ _ x _ w2) by exact Hh; destruct (is_error_status _); [done|]; cbn;
    destruct (json_object x) as [p|]; [|done]; cbn; by destruct (replayed_run p key).
  all: injection Hk as <- <-; unfold perform, client_healthz, client_get_run, client_get_attempts, client_get_events,
    client_get_job, _request_list, _request.
  5: { unfold get_history_page. rewrite bool_decide_eq_true_2 by (destruct y; set_solver).
    destruct Hok as [Hlo%Z.leb_le Hhi%Z.leb_le]. rewrite Hlo, Hhi. cbn [negb andb].
    replace (match uuid_str <$> cur with Some c => Some <$> uuid_parse c | None => Some None end) with (Some cur)
      by (destruct cur; cbn; [by rewrite uuid_parse_str|done]).
    rewrite (exchange_answered _ _ _ _ _ x _ w2) by exact Hh.
    destruct (is_error_status _); [done|]. cbn. by destruct (json_objects x). }
  all: rewrite (exchange_answered _ _ _ _ _ x _ w2) by exact Hh; destruct (is_error_status _); [done|]; cbn;
    try (destruct (json_object x) as [p|]; [|done]; cbn); try (by destruct (json_objects x)); try done.
Qed.

Lemma api_error_serialized r code :
  ap_body r = ErrorBody code → _api_error (serialize r) = ApiError (ap_status r) code (message code).
Proof. unfold _api_error, serialize. cbn [wr_json wr_status]. by intros ->. Qed.

(** Looks the fields of a literal object up. *)
Ltac read_fields :=
  unfold _uuid, _string, _boolean, _optional_string, _optional_object; cbn [dget created_json run_json replay_json];
  repeat match goal with |- context [bool_decide (?a = ?b)] =>
    let v := eval vm_compute in (bool_decide (a = b)) in change (bool_decide (a = b)) with v end;
  cbn; rewrite ?uuid_parse_str; cbn.
Lemma submitted_created b key :
  submitted_run (created_json b) key =
    inl {| sr_run_id := cr_run b; sr_execution_status := status_value (cr_status b);
           sr_replayed := cr_replayed b; sr_idempotency_key := key; sr_routing_decision := cr_routing_decision b |}.
Proof. unfold submitted_run. read_fields. by destruct (cr_routing_decision b). Qed.
Lemma details_run b :
  run_details (run_json b) =
    inl {| rd_run_id := rr_run_id b; rd_execution_status := status_value (rr_execution_status b);
           rd_evaluation_status := evaluation_value (rr_evaluation_status b); rd_error_code := rr_error_code b;
           rd_routing_decision := rr_routing_decision b; rd_raw := run_json b |}.
Proof. unfold run_details. read_fields. by destruct (rr_error_code b), (rr_routing_decision b). Qed.
Lemma replayed_replay b key :
  replayed_run (replay_json b) key =
    inl {| rl_run_id := rp_run_id b; rl_execution_status := status_value (rp_status b);
           rl_replay_of_run_id := rp_replay_of_run_id b; rl_replayed := rp_replayed b; rl_idempotency_key := key |}.
Proof. unfold replayed_run. read_fields. done. Qed.

(** (C37) The client and the API agree.  When the API answers the request a call sends, the call
    returns exactly the identifiers, statuses, decisions, rows and cursor of the answer if it is
    a success, and raises [AgentRuntimeApiError] with its status, code and message if it is an
    error: no answer of the API is mistaken for a transport failure.  The client stops polling
    exactly on the statuses that are terminal for the runtime. *)
Theorem client_understands_api c w key w1 r w2 tx id client_id d :
  call_ok c → key_of c w = (key, w1) → http (sent c key) w1 = (Some (serialize r), w2) →
  fst (call_app settings check_schema tx id client_id (endpoint_of c key) d) = Ok r →
  perform c w = (match ap_body r with
                 | ErrorBody code => inr (ApiError (ap_status r) code (message code))
                 | _ => inl (understood c key r)
                 end, w2)
  ∧ ∀ run, perform c w = (inl (VRun run), w2) →
      ∃ b, ap_body r = RunBody b ∧ is_terminal run = is_terminal_execution_status (rr_execution_status b).
Proof.
  intros Hok Hk Hh Hr. rewrite (perform_answered _ _ _ _ _ _ Hok Hk Hh). cbn [wr_status serialize].
  destruct (call_app_typed settings check_schema Hrules tx id client_id _ d r Hr) as [[Hs Hb]|(code & Hc & Hin)].
  - assert (is_error_status (ap_status r) = false) as -> by (rewrite Hs; by destruct (endpoint_of c key)).
    assert (read_value c key (serialize r) = inl (understood c key r)) as Hv.
    { destruct r as [st b cur ra]. cbn in Hb.
      destruct c as [| | | | |? []| |]; destruct b; try done; cbn [read_value];
        unfold understood, json_objects, json_object, serialize;
        cbn [wr_json ap_body body_json ap_next_cursor wr_next_cursor answer_bind];
        rewrite ?all_objects_map, ?submitted_created, ?details_run, ?replayed_replay; done. }
    rewrite Hv. split; [by destruct (ap_body r), c as [| | | | |? []| |]|].
    intros run [= Hu]. unfold understood in Hu. destruct (ap_body r) as [| |b| | | | | | | |]; try done; try (by destruct c).
    exists b. split; [done|]. injection Hu as <-. by destruct (rr_execution_status b).
  - rewrite (declared_error_status _ _ _ Hin), Hc, (api_error_serialized _ _ Hc). by split.
Qed.
End Wire.

(** ** Waiting for a run *)

(** What the platform documents: [clock] is the monotonic clock, in units of [2^-1074] seconds; a
    reading lies between the clock before and after it, no call turns the clock back, and
    [time.sleep] suspends for at least its argument. *)
Class Timely (W : Type) `{Platform W} := {
  clock : W → Z;
  http_clock q w : clock w ≤ clock (http q w).2;
  monotonic_clock w : ∃ t w', monotonic w = (Fin t, w') ∧ clock w ≤ t ≤ clock w';
  sleep_clock s w m : num_value s = Fin m → 0 ≤ m → clock w + m ≤ clock (sleep s w);
}.

Section Waiting.
Context `{Host} {W : Type} `{Timely W} (cl : client) (run_id : string).

Lemma get_run_clock w : clock w ≤ clock (client_get_run cl run_id w).2.
Proof.
  unfold client_get_run, _request, exchange, _send.
  match goal with |- context [http ?q w] => pose proof (http_clock q w); destruct (http q w) as [[r|] w'] end; done.
Qed.

(** Reading a payload raises nothing but transport errors. *)
Definition transport_only {A} (m : answer A) : Prop :=
  match m with inr (TransportError _) | inl _ => True | _ => False end.
Lemma transport_bind {A B} (m : answer A) (f : A → answer B) :
  transport_only m → (∀ a, transport_only (f a)) → transport_only (answer_bind m f).
Proof. destruct m as [|[]]; cbn; auto. Qed.
Lemma run_details_raises payload : transport_only (run_details payload).
Proof.
  unfold run_details, _uuid, _string, _optional_string, _optional_object.
  repeat first [apply transport_bind; [|intros ?] | case_match | done].
Qed.
Lemma get_run_no_timeout w w' : client_get_run cl run_id w ≠ (inr ClientTimeout, w').
Proof.
  unfold client_get_run, _request, exchange, _send, json_object.
  destruct (http _ w) as [[r|] w1]; [|done]. destruct (is_error_status _); cbn.
  - unfold _api_error. destruct (match wr_json r with Some _ => _ | None => _ end). done.
  - destruct (wr_json r) as [[]|]; try done. cbn. intros [= Hr _].
    pose proof (run_details_raises d) as Hd. by rewrite Hr in Hd.
Qed.

(** The argument of [time.sleep] when the deadline is [r] units away: at least one poll interval
    or half of the distance. *)
Lemma sleep_length D t p : 0 < p →
  ∃ m, num_value (num_min (NFloat (Fin p)) (num_max (NInt 0) (NFloat (f64_sub (Fin D) (Fin t))))) = Fin m
       ∧ 0 ≤ m ∧ (t < D → m = p ∨ D - t ≤ 2 * m).
Proof.
  intros Hp. pose proof unit64_pos as Hu.
  unfold f64_sub, f64_neg, f64_add, signed64. rewrite (Z.add_opp_r D t). set (a := round53 (Z.abs (D - t)) 1 0).
  assert (0 ≤ a) as Ha by (apply round53_pos; lia).
  destruct (a <? limit64).
  - assert (num_value (num_max (NInt 0) (NFloat (Fin (Z.sgn (D - t) * a)))) = Fin (Z.max 0 (Z.sgn (D - t) * a))) as Hm
      by (by rewrite (num_max_fin _ _ 0 (Z.sgn (D - t) * a))).
    exists (Z.min p (Z.max 0 (Z.sgn (D - t) * a))). rewrite (num_min_fin (NFloat (Fin p)) _ p _ eq_refl Hm). split; [done|].
    split; [lia|]. intros Hlt. rewrite Z.sgn_pos, Z.mul_1_l by lia.
    pose proof (round53_half (D - t) ltac:(lia)) as [_ Hh]. unfold a in *. rewrite Z.abs_eq in * by lia. lia.
  - destruct (0 <? Z.sgn (D - t)) eqn:Es.
    + exists p. split; [done|]. split; [lia|]. by left.
    + exists 0. change (num_max (NInt 0) (NFloat NInf)) with (NInt 0). split; [by rewrite (num_min_fin (NFloat (Fin p)) (NInt 0) p 0); [f_equal; lia|..]|]. split; [lia|].
      intros Hlt. apply Z.ltb_ge in Es. rewrite Z.sgn_pos in Es; lia.
Qed.

(** How a wait may end, with the clock at [w']. *)
Definition wait_outcome (D : Z) (out : answer RunDetails) (w' : W) : Prop :=
  match out with
  | inl run => is_terminal run = true ∧ ∃ w0, client_get_run cl run_id w0 = (inl run, w')
  | inr ClientTimeout => D ≤ clock w'
  | inr e => ∃ w0, client_get_run cl run_id w0 = (inr e, w')
  end.

Lemma log2_halved r r' : 1 ≤ r' → 2 * r' ≤ r → Z.log2 r' + 1 ≤ Z.log2 r.
Proof.
  intros Hr Hle. pose proof (Z.log2_double r' ltac:(lia)) as Hd.
  pose proof (Z.log2_le_mono (2 * r') r Hle). lia.
Qed.

(** Every round of the loop either ends it or brings the deadline closer. *)
Lemma wait_loop_ends D p : 0 < p → ∀ fuel w, (0 < fuel)%nat →
  (1 ≤ D - clock w → (D - clock w) / p + Z.log2 (D - clock w) + 2 ≤ Z.of_nat fuel) →
  ∃ out w', wait_loop cl fuel run_id (Fin D) (Fin p) w = Some (out, w') ∧ wait_outcome D out w'.
Proof.
  intros Hp. induction fuel as [|fuel IH]; intros w H0' Hf; [lia|]. cbn [wait_loop].
  pose proof (get_run_clock w) as Hg. destruct (client_get_run cl run_id w) as [r w1] eqn:Eg. cbn in Hg.
  destruct r as [run|e].
  2: { exists (inr e), w1. split; [done|]. destruct e; cbn; eauto.
       by destruct (get_run_no_timeout w w1). }
  destruct (is_terminal run) eqn:Et; [exists (inl run), w1; split; [done|by split; eauto]|].
  destruct (monotonic_clock w1) as (t & w2 & -> & Ht).
  rewrite (num_le_fin _ _ D t) by done. destruct (Z.leb_spec D t).
  { exists (inr ClientTimeout), w2. split; [done|]. cbn. lia. }
  destruct (monotonic_clock w2) as (t' & w3 & -> & Ht').
  destruct (sleep_length D t' p Hp) as (m & Hm & Hm0 & Hlong).
  pose proof (sleep_clock _ w3 m Hm Hm0) as Hs.
  match goal with |- context [sleep ?x w3] => set (w4 := sleep x w3) in * end.
  specialize (Hf ltac:(lia)).
  set (r := D - clock w) in *. set (r' := D - clock w4) in *.
  assert (0 ≤ r / p) by (apply Z.div_pos; lia). pose proof (Z.log2_nonneg r).
  apply IH; [lia|]. intros Hr'. fold r'. destruct (Hlong ltac:(lia)) as [->|Hhalf].
  - assert (r' / p ≤ r / p - 1) by (transitivity ((r + - 1 * p) / p); [apply Z.div_le_mono; lia|rewrite Z.div_add by lia; lia]).
    pose proof (Z.log2_le_mono r' r ltac:(lia)). lia.
  - pose proof (Z.div_le_mono r' r p ltac:(lia) ltac:(lia)). pose proof (log2_halved r r' ltac:(lia) ltac:(lia)). lia.
Qed.

Lemma num_lt_not_le a b : num_lt a b = true → num_le b a = false.
Proof.
  unfold num_le, num_lt, num_eqb. destruct (num_value a) as [x| | |], (num_value b) as [y| | |]; cbn; try done.
  intros Hlt%Z.ltb_lt. apply orb_false_iff. split; [apply Z.ltb_ge; lia|apply Z.eqb_neq; lia].
Qed.

Lemma wait_ends timeout p w now w1 D :
  monotonic w = (now, w1) → f64_add now timeout = Fin D → num_lt (NInt 0) (NFloat timeout) = true → 0 < p →
  let r := D - clock w1 in
  ∃ out w',
    wait_for_terminal cl (S (S (Z.to_nat (r / p + Z.log2 r)))) run_id timeout (Fin p) w = Some (out, w')
    ∧ wait_outcome D out w'.
Proof.
  intros Hnow HD Ht Hp. cbn zeta. unfold wait_for_terminal.
  rewrite (num_lt_not_le _ _ Ht), (num_le_fin _ _ p (0 * unit64)) by done.
  rewrite (proj2 (Z.leb_gt p (0 * unit64))) by lia. cbn [orb]. rewrite Hnow, HD.
  apply wait_loop_ends; [done|lia|]. intros Hr.
  assert (0 ≤ (D - clock w1) / p) by (apply Z.div_pos; lia). pose proof (Z.log2_nonneg (D - clock w1)). lia.
Qed.

(** (C38) Waiting ends.  For every positive poll interval and finite deadline, whatever the API
    answers, [wait_for_terminal] stops after at most about [timeout / poll] polls (and
    logarithmically many more, since the last sleeps may be cut short by rounding): with a run in
    a terminal status just read from the API, with the exception of the read that failed, or with
    [TimeoutError], and then not before the deadline. *)
Theorem wait_for_terminal_terminates timeout p w now w1 D :
  monotonic w = (now, w1) → f64_add now timeout = Fin D → num_lt (NInt 0) (NFloat timeout) = true → 0 < p →
  let r := D - clock w1 in
  ∃ out w',
    wait_for_terminal cl (S (S (Z.to_nat (r / p + Z.log2 r)))) run_id timeout (Fin p) w = Some (out, w')
    ∧ wait_outcome D out w'.
Proof. apply wait_ends. Qed.
End Waiting.

(** ** Keys *)

Lemma hex_identity c : is_hex c = true → is_identity_char c = true.
Proof.
  unfold is_identity_char, is_letter_digit, is_hex, is_alnum, is_lower, between.
  rewrite !orb_true_iff, !andb_true_iff, !Z.leb_le. lia.
Qed.

(** The keys the client draws satisfy the API's pattern. *)
Lemma drawn_keys_accepted prefix hex :
  prefix ∈ ["sdk-"; "sdk-replay-"] → hex_digits 32 hex = true → IDEMPOTENCY_KEY_PATTERN (prefix +:+ hex) = true.
Proof.
  unfold hex_digits, IDEMPOTENCY_KEY_PATTERN. intros Hp Hh. rewrite to_list_app. set (l := Text.to_list hex) in *.
  pose proof (match_classes_length _ _ Hh) as Hl. rewrite repeat_length in Hl.
  assert (forallb is_identity_char l = true) as Hc.
  { apply Is_true_eq_true, forallb_True, (match_classes_forall (repeat is_hex 32)); [|done].
    cbn. repeat constructor; intros c Hx; by rewrite (hex_identity c Hx). }
  rewrite !elem_of_cons, elem_of_nil in Hp. destruct Hp as [->|[->|[]]]; cbn [app Text.to_list forallb];
    rewrite Hc; unfold len; cbn [length]; rewrite Hl; reflexivity.
Qed.

(** ** A simulated platform *)

(** The clock, in units, and the number of requests so far; the API reports success at the third. *)
Definition demo_run (n : nat) : RunResponse :=
  {| rr_run_id := 1%N; rr_execution_status := if (n <? 2)%nat then QUEUED else SUCCEEDED;
     rr_evaluation_status := EVAL_NOT_RUN; rr_created_at := 0; rr_started_at := None; rr_completed_at := None;
     rr_replay_of_run_id := None; rr_error_code := None; rr_routing_decision := None |}.
Definition demo_iso (_ : time) : string := "1970-01-01T00:00:00Z".
Definition demo_message (_ : string) : string := "message".
#[export] Instance demo_platform : Platform (Z * nat) := {|
  http := λ _ w, (Some (serialize (H := demo_host) demo_iso demo_message (λ _, [])
                          (plain_response 200 (RunBody (demo_run w.2)))), (w.1, S w.2));
  monotonic := λ w, (Fin w.1, w);
  sleep := λ s w, (w.1 + match num_value s with Fin m => Z.max 0 m | _ => 0 end, w.2);
  uuid4_hex := λ w, ("00112233445566778899aabbccddeeff", w);
|}.
#[export] Program Instance demo_timely : Timely (Z * nat) := {| clock := fst |}.
Next Obligation. cbn. lia. Qed.
Next Obligation. intros w. exists w.1, w. cbn. split; [done|lia]. Qed.
Next Obligation. cbn. intros s w m -> Hm. cbn. lia. Qed.

Definition demo_client : client :=
  {| base_url := "http://localhost:8000"; cl_client_id := "acme"; cl_api_key := None; owns_http_client := true |}.

Lemma wait_for_terminal_terminates_witness :
  ∃ run w, wait_for_terminal (H := demo_host) demo_client 6 "1" (Fin 4) (Fin 2) (0, 0%nat) = Some (inl run, w)
           ∧ is_terminal run = true.
Proof.
  destruct (wait_for_terminal_terminates (H := demo_host) demo_client "1" (Fin 4) 2 (0, 0%nat) (Fin 0) (0, 0%nat) 4)
    as (out & w & Hw & Ho); [done|by vm_compute|by vm_compute|lia|].
  change (S (S (Z.to_nat ((4 - clock (0, 0%nat)) / 2 + Z.log2 (4 - clock (0, 0%nat)))))) with 6%nat in Hw.
  destruct out as [run|e].
  - exists run, w. destruct Ho as [Ht _]. by split.
  - exfalso. assert (match wait_for_terminal (H := demo_host) demo_client 6 "1" (Fin 4) (Fin 2) (0, 0%nat) with
                     | Some (inl _, _) => True | _ => False end) as Hi by (by vm_compute). by rewrite Hw in Hi.
Defined.

(** A platform that gives one answer. *)
#[export] Instance fixed_platform : Platform (option wire_response) := {|
  http := λ _ w, (w, w); monotonic := λ w, (Fin 0, w); sleep := λ _ w, w;
  uuid4_hex := λ w, ("00112233445566778899aabbccddeeff", w);
|}.
#[local] Existing Instance demo_service.
Definition demo_call : client_call := CallRun [("prompt", JStr "hi")] None None.
Definition demo_key : string := "sdk-00112233445566778899aabbccddeeff".
Definition demo_created : result ApiResponse :=
  fst (call_app (H := demo_host) (H0 := demo_pydantic) sample_settings (λ _, true) api_tx demo_identity None
         (endpoint_of demo_call demo_key) empty_db).

Lemma client_understands_api_witness :
  ∃ r w, demo_created = Ok r ∧ ap_status r = 202
    ∧ perform (H := demo_host) demo_client demo_call w
      = (inl (understood (H := demo_host) demo_iso demo_call demo_key r), w).
Proof.
  assert (match demo_created with Ok r => ap_status r = 202 ∧ is_error r = false | Err _ => False end) as Hok
    by (by vm_compute).
  destruct demo_created as [r|e] eqn:E; [|destruct Hok]. destruct Hok as [Hs He].
  destruct (client_understands_api (H := demo_host) demo_iso demo_message (λ _, []) (H0 := fixed_platform) demo_client
    (H1 := demo_pydantic) sample_settings (λ _, true)
    (contract := sql_contract (H := demo_host) (from_settings sample_settings) (attempt_timeout sample_settings) (λ _, true))
    (evaluate_request_rules (H := demo_pydantic) (λ _, true)) demo_call (Some (serialize (H := demo_host) demo_iso demo_message (λ _, []) r)) demo_key
    (Some (serialize (H := demo_host) demo_iso demo_message (λ _, []) r)) r _ api_tx demo_identity None empty_db
    I eq_refl eq_refl E) as [Hp _].
  eexists r, _. split; [done|]. split; [done|]. rewrite Hp. unfold is_error in He. by destruct (ap_body r).
Defined.
