(* ===== verification/Demo.v ===== *)
(** * The tour of a local stack

    [src/examples/recruiter_demo.py]: one client session that submits a run, waits for it and
    reads its history back, printing as it goes.  Arguments come parsed; a printed line is its
    label with the value [json.dumps] renders.  The session runs on the [Platform] of [Client]. *)

From S2P Require Import Prelude Float64 PyValue States Routing Retry Models Quotas Canonical Base64 Safety.
From S2P Require Import Engine Telemetry Credentials Settings RunService Schemas Api ApiTheorems Client.
Local Open Scope Z_scope.

Record demo_args := {
  da_base_url : string; da_client_id : string; da_api_key : option string; da_timeout_seconds : f64;
}.

Inductive demo_line := Labelled (label : string) (value : json) | Pointer (text : string).

Definition demo_prompt : dict := [("prompt", JStr "recruiter demo: durable agent work")].
Definition demo_pointers : list demo_line :=
  [ Pointer "Observability: http://localhost:3000 (Grafana dashboard: Agent Reliability Runtime)";
    Pointer "Failure/retry/fallback evidence: docs/testing/failure-matrix.md" ].

Section Demo.
Context `{Host} {W : Type} `{Platform W}.

(** [close], which [__exit__] calls on every way out of the [with] block: is the HTTP client closed? *)
Definition client_close (cl : client) : bool := owns_http_client cl.

Definition health_line (h : list (string * string)) : demo_line :=
  Labelled "1/4 API health:" (JObj ((λ kv, (kv.1, JStr kv.2)) <$> h)).
Definition accepted_line (s : SubmittedRun) : demo_line :=
  Labelled "2/4 Accepted:" (JObj
    [("run_id", JStr (uuid_str (sr_run_id s))); ("status", JStr (sr_execution_status s));
     ("idempotency_key", JStr (sr_idempotency_key s)); ("routing", opt_json JObj (sr_routing_decision s))]).
Definition completed_line (r : RunDetails) : demo_line :=
  Labelled "3/4 Completed:" (JObj
    [("status", JStr (rd_execution_status r)); ("evaluation_status", JStr (rd_evaluation_status r));
     ("error_code", opt_json JStr (rd_error_code r))]).
Definition history_line (attempts events : list dict) : demo_line :=
  Labelled "4/4 Durable history:"
    (JObj [("attempts", JArr (JObj <$> attempts)); ("events", JArr (JObj <$> events))]).

(** A session so far: the lines it printed, and what comes next with the value of a call; an
    exception ends it. *)
Abbreviation session := (option (list demo_line * option client_exn * W)).
Definition and_then {A} (printed : list demo_line) (x : answer A * W) (next : A → W → session) : session :=
  match x with
  | (inl a, w) => next a w
  | (inr e, w) => Some (printed, Some e, w)
  end.

(** The [with] block; [None] when the fuel of the wait runs out. *)
Definition tour (cl : client) (fuel : nat) (timeout_seconds : f64) (w : W) : session :=
  and_then [] (client_healthz cl w) (λ h w,
  let l1 := [health_line h] in
  and_then l1 (client_run cl demo_prompt None None w) (λ s w,
  let l2 := l1 ++ [accepted_line s] in
  let run_id := uuid_str (sr_run_id s) in
  match wait_for_terminal cl fuel run_id timeout_seconds (Fin (unit64 / 2)) w with
  | None => None
  | Some x =>
      and_then l2 x (λ r w,
      let l3 := l2 ++ [completed_line r] in
      and_then l3 (client_get_attempts cl run_id w) (λ attempts w,
      and_then l3 (client_get_events cl run_id w) (λ events w,
      Some (l3 ++ [history_line attempts events], None, w))))
  end)).

(** The lines, the exception that ends the program, whether the HTTP client was closed. *)
Definition recruiter_demo (fuel : nat) (a : demo_args) (w : W)
    : option (list demo_line * option client_exn * bool * W) :=
  match mk_client (da_base_url a) (da_client_id a) (da_api_key a) (NInt 10) false with
  | inr e => Some ([], Some e, false, w)
  | inl cl =>
      match tour cl fuel (da_timeout_seconds a) w with
      | None => None
      | Some (l, Some e, w) => Some (l, Some e, client_close cl, w)
      | Some (l, None, w) => Some (l ++ demo_pointers, None, client_close cl, w)
      end
  end.
End Demo.

(** ** The tour ends *)

Section Ends.
Context `{Host} {W : Type} `{Timely W} (timeout_seconds : f64).
Context (Htimeout : num_lt (NInt 0) (NFloat timeout_seconds) = true).
(** The deadline is a finite time. *)
Context (Hdeadline : ∀ w, ∃ D, f64_add (monotonic w).1 timeout_seconds = Fin D).

(** A session that printed [l] and ended with [e]. *)
Definition tour_outcome (l : list demo_line) (e : option client_exn) : Prop :=
  match e with
  | None => ∃ h s r attempts events, is_terminal r = true
      ∧ l = [health_line h; accepted_line s; completed_line r; history_line attempts events]
  | Some _ => ∃ h s r, l `prefix_of` [health_line h; accepted_line s; completed_line r]
  end.

Lemma prefix_error l h s r :
  l `prefix_of` [health_line h; accepted_line s; completed_line r] → ∀ e, tour_outcome l (Some e).
Proof. intros Hl e. by exists h, s, r. Qed.

(** Values for the lines that were not reached. *)
Definition no_run : SubmittedRun :=
  {| sr_run_id := 0%N; sr_execution_status := ""; sr_replayed := false; sr_idempotency_key := "";
     sr_routing_decision := None |}.
Definition no_details : RunDetails :=
  {| rd_run_id := 0%N; rd_execution_status := ""; rd_evaluation_status := ""; rd_error_code := None;
     rd_routing_decision := None; rd_raw := [] |}.

Lemma tour_ends cl w : ∃ fuel l e w', tour cl fuel timeout_seconds w = Some (l, e, w') ∧ tour_outcome l e.
Proof.
  pose proof unit64_pos as Hu. assert (0 < unit64 / 2) as Hp by (apply Z.div_str_pos; rewrite unit64_eq; done).
  unfold tour. destruct (client_healthz cl w) as [[h|e] w1]; cbn [and_then].
  2: { eexists O, _, _, _. split; [done|]. apply (prefix_error _ [] no_run no_details), prefix_nil. }
  destruct (client_run cl demo_prompt None None w1) as [[s|e] w2]; cbn [and_then].
  2: { eexists O, _, _, _. split; [done|]. apply (prefix_error _ h no_run no_details). by eexists. }
  destruct (Hdeadline w2) as [D HD]. destruct (monotonic w2) as [now w3] eqn:Em. cbn in HD.
  destruct (wait_ends cl (uuid_str (sr_run_id s)) timeout_seconds (unit64 / 2) w2 now w3 D Em HD Htimeout Hp)
    as (out & w4 & Hw & Hout).
  eexists. rewrite Hw. destruct out as [r|e]; cbn [and_then].
  2: { eexists _, _, _. split; [done|]. apply (prefix_error _ h s no_details). by eexists. }
  destruct (client_get_attempts cl (uuid_str (sr_run_id s)) w4) as [[a|e] w5]; cbn [and_then].
  2: { eexists _, _, _. split; [done|]. by apply (prefix_error _ h s r). }
  destruct (client_get_events cl (uuid_str (sr_run_id s)) w5) as [[v|e] w6]; cbn [and_then].
  2: { eexists _, _, _. split; [done|]. by apply (prefix_error _ h s r). }
  eexists _, None, _. split; [done|]. exists h, s, r, a, v. split; [apply Hout|done].
Qed.

(** With a positive timeout and a client identity the program ends, whatever the API answers, with
    its HTTP client closed: after the four lines and the pointers, the third line reporting a
    terminal status, or with the exception of a call after a prefix of the lines. *)
Theorem recruiter_demo_ends a w :
  da_timeout_seconds a = timeout_seconds → Text.nonblank (da_client_id a) = true →
  ∃ fuel l e w', recruiter_demo fuel a w = Some (l, e, true, w')
    ∧ match e with
      | None => ∃ l0, l = l0 ++ demo_pointers ∧ tour_outcome l0 None
      | Some _ => tour_outcome l e
      end.
Proof.
  intros Hts Hc. unfold recruiter_demo, mk_client. rewrite Hc, Hts.
  change (num_le (NInt 10) (NInt 0)) with false. cbn.
  set (cl := {| base_url := _ |}). destruct (tour_ends cl w) as (fuel & l & e & w' & Ht & Ho).
  exists fuel. rewrite Ht. destruct e as [e|]; eexists _, _, _; (split; [done|]); [done|by eexists].
Qed.
End Ends.
