(* ===== verification/System.v ===== *)
(** * The running system

    The database together with the broker, as a step relation: API calls,
    dispatchers, broker deliveries, workers, lease recovery, retry scheduling and
    provider-call charges interleave in any order, dispatchers and workers crash,
    also between an action of the broker and the commit around it, and the broker
    redelivers.  Each step is one transaction of the services or one action of the
    broker. *)

From S2P Require Import Prelude Float64 PyValue States Retry Models Quotas Canonical RunService.
From S2P Require Import ExecutionService Lifecycle Refinement Messaging.
Local Open Scope Z_scope.

(** An unacknowledged delivery; [d_claim] is set while the worker executes the claim. *)
Record delivery := { d_worker : string; d_body : body; d_claim : option ClaimResult }.

Record sys := {
  sdb : db;
  queue : list body;
  held : list delivery;
  dead_letters : list body;
}.

Definition with_db (d : db) (s : sys) : sys :=
  {| sdb := d; queue := queue s; held := held s; dead_letters := dead_letters s |}.

Definition boot : sys := {| sdb := empty_db; queue := []; held := []; dead_letters := [] |}.

(** The broker's answer to the worker, for a delivery taken out of [held]. *)
Definition settle_body (disp : disposition) (b : body) (d : db) (rest : list delivery) (s : sys) : sys :=
  match disp with
  | Ack => {| sdb := d; queue := queue s; held := rest; dead_letters := dead_letters s |}
  | NackRequeue => {| sdb := d; queue := queue s ++ [b]; held := rest; dead_letters := dead_letters s |}
  | Reject => {| sdb := d; queue := queue s; held := rest; dead_letters := dead_letters s ++ [b] |}
  end.

Section System.
Context `{Host} (limits : QuotaLimits) (sm lease : Z) (job_timeout : num) (check_schema : json → bool).
Context (Hjob : num_in 1 3600 job_timeout).

(** The message of an outbox row, put in the queue its destination is bound to. *)
Definition enqueue (e : OutboxEvent.t) (s : sys) : sys :=
  let b := Some (JObj (message_payload e)) in
  match _destination_for e with
  | Ok (exchange, key) =>
      match bound_queue exchange key with
      | Some q =>
          if bool_decide (q = QUEUE_NAME)
          then {| sdb := sdb s; queue := queue s ++ [b]; held := held s; dead_letters := dead_letters s |}
          else {| sdb := sdb s; queue := queue s; held := held s; dead_letters := dead_letters s ++ [b] |}
      | None => s
      end
  | Err _ => s
  end.

(** Requests reach the services with a client identity and, for [submit], with a policy
    that [build_policy_snapshot] or [job_policy] produced. *)
Inductive step (s : sys) : sys → Prop :=
| step_submit tx c key input policy pol p kind res d' :
    c ≠ "" → kind ≠ wk_evaluation → policy_ok policy pol →
    submit limits tx c key input policy p kind (sdb s) = (res, d') → step s (with_db d' s)
| step_replay tx c k key p res d' :
    c ≠ "" → replay limits tx c k key p (sdb s) = (res, d') → step s (with_db d' s)
| step_evaluate tx c k rules p res d' :
    c ≠ "" → evaluate limits job_timeout check_schema tx c k rules p (sdb s) = (res, d') →
    step s (with_db d' s)
| step_recover now tx vis n res d' :
    recover_expired_leases now tx vis n (sdb s) = (res, d') → step s (with_db d' s)
| step_schedule now tx vis n res d' :
    schedule_due_retries now tx vis n (sdb s) = (res, d') → step s (with_db d' s)
| step_charge epoch p t q' :
    charge_provider_call (quotas (sdb s)) epoch p t limits = Ok q' →
    step s (with_db (with_quotas q' (sdb s)) s)
| step_dispatch now tx vis broker res d' e (delivered : bool) :
    next_outbox vis (sdb s) = Some e →
    _dispatch_one now tx vis broker (sdb s) = (res, d') →
    (published res = true → delivered = true) →
    step s (with_db d' (if delivered then enqueue e s else s))
| step_dispatch_crash vis e :
    next_outbox vis (sdb s) = Some e → step s (enqueue e s)
| step_deliver worker b q1 q2 :
    queue s = q1 ++ b :: q2 →
    step s {| sdb := sdb s; queue := q1 ++ q2;
              held := held s ++ [{| d_worker := worker; d_body := b; d_claim := None |}];
              dead_letters := dead_letters s |}
| step_receive now tx h1 h2 dl disp d' :
    held s = h1 ++ dl :: h2 → d_claim dl = None →
    receive lease limits sm (d_worker dl) now tx (d_body dl) (sdb s) = (inl disp, d') →
    step s (settle_body disp (d_body dl) d' (h1 ++ h2) s)
| step_receive_crash now tx h1 h2 dl disp d' :
    held s = h1 ++ dl :: h2 → d_claim dl = None →
    receive lease limits sm (d_worker dl) now tx (d_body dl) (sdb s) = (inl disp, d') →
    step s (settle_body NackRequeue (d_body dl) d' (h1 ++ h2) s)
| step_claimed now tx h1 h2 dl c d' :
    held s = h1 ++ dl :: h2 → d_claim dl = None →
    receive lease limits sm (d_worker dl) now tx (d_body dl) (sdb s) = (inr c, d') →
    step s {| sdb := d'; queue := queue s;
              held := h1 ++ {| d_worker := d_worker dl; d_body := d_body dl; d_claim := Some c |} :: h2;
              dead_letters := dead_letters s |}
| step_settle executor now tx h1 h2 dl c disp d' :
    held s = h1 ++ dl :: h2 → d_claim dl = Some c →
    settle (d_worker dl) executor now tx c (sdb s) = (disp, d') →
    step s (settle_body disp (d_body dl) d' (h1 ++ h2) s)
| step_settle_crash executor now tx h1 h2 dl c disp d' :
    held s = h1 ++ dl :: h2 → d_claim dl = Some c →
    settle (d_worker dl) executor now tx c (sdb s) = (disp, d') →
    step s (settle_body NackRequeue (d_body dl) d' (h1 ++ h2) s)
| step_redeliver h1 h2 dl :
    held s = h1 ++ dl :: h2 →
    step s (settle_body NackRequeue (d_body dl) (sdb s) (h1 ++ h2) s).

Definition reachable (s : sys) : Prop := rtc step boot s.

(** ** Delivery *)

(** Something will lead a worker to run [k]: an unpublished outbox row, a queued message,
    or a delivery a worker has not claimed yet. *)
Definition pending (s : sys) (k : uuid) : Prop :=
  announced (sdb s) k
  ∨ (∃ b, b ∈ queue s ∧ run_id_from_message b = Ok k)
  ∨ (∃ dl, dl ∈ held s ∧ d_claim dl = None ∧ run_id_from_message (d_body dl) = Ok k).

Record sys_inv (s : sys) : Prop := {
  si_wf : db_wf (sdb s);
  si_db : db_inv limits sm (sdb s);
  si_delivery : ∀ k r, runs (sdb s) !! k = Some r → Run.execution_status r = QUEUED → pending s k;
}.

Lemma announced_mono d d' k : outbox d ⊆ outbox d' → announced d k → announced d' k.
Proof. intros Hs (o & Ho & Hr). exists o. split; [|done]. by eapply lookup_weaken. Qed.

Lemma life_grows d d' : life limits sm lease d d' → outbox_grows d d'.
Proof. by destruct 1. Qed.
Lemma life_outbox d d' : life limits sm lease d d' → outbox d ⊆ outbox d'.
Proof. by intros [? _]%life_grows. Qed.

(** A run that is [QUEUED] after a change was so before, or is announced by it. *)
Lemma life_queued d d' k r' :
  life limits sm lease d d' → runs d' !! k = Some r' → Run.execution_status r' = QUEUED →
  announced d' k ∨ ∃ r, runs d !! k = Some r ∧ Run.execution_status r = QUEUED.
Proof.
  destruct 1 as [Hr|r0 eo p Hf Hr ? ? ? Ha|r0 r1 Hk Hr ? ? ? Hm Hann|r0 ? ? ? ? ? ? Hk ? ? ? ? ? ? ? Hr
                |r0 r1 ? ? Hk ? ? ? ? ? Hend Hr|? ? ? ? ? ? ? Hr];
    rewrite Hr; try (intros; right; eauto; fail); rewrite lookup_insert_Some;
    (intros [[<- <-]|[_ Hl]] Hq; [|right; eauto; fail]).
  - by left.
  - destruct (decide (Run.execution_status r0 = QUEUED)); [right; eauto|left; auto].
  - done.
  - by destruct Hend.
Qed.

Lemma rtc_life_queued d d' :
  rtc (life limits sm lease) d d' →
  outbox d ⊆ outbox d' ∧
  ∀ k r', runs d' !! k = Some r' → Run.execution_status r' = QUEUED →
    announced d' k ∨ ∃ r, runs d !! k = Some r ∧ Run.execution_status r = QUEUED.
Proof.
  induction 1 as [d|d d1 d2 H1 _ [Hsub IH]]; [split; [done|eauto]|].
  pose proof (life_outbox _ _ H1) as Hs1. split; [by etrans|]. intros k r' Hk Hq.
  destruct (IH _ _ Hk Hq) as [Ha|(r & Hr & Hrq)]; [by left|].
  destruct (life_queued _ _ _ _ H1 Hr Hrq) as [Ha|Hd]; [left|by right]. by eapply announced_mono.
Qed.

(** The part of the invariant about one transaction on the database. *)
Lemma sys_inv_refines s s' :
  sys_inv s → refines limits sm lease (sdb s) (sdb s') →
  (∀ k, pending s k → runs (sdb s') !! k = None ∨ pending s' k
        ∨ ∃ r, runs (sdb s') !! k = Some r ∧ Run.execution_status r ≠ QUEUED) →
  sys_inv s'.
Proof.
  intros [Hwf Hdb Hdel] [Hl Hwf'] Hp. split; [done|by eapply rtc_life_inv|].
  intros k r Hk Hq. destruct (rtc_life_queued _ _ Hl) as [Hsub Hqd].
  destruct (Hqd _ _ Hk Hq) as [Ha|(r0 & Hr0 & Hq0)]; [by left|].
  destruct (Hp k (Hdel _ _ Hr0 Hq0)) as [Hn|[?|(r1 & Hr1 & Hne)]]; [congruence|done|congruence].
Qed.

(** A transaction that leaves the broker alone. *)
Lemma sys_inv_db s d' :
  sys_inv s → refines limits sm lease (sdb s) d' → sys_inv (with_db d' s).
Proof.
  intros Hs Hr. eapply sys_inv_refines; [done|done|]. intros k Hp. right. left.
  destruct Hp as [Ha|Hp]; [left|by right].
  eapply announced_mono; [|exact Ha]. by apply rtc_life_queued, Hr.
Qed.

(** ** Preservation *)

Lemma claim_not_queued now tx k worker d c d' r' :
  db_wf d → claim lease limits sm now tx k worker d = (Ok c, d') → runs d' !! k = Some r' →
  Run.execution_status r' ≠ QUEUED.
Proof.
  intros Hwf Hc Hr'. apply commit_inv in Hc as [(? & _ & ? & _)|(x & Hc & _)]; [done|].
  destruct (runs d !! k) as [run|] eqn:Hk; [|inv_result; congruence].
  destruct (wf_run_drawn _ _ _ Hwf Hk) as [<- Hdr].
  destruct (is_terminal_execution_status (Run.execution_status run)) eqn:Ht.
  { inv_result. rewrite Hk in Hr'. injection Hr' as <-. intros Hq. by rewrite Hq in Ht. }
  destruct (Run.execution_status run) eqn:Hs;
    try (repeat split_match_in Hc; inv_result; congruence).
  unfold claim_queued in Hc. split_match_in Hc.
  { injection Hc as _ <-. cbn in Hr'. rewrite lookup_insert_eq in Hr'. by injection Hr' as <-. }
  destruct (claim_policy _ _ _) as [p|e].
  - unfold start_attempt in Hc. inv_result. cbn in *. rewrite lookup_insert_eq in Hr'.
    by injection Hr' as <-.
  - destruct (is_value_error e); [|done]. apply result_bind_ok in Hc as (d1 & Hf & Hc). inv_result.
    destruct (finalize_refines limits sm lease _ _ _ _ (db_wf_put_run _ (reject_run now run) Hwf Hdr) Hf)
      as [_ (_ & _ & Hall)].
    destruct (Hall (Run.id run)) as [Heq|(r & st & Hr & Heq)]; rewrite Hr' in Heq.
    + cbn in Heq. rewrite lookup_insert_eq in Heq. by injection Heq as ->.
    + cbn in Hr. rewrite lookup_insert_eq in Hr. injection Hr as <-. by injection Heq as ->.
Qed.

Lemma receive_refines worker now tx b d res d' :
  db_wf d → receive lease limits sm worker now tx b d = (res, d') → refines limits sm lease d d'.
Proof.
  intros Hwf Hr. unfold receive in Hr.
  destruct (run_id_from_message b); [|injection Hr as _ <-; by apply refines_refl].
  destruct (claim _ _ _ _ _ _ _ _) as [[c|e] d1] eqn:Ec; [case_bool_decide|]; simplify_eq;
    by eapply claim_refines.
Qed.

(** After a delivery is acknowledged or claimed, its run is no longer [QUEUED]; the other
    dispositions keep the message or refuse one that names no run. *)
Lemma receive_consumed worker now tx b d res d' k r' :
  db_wf d → receive lease limits sm worker now tx b d = (res, d') →
  run_id_from_message b = Ok k → (res = inl Ack ∨ ∃ c, res = inr c) → runs d' !! k = Some r' →
  Run.execution_status r' ≠ QUEUED.
Proof.
  intros Hwf Hr Hb Hres Hk. unfold receive in Hr. rewrite Hb in Hr.
  destruct (claim _ _ _ _ _ _ _ _) as [[c|e] d1] eqn:Ec; [|naive_solver].
  assert (d1 = d') as -> by (case_bool_decide; by simplify_eq). by eapply claim_not_queued.
Qed.

Lemma receive_rejected worker now tx b d d' k :
  receive lease limits sm worker now tx b d = (inl Reject, d') → run_id_from_message b ≠ Ok k.
Proof.
  unfold receive. intros Hr Hb. rewrite Hb in Hr.
  destruct (claim _ _ _ _ _ _ _ _) as [[c|e] d1]; [case_bool_decide|]; simplify_eq.
Qed.

Lemma settle_refines worker executor now tx c d disp d' :
  db_wf d → settle worker executor now tx c d = (disp, d') → refines limits sm lease d d'.
Proof.
  intros Hwf Hs. unfold settle in Hs.
  destruct (_execute_claim _ _ _ _ _ _) as [res d1] eqn:Ee.
  assert (d1 = d') as -> by (repeat case_match; by simplify_eq).
  unfold _execute_claim, persist_outcome in Ee.
  repeat split_match_in Ee; try (injection Ee as _ <-; by apply refines_refl);
    by eauto using complete_success_refines, complete_failure_refines.
Qed.

Lemma message_run_id e : run_id_from_message (Some (JObj (message_payload e))) = Ok (OutboxEvent.aggregate_id e).
Proof.
  unfold run_id_from_message.
  change (match uuid_parse (uuid_str (OutboxEvent.aggregate_id e)) with
          | Some u => Ok u | None => Err (ValueError "Message run_id is invalid") end
          = Ok (OutboxEvent.aggregate_id e)).
  by rewrite uuid_parse_str.
Qed.

Lemma next_outbox_some vis d e :
  db_wf d → next_outbox vis d = Some e →
  outbox d !! OutboxEvent.id e = Some e ∧ OutboxEvent.published_at e = None ∧ drawn d (OutboxEvent.id e).
Proof.
  intros Hwf Hn. unfold next_outbox in Hn.
  match type of Hn with head ?L = _ => assert (e ∈ L) as Hin by (destruct L; [done|]; injection Hn as ->; by left) end.
  rewrite sort_by_perm in Hin. apply elem_of_rows_where in Hin as (k & Hk & Hp).
  unfold unpublished in Hp. bool_to_prop. by destruct (wf_outbox _ Hwf _ _ Hk) as [-> ?].
Qed.

Lemma db_inv_frame d d' :
  runs d' = runs d → attempts d' = attempts d → evaluations d' = evaluations d →
  db_inv limits sm d → db_inv limits sm d'.
Proof.
  intros H1 H2 H3 []. split; unfold count_runs, attempts_of, keys_unique, replays_ok, jobs_ok in *; by rewrite ?H1, ?H2, ?H3.
Qed.

(** The effect of one dispatch on the row it selected. *)
Lemma dispatch_one_some now tx vis broker d e res d' :
  db_wf d → next_outbox vis d = Some e → _dispatch_one now tx vis broker d = (res, d') →
  db_wf d' ∧ runs d' = runs d ∧ attempts d' = attempts d ∧ evaluations d' = evaluations d
  ∧ ∃ e', outbox d' = <[OutboxEvent.id e := e']> (outbox d) ∧ OutboxEvent.id e' = OutboxEvent.id e
        ∧ OutboxEvent.aggregate_id e' = OutboxEvent.aggregate_id e
        ∧ OutboxEvent.event_type e' = OutboxEvent.event_type e
        ∧ OutboxEvent.payload e' = OutboxEvent.payload e
        ∧ if published res then is_Some (OutboxEvent.published_at e') ∧ is_ok (_destination_for e) = true
          else OutboxEvent.published_at e' = None.
Proof.
  intros Hwf Hn Hd. destruct (next_outbox_some _ _ _ Hwf Hn) as (Hk & Hpub & Hdr).
  pose proof (wf_outbox_refs _ Hwf _ _ Hk) as Hrun. cbn in Hrun.
  unfold _dispatch_one in Hd. rewrite Hn in Hd. unfold publish in Hd.
  destruct (_destination_for e) as [dst|x]; [destruct (broker e) as [u|x]|]; cbn in Hd;
    injection Hd as <- <-; (split; [auto 8 with arr|split_and!; [done..|]]).
  - exists (mark_published now e). by split_and!.
  - by exists (mark_failed x e).
  - by exists (mark_failed x e).
Qed.

Lemma enqueue_queue e s :
  held (enqueue e s) = held s ∧ (∀ b, b ∈ queue s → b ∈ queue (enqueue e s))
  ∧ (OutboxEvent.event_type e = "RUN_QUEUED" → Some (JObj (message_payload e)) ∈ queue (enqueue e s)).
Proof.
  unfold enqueue, _destination_for.
  destruct (decide (OutboxEvent.event_type e = "RUN_QUEUED")) as [Hq|Hq].
  - rewrite bool_decide_true by done. cbn. split_and!; [done|set_solver|set_solver].
  - rewrite bool_decide_false by done. case_bool_decide; cbn; split_and!; try done.
Qed.

Lemma dispatch_inv s now tx vis broker res d' e (delivered : bool) :
  sys_inv s → next_outbox vis (sdb s) = Some e →
  _dispatch_one now tx vis broker (sdb s) = (res, d') → (published res = true → delivered = true) →
  sys_inv (with_db d' (if delivered then enqueue e s else s)).
Proof.
  intros [Hwf Hdb Hdel] Hn Hd Hpub.
  destruct (dispatch_one_some _ _ _ _ _ _ _ _ Hwf Hn Hd)
    as (Hwf' & Hr & Ha & He & e' & Ho & Hid & Hagg & Hty & _ & Hout).
  destruct (next_outbox_some _ _ _ Hwf Hn) as (Hk & Hunp & _).
  destruct (enqueue_queue e s) as (Hheld & Hqueue & Hmsg).
  assert (∀ b, b ∈ queue s → b ∈ queue (if delivered then enqueue e s else s)) as Hq
    by (destruct delivered; auto).
  assert (held (if delivered then enqueue e s else s) = held s) as Hh by (by destruct delivered).
  split; [done|by eapply db_inv_frame|]. cbn. intros k r Hkr Hst. rewrite Hr in Hkr.
  destruct (Hdel _ _ Hkr Hst) as [(o & Hol & Hoa & Hot & Hop)|[(b & Hb & Hrun)|(dl & Hdl & Hc & Hrun)]].
  - destruct (decide (OutboxEvent.id o = OutboxEvent.id e)) as [Heq|Hne].
    + assert (o = e) as -> by congruence. destruct (published res) eqn:Hp.
      * right. left. exists (Some (JObj (message_payload e))). rewrite message_run_id, Hoa.
        split; [|done]. cbn. rewrite Hpub by done. auto.
      * left. exists e'. cbn. rewrite Ho, Hid, lookup_insert_eq. split_and!; [done|congruence..].
    + left. exists o. cbn. rewrite Ho, lookup_insert_ne by done. done.
  - right. left. exists b. cbn. auto.
  - right. right. exists dl. cbn. by rewrite Hh.
Qed.

Lemma enqueue_sdb e s : sdb (enqueue e s) = sdb s.
Proof. unfold enqueue. by repeat case_match. Qed.

(** A dispatcher that dies between the broker's confirm and its own commit. *)
Lemma enqueue_inv s e : sys_inv s → sys_inv (enqueue e s).
Proof.
  intros [Hwf Hdb Hdel]. destruct (enqueue_queue e s) as (Hheld & Hqueue & _).
  pose proof (enqueue_sdb e s) as Hd. split; rewrite ?Hd; [done..|]. intros k r Hk Hq.
  destruct (Hdel _ _ Hk Hq) as [Ha|[(b & Hb & Hr)|(dl & Hdl & Hc)]].
  - left. by rewrite Hd.
  - right. left. eauto.
  - right. right. exists dl. by rewrite Hheld.
Qed.

Lemma pending_remove s h1 h2 dl k :
  held s = h1 ++ dl :: h2 → pending s k →
  announced (sdb s) k ∨ (∃ b, b ∈ queue s ∧ run_id_from_message b = Ok k)
  ∨ (∃ dl', dl' ∈ h1 ++ h2 ∧ d_claim dl' = None ∧ run_id_from_message (d_body dl') = Ok k)
  ∨ (d_claim dl = None ∧ run_id_from_message (d_body dl) = Ok k).
Proof.
  intros Hh [?|[?|(dl' & Hin & Hc & Hr)]]; [by left|right; by left|]. right. right.
  rewrite Hh in Hin. apply elem_of_app in Hin as [Hin|[->|Hin]%elem_of_cons]; [left|by right|left];
    exists dl'; rewrite elem_of_app; auto.
Qed.

(** Taking a delivery out of [held] and settling it. *)
Lemma settle_body_inv s h1 h2 dl disp d' :
  sys_inv s → held s = h1 ++ dl :: h2 → refines limits sm lease (sdb s) d' →
  (∀ k, d_claim dl = None → run_id_from_message (d_body dl) = Ok k → disp ≠ NackRequeue →
     ∀ r, runs d' !! k = Some r → Run.execution_status r ≠ QUEUED) →
  sys_inv (settle_body disp (d_body dl) d' (h1 ++ h2) s).
Proof.
  intros Hs Hh Href Hcons.
  assert (sdb (settle_body disp (d_body dl) d' (h1 ++ h2) s) = d') as Hdb by (by destruct disp).
  assert (held (settle_body disp (d_body dl) d' (h1 ++ h2) s) = h1 ++ h2) as Hheld by (by destruct disp).
  assert (∀ b, b ∈ queue s → b ∈ queue (settle_body disp (d_body dl) d' (h1 ++ h2) s)) as Hq
    by (destruct disp; cbn; set_solver).
  eapply sys_inv_refines; [exact Hs|by rewrite Hdb|]. rewrite Hdb. unfold pending at 2.
  rewrite Hdb, Hheld. intros k Hp.
  destruct (pending_remove _ _ _ _ _ Hh Hp) as [Ha|[(b & Hb & Hr)|[Hd|[Hc Hr]]]].
  - right. left. left. eapply announced_mono; [|exact Ha]. by apply rtc_life_queued, Href.
  - right. left. right. left. eauto.
  - right. left. by right; right.
  - destruct (decide (disp = NackRequeue)) as [->|Hne].
    + right. left. right. left. exists (d_body dl). split; [cbn; set_solver|done].
    + destruct (runs d' !! k) as [r|] eqn:Ek; [|by left]. right. right. exists r. eauto.
Qed.

Lemma step_inv s s' : sys_inv s → step s s' → sys_inv s'.
Proof.
  intros Hs Hst. pose proof (si_wf _ Hs) as Hwf. pose proof (si_db _ Hs) as Hdb. destruct Hst.
  - by eapply sys_inv_db, submit_refines.
  - by eapply sys_inv_db, replay_refines.
  - by eapply sys_inv_db, evaluate_refines.
  - by eapply sys_inv_db, recover_refines.
  - by eapply sys_inv_db, schedule_refines.
  - apply sys_inv_db; [done|]. apply refines_once; [by apply life_frame|].
    apply db_wf_with_quotas; [done|]. eapply charge_quotas_ok; [apply Hwf|done].
  - by eapply dispatch_inv.
  - by eapply enqueue_inv.
  - destruct Hs as [_ _ Hdel]. split; [done..|]. intros k r Hk Hq. cbn in *.
    destruct (Hdel _ _ Hk Hq) as [?|[(b' & Hb & Hr)|(dl & Hdl & Hc & Hr)]]; [by left| |].
    + rewrite H0 in Hb. apply elem_of_app in Hb as [Hb|[->|Hb]%elem_of_cons].
      * right. left. exists b'. cbn. set_solver.
      * right. right. eexists. cbn. rewrite elem_of_app, list_elem_of_singleton. by split; [right|].
      * right. left. exists b'. cbn. set_solver.
    + right. right. exists dl. cbn. set_solver.
  - eapply settle_body_inv; [done..|by eapply receive_refines|].
    intros k Hc Hr Hne r Hk. destruct disp; [|done|by eapply receive_rejected in H2].
    eapply receive_consumed; eauto.
  - by eapply settle_body_inv; [done..|by eapply receive_refines|].
  - eapply sys_inv_refines; [exact Hs|by eapply receive_refines|]. cbn. intros k Hp.
    destruct (pending_remove _ _ _ _ _ H0 Hp) as [Ha|[(b & Hb & Hr)|[(dl' & Hin & Hd)|[Hc Hr]]]].
    + right. left. left. cbn. eapply announced_mono; [|exact Ha].
      by apply rtc_life_queued; eapply receive_refines.
    + right. left. right. left. eauto.
    + right. left. right. right. exists dl'. cbn. split; [|done]. set_solver.
    + destruct (runs d' !! k) as [r|] eqn:Ek; [|by left]. right. right. exists r. split; [done|].
      eapply receive_consumed; eauto.
  - eapply settle_body_inv; [done..|by eapply settle_refines|]. congruence.
  - eapply settle_body_inv; [done..|by eapply settle_refines|]. congruence.
  - eapply settle_body_inv; [done..|by apply refines_refl|]. done.
Qed.

Lemma reachable_inv s : reachable s → sys_inv s.
Proof.
  intros Hr. assert (sys_inv boot) as Hb.
  { split; [apply db_wf_empty|apply db_inv_empty|]. intros k r Hk. by destruct (lookup_empty_Some _ _ Hk). }
  revert Hb. unfold reachable in Hr. generalize boot Hr. intros s0 Hr0 Hb.
  induction Hr0; eauto using step_inv.
Qed.
End System.
