(* ===== verification/Simulator.v ===== *)
(** * A simulator of the running system

    An executable schedule interpreter for the step relation of [System]: the actions
    are the calls of API, dispatcher, broker, workers, recovery and retry scheduling, and
    every schedule the interpreter accepts is a path of the relation ([simulate_steps]).
    The scenarios at the end drive a demonstration host through submission, dispatch,
    claim, failure, retry and success; the witnesses of the theorems are read off them. *)

From S2P Require Import Prelude Float64 PyValue States Retry Models Quotas Canonical RunService.
From S2P Require Import ExecutionService Lifecycle Refinement Messaging System.
Local Open Scope Z_scope.

(** One action of a schedule; deliveries and settlements concern the first message of the
    queue and the first delivery a worker holds. *)
Inductive action :=
| ASubmit (tx : Tx) (client key : string) (input policy : dict) (kind : WorkKind)
| ADispatch (now : time)
| ADeliver (worker : string)
| AReceive (now : time)
| ASettle (outcome : result ExecutionResult) (now : time)
| ARecover (now : time) (batch : Z)
| ASchedule (now : time) (batch : Z)
| ACrash.

Definition policy_okb (policy : dict) : bool :=
  match from_snapshot policy with
  | Ok p => num_le (NFloat (max_backoff_seconds p)) (NInt 86400)
  | Err _ => false
  end.

Section Simulator.
Context `{Host} (limits : QuotaLimits) (sm lease : Z) (job_timeout : num) (check_schema : json → bool).
Abbreviation step := (step limits sm lease job_timeout check_schema).

Definition run_action (a : action) (s : sys) : option sys :=
  match a with
  | ASubmit tx c key input policy kind =>
      if bool_decide (c ≠ "") && bool_decide (kind ≠ wk_evaluation) && policy_okb policy
      then Some (with_db (submit limits tx c key input policy None kind (sdb s)).2 s) else None
  | ADispatch now =>
      e ← next_outbox (λ _, true) (sdb s);
      Some (with_db (_dispatch_one now now (λ _, true) (λ _, Ok tt) (sdb s)).2 (enqueue e s))
  | ADeliver w =>
      match queue s with
      | b :: q => Some {| sdb := sdb s; queue := q;
                          held := held s ++ [{| d_worker := w; d_body := b; d_claim := None |}];
                          dead_letters := dead_letters s |}
      | [] => None
      end
  | AReceive now =>
      match held s with
      | {| d_worker := w; d_body := b; d_claim := None |} :: h =>
          match receive lease limits sm w now now b (sdb s) with
          | (inl disp, d') => Some (settle_body disp b d' h s)
          | (inr c, d') => Some {| sdb := d'; queue := queue s;
                                   held := {| d_worker := w; d_body := b; d_claim := Some c |} :: h;
                                   dead_letters := dead_letters s |}
          end
      | _ => None
      end
  | ASettle outcome now =>
      match held s with
      | {| d_worker := w; d_body := b; d_claim := Some c |} :: h =>
          let '(disp, d') := settle w (λ _ _ _ _, outcome) now now c (sdb s) in
          Some (settle_body disp b d' h s)
      | _ => None
      end
  | ARecover now n => Some (with_db (recover_expired_leases now now (λ _, true) n (sdb s)).2 s)
  | ASchedule now n => Some (with_db (schedule_due_retries now now (λ _, true) n (sdb s)).2 s)
  | ACrash =>
      match held s with
      | dl :: h => Some (settle_body NackRequeue (d_body dl) (sdb s) h s)
      | [] => None
      end
  end.

Fixpoint simulate (l : list action) (s : sys) : option sys :=
  match l with
  | [] => Some s
  | a :: l => s' ← run_action a s; simulate l s'
  end.

Lemma policy_okb_ok policy : policy_okb policy = true → ∃ p, policy_ok policy p.
Proof.
  unfold policy_okb, policy_ok. destruct (from_snapshot policy) as [p|]; [|done]. by exists p.
Qed.

(** The interpreter only takes steps of the relation. *)
Lemma run_action_step a s s' : run_action a s = Some s' → step s s'.
Proof.
  destruct a as [tx c key input policy kind|now|w|now|outcome now|now n|now n|]; cbn.
  - destruct (_ && _) eqn:E; [|done]. intros [= <-]. bool_to_prop.
    destruct (policy_okb_ok policy) as (p & Hp); [done|].
    eapply step_submit; [done|done|exact Hp|apply surjective_pairing].
  - destruct (next_outbox _ _) as [e|] eqn:E; [|done]. intros [= <-].
    by eapply (step_dispatch _ _ _ _ _ _ now now (λ _, true) (λ _, Ok tt) _ _ e true);
      [done|apply surjective_pairing|].
  - destruct (queue s) as [|b q] eqn:E; [done|]. intros [= <-].
    apply (step_deliver _ _ _ _ _ s w b [] q). done.
  - destruct (held s) as [|[w b [c|]] h] eqn:E; [done..|].
    destruct (receive _ _ _ _ _ _ _ _) as [[disp|c] d'] eqn:Er; intros [= <-].
    + by apply (step_receive _ _ _ _ _ s now now [] h {| d_worker := w; d_body := b; d_claim := None |}).
    + by apply (step_claimed _ _ _ _ _ s now now [] h {| d_worker := w; d_body := b; d_claim := None |}).
  - destruct (held s) as [|[w b [c|]] h] eqn:E; [done| |done].
    destruct (settle _ _ _ _ _ _) as [disp d'] eqn:Es. intros [= <-].
    by eapply (step_settle _ _ _ _ _ s (λ _ _ _ _, outcome) now now [] h
                 {| d_worker := w; d_body := b; d_claim := Some c |}).
  - intros [= <-]. eapply step_recover. apply surjective_pairing.
  - intros [= <-]. eapply step_schedule. apply surjective_pairing.
  - destruct (held s) as [|dl h] eqn:E; [done|]. intros [= <-].
    by apply (step_redeliver _ _ _ _ _ s [] h dl).
Qed.

Lemma simulate_steps l s s' : simulate l s = Some s' → rtc step s s'.
Proof.
  revert s. induction l as [|a l IH]; cbn; intros s Hs; [by simplify_eq|].
  destruct (run_action a s) as [s1|] eqn:E; [|done].
  eapply rtc_l; [by eapply run_action_step|by apply IH].
Qed.

(** The state a schedule leads to. *)
Definition after (l : list action) (s : sys) : sys := default s (simulate l s).

Lemma after_steps l s : is_Some (simulate l s) → rtc step s (after l s).
Proof. intros [s' Hs]. unfold after. rewrite Hs. cbn. by apply (simulate_steps l). Qed.
End Simulator.

(** ** Scenarios *)

(** Two runs per principal may be active and one running. *)
Definition demo_limits : QuotaLimits :=
  {| principal_active := 2; tenant_active := 3; principal_calls := 2; tenant_calls := 3;
     window_seconds := 3600; principal_running := 1; tenant_running := 2 |}.
Definition demo_tx : Tx := {| tx_now := seconds 1; tx_epoch := 1; tx_trace := [] |}.
Definition demo_policy : dict := as_snapshot sample_policy.
Definition demo_input : dict := [("prompt", JStr "hello")].
Definition demo_result : ExecutionResult :=
  {| er_provider := "openai"; er_result_payload := [("text", JStr "hi")]; er_usage_metadata := None |}.
Definition demo_submit : action := ASubmit demo_tx "acme" "key-1" demo_input demo_policy wk_execution.

(** A run of [acme] accepted, and its message on its way. *)
Definition queued_schedule : list action := [demo_submit].
(** A worker has claimed it. *)
Definition running_schedule : list action :=
  queued_schedule ++ [ADispatch (seconds 2); ADeliver "worker-1"; AReceive (seconds 3)].
(** The provider timed out: the run waits for its second attempt. *)
Definition retry_schedule : list action := running_schedule ++ [ASettle (Err TimeoutError) (seconds 4)].
(** The second attempt succeeds. *)
Definition done_schedule : list action :=
  retry_schedule ++ [ASchedule (seconds 100) 10; ADispatch (seconds 101); ADeliver "worker-2";
                     AReceive (seconds 102); ASettle (Ok demo_result) (seconds 103)].

Section Scenarios.
#[local] Existing Instance demo_host.
Abbreviation play := (after demo_limits 5 60).
Definition demo_queued : sys := play queued_schedule boot.
Definition demo_running : sys := play running_schedule boot.
Definition demo_retry : sys := play retry_schedule boot.
Definition demo_done : sys := play done_schedule boot.
Abbreviation reachable := (reachable demo_limits 5 60 (NInt 60) (λ _, true)).

Lemma demo_job_timeout : num_in 1 3600 (NInt 60).
Proof. exists (60 * unit64). split; [done|]. pose proof unit64_pos. lia. Qed.

Lemma played l : bool_decide (is_Some (simulate demo_limits 5 60 l boot)) = true → reachable (play l boot).
Proof. intros Hs%bool_decide_eq_true. by apply after_steps. Qed.

Lemma demo_queued_reachable : reachable demo_queued.
Proof. apply played. by vm_compute. Qed.
Lemma demo_running_reachable : reachable demo_running.
Proof. apply played. by vm_compute. Qed.
Lemma demo_retry_reachable : reachable demo_retry.
Proof. apply played. by vm_compute. Qed.
Lemma demo_done_reachable : reachable demo_done.
Proof. apply played. by vm_compute. Qed.

(** The scenarios are what they say. *)
Lemma scenario_statuses :
  (Run.execution_status <$> runs (sdb demo_queued) !! 0%N) = Some QUEUED
  ∧ (Run.execution_status <$> runs (sdb demo_running) !! 0%N) = Some RUNNING
  ∧ (Run.execution_status <$> runs (sdb demo_retry) !! 0%N) = Some RETRY_SCHEDULED
  ∧ (Run.execution_status <$> runs (sdb demo_done) !! 0%N) = Some SUCCEEDED.
Proof. by vm_compute. Qed.
End Scenarios.
