(* ===== verification/Guarantees.v ===== *)
(** * Guarantees of the running system

    What holds in every state the system of [System] can reach, whatever the order in
    which API calls, dispatchers, workers, recovery and the broker act. *)

From S2P Require Import Prelude Float64 PyValue States Retry Models Quotas Canonical RunService.
From S2P Require Import ExecutionService Lifecycle Refinement Messaging System.
Local Open Scope Z_scope.

(** Equal in every column but the evaluation status. *)
Definition same_outcome (r r' : Run.t) : Prop :=
  Run.set_evaluation_status EVAL_NOT_RUN r = Run.set_evaluation_status EVAL_NOT_RUN r'.

#[export] Instance same_outcome_equiv : Equivalence same_outcome.
Proof. split; [by intros r|by intros r r' Heq; symmetry|]. intros r1 r2 r3. unfold same_outcome. congruence. Qed.

Section Guarantees.
Context `{Host} (limits : QuotaLimits) (sm lease : Z) (job_timeout : num) (check_schema : json → bool).
Context (Hjob : num_in 1 3600 job_timeout).
Abbreviation life := (life limits sm lease).
Abbreviation step := (step limits sm lease job_timeout check_schema).
Abbreviation reachable := (reachable limits sm lease job_timeout check_schema).
Abbreviation sys_inv := (sys_inv limits sm).

(** ** What one change does to a run *)

(** What becomes of run [k] from [d] to [d']. *)
Definition run_evolves (d d' : db) (k : uuid) : Prop :=
  ∀ r, runs d !! k = Some r →
  ∃ r', runs d' !! k = Some r' ∧ run_identity r' = run_identity r
    ∧ (is_active (Run.execution_status r) = false →
         same_outcome r r' ∧ attempts_of k d' ≡ₚ attempts_of k d).

Lemma run_evolves_same d d' k :
  runs d' !! k = runs d !! k → attempts_of k d' ≡ₚ attempts_of k d → run_evolves d d' k.
Proof. intros Hr Ha r Hk. exists r. rewrite Hr. by split_and!. Qed.

Lemma run_evolves_trans d d1 d2 k : run_evolves d d1 k → run_evolves d1 d2 k → run_evolves d d2 k.
Proof.
  intros H1 H2 r Hk. destruct (H1 r Hk) as (r1 & Hr1 & Hi1 & Ho1).
  destruct (H2 r1 Hr1) as (r2 & Hr2 & Hi2 & Ho2). exists r2.
  split_and!; [done|congruence|]. intros Hact. destruct (Ho1 Hact) as [Hs1 Ha1].
  destruct Ho2 as [Hs2 Ha2].
  - by replace (Run.execution_status r1) with (Run.execution_status r) by exact (f_equal Run.execution_status Hs1).
  - split; [by etrans|by rewrite Ha2].
Qed.

Lemma run_evolves_update d d' k0 k r r' :
  runs d !! k0 = Some r → runs d' = <[k0 := r']> (runs d) → run_identity r' = run_identity r →
  (is_active (Run.execution_status r) = false → same_outcome r r') →
  (is_active (Run.execution_status r) = false ∨ k ≠ k0 → attempts_of k d' ≡ₚ attempts_of k d) →
  run_evolves d d' k.
Proof.
  intros Hk Hd Hid Ho Ha. destruct (decide (k = k0)) as [->|Hne].
  - intros r0 Hr0. assert (r0 = r) as -> by congruence. exists r'. rewrite Hd, lookup_insert_eq.
    split_and!; try done. intros Hact. split; auto.
  - apply run_evolves_same; [by rewrite Hd, lookup_insert_ne|auto].
Qed.

Lemma life_evolves d d' k : life d d' → run_evolves d d' k.
Proof.
  destruct 1 as [Hr Ha|r0 eo p Hf Hr Ha|r0 r1 Hk Hr Ha ? ? Hm _|r0 a p now tx w pr Hk Hs Hfa Ha _ _ _ _ Hr Had
                |r0 r1 a a' Hk Hs Ha Hrun Ho Hfin Hend Hr Had|e e' ? ? ? ? ? Hr Ha].
  - apply run_evolves_same; [by rewrite Hr|unfold attempts_of; by rewrite Ha].
  - intros r Hk. exists r. rewrite Hr, lookup_insert_ne by congruence.
    split_and!; [done..|]. intros _. split; [done|]. unfold attempts_of. by rewrite Ha.
  - eapply run_evolves_update; [exact Hk|exact Hr|by apply move_identity| |].
    + destruct Hm as [now r Hs|now r Hs|r Hs|st r]; rewrite ?Hs; done.
    + intros _. unfold attempts_of. by rewrite Ha.
  - eapply run_evolves_update; [exact Hk|exact Hr|done| |]; rewrite ?Hs.
    + done.
    + intros [?|Hne]; [done|]. unfold attempts_of. rewrite Had, rows_where_fresh by done. cbv beta.
      rewrite bool_decide_false; [done|]. rewrite Ha. cbn. congruence.
  - eapply run_evolves_update; [exact Hk|exact Hr|by apply ending_identity| |]; rewrite ?Hs.
    + done.
    + intros [?|Hne]; [done|]. destruct Hfin as (? & ? & _).
      eapply attempts_of_update_other; eauto; congruence.
  - apply run_evolves_same; [by rewrite Hr|unfold attempts_of; by rewrite Ha].
Qed.

Lemma rtc_life_evolves d d' k : rtc life d d' → run_evolves d d' k.
Proof.
  induction 1 as [d|d d1 d2 H1 _ IH]; [by apply run_evolves_same|].
  eapply run_evolves_trans; [by apply life_evolves|done].
Qed.

(** Each row of the outbox was there before, up to its publication columns. *)
Definition same_rows (d d' : db) : Prop :=
  ∀ o e', outbox d' !! o = Some e' →
  ∃ e, outbox d !! o = Some e ∧ OutboxEvent.aggregate_id e = OutboxEvent.aggregate_id e'
       ∧ OutboxEvent.payload e = OutboxEvent.payload e'.

Lemma same_rows_same d d' : outbox d' = outbox d → same_rows d d'.
Proof. intros Ho o e. rewrite Ho. eauto. Qed.

(** A step is a sequence of lifecycle changes, or leaves runs, attempts, evaluations and
    the contents of the outbox alone. *)
Lemma step_life s s' :
  sys_inv s → step s s' →
  rtc life (sdb s) (sdb s')
  ∨ (runs (sdb s') = runs (sdb s) ∧ attempts (sdb s') = attempts (sdb s) ∧ same_rows (sdb s) (sdb s')).
Proof.
  intros Hs Hst. pose proof (si_wf _ _ _ Hs) as Hwf. pose proof (si_db _ _ _ Hs) as Hdb.
  assert (∀ disp b d0 l, sdb (settle_body disp b d0 l s) = d0) as Hsb by (by intros []).
  destruct Hst; rewrite ?Hsb; try (right; split_and!; [done..|by apply same_rows_same]).
  - left. by eapply submit_refines.
  - left. by eapply replay_refines.
  - left. by eapply evaluate_refines.
  - left. by eapply recover_refines.
  - left. by eapply schedule_refines.
  - right. destruct (dispatch_one_some _ _ _ _ _ _ _ _ Hwf H0 H1) as (_ & ? & ? & _ & e' & Ho & _ & Ha & _ & Hp & _).
    split_and!; [done..|]. intros o x. cbn. rewrite Ho, lookup_insert_Some. intros [[<- <-]|[_ Hx]]; [|eauto].
    exists e. split_and!; [|done..]. by destruct (next_outbox_some _ _ _ Hwf H0).
  - right. rewrite enqueue_sdb. split_and!; [done..|by apply same_rows_same].
  - left. by eapply receive_refines.
  - left. by eapply receive_refines.
  - left. by eapply receive_refines.
  - left. by eapply settle_refines.
  - left. by eapply settle_refines.
Qed.

Lemma step_evolves s s' k : sys_inv s → step s s' → run_evolves (sdb s) (sdb s') k.
Proof.
  intros Hs Hst. destruct (step_life _ _ Hs Hst) as [Hl|(Hr & Ha & _)]; [by eapply rtc_life_evolves|].
  apply run_evolves_same; [by rewrite Hr|unfold attempts_of; by rewrite Ha].
Qed.

Lemma steps_evolve s s' k : sys_inv s → rtc step s s' → sys_inv s' ∧ run_evolves (sdb s) (sdb s') k.
Proof.
  intros Hs Hst. induction Hst as [s|s s1 s2 H1 _ IH]; [split; [done|by apply run_evolves_same]|].
  destruct IH as [Hs2 He]; [by eapply step_inv|]. split; [done|].
  eapply run_evolves_trans; [by eapply step_evolves|done].
Qed.

(** ** Theorems *)

(** (C1) No accepted run is ever lost: in every reachable state each run has what it needs to
    make progress or has finished.  A [QUEUED] run has an unpublished outbox row, a message
    in the broker, or a delivery in the hands of a worker; a [RUNNING] run has a lease with
    an expiry that recovery acts on; a [RETRY_SCHEDULED] run has the time of its next
    attempt; a finished run has its completion time. *)
Theorem no_run_is_lost s k r :
  reachable s → runs (sdb s) !! k = Some r →
  match Run.execution_status r with
  | QUEUED => pending s k
  | RUNNING => ∃ w e, Run.execution_lease_owner r = Some w ∧ Run.execution_lease_expires_at r = Some e
  | RETRY_SCHEDULED => is_Some (Run.next_attempt_at r)
  | SUCCEEDED | FAILED | DEAD_LETTERED => is_Some (Run.completed_at r)
  end.
Proof.
  intros Hs%reachable_inv Hk; [|done]. destruct (di_runs _ _ _ (si_db _ _ _ Hs) _ _ Hk).
  unfold lease_inv in ri_lease. destruct (Run.execution_status r) eqn:Hst.
  - by eapply si_delivery.
  - destruct ri_lease as (w & e & a & ? & ? & _). eauto.
  - by apply ri_next.
  - by apply ri_completed.
  - by apply ri_completed.
  - by apply ri_completed.
Qed.

(** (C2) One worker at a time: in every reachable state a run is [RUNNING] exactly when it has
    an open attempt, and then it has exactly one: the attempt of the lease owner, with the
    highest number.  Every other run has no open attempt and no lease. *)
Theorem one_worker_at_a_time s k r :
  reachable s → runs (sdb s) !! k = Some r →
  if bool_decide (Run.execution_status r = RUNNING)
  then ∃ w a, Run.execution_lease_owner r = Some w ∧ filter is_open (attempts_of k (sdb s)) = [a]
              ∧ RunAttempt.worker_id a = w
              ∧ (∀ b, b ∈ attempts_of k (sdb s) → RunAttempt.attempt_number b ≤ RunAttempt.attempt_number a)
  else Run.execution_lease_owner r = None ∧ Run.execution_lease_expires_at r = None
       ∧ filter is_open (attempts_of k (sdb s)) = [].
Proof.
  intros Hs%reachable_inv Hk; [|done]. destruct (di_runs _ _ _ (si_db _ _ _ Hs) _ _ Hk).
  unfold lease_inv in ri_lease. case_bool_decide as Hst.
  - rewrite Hst in ri_lease. destruct ri_lease as (w & e & a & ? & ? & Hf & ? & Hn).
    apply Permutation_singleton_r in Hf. exists w, a. split_and!; try done. intros b Hb.
    apply (list_elem_of_fmap_2 RunAttempt.attempt_number) in Hb. rewrite ri_numbers in Hb.
    apply elem_of_seqZ in Hb. lia.
  - destruct (Run.execution_status r); try done;
      destruct ri_lease as (? & ? & ?%Permutation_nil_r); done.
Qed.

(** (C12) Attempts are numbered and bounded: in every reachable state the attempts of a run
    carry exactly the numbers 1, ..., n without gap or repetition, and n never exceeds the
    attempts of its policy nor the service's own maximum. *)
Theorem attempts_numbered_within_budget s k r :
  0 ≤ sm → reachable s → runs (sdb s) !! k = Some r →
  ∃ p, from_snapshot (Run.policy_snapshot r) = Ok p
    ∧ RunAttempt.attempt_number <$> attempts_of k (sdb s) ≡ₚ seqZ 1 (len (attempts_of k (sdb s)))
    ∧ len (attempts_of k (sdb s)) ≤ Z.min (max_attempts p) sm.
Proof.
  intros Hsm Hs%reachable_inv Hk; [|done]. destruct (di_runs _ _ _ (si_db _ _ _ Hs) _ _ Hk).
  destruct ri_policy as (p & [Hp _] & Hle). exists p. split_and!; try done.
  destruct (post_init_inv _ (from_snapshot_valid _ _ Hp)) as (? & _). lia.
Qed.

(** (C13) The concurrency quotas hold at all times: in every reachable state no principal has
    more than [principal_active] active and [principal_running] running runs, and no tenant
    more than [tenant_active] active and [tenant_running] running runs. *)
Theorem concurrency_quotas_hold s who :
  0 ≤ principal_active limits → 0 ≤ tenant_active limits →
  0 ≤ principal_running limits → 0 ≤ tenant_running limits → reachable s →
  count_runs (active_of_principal who) (sdb s) ≤ principal_active limits
  ∧ count_runs (active_of_tenant who) (sdb s) ≤ tenant_active limits
  ∧ count_runs (running_of_principal who) (sdb s) ≤ principal_running limits
  ∧ count_runs (running_of_tenant who) (sdb s) ≤ tenant_running limits.
Proof.
  intros ? ? ? ? Hs%reachable_inv; [|done]. destruct (si_db _ _ _ Hs).
  specialize (di_active_principal who). specialize (di_active_tenant who).
  specialize (di_running_principal who). specialize (di_running_tenant who). lia.
Qed.

(** (C10) A finished run is final: from a reachable state, whatever happens later, a run that
    has reached [SUCCEEDED], [FAILED] or [DEAD_LETTERED] keeps its status, result, error
    code, times and every other column but the evaluation status, and gets no new attempt. *)
Theorem finished_run_is_final s s' k r :
  reachable s → rtc step s s' → runs (sdb s) !! k = Some r →
  is_terminal_execution_status (Run.execution_status r) = true →
  ∃ r', runs (sdb s') !! k = Some r' ∧ same_outcome r r'
        ∧ attempts_of k (sdb s') ≡ₚ attempts_of k (sdb s).
Proof.
  intros Hs%reachable_inv Hst Hk Ht; [|done].
  destruct (steps_evolve s s' k Hs Hst) as [_ He]. destruct (He r Hk) as (r' & Hr' & _ & Ho).
  exists r'. split; [done|]. apply Ho. by rewrite is_active_terminal, Ht.
Qed.

(** (C5) Submission is idempotent for ever: once [submit] has answered a key with a run, then
    after any further activity of the system a submission of the same client under the same
    key, by any principal, returns that same run as a replay and writes nothing when the
    request hash is the same, and raises [IdempotencyConflictError] and writes nothing when
    it differs. *)
Theorem submit_idempotent_forever s tx c key input policy pol p kind s0 b d1 s2
    tx' input' policy' p' kind' :
  reachable s → c ≠ "" → kind ≠ wk_evaluation → policy_ok policy pol →
  submit limits tx c key input policy p kind (sdb s) = (Ok (s0, b), d1) →
  rtc step (with_db d1 s) s2 →
  if bool_decide (submit_hash input' policy' kind' = submit_hash input policy kind)
  then ∃ s', submit limits tx' c key input' policy' p' kind' (sdb s2) = (Ok (s', true), sdb s2)
             ∧ rs_id s' = rs_id s0
  else submit limits tx' c key input' policy' p' kind' (sdb s2) = (Err IdempotencyConflictError, sdb s2).
Proof.
  intros Hs%reachable_inv Hc Hkind Hpol Hsub Hst; [|done].
  assert (sys_inv (with_db d1 s)) as Hs1.
  { apply (sys_inv_db limits sm lease); [done|]. eapply submit_refines; eauto. apply Hs. }
  eapply submit_idempotent; [apply Hs|exact Hsub| |].
  - intros k r Hk. destruct (steps_evolve _ _ k Hs1 Hst) as [_ He].
    destruct (He r Hk) as (r' & ? & ? & _). eauto.
  - destruct (steps_evolve _ _ inhabitant Hs1 Hst) as [Hs2 _]. apply Hs2.
Qed.
End Guarantees.
