(* ===== verification/ExecutionTheorems.v ===== *)
(** * Claims, completions, recovery and retries

    What each transaction of the execution service achieves: a claim takes an
    exclusive lease, an attempt is completed at most once, a failure leads to a
    retry or to the right terminal status, recovery frees every expired lease, and
    due retries are queued again. *)

From S2P Require Import Prelude Float64 PyValue States Retry Models Quotas Canonical RunService.
From S2P Require Import ExecutionService Lifecycle Refinement Messaging System Guarantees.
Local Open Scope Z_scope.

Section ExecutionTheorems.
Context `{Host} (limits : QuotaLimits) (sm lease : Z).
Abbreviation claim := (claim lease limits sm).

(** ** Claims *)

Lemma claim_claimed_inv now tx k w d c d' :
  db_wf d → claim now tx k w d = (Ok c, d') → cr_decision c = CLAIMED →
  ∃ r p, runs d !! k = Some r ∧ Run.id r = k ∧ Run.execution_status r = QUEUED
    ∧ count_runs (running_of_principal (principal_of r)) d < principal_running limits
    ∧ count_runs (running_of_tenant (Run.client_id r)) d < tenant_running limits
    ∧ claim_policy sm r (_next_attempt_number k d) = Ok p
    ∧ start_attempt lease now tx w r p (_next_attempt_number k d) d = Ok (c, d').
Proof.
  intros Hwf Hc Hd. apply commit_inv in Hc as [(? & _ & ? & _)|(x & Hc & Hx)]; [done|].
  injection Hx as <-. destruct (runs d !! k) as [run|] eqn:Hk; [|by inv_result].
  destruct (wf_run_drawn _ _ _ Hwf Hk) as [Hid _].
  destruct (is_terminal_execution_status _); [by inv_result|].
  destruct (Run.execution_status run) eqn:Hs; try (by repeat split_match_in Hc; inv_result).
  unfold claim_queued in Hc. rewrite Hid in Hc. split_match_in Hc; [by inv_result|]. bool_to_prop.
  destruct (claim_policy _ _ _) as [p|e] eqn:Ep; [by exists run, p|].
  destruct (is_value_error e); [|done]. by inv_result.
Qed.

(** (C15) A claim takes an exclusive lease: when [claim] answers [CLAIMED], the run was
    [QUEUED] and both running limits had room; the run is now leased to this worker until
    [now + lease_seconds], exactly one attempt is added, open, with the next number within the
    policy's and the service's budget and the provider the policy's order gives that number;
    and until the lease expires any further claim, by any worker, answers [ACTIVE_LEASE] and
    changes nothing. *)
Theorem claim_takes_exclusive_lease now tx k w d c d' :
  db_wf d → claim now tx k w d = (Ok c, d') → cr_decision c = CLAIMED →
  ∃ r p a, runs d !! k = Some r ∧ Run.execution_status r = QUEUED
    ∧ count_runs (running_of_principal (principal_of r)) d < principal_running limits
    ∧ count_runs (running_of_tenant (Run.client_id r)) d < tenant_running limits
    ∧ from_snapshot (Run.policy_snapshot r) = Ok p
    ∧ runs d' = <[k := lease_run lease now w r]> (runs d)
    ∧ attempts d !! RunAttempt.id a = None ∧ attempts d' = <[RunAttempt.id a := a]> (attempts d)
    ∧ cr_attempt_id c = Some (RunAttempt.id a) ∧ RunAttempt.run_id a = k ∧ is_open a
    ∧ RunAttempt.attempt_number a = _next_attempt_number k d
    ∧ RunAttempt.attempt_number a ≤ Z.min (max_attempts p) sm
    ∧ provider_at p (RunAttempt.attempt_number a - 1) = Ok (RunAttempt.provider a)
    ∧ ∀ now' tx' w', now' < now + seconds lease →
        claim now' tx' k w' d' = (Ok (claim_result ACTIVE_LEASE k), d').
Proof.
  intros Hwf Hc Hd.
  destruct (claim_claimed_inv _ _ _ _ _ _ _ Hwf Hc Hd) as (r & p & Hr & Hid & Hs & Hcp & Hct & Hpol & Hst).
  unfold claim_policy in Hpol. inv_result. bool_to_prop.
  unfold start_attempt in Hst. apply result_bind_ok in Hst as (prov & Hprov & Hst).
  apply result_bind_ok in Hst as ([] & _ & Hst). injection Hst as <- <-.
  exists r, p, (new_attempt (next_id d) (Run.id r) (_next_attempt_number (Run.id r) d) prov w tx).
  split_and!; try done.
  - eapply table_ok_fresh, Hwf.
  - intros now' tx' w' Hlt. unfold ExecutionService.claim. cbn. rewrite lookup_insert_eq. cbn.
    by rewrite (proj2 (Z.ltb_lt _ _) Hlt).
Qed.

(** [claim] can take a transition the lifecycle table forbids: when a running limit is met
    a [QUEUED] run is put back to [RETRY_SCHEDULED] for one second, which
    [ensure_execution_transition] rejects, and no event records it. *)
Theorem claim_defers_against_table now tx k w d r :
  db_wf d → runs d !! k = Some r → Run.execution_status r = QUEUED →
  principal_running limits ≤ count_runs (running_of_principal (principal_of r)) d →
  claim now tx k w d = (Ok (claim_result NOT_READY k), put_run (defer_run now r) d)
  ∧ Run.execution_status (defer_run now r) = RETRY_SCHEDULED
  ∧ events (put_run (defer_run now r) d) = events d
  ∧ ensure_execution_transition QUEUED RETRY_SCHEDULED = Err InvalidExecutionTransition.
Proof.
  intros Hwf Hk Hs Hle. destruct (wf_run_drawn _ _ _ Hwf Hk) as [<- _]. split_and!; try done.
  unfold ExecutionService.claim. rewrite Hk, Hs.
  change (is_terminal_execution_status QUEUED) with false. cbv iota.
  unfold claim_queued. fold (principal_of r). by rewrite (proj2 (Z.leb_le _ _) Hle).
Qed.

(** ** Completions *)

Lemma not_owned_no_completion now tx k i w x code d :
  owned_attempt now k i w d = None →
  complete_success now tx k i w x d = (Ok false, d)
  ∧ complete_failure now tx k i w code d = (Ok false, d).
Proof. intros Ho. unfold complete_success, complete_failure. by rewrite Ho. Qed.

Definition finished_attempt (i : uuid) (d : db) : Prop :=
  ∃ a, attempts d !! i = Some a ∧ is_Some (RunAttempt.finished_at a).

Lemma finished_not_owned now k i w d : finished_attempt i d → owned_attempt now k i w d = None.
Proof.
  intros (a & Ha & [t Ht]). unfold owned_attempt. destruct (runs d !! k) as [r|]; [|done]. cbn.
  destruct (_owns_active_lease r w now); [|done]. rewrite Ha. cbn.
  rewrite bool_decide_false; [done|]. intros [_ Hn]. congruence.
Qed.

Lemma life_finished d d' i : life limits sm lease d d' → finished_attempt i d → finished_attempt i d'.
Proof.
  intros Hl (a0 & Ha0 & Hf0). unfold finished_attempt.
  destruct Hl as [? Ha|? ? ? ? ? Ha|? ? ? ? Ha|r a p ? ? ? ? ? ? Hfa _ _ _ _ _ _ Ha
                 |r r' a a' ? ? Hka ? Ho Hfin ? ? Ha|? ? ? ? ? ? ? ? Ha]; rewrite Ha; try (by eauto).
  - rewrite lookup_insert_ne by congruence. eauto.
  - destruct (decide (i = RunAttempt.id a)) as [->|Hne].
    + exists a'. rewrite lookup_insert_eq. split; [done|]. apply Hfin.
    + rewrite lookup_insert_ne by done. eauto.
Qed.

(** The hook for evaluation jobs writes neither attempts nor the outbox, and of its run only the
    evaluation status. *)
Lemma finalize_tables tx R D d' :
  db_wf D → _finalize_evaluation_job tx R D = Ok d' → runs D !! Run.id R = Some R →
  attempts d' = attempts D ∧ outbox d' = outbox D ∧ ∃ r', runs d' !! Run.id R = Some r' ∧ same_outcome R r'.
Proof.
  intros HwD HF HR. destruct (finalize_refines limits sm lease _ _ _ _ HwD HF) as [_ (He & Ho & Hk)].
  split_and!; [done..|].
  destruct (Hk (Run.id R)) as [Heq|(r0 & st & Hr0 & Heq)]; rewrite Heq; eexists; (split; [done|]); [done|].
  by assert (r0 = R) as -> by congruence.
Qed.

Lemma fail_attempt_tables now tx run a code rec d d' :
  db_wf d → drawn d (Run.id run) → drawn d (RunAttempt.id a) →
  fail_attempt now tx run a code rec d = Ok d' →
  attempts d' = attempts (put_attempt (_finish_failed_attempt a now code) d)
  ∧ ∃ p r', from_snapshot (Run.policy_snapshot run) = Ok p
    ∧ runs d' !! Run.id run = Some r'
    ∧ if is_retryable_error code && (RunAttempt.attempt_number a <? max_attempts p)
      then ∃ delay next, delay_after_attempt p (RunAttempt.attempt_number a) = Ok delay
             ∧ add_seconds now delay = Ok next ∧ same_outcome (retry_run code next run) r'
      else same_outcome
             (finish_run (if is_retryable_error code then DEAD_LETTERED else FAILED) code now run) r'
           ∧ (is_retryable_error code = true →
                ∃ o, outbox d' !! OutboxEvent.id o = Some o ∧ OutboxEvent.aggregate_id o = Run.id run
                  ∧ OutboxEvent.event_type o = "RUN_DEAD_LETTERED" ∧ OutboxEvent.published_at o = None).
Proof.
  intros Hwf Hrd Had Hf. unfold fail_attempt, _schedule_retry_or_finalize in Hf.
  apply result_bind_ok in Hf as (p & Hp & Hf).
  set (a' := _finish_failed_attempt a now code) in *.
  assert (db_wf (put_attempt a' d)) as Hwfa by (by apply db_wf_put_attempt).
  change (default false (RunAttempt.retryable a')) with (is_retryable_error code) in Hf.
  change (RunAttempt.attempt_number a') with (RunAttempt.attempt_number a) in Hf.
  assert (is_Some (attempts (put_attempt a' d) !! RunAttempt.id a')) as Haa by apply stored_self.
  destruct (is_retryable_error code && (RunAttempt.attempt_number a <? max_attempts p)) eqn:Hretry;
    [|destruct (is_retryable_error code) eqn:Hre].
  - apply result_bind_ok in Hf as (delay & Hdl & Hf). apply result_bind_ok in Hf as (next & Hn & Hf).
    injection Hf as <-. split; [done|]. exists p, (retry_run code next run).
    split_and!; [done|cbn; apply lookup_insert_eq|]. rewrite Hretry. by exists delay, next.
  - match type of Hf with _finalize_evaluation_job _ ?R ?D = _ =>
      destruct (finalize_tables tx R D d') as (Ha & Ho & r' & Hr' & Hs);
        [auto 8 with arr|exact Hf|cbn; apply lookup_insert_eq|] end.
    split; [done|]. exists p, r'. rewrite Hretry. split_and!; [done..|]. intros _. eexists. rewrite Ho. cbn.
    split; [apply lookup_insert_eq|done].
  - match type of Hf with _finalize_evaluation_job _ ?R ?D = _ =>
      destruct (finalize_tables tx R D d') as (Ha & Ho & r' & Hr' & Hs);
        [auto 8 with arr|exact Hf|cbn; apply lookup_insert_eq|] end.
    split; [done|]. exists p, r'. rewrite Hretry. by split_and!.
Qed.

(** A reported failure is retried or ends the run, as the policy says: when
    [complete_failure] takes effect, the attempt is recorded as failed and the run is
    rescheduled after the policy's backoff if the error is retryable and attempts remain, and
    otherwise finishes, without a lease, as [DEAD_LETTERED] with a dead-letter message in the
    outbox for a retryable error, as [FAILED] for another. *)
Theorem failure_retries_or_finishes now tx k i w code d d' :
  db_wf d → complete_failure now tx k i w code d = (Ok true, d') →
  ∃ r a p r', runs d !! k = Some r ∧ attempts d !! i = Some a
    ∧ from_snapshot (Run.policy_snapshot r) = Ok p
    ∧ attempts d' = <[i := _finish_failed_attempt a now code]> (attempts d)
    ∧ runs d' !! k = Some r'
    ∧ if is_retryable_error code && (RunAttempt.attempt_number a <? max_attempts p)
      then ∃ delay next, delay_after_attempt p (RunAttempt.attempt_number a) = Ok delay
             ∧ add_seconds now delay = Ok next ∧ same_outcome (retry_run code next r) r'
      else same_outcome
             (finish_run (if is_retryable_error code then DEAD_LETTERED else FAILED) code now r) r'
           ∧ (is_retryable_error code = true →
                ∃ o, outbox d' !! OutboxEvent.id o = Some o ∧ OutboxEvent.aggregate_id o = k
                  ∧ OutboxEvent.event_type o = "RUN_DEAD_LETTERED" ∧ OutboxEvent.published_at o = None).
Proof.
  intros Hwf Hc. apply commit_inv in Hc as [(? & _ & ? & _)|(b & Hc & Hb)]; [done|].
  injection Hb as <-. destruct (owned_attempt now k i w d) as [[r a]|] eqn:Eo; [|by inv_result].
  destruct (owned_attempt_some _ _ _ _ _ _ _ Hwf Eo) as (Hr & _ & Ha & _ & _ & <- & <- & _).
  apply result_bind_ok in Hc as (d1 & Hf & Hc). injection Hc as <-.
  destruct (wf_run_drawn _ _ _ Hwf Hr) as [_ Hrd], (wf_attempt_drawn _ _ _ Hwf Ha) as [_ Had].
  destruct (fail_attempt_tables _ _ _ _ _ _ _ _ Hwf Hrd Had Hf) as (Hat & p & r' & Hp & Hr' & Hout).
  by exists r, a, p, r'.
Qed.

(** A completion that took effect leaves its attempt finished. *)
Lemma completed_finished now tx k i w x code d d' :
  db_wf d → complete_success now tx k i w x d = (Ok true, d')
            ∨ complete_failure now tx k i w code d = (Ok true, d') →
  finished_attempt i d'.
Proof.
  intros Hwf [Hc|Hc]; apply commit_inv in Hc as [(? & _ & ? & _)|(b & Hc & Hb)]; try done;
    injection Hb as <-; (destruct (owned_attempt now k i w d) as [[r a]|] eqn:Eo; [|by inv_result]);
    destruct (owned_attempt_some _ _ _ _ _ _ _ Hwf Eo) as (Hr & _ & Ha & _ & _ & <- & <- & _);
    apply result_bind_ok in Hc as (d1 & Hf & Hc); injection Hc as <-;
    destruct (wf_run_drawn _ _ _ Hwf Hr) as [_ Hrd], (wf_attempt_drawn _ _ _ Hwf Ha) as [_ Had].
  - apply (finalize_refines limits sm lease) in Hf as [_ (He & _)];
      [|auto 8 with arr].
    exists (succeed_attempt now x a). rewrite He. cbn. rewrite lookup_insert_eq. eauto.
  - destruct (fail_attempt_tables _ _ _ _ _ _ _ _ Hwf Hrd Had Hf) as (Hat & _).
    exists (_finish_failed_attempt a now code). rewrite Hat. cbn. rewrite lookup_insert_eq. eauto.
Qed.

Section Once.
Context (job_timeout : num) (check_schema : json → bool) (Hjob : num_in 1 3600 job_timeout).
Abbreviation step := (step limits sm lease job_timeout check_schema).
Abbreviation reachable := (reachable limits sm lease job_timeout check_schema).

(** (C3) An attempt is completed at most once: once a completion of an attempt has taken
    effect in a reachable state, then after any further activity of the system every other
    completion of that attempt, successful or failed, by the same or another worker, at any
    time, is refused and changes nothing. *)
Theorem attempt_completed_at_most_once s now tx k i w x code d1 s2 now' tx' k' w' x' code' :
  reachable s →
  complete_success now tx k i w x (sdb s) = (Ok true, d1)
  ∨ complete_failure now tx k i w code (sdb s) = (Ok true, d1) →
  rtc step (with_db d1 s) s2 →
  complete_success now' tx' k' i w' x' (sdb s2) = (Ok false, sdb s2)
  ∧ complete_failure now' tx' k' i w' code' (sdb s2) = (Ok false, sdb s2).
Proof.
  intros Hs%reachable_inv Hc Hst; [|done].
  assert (finished_attempt i d1) as Hf by (eapply completed_finished; [apply Hs|exact Hc]).
  assert (sys_inv limits sm (with_db d1 s)) as Hs1.
  { apply (sys_inv_db limits sm lease); [done|]. pose proof (si_wf _ _ _ Hs).
    destruct Hc; by eauto using complete_success_refines, complete_failure_refines. }
  apply not_owned_no_completion, finished_not_owned.
  change d1 with (sdb (with_db d1 s)) in Hf. clear Hc Hs. revert Hs1 Hf.
  induction Hst as [s0|s0 s1 s3 H1 _ IH]; [done|]. intros Hs0 Hf.
  apply IH; [by eapply step_inv|].
  edestruct step_life as [Hl|(_ & Ha & _)]; [exact Hjob|exact Hs0|exact H1| |].
  - revert Hf. induction Hl; eauto using life_finished.
  - unfold finished_attempt. by rewrite Ha.
Qed.
End Once.

(** ** Recovery *)

Lemma finalize_total tx R D :
  (Run.work_kind R = wk_evaluation →
     ∃ k e, evaluations D !! k = Some e ∧ Evaluation.job_run_id e = Some (Run.id R)) →
  ∃ D', _finalize_evaluation_job tx R D = Ok D'.
Proof.
  intros Hev. unfold _finalize_evaluation_job. case_bool_decide as Hk; [|eauto].
  destruct (Hev Hk) as (k & e & He & Hj).
  assert (e ∈ rows_where (λ e, bool_decide (Evaluation.job_run_id e = Some (Run.id R))) (evaluations D)) as Hin.
  { apply elem_of_rows_where. exists k. split; [done|]. by apply bool_decide_eq_true. }
  destruct (rows_where _ _); [by apply not_elem_of_nil in Hin|]. cbn. eauto.
Qed.

(** A day of backoff later than [now] is still a date. *)
Definition clock_ok (now : time) : Prop := now + seconds 86410 ≤ max_datetime.

Lemma retry_delay_total p n now :
  RetryPolicy_post_init p = Ok tt → num_le (NFloat (max_backoff_seconds p)) (NInt 86400) = true →
  1 ≤ n → clock_ok now → ∃ delay next, delay_after_attempt p n = Ok delay ∧ add_seconds now delay = Ok next.
Proof.
  intros Hp Hb Hn Hc. pose proof unit64_pos as Hu.
  destruct (post_init_inv _ Hp) as (_ & _ & (i & m & Hi & Hm & Him) & _). rewrite Hm in Hb.
  rewrite (num_le_fin (NFloat (Fin m)) (NInt 86400) m (86400 * unit64)) in Hb by done. bool_to_prop.
  assert (m < limit64) as Hlim.
  { eapply Z.le_lt_trans; [done|]. rewrite unit64_eq, limit64_eq.
    apply Z.mul_lt_mono_pos_r; reflexivity. }
  eexists _, _. rewrite (delay_after_attempt_value p i m) by (done || lia). split; [done|].
  unfold add_seconds. set (x := Z.max unit64 _). cbn [isfinite].
  assert (timedelta_us (Fin x) ≤ 86400 * 1000000 + 2000002) by (apply timedelta_us_bound; unfold x; lia).
  unfold clock_ok, seconds in Hc. by rewrite (proj2 (Z.leb_le _ _)) by lia.
Qed.

Lemma fail_attempt_total now tx run a code rec d :
  db_inv limits sm d → runs d !! Run.id run = Some run →
  attempts d !! RunAttempt.id a = Some a → RunAttempt.run_id a = Run.id run → clock_ok now →
  ∃ d', fail_attempt now tx run a code rec d = Ok d'.
Proof.
  intros Hinv Hr Ha Hrun Hc. destruct (di_runs _ _ _ Hinv _ _ Hr).
  destruct ri_policy as (p & [Hp Hb] & _).
  assert (1 ≤ RunAttempt.attempt_number a) as Hn.
  { assert (a ∈ attempts_of (Run.id run) d) as Hin
      by (apply elem_of_rows_where; exists (RunAttempt.id a); split; [done|by apply bool_decide_eq_true]).
    apply (list_elem_of_fmap_2 RunAttempt.attempt_number) in Hin. rewrite ri_numbers in Hin.
    apply elem_of_seqZ in Hin. lia. }
  unfold fail_attempt, _schedule_retry_or_finalize. rewrite Hp. cbn [mbind result_bind].
  destruct (retry_delay_total p (RunAttempt.attempt_number a) now) as (delay & next & Hd & Hx);
    [by eapply from_snapshot_valid|done..|].
  change (RunAttempt.attempt_number (_finish_failed_attempt a now code)) with (RunAttempt.attempt_number a).
  rewrite Hd. cbn [mbind result_bind]. rewrite Hx. cbn [mbind result_bind].
  case_match; [eauto|]. case_match; apply finalize_total; intros Hk; by apply ri_evaluation.
Qed.

Lemma recover_one_total now tx run d :
  db_wf d → db_inv limits sm d → still RUNNING d run → clock_ok now →
  ∃ d', recover_one now tx d run = Ok d' ∧ ¬ still RUNNING d' run
    ∧ ∀ k, k ≠ Run.id run → runs d' !! k = runs d !! k
        ∨ ∃ r s, runs d !! k = Some r ∧ runs d' !! k = Some (Run.set_evaluation_status s r).
Proof.
  intros Hwf Hinv (r0 & Hr0 & Hs0) Hc. destruct (di_runs _ _ _ Hinv _ _ Hr0).
  unfold lease_inv in ri_lease. rewrite Hs0 in ri_lease. destruct ri_lease as (w & e & a0 & _ & _ & Hopen & _).
  unfold recover_one. destruct (_latest_open_attempt (Run.id run) d) as [a|] eqn:El.
  2: { exfalso. unfold _latest_open_attempt in El. apply head_None in El.
       match type of El with sort_by _ ?L = _ =>
         pose proof (sort_by_perm newer_attempt L) as Hp;
         assert (L = filter is_open (attempts_of (Run.id run) d)) as HL by (by apply list_filter_iff) end.
       rewrite El, HL in Hp.
       rewrite Hopen in Hp. by apply Permutation_nil_cons in Hp. }
  destruct (latest_open_attempt_some _ _ _ Hwf El) as (Ha & Hrun & Ho).
  rewrite Hr0. cbn. destruct (wf_run_drawn _ _ _ Hwf Hr0) as [Hid _]. rewrite <- Hid in Hr0, Hrun |- *.
  destruct (fail_attempt_total now tx r0 a "EXECUTION_LEASE_EXPIRED" true d) as (d' & Hd'); [done..|].
  exists d'. split; [done|].
  destruct (fail_attempt_refines limits sm lease _ _ _ _ _ _ _ _ Hwf Hr0 Hs0 Ha Hrun Ho Hd')
    as (_ & Hoth & r' & Hr' & Hne).
  split; [|done]. intros (r1 & Hr1 & Hs1). rewrite <- Hid in Hr1. congruence.
Qed.

(** [d'] has the runs of [d] outside [ks], up to evaluation statuses. *)
Definition others_keep (ks : list uuid) (d d' : db) : Prop :=
  ∀ k, k ∉ ks → match runs d !! k, runs d' !! k with
                | Some r, Some r' => same_outcome r r'
                | None, None => True
                | _, _ => False
                end.

Lemma recover_fold_total now tx l : ∀ d,
  db_wf d → db_inv limits sm d → NoDup (Run.id <$> l) → Forall (still RUNNING d) l → clock_ok now →
  ∃ d', fold_result (recover_one now tx) d l = Ok d' ∧ Forall (λ r, ¬ still RUNNING d' r) l
        ∧ others_keep (Run.id <$> l) d d'.
Proof.
  induction l as [|r l IH]; intros d Hwf Hinv Hnd Hst Hc.
  { exists d. split_and!; [done|constructor|]. intros k _. by case_match. }
  apply NoDup_cons in Hnd as [Hnin Hnd]. apply Forall_cons in Hst as [Hr Hl].
  destruct (recover_one_total now tx r d Hwf Hinv Hr Hc) as (d1 & H1 & Hnot & Hoth).
  destruct (recover_one_refines limits sm lease _ _ _ _ _ Hwf Hr H1) as [Href Hkeep].
  destruct (IH d1) as (d' & Hf & Hall & Hk); [apply Href|by eapply refines_inv|done| |done|].
  { rewrite Forall_forall in Hl |- *. intros x Hx. apply Hkeep; [|auto].
    intros Heq. apply Hnin. rewrite <- Heq. by apply list_elem_of_fmap_2. }
  exists d'. cbn [fold_result]. rewrite H1. split_and!; [done| |].
  - constructor; [|done]. intros (r' & Hr' & Hs'). apply Hnot. specialize (Hk (Run.id r) Hnin).
    rewrite Hr' in Hk. destruct (runs d1 !! Run.id r) as [r1|] eqn:E1; [|done]. exists r1. split; [done|].
    by rewrite (f_equal Run.execution_status Hk : Run.execution_status r1 = _).
  - intros k Hkn. rewrite fmap_cons, not_elem_of_cons in Hkn. destruct Hkn as [Hk1 Hk2].
    specialize (Hk k Hk2). destruct (Hoth k Hk1) as [Heq|(r0 & st & Hr0 & Hr0')].
    + by rewrite Heq in Hk.
    + rewrite Hr0, Hr0' in *. destruct (runs d' !! k); [|done]. etrans; [|exact Hk]. done.
Qed.

(** A batch at least as large as the selection is the whole selection. *)
Lemma select_batch_all P key n d k r :
  db_wf d → count_runs P d ≤ n → runs d !! k = Some r → P r = true →
  r ∈ select_batch P key (λ _, true) n d.
Proof.
  intros Hwf Hn Hk HP. unfold select_batch.
  assert (rows_where (λ r0, P r0 && true) (runs d) = rows_where P (runs d)) as ->.
  { unfold rows_where. do 2 f_equal. apply map_filter_ext. intros ? x _. cbn. by rewrite andb_true_r. }
  rewrite take_ge; [rewrite sort_by_perm; apply elem_of_rows_where; eauto|].
  rewrite sort_by_perm. unfold count_runs, count_where, rows_where in *.
  rewrite length_fmap, length_map_to_list. lia.
Qed.

Lemma lease_expired_outcome now r r' : same_outcome r r' → lease_expired now r' = lease_expired now r.
Proof.
  intros Ho. unfold lease_expired.
  by rewrite (f_equal Run.execution_status Ho : Run.execution_status r = _),
    (f_equal Run.execution_lease_expires_at Ho : Run.execution_lease_expires_at r = _).
Qed.

(** A recovery pass over the whole selection. *)
Lemma recover_pass now tx n d :
  db_wf d → db_inv limits sm d → clock_ok now → count_runs (lease_expired now) d ≤ n →
  ∃ d' c, recover_expired_leases now tx (λ _, true) n d = (Ok c, d')
    ∧ (∀ k r, runs d' !! k = Some r → lease_expired now r = false)
    ∧ (∀ k r, runs d !! k = Some r → ∃ r', runs d' !! k = Some r'
        ∧ if lease_expired now r then Run.execution_status r' ≠ RUNNING else same_outcome r r')
    ∧ ∀ k, runs d !! k = None → runs d' !! k = None.
Proof.
  intros Hwf Hinv Hc Hn.
  set (l := select_batch (lease_expired now) Run.execution_lease_expires_at (λ _, true) n d).
  assert (∀ r, r ∈ l → runs d !! Run.id r = Some r ∧ lease_expired now r = true) as Hl
    by (intros r Hr; by apply select_batch_elem in Hr).
  destruct (recover_fold_total now tx l d) as (d' & Hf & Hnot & Hoth); [done..| | |done|].
  { by apply select_batch_nodup. }
  { apply Forall_forall. intros r [Hr HP]%Hl. exists r. unfold lease_expired in HP. by bool_to_prop. }
  rewrite Forall_forall in Hnot.
  assert (∀ k r, runs d !! k = Some r → lease_expired now r = true → k ∈ Run.id <$> l) as Hin.
  { intros k r Er He. apply list_elem_of_fmap. exists r.
    split; [by destruct (wf_run_drawn _ _ _ Hwf Er) as [-> _]|]. by eapply select_batch_all. }
  assert (recover_expired_leases now tx (λ _, true) n d = (Ok (Z.of_nat (length l)), d')) as Hrec
    by (unfold recover_expired_leases; fold l; by rewrite Hf).
  exists d', (Z.of_nat (length l)). split_and!; [done| | |].
  - intros k r' Hk. destruct (decide (k ∈ Run.id <$> l)) as [(r & -> & Hr)%list_elem_of_fmap|Hnin].
    + destruct (lease_expired now r') eqn:He; [|done]. destruct (Hnot r Hr). exists r'.
      unfold lease_expired in He. by bool_to_prop.
    + specialize (Hoth k Hnin). rewrite Hk in Hoth. destruct (runs d !! k) as [r|] eqn:Er; [|done].
      rewrite (lease_expired_outcome _ _ _ Hoth). destruct (lease_expired now r) eqn:He; [|done].
      by destruct Hnin; eapply Hin.
  - intros k r Hk. destruct (lease_expired now r) eqn:He.
    + apply (Hin _ _ Hk) in He as (r0 & -> & Hr0)%list_elem_of_fmap.
      assert (refines limits sm lease d d') as [Hlife _] by (by eapply recover_refines).
      destruct (rtc_life_evolves limits sm lease _ _ (Run.id r0) Hlife r Hk) as (r' & Hr' & _).
      exists r'. split; [done|]. intros Hs. destruct (Hnot r0 Hr0). by exists r'.
    + assert (k ∉ Run.id <$> l) as Hnin.
      { intros (r0 & -> & Hr0)%list_elem_of_fmap. apply Hl in Hr0 as [Hr0 He0]. congruence. }
      specialize (Hoth k Hnin). rewrite Hk in Hoth. destruct (runs d' !! k) as [r'|]; [by exists r'|done].
  - intros k Hk. assert (k ∉ Run.id <$> l) as Hnin.
    { intros (r0 & -> & Hr0)%list_elem_of_fmap. apply Hl in Hr0 as [Hr0 _]. congruence. }
    specialize (Hoth k Hnin). rewrite Hk in Hoth. by destruct (runs d' !! k).
Qed.

Section Reach.
Context (job_timeout : num) (check_schema : json → bool) (Hjob : num_in 1 3600 job_timeout).
Abbreviation reachable := (reachable limits sm lease job_timeout check_schema).

(** Recovery frees every expired lease: in a reachable state, a recovery pass that can
    lock all rows and whose batch covers the expired leases succeeds, counts them, and leaves
    no run with an expired lease: each of them has been rescheduled or finished.  The only
    assumption on the clock is that a day later is still a representable date. *)
Theorem recovery_frees_expired_leases s now tx n :
  reachable s → clock_ok now → count_runs (lease_expired now) (sdb s) ≤ n →
  ∃ d' c, recover_expired_leases now tx (λ _, true) n (sdb s) = (Ok c, d')
    ∧ ∀ k r, runs d' !! k = Some r → lease_expired now r = false.
Proof.
  intros Hs%reachable_inv Hc Hn; [|done].
  destruct (recover_pass now tx n (sdb s)) as (d' & c & Hr & Hclear & _ & _); [apply Hs|apply Hs|done..|].
  by exists d', c.
Qed.

(** ** Due retries *)

Lemma schedule_fold_spec now tx l : ∀ d,
  db_wf d → NoDup (Run.id <$> l) →
  Forall (λ r, runs d !! Run.id r = Some r ∧ Run.execution_status r = RETRY_SCHEDULED) l →
  ∃ d', fold_result (schedule_one now tx) d l = Ok d' ∧ outbox d ⊆ outbox d'
    ∧ Forall (λ r, runs d' !! Run.id r = Some (requeue_run r) ∧ announced d' (Run.id r)) l
    ∧ ∀ k, k ∉ Run.id <$> l → runs d' !! k = runs d !! k.
Proof.
  induction l as [|r l IH]; intros d Hwf Hnd Hst.
  { exists d. split_and!; [done|done|constructor|done]. }
  apply NoDup_cons in Hnd as [Hnin Hnd]. apply Forall_cons in Hst as [[Hr Hs] Hl].
  destruct (schedule_one now tx d r) as [d1|] eqn:E; [|done].
  destruct (schedule_one_refines limits sm lease _ _ _ _ _ Hwf Hr Hs E) as (Href & Hd1 & Hann).
  destruct (IH d1) as (d' & Hf & Hsub & Hall & Hk); [apply Href|done| |].
  { rewrite Forall_forall in Hl |- *. intros x Hx. rewrite Hd1, lookup_insert_ne; [auto|].
    intros Heq. apply Hnin. rewrite Heq. by apply list_elem_of_fmap_2. }
  exists d'. cbn [fold_result]. rewrite E. split_and!; [done| | |].
  - etrans; [|exact Hsub]. by apply (rtc_life_queued limits sm lease), Href.
  - constructor; [|done]. split; [|by eapply announced_mono]. rewrite Hk by done.
    by rewrite Hd1, lookup_insert_eq.
  - intros k Hkn. rewrite fmap_cons, not_elem_of_cons in Hkn. destruct Hkn as [Hk1 Hk2].
    by rewrite Hk, Hd1, lookup_insert_ne.
Qed.

(** A scheduling pass over the whole selection. *)
Lemma schedule_pass now tx n d :
  db_wf d → count_runs (retry_due now) d ≤ n →
  ∃ d' c, schedule_due_retries now tx (λ _, true) n d = (Ok c, d')
    ∧ (∀ k r, runs d !! k = Some r →
        if retry_due now r
        then runs d' !! k = Some (requeue_run r) ∧ Run.execution_status (requeue_run r) = QUEUED
             ∧ announced d' k
        else runs d' !! k = Some r)
    ∧ ∀ k, runs d !! k = None → runs d' !! k = None.
Proof.
  intros Hwf Hn.
  set (l := select_batch (retry_due now) Run.next_attempt_at (λ _, true) n d).
  assert (∀ r, r ∈ l → runs d !! Run.id r = Some r ∧ retry_due now r = true) as Hl
    by (intros r Hr; by apply select_batch_elem in Hr).
  destruct (schedule_fold_spec now tx l d) as (d' & Hf & _ & Hall & Hoth); [done|..].
  { by apply select_batch_nodup. }
  { apply Forall_forall. intros r [Hr HP]%Hl. unfold retry_due in HP. by bool_to_prop. }
  exists d', (Z.of_nat (length l)). unfold schedule_due_retries. fold l. rewrite Hf. split_and!; [done| |].
  2: { intros k Hk. rewrite Hoth; [done|]. intros (r0 & -> & Hin)%list_elem_of_fmap.
       apply Hl in Hin as [Hr0 _]. congruence. }
  intros k r Hk. destruct (wf_run_drawn _ _ _ Hwf Hk) as [Hid _].
  destruct (retry_due now r) eqn:Hdue.
  - pose proof (select_batch_all (retry_due now) Run.next_attempt_at n d k r Hwf Hn Hk Hdue) as Hin.
    rewrite Forall_forall in Hall. apply Hall in Hin as [Hr Ha]. rewrite Hid in Hr, Ha. done.
  - rewrite Hoth; [done|]. intros (r0 & -> & Hin)%list_elem_of_fmap. apply Hl in Hin as [Hr0 Hd0]. congruence.
Qed.

(** Due retries are queued again: in a reachable state, a scheduling pass that can lock all
    rows and whose batch covers the due retries succeeds, makes each of them [QUEUED] with a
    fresh unpublished outbox row in the same transaction, leaves no due retry behind and no
    other run touched. *)
Theorem due_retries_are_queued s now tx n :
  reachable s → count_runs (retry_due now) (sdb s) ≤ n →
  ∃ d' c, schedule_due_retries now tx (λ _, true) n (sdb s) = (Ok c, d')
    ∧ ∀ k r, runs (sdb s) !! k = Some r →
        if retry_due now r
        then runs d' !! k = Some (requeue_run r) ∧ Run.execution_status (requeue_run r) = QUEUED
             ∧ announced d' k
        else runs d' !! k = Some r.
Proof.
  intros Hs%reachable_inv Hn; [|done].
  destruct (schedule_pass now tx n (sdb s)) as (d' & c & Hd & Hall & _); [apply Hs|done|]. by exists d', c.
Qed.
End Reach.
End ExecutionTheorems.
