(* ===== verification/Moves.v ===== *)
(** * The moves of a run

    What one transaction of the system does to the row of one run: [lifecycle_move] lists the
    moves with the condition under which the code makes each of them, and [runs_follow_lifecycle]
    shows that every step of [System] makes at most one of them on each run.  A transaction that
    moves several runs ([recover_expired_leases], [schedule_due_retries]) moves each at most
    once. *)

From S2P Require Import Prelude Float64 PyValue States Retry Models Quotas Canonical RunService.
From S2P Require Import ExecutionService Lifecycle Refinement Messaging System Guarantees ExecutionTheorems.
Local Open Scope Z_scope.

(** The execution of [r] may be ended at [now]: by the worker that owns its lease, or by the
    recovery once the lease has expired. *)
Definition may_end (now : time) (r : Run.t) : Prop :=
  (∃ worker, _owns_active_lease r worker now = true) ∨ lease_expired now r = true.

Section Moves.
Context `{Host} (limits : QuotaLimits) (sm lease : Z).

(** A running limit of the run's principal or tenant is met in [d]. *)
Definition running_limit_met (d : db) (r : Run.t) : Prop :=
  principal_running limits ≤ count_runs (running_of_principal (principal_of r)) d
  ∨ tenant_running limits ≤ count_runs (running_of_tenant (Run.client_id r)) d.

(** The moves of a run [r] of the database [d]. *)
Inductive lifecycle_move (d : db) (r : Run.t) : Run.t → Prop :=
| lm_stay : lifecycle_move d r r
| lm_claim now worker :
    Run.execution_status r = QUEUED → ¬ running_limit_met d r →
    is_ok (claim_policy sm r (_next_attempt_number (Run.id r) d)) = true →
    lifecycle_move d r (lease_run lease now worker r)
| lm_defer now :
    Run.execution_status r = QUEUED → running_limit_met d r → lifecycle_move d r (defer_run now r)
| lm_reject now :
    Run.execution_status r = QUEUED → ¬ running_limit_met d r →
    is_ok (claim_policy sm r (_next_attempt_number (Run.id r) d)) = false →
    lifecycle_move d r (reject_run now r)
| lm_succeed now worker x :
    _owns_active_lease r worker now = true → lifecycle_move d r (succeed_run now x r)
| lm_retry now code at_ :
    may_end now r → is_retryable_error code = true → lifecycle_move d r (retry_run code at_ r)
| lm_dead now code :
    may_end now r → is_retryable_error code = true →
    lifecycle_move d r (finish_run DEAD_LETTERED code now r)
| lm_fail now code :
    may_end now r → is_retryable_error code = false →
    lifecycle_move d r (finish_run FAILED code now r)
| lm_requeue now :
    retry_due now r = true → lifecycle_move d r (requeue_run r).

Lemma may_end_running now r : may_end now r → Run.execution_status r = RUNNING.
Proof. unfold may_end, _owns_active_lease, lease_expired. intros [(w & Hw)|Hw]; by bool_to_prop. Qed.

Lemma lifecycle_move_identity d r r1 : lifecycle_move d r r1 → run_identity r1 = run_identity r.
Proof. by destruct 1. Qed.

(** The statuses of a move. *)
Lemma lifecycle_move_status d r r1 :
  lifecycle_move d r r1 →
  Run.execution_status r1 = Run.execution_status r
  ∨ ensure_execution_transition (Run.execution_status r) (Run.execution_status r1) = Ok tt
  ∨ (Run.execution_status r = QUEUED ∧ Run.execution_status r1 = RETRY_SCHEDULED ∧ running_limit_met d r).
Proof.
  rewrite ensure_ok_iff.
  destruct 1 as [|now w Hs|now Hs Hl|now Hs|now w x Ho|now c at_ Hm|now c Hm|now c Hm|now Hd]; [by left|..]; right;
    try (apply may_end_running in Hm as Hs);
    try (assert (Run.execution_status r = RUNNING) as Hs by (apply (may_end_running now); left; eauto));
    try (assert (Run.execution_status r = RETRY_SCHEDULED) as Hs by (unfold retry_due in Hd; by bool_to_prop));
    rewrite Hs; cbn; try (left; by apply (bool_decide_unpack _)).
  by right.
Qed.

(** ** One transaction *)

(** Every run of [d] makes at most one move, up to the evaluation status; the runs [d'] has
    besides are new. *)
Definition tx_moves (d d' : db) : Prop :=
  ∀ k, match runs d !! k with
       | Some r => ∃ r1 r', runs d' !! k = Some r' ∧ lifecycle_move d r r1 ∧ same_outcome r1 r'
       | None => ∀ r', runs d' !! k = Some r' → is_new r'
       end.

Lemma same_outcome_new r r' : same_outcome r r' → is_new r → is_new r'.
Proof.
  unfold is_new. intros Heq.
  by rewrite (f_equal Run.execution_status Heq : Run.execution_status r = Run.execution_status r'),
    (f_equal Run.execution_lease_owner Heq : Run.execution_lease_owner r = Run.execution_lease_owner r'),
    (f_equal Run.execution_lease_expires_at Heq
       : Run.execution_lease_expires_at r = Run.execution_lease_expires_at r'),
    (f_equal Run.next_attempt_at Heq : Run.next_attempt_at r = Run.next_attempt_at r'),
    (f_equal Run.completed_at Heq : Run.completed_at r = Run.completed_at r'),
    (f_equal Run.result_payload Heq : Run.result_payload r = Run.result_payload r').
Qed.

Lemma eval_only_keep d d' : eval_only d d' → others_keep [] d d'.
Proof.
  intros (_ & _ & Hk) k _. destruct (Hk k) as [->|(r & st & -> & ->)]; [by case_match|done].
Qed.

Lemma keep_same d d' : runs d' = runs d → others_keep [] d d'.
Proof. intros Hr k _. rewrite Hr. by case_match. Qed.

Lemma keep_lookup d d' k r :
  others_keep [] d d' → runs d !! k = Some r → ∃ r', runs d' !! k = Some r' ∧ same_outcome r r'.
Proof.
  intros Ho Hk. specialize (Ho k (not_elem_of_nil _)). rewrite Hk in Ho.
  destruct (runs d' !! k); [eauto|done].
Qed.
Lemma keep_lookup_back d d' k r' :
  others_keep [] d d' → runs d' !! k = Some r' → ∃ r, runs d !! k = Some r ∧ same_outcome r r'.
Proof.
  intros Ho Hk. specialize (Ho k (not_elem_of_nil _)). rewrite Hk in Ho.
  destruct (runs d !! k); [eauto|done].
Qed.

Lemma tx_moves_keep d d' : others_keep [] d d' → tx_moves d d'.
Proof.
  intros Ho k. destruct (runs d !! k) as [r|] eqn:Hk.
  - destruct (keep_lookup _ _ _ _ Ho Hk) as (r' & Hr' & Hs). exists r, r'. split_and!; [done|constructor|done].
  - intros r' Hr'. destruct (keep_lookup_back _ _ _ _ Ho Hr') as (r & Hr & _). congruence.
Qed.

Lemma tx_moves_same d d' : runs d' = runs d → tx_moves d d'.
Proof. intros Hr. by apply tx_moves_keep, keep_same. Qed.

(** One run moves, or is inserted. *)
Lemma tx_moves_put d d1 d' k r1 :
  runs d1 = <[k := r1]> (runs d) → others_keep [] d1 d' →
  match runs d !! k with Some r => lifecycle_move d r r1 | None => is_new r1 end → tx_moves d d'.
Proof.
  intros Hd1 Ho Hm k'. destruct (decide (k' = k)) as [->|Hne].
  - assert (runs d1 !! k = Some r1) as Hk by (by rewrite Hd1, lookup_insert_eq).
    destruct (keep_lookup _ _ _ _ Ho Hk) as (r' & Hr' & Hs). destruct (runs d !! k); [by exists r1, r'|].
    intros r2 Hr2. assert (r2 = r') as -> by congruence. by eapply same_outcome_new.
  - assert (runs d1 !! k' = runs d !! k') as Hk by (by rewrite Hd1, lookup_insert_ne).
    destruct (runs d !! k') as [r|].
    + destruct (keep_lookup _ _ _ _ Ho Hk) as (r' & Hr' & Hs). exists r, r'. split_and!; [done|constructor|done].
    + intros r2 Hr2. destruct (keep_lookup_back _ _ _ _ Ho Hr2) as (r0 & Hr0 & _). congruence.
Qed.

Lemma tx_moves_set d d' k r1 :
  runs d' = <[k := r1]> (runs d) →
  match runs d !! k with Some r => lifecycle_move d r r1 | None => is_new r1 end → tx_moves d d'.
Proof. intros Hd. by apply (tx_moves_put d d' d' k r1 Hd), keep_same. Qed.

(** A run is written and its evaluation job finalized. *)
Lemma tx_moves_finalize tx c d d1 d' r r1 :
  _finalize_evaluation_job tx c d1 = Ok d' → db_wf d1 → runs d !! Run.id r = Some r →
  runs d1 = <[Run.id r := r1]> (runs d) → lifecycle_move d r r1 → tx_moves d d'.
Proof.
  intros Hf Hwf Hr Hd Hm. apply (finalize_refines limits sm lease) in Hf as [_ Heo]; [|done].
  apply (tx_moves_put d d1 d' (Run.id r) r1 Hd); [by apply eval_only_keep|by rewrite Hr].
Qed.

(** ** The transactions *)

Lemma insert_run_moves r d d1 d' :
  insert_run r d = Ok d1 → runs d !! Run.id r = None → is_new r → others_keep [] d1 d' → tx_moves d d'.
Proof.
  intros [_ ->]%insert_run_ok Hn Hnew Ho. apply (tx_moves_put d (bump_draws (put_run r d)) d' (Run.id r) r); [reflexivity|exact Ho|].
  by rewrite Hn.
Qed.

Lemma next_id_fresh d : db_wf d → runs d !! next_id d = None.
Proof. intros Hwf. eapply table_ok_fresh, Hwf. Qed.

Lemma submit_moves tx c key input policy p kind d res d' :
  db_wf d → submit limits tx c key input policy p kind d = (res, d') → tx_moves d d'.
Proof.
  intros Hwf Hs. destruct res as [[s b]|e].
  - apply submit_inv in Hs as [(r & _ & _ & _ & _ & ->)|(r & _ & Hc & _)]; [by apply tx_moves_same|].
    apply create_run_ok in Hc as (_ & _ & Hr & _).
    eapply (tx_moves_put _ _ _ (next_id d)); [exact Hr|by apply keep_same|].
    by rewrite next_id_fresh.
  - apply commit_inv in Hs as [(? & _ & _ & ->)|(? & _ & ?)]; [by apply tx_moves_same|done].
Qed.

Lemma replay_moves tx c k key p d res d' :
  db_wf d → replay limits tx c k key p d = (res, d') → tx_moves d d'.
Proof.
  intros Hwf Hs. apply commit_inv in Hs as [(e & _ & _ & ->)|(x & Hs & _)]; [by apply tx_moves_same|].
  destruct (replay_body _ _ _ _ _ _ _ _) as [[x' d0]|e] eqn:E.
  2: { case_bool_decide; [|done]. unfold replay_after_race in Hs. inv_result. by apply tx_moves_same. }
  simplify_eq. unfold replay_body in E.
  apply result_bind_ok in E as (source & _ & E). apply result_bind_ok in E as ([] & _ & E).
  destruct (_find_by_idempotency_key c key d) as [r|] eqn:Ef; [inv_result; by apply tx_moves_same|].
  apply result_bind_ok in E as ([] & _ & E). apply result_bind_ok in E as (d1 & Hins & E). inv_result.
  eapply insert_run_moves; [exact Hins|by apply next_id_fresh|done|by apply keep_same].
Qed.

Lemma evaluate_moves job_timeout check_schema tx c k rules p d res d' :
  db_wf d → evaluate limits job_timeout check_schema tx c k rules p d = (res, d') → tx_moves d d'.
Proof.
  intros Hwf Hs. apply commit_inv in Hs as [(e & _ & _ & ->)|(x & Hs & _)]; [by apply tx_moves_same|].
  apply result_bind_ok in Hs as ([] & _ & Hs). apply result_bind_ok in Hs as (run & Hrun & Hs).
  apply get_run_for_client_ok in Hrun as [Hrun _].
  apply result_bind_ok in Hs as ([] & _ & Hs). apply result_bind_ok in Hs as ([] & _ & Hs).
  apply result_bind_ok in Hs as (d1 & Hins & Hs). injection Hs as _ <-.
  pose proof (db_wf_bump d Hwf) as Hwf0. destruct (wf_run_drawn _ _ _ Hwf Hrun) as [Hid Hdr].
  assert (runs d1 !! Run.id run = Some run) as Hk1.
  { apply insert_run_ok in Hins as [_ ->]. cbn. rewrite lookup_insert_ne; [by rewrite Hid|].
    intros Heq. pose proof (next_id_fresh _ Hwf0) as Hn. cbn in Hn, Heq. rewrite Heq, Hid in Hn. congruence. }
  pose proof (next_id_fresh _ Hwf0) as Hfresh. cbn in Hfresh.
  apply insert_run_ok in Hins as [_ Hd1].
  eapply (tx_moves_put d d1 _ (next_id (bump_draws d))); [by rewrite Hd1| |by rewrite Hfresh].
  intros k' _. cbn. destruct (decide (k' = Run.id run)) as [->|Hne].
  - by rewrite lookup_insert_eq, Hk1.
  - rewrite lookup_insert_ne by done. by case_match.
Qed.

Lemma claim_moves now tx k worker d res d' :
  db_wf d → claim lease limits sm now tx k worker d = (res, d') → tx_moves d d'.
Proof.
  intros Hwf Hc. apply commit_inv in Hc as [(? & _ & _ & ->)|(x & Hc & _)]; [by apply tx_moves_same|].
  destruct (runs d !! k) as [run|] eqn:Hk; [|inv_result; by apply tx_moves_same].
  destruct (wf_run_drawn _ _ _ Hwf Hk) as [<- Hdr].
  destruct (is_terminal_execution_status (Run.execution_status run)); [inv_result; by apply tx_moves_same|].
  destruct (Run.execution_status run) eqn:Hs;
    try (repeat split_match_in Hc; inv_result; by apply tx_moves_same).
  unfold claim_queued in Hc. destruct (_ || _) eqn:El.
  { injection Hc as _ <-. apply (tx_moves_set _ _ (Run.id run) (defer_run now run)); [done|].
    rewrite Hk. apply lm_defer; [done|]. unfold running_limit_met. apply orb_true_iff in El. bool_to_prop.
    destruct El; [left|right]; by bool_to_prop. }
  assert (¬ running_limit_met d run) as Hl.
  { apply orb_false_iff in El as [H1%Z.leb_gt H2%Z.leb_gt]. unfold running_limit_met, principal_of. lia. }
  destruct (claim_policy _ _ _) as [p|e] eqn:Ep.
  - unfold start_attempt in Hc. inv_result.
    apply (tx_moves_set _ _ (Run.id run) (lease_run lease now worker run)); [done|].
    rewrite Hk. apply lm_claim; [done..|]. by rewrite Ep.
  - destruct (is_value_error e); [|done]. apply result_bind_ok in Hc as (d1 & Hf & Hc). inv_result.
    eapply tx_moves_finalize; [exact Hf|exact (db_wf_put_run _ (reject_run now run) Hwf Hdr)|exact Hk|done|].
    apply lm_reject; [done..|]. by rewrite Ep.
Qed.

Lemma complete_success_moves now tx k i worker x d res d' :
  db_wf d → complete_success now tx k i worker x d = (res, d') → tx_moves d d'.
Proof.
  intros Hwf Hc. apply commit_inv in Hc as [(e & _ & _ & ->)|(b & Hc & _)]; [by apply tx_moves_same|].
  destruct (owned_attempt now k i worker d) as [[run a]|] eqn:Eo; [|inv_result; by apply tx_moves_same].
  destruct (owned_attempt_some _ _ _ _ _ _ _ Hwf Eo) as (Hr & Hs & Ha & Hrun & Ho & _ & _ & Hown).
  apply result_bind_ok in Hc as (d3 & Hf & Hc). inv_result.
  destruct (wf_run_drawn _ _ _ Hwf Hr) as [_ Hrd], (wf_attempt_drawn _ _ _ Hwf Ha) as [_ Had].
  eapply tx_moves_finalize; [exact Hf|auto 8 with arr|exact Hr|done|by eapply lm_succeed].
Qed.

(** ** Failed attempts and batches *)

(** How the failure of an attempt leaves its run. *)
Definition failed_as (now : time) (r r1 : Run.t) : Prop :=
  (∃ code at_, is_retryable_error code = true ∧ r1 = retry_run code at_ r)
  ∨ (∃ code, is_retryable_error code = true ∧ r1 = finish_run DEAD_LETTERED code now r)
  ∨ (∃ code, is_retryable_error code = false ∧ r1 = finish_run FAILED code now r).

Lemma failed_as_move d now r r1 : may_end now r → failed_as now r r1 → lifecycle_move d r r1.
Proof.
  intros Hm [(code & at_ & Hc & ->)|[(code & Hc & ->)|(code & Hc & ->)]].
  - by apply (lm_retry _ _ now).
  - by apply lm_dead.
  - by apply lm_fail.
Qed.

(** Every run of [d] is in [d'], up to the evaluation status, or is one of [ids] and has made
    one move of the kind [M]. *)
Definition moved (M : Run.t → Run.t → Prop) (ids : list uuid) (d d' : db) : Prop :=
  ∀ k, match runs d !! k, runs d' !! k with
       | Some r, Some r' => ∃ r1, (r1 = r ∨ k ∈ ids ∧ M r r1) ∧ same_outcome r1 r'
       | None, None => True
       | _, _ => False
       end.

(** [M] does not look at the evaluation status. *)
Definition ignores_evaluation (M : Run.t → Run.t → Prop) : Prop :=
  ∀ r r0 r1, same_outcome r r0 → M r0 r1 → ∃ r2, M r r2 ∧ same_outcome r2 r1.

Lemma failed_as_ignores now : ignores_evaluation (failed_as now).
Proof.
  intros r r0 r1 Heq [(code & at_ & Hc & ->)|[(code & Hc & ->)|(code & Hc & ->)]].
  - exists (retry_run code at_ r). split; [left; eauto|]. exact (f_equal (retry_run code at_) Heq).
  - exists (finish_run DEAD_LETTERED code now r). split; [right; left; eauto|].
    exact (f_equal (finish_run DEAD_LETTERED code now) Heq).
  - exists (finish_run FAILED code now r). split; [right; right; eauto|].
    exact (f_equal (finish_run FAILED code now) Heq).
Qed.

Lemma requeue_ignores : ignores_evaluation (λ r r1, r1 = requeue_run r).
Proof. intros r r0 r1 Heq ->. exists (requeue_run r). split; [done|]. exact (f_equal requeue_run Heq). Qed.

Lemma moved_nil M d : moved M [] d d.
Proof. intros k. destruct (runs d !! k) as [r|]; [|done]. exists r. split; [by left|done]. Qed.

Lemma moved_cons M id ids d d1 d' :
  ignores_evaluation M → id ∉ ids → moved M [id] d d1 → moved M ids d1 d' → moved M (id :: ids) d d'.
Proof.
  intros HM Hid H1 H2 k. specialize (H1 k). specialize (H2 k).
  destruct (runs d !! k) as [r|], (runs d1 !! k) as [r1|], (runs d' !! k) as [r'|]; try done.
  destruct H1 as (a & [->|[Hk%list_elem_of_singleton Ha]] & Hs1), H2 as (b & [->|[Hk2 Hb]] & Hs2).
  - exists r. split; [by left|by etrans].
  - destruct (HM _ _ _ Hs1 Hb) as (c & Hc & Hcb). exists c. split; [right; split; [by right|done]|by etrans].
  - exists a. rewrite Hk. split; [right; split; [by left|done]|by etrans].
  - congruence.
Qed.

(** A batch that moves runs of [d] moves each within the conditions of its selection. *)
Lemma moved_tx_moves M ids d d' :
  moved M ids d d' → (∀ k r r1, k ∈ ids → runs d !! k = Some r → M r r1 → lifecycle_move d r r1) → tx_moves d d'.
Proof.
  intros Hm HM k. specialize (Hm k). destruct (runs d !! k) as [r|] eqn:Hk.
  - destruct (runs d' !! k) as [r'|]; [|done]. destruct Hm as (r1 & Hr1 & Hs). exists r1, r'.
    split_and!; [done| |done]. destruct Hr1 as [->|[Hin HM1]]; [constructor|by eapply HM].
  - intros r' Hr'. by rewrite Hr' in Hm.
Qed.

Lemma fail_attempt_moved now tx run a code rec d d' :
  db_wf d → runs d !! Run.id run = Some run → Run.execution_status run = RUNNING →
  attempts d !! RunAttempt.id a = Some a → RunAttempt.run_id a = Run.id run → is_open a →
  fail_attempt now tx run a code rec d = Ok d' → moved (failed_as now) [Run.id run] d d'.
Proof.
  intros Hwf Hr Hs Ha Hrun Ho Hf k.
  destruct (wf_run_drawn _ _ _ Hwf Hr) as [_ Hrd], (wf_attempt_drawn _ _ _ Hwf Ha) as [_ Had].
  destruct (fail_attempt_refines limits sm lease _ _ _ _ _ _ _ _ Hwf Hr Hs Ha Hrun Ho Hf) as (_ & Hoth & _).
  destruct (decide (k = Run.id run)) as [->|Hne].
  - destruct (fail_attempt_tables limits sm lease _ _ _ _ _ _ _ _ Hwf Hrd Had Hf) as (_ & p & r' & _ & Hr' & Hout).
    rewrite Hr, Hr'. destruct (is_retryable_error code) eqn:Hre; cbn [andb] in Hout;
      [case_match; [destruct Hout as (delay & next & _ & _ & Hout)|destruct Hout as [Hout _]]|destruct Hout as [Hout _]];
      (eexists; split; [right; split; [by left|]|exact Hout]).
    + left. eauto.
    + right. left. eauto.
    + right. right. eauto.
  - destruct (Hoth k Hne) as [->|(r & st & -> & ->)].
    + destruct (runs d !! k) as [r|]; [|done]. exists r. split; [by left|done].
    + exists r. split; [by left|done].
Qed.

Lemma complete_failure_moves now tx k i worker code d res d' :
  db_wf d → complete_failure now tx k i worker code d = (res, d') → tx_moves d d'.
Proof.
  intros Hwf Hc. apply commit_inv in Hc as [(e & _ & _ & ->)|(b & Hc & _)]; [by apply tx_moves_same|].
  destruct (owned_attempt now k i worker d) as [[run a]|] eqn:Eo; [|inv_result; by apply tx_moves_same].
  destruct (owned_attempt_some _ _ _ _ _ _ _ Hwf Eo) as (Hr & Hs & Ha & Hrun & Ho & _ & _ & Hown).
  apply result_bind_ok in Hc as (d3 & Hf & Hc). inv_result.
  eapply moved_tx_moves; [by eapply fail_attempt_moved|].
  intros k' r r1 ->%list_elem_of_singleton Hr' Hfail. assert (r = run) as -> by congruence.
  eapply failed_as_move; [left; by exists worker|done].
Qed.

Lemma recover_one_moved now tx d run d' :
  db_wf d → still RUNNING d run → recover_one now tx d run = Ok d' → moved (failed_as now) [Run.id run] d d'.
Proof.
  intros Hwf (r0 & Hr0 & Hs0) Hf. unfold recover_one in Hf.
  destruct (_latest_open_attempt (Run.id run) d) as [a|] eqn:El.
  - destruct (latest_open_attempt_some _ _ _ Hwf El) as (Ha & Hrun & Ho). rewrite Hr0 in Hf. cbn in Hf.
    destruct (wf_run_drawn _ _ _ Hwf Hr0) as [Hid _]. rewrite <- Hid in Hr0, Hrun |- *.
    by eapply fail_attempt_moved.
  - injection Hf as <-. intros k. destruct (runs d !! k) as [r|]; [|done]. exists r. split; [by left|done].
Qed.

Lemma recover_fold_moved now tx l : ∀ d d',
  db_wf d → NoDup (Run.id <$> l) → Forall (still RUNNING d) l →
  fold_result (recover_one now tx) d l = Ok d' → moved (failed_as now) (Run.id <$> l) d d'.
Proof.
  induction l as [|r l IH]; intros d d' Hwf Hnd Hst Hf; cbn in Hf; [injection Hf as <-; apply moved_nil|].
  apply NoDup_cons in Hnd as [Hnin Hnd]. apply Forall_cons in Hst as [Hr Hl].
  apply result_bind_ok in Hf as (d1 & H1 & Hf).
  destruct (recover_one_refines limits sm lease _ _ _ _ _ Hwf Hr H1) as [Href Hkeep].
  rewrite fmap_cons. eapply moved_cons; [apply failed_as_ignores|done|by eapply recover_one_moved|].
  apply (IH d1); [apply Href|done| |done].
  rewrite Forall_forall in Hl |- *. intros x Hx. apply Hkeep; [|auto].
  intros Heq. apply Hnin. rewrite <- Heq. by apply list_elem_of_fmap_2.
Qed.

Lemma schedule_fold_moved now tx l : ∀ d d',
  db_wf d → NoDup (Run.id <$> l) →
  Forall (λ r, runs d !! Run.id r = Some r ∧ Run.execution_status r = RETRY_SCHEDULED) l →
  fold_result (schedule_one now tx) d l = Ok d' → moved (λ r r1, r1 = requeue_run r) (Run.id <$> l) d d'.
Proof.
  induction l as [|r l IH]; intros d d' Hwf Hnd Hst Hf; cbn [fold_result] in Hf; [injection Hf as <-; apply moved_nil|].
  apply NoDup_cons in Hnd as [Hnin Hnd]. apply Forall_cons in Hst as [[Hr Hs] Hl].
  apply result_bind_ok in Hf as (d1 & H1 & Hf).
  destruct (schedule_one_refines limits sm lease _ _ _ _ _ Hwf Hr Hs H1) as (Href & Hd1 & _).
  rewrite fmap_cons. apply (moved_cons _ _ _ _ d1); [apply requeue_ignores|done| |].
  - intros k. rewrite Hd1. destruct (decide (k = Run.id r)) as [->|Hne].
    + rewrite Hr, lookup_insert_eq. eexists. split; [right; split; [by left|done]|done].
    + rewrite lookup_insert_ne by done. destruct (runs d !! k) as [x|]; [|done]. exists x. split; [by left|done].
  - apply (IH d1); [apply Href|done| |done].
    rewrite Forall_forall in Hl |- *. intros x Hx. rewrite Hd1, lookup_insert_ne; [auto|].
    intros Heq. apply Hnin. rewrite Heq. by apply list_elem_of_fmap_2.
Qed.

(** The selection holds for the row of every identifier of the batch. *)
Lemma select_batch_at P key vis n d k r :
  db_wf d → k ∈ Run.id <$> select_batch P key vis n d → runs d !! k = Some r → P r = true.
Proof.
  intros Hwf (x & -> & Hx)%list_elem_of_fmap Hr. apply select_batch_elem in Hx as [Hx HP]; [|done].
  by assert (r = x) as -> by congruence.
Qed.

Lemma recover_moves now tx vis n d res d' :
  db_wf d → recover_expired_leases now tx vis n d = (res, d') → tx_moves d d'.
Proof.
  intros Hwf Hc. apply commit_inv in Hc as [(e & _ & _ & ->)|(b & Hc & _)]; [by apply tx_moves_same|].
  apply result_bind_ok in Hc as (d1 & Hf & Hc). inv_result.
  eapply moved_tx_moves.
  - eapply recover_fold_moved; [done|by apply select_batch_nodup| |exact Hf].
    apply Forall_forall. intros r Hr. apply select_batch_elem in Hr as [Hr HP]; [|done].
    exists r. unfold lease_expired in HP. by bool_to_prop.
  - intros k r r1 Hk Hr. apply failed_as_move. right. by eapply select_batch_at.
Qed.

Lemma schedule_moves now tx vis n d res d' :
  db_wf d → schedule_due_retries now tx vis n d = (res, d') → tx_moves d d'.
Proof.
  intros Hwf Hc. apply commit_inv in Hc as [(e & _ & _ & ->)|(b & Hc & _)]; [by apply tx_moves_same|].
  apply result_bind_ok in Hc as (d1 & Hf & Hc). inv_result.
  eapply moved_tx_moves.
  - eapply schedule_fold_moved; [done|by apply select_batch_nodup| |exact Hf].
    apply Forall_forall. intros r Hr. apply select_batch_elem in Hr as [Hr HP]; [|done].
    unfold retry_due in HP. by bool_to_prop.
  - intros k r r1 Hk Hr ->. apply (lm_requeue _ _ now). by eapply (select_batch_at (retry_due now)).
Qed.

Lemma receive_moves worker now tx b d res d' :
  db_wf d → receive lease limits sm worker now tx b d = (res, d') → tx_moves d d'.
Proof.
  intros Hwf Hr. unfold receive in Hr. destruct (run_id_from_message b); [|injection Hr as _ <-; by apply tx_moves_same].
  destruct (claim _ _ _ _ _ _ _ _) as [[c|e] d1] eqn:Ec; [case_bool_decide|]; simplify_eq;
    by eapply claim_moves.
Qed.

Lemma settle_moves worker executor now tx c d disp d' :
  db_wf d → settle worker executor now tx c d = (disp, d') → tx_moves d d'.
Proof.
  intros Hwf Hs. unfold settle in Hs. destruct (_execute_claim _ _ _ _ _ _) as [res d1] eqn:Ee.
  assert (d1 = d') as -> by (repeat case_match; by simplify_eq). unfold _execute_claim, persist_outcome in Ee.
  repeat split_match_in Ee; try (injection Ee as _ <-; by apply tx_moves_same);
    by eauto using complete_success_moves, complete_failure_moves.
Qed.

(** ** Every step *)

Context (job_timeout : num) (check_schema : json → bool) (Hjob : num_in 1 3600 job_timeout).
Abbreviation step := (step limits sm lease job_timeout check_schema).
Abbreviation reachable := (reachable limits sm lease job_timeout check_schema).

Lemma step_moves s s' : db_wf (sdb s) → step s s' → tx_moves (sdb s) (sdb s').
Proof.
  intros Hwf Hst. assert (∀ disp b d0 l, sdb (settle_body disp b d0 l s) = d0) as Hsb by (by intros []).
  destruct Hst; rewrite ?Hsb; cbn [sdb with_db];
    eauto using submit_moves, replay_moves, evaluate_moves, recover_moves, schedule_moves, receive_moves,
      settle_moves, tx_moves_same.
  - destruct (dispatch_one_some _ _ _ _ _ _ _ _ Hwf H0 H1) as (_ & Hr & _). by apply tx_moves_same.
  - apply tx_moves_same. by rewrite enqueue_sdb.
Qed.

(** (C14) Runs follow their lifecycle, one move at a time.  A step of the system (one transaction
    of a service, or one action of the broker) from a reachable state keeps every stored run with
    its identity (client, key, input, policy, creation time and so on), and does to its row, up to
    the evaluation status, nothing or exactly one of the moves the code has: a [QUEUED] run is
    leased by a claim, rejected by a claim for its stored policy or budget, or, when a running
    limit of its principal or tenant is met, deferred to [RETRY_SCHEDULED]; a [RUNNING] run is
    finished by the worker that owns its lease, or retried, dead-lettered or failed by that worker
    or by the recovery of an expired lease, as the error is retryable or not; a [RETRY_SCHEDULED]
    run that is due is queued again.  Each change of status is one that
    [ensure_execution_transition] admits, or that deferral.  A run the step adds is [QUEUED],
    unleased and without a result. *)
Theorem runs_follow_lifecycle s s' k :
  reachable s → step s s' →
  match runs (sdb s) !! k with
  | Some r => ∃ r1 r', runs (sdb s') !! k = Some r' ∧ run_identity r' = run_identity r
      ∧ lifecycle_move (sdb s) r r1 ∧ same_outcome r1 r'
      ∧ (Run.execution_status r' = Run.execution_status r
         ∨ ensure_execution_transition (Run.execution_status r) (Run.execution_status r') = Ok tt
         ∨ (Run.execution_status r = QUEUED ∧ Run.execution_status r' = RETRY_SCHEDULED
            ∧ running_limit_met (sdb s) r))
  | None => ∀ r', runs (sdb s') !! k = Some r' → is_new r'
  end.
Proof.
  intros Hs%reachable_inv Hst; [|done]. pose proof (step_moves _ _ (si_wf _ _ _ Hs) Hst k) as Hm.
  destruct (runs (sdb s) !! k) as [r|]; [|done]. destruct Hm as (r1 & r' & Hr' & Hmv & Heq).
  exists r1, r'. split_and!; [done| |done|done|].
  - rewrite <- (lifecycle_move_identity _ _ _ Hmv). symmetry. exact (f_equal run_identity Heq).
  - rewrite <- (f_equal Run.execution_status Heq : Run.execution_status r1 = Run.execution_status r').
    by apply lifecycle_move_status.
Qed.
End Moves.
