(* ===== verification/Progress.v ===== *)
(** * Every run can finish

    The liveness of the whole system: from every reachable state, whatever crashes and
    redeliveries led there, the services themselves can bring any run to a terminal status.  One
    lemma for each leg of the way: recovery, scheduling, dispatch, delivery, claim, completion. *)

From S2P Require Import Prelude Float64 PyValue States Retry Models Quotas Canonical RunService.
From S2P Require Import ExecutionService Lifecycle Refinement Messaging System Guarantees ExecutionTheorems Simulator.
Local Open Scope Z_scope.

(** A policy stays readable when its timeout is cut to the lease. *)
Lemma from_snapshot_shorter d p n :
  from_snapshot d = Ok p → 1 ≤ n ≤ 2 ^ 53 →
  ∃ p', from_snapshot (dset "attempt_timeout_seconds"
                         (JNum (num_min (NFloat (attempt_timeout_seconds p)) (NInt n))) d) = Ok p'.
Proof.
  intros Hp Hn. pose proof (post_init_inv _ (from_snapshot_valid _ _ Hp)) as
    (Hma & (t & Ht & Ht0) & (i & m & Hi & Hm & Him) & Hne & Hnb).
  set (v := num_min _ _). assert (∃ t', 0 < t' ∧ ∀ name, _positive_float (JNum v) name = Ok (Fin t')) as (t' & Ht' & Hv).
  { unfold v, num_min. rewrite Ht. pose proof unit64_pos. case_match.
    - exists (n * unit64). split; [nia|]. intros name.
      rewrite (positive_float_in n n); [done|lia|lia|]. exists (n * unit64). split; [done|lia].
    - exists t. split; [done|]. intros name. by apply positive_float_fin. }
  clearbody v. unfold from_snapshot, dget_or in *. rewrite dget_dset_eq, !dget_dset_ne by done.
  change (default (JNum (NInt 60)) (Some (JNum v))) with (JNum v). rewrite ?Hv.
  destruct (from_option id _ (dget "provider_order" d)) as [| | | |l|]; try discriminate.
  destruct (all_strings l) as [order|]; [|discriminate].
  apply result_bind_ok in Hp as (ma & -> & Hp). apply result_bind_ok in Hp as (to & _ & Hp).
  apply result_bind_ok in Hp as (ib & -> & Hp). apply result_bind_ok in Hp as (mb & -> & Hp).
  cbn [mbind result_bind]. apply mk_RetryPolicy_ok in Hp as [_ ->]. cbn in *. subst ib mb.
  eexists. unfold mk_RetryPolicy. rewrite (post_init_intro _ t' i m); try done. 
Qed.

Lemma provider_at_total p i : provider_order p ≠ [] → ∃ s, provider_at p i = Ok s.
Proof.
  intros Hne. unfold provider_at.
  destruct (provider_order p !! _) as [s|] eqn:E; [eauto|]. apply lookup_ge_None in E.
  destruct (provider_order p); [done|]. cbn [length] in *. lia.
Qed.

Section Progress.
Context `{Host} (limits : QuotaLimits) (sm lease : Z) (job_timeout : num) (check_schema : json → bool).
Context (Hjob : num_in 1 3600 job_timeout) (Hlease : 2 ≤ lease ≤ 86400).
Context (Hprincipal : 0 < principal_running limits) (Htenant : 0 < tenant_running limits).
Abbreviation step := (step limits sm lease job_timeout check_schema).
Abbreviation reachable := (reachable limits sm lease job_timeout check_schema).
Abbreviation sys_inv := (sys_inv limits sm).

Definition finished (k : uuid) (s : sys) : Prop :=
  ∃ r, runs (sdb s) !! k = Some r ∧ is_terminal_execution_status (Run.execution_status r) = true.
Definition can_finish (k : uuid) (s : sys) : Prop := ∃ s', rtc step s s' ∧ finished k s'.

Lemma can_finish_step k s s' : step s s' → can_finish k s' → can_finish k s.
Proof. intros Hst (s2 & H2 & Hf). exists s2. split; [by eapply rtc_l|done]. Qed.

(** No run is [RUNNING]. *)
Definition idle (d : db) : Prop := ∀ k r, runs d !! k = Some r → Run.execution_status r ≠ RUNNING.

Lemma idle_count P d :
  (∀ r, P r = true → Run.execution_status r = RUNNING) → idle d → count_runs P d = 0.
Proof.
  intros HP Hi. unfold count_runs, count_where.
  assert (filter (λ kv : uuid * Run.t, P kv.2 = true) (runs d) = ∅) as ->; [|by rewrite map_size_empty].
  apply map_eq. intros k. rewrite lookup_empty. apply map_lookup_filter_None. right.
  intros r Hk HPr. by eapply Hi, HP.
Qed.

(** ** Claim and completion *)

Lemma owned_attempt_intro now k i w d r a :
  runs d !! k = Some r → Run.id r = k → _owns_active_lease r w now = true →
  attempts d !! i = Some a → RunAttempt.run_id a = k → is_open a →
  owned_attempt now k i w d = Some (r, a).
Proof.
  intros Hr Hid Ho Ha Hk Hop. unfold owned_attempt. rewrite Hr. cbn. rewrite Ho, Ha. cbn.
  by rewrite bool_decide_true by (split; congruence).
Qed.

Lemma lease_run_owned now w r : _owns_active_lease (lease_run lease now w r) w now = true.
Proof.
  unfold _owns_active_lease. cbn. rewrite !bool_decide_true by done. cbn. apply Z.ltb_lt. unfold seconds. lia.
Qed.

(** The evaluation job of a run finds its evaluation. *)
Lemma finalize_keeps tx R D st :
  db_wf D → runs D !! Run.id R = Some R → Run.execution_status R = st →
  (Run.work_kind R = wk_evaluation →
     ∃ k e, evaluations D !! k = Some e ∧ Evaluation.job_run_id e = Some (Run.id R)) →
  ∃ D' r', _finalize_evaluation_job tx R D = Ok D' ∧ runs D' !! Run.id R = Some r'
    ∧ Run.execution_status r' = st.
Proof.
  intros Hwf HR Hst Hev. destruct (finalize_total tx R D Hev) as [D' HD'].
  destruct (finalize_refines limits sm lease _ _ _ _ Hwf HD') as [_ (_ & _ & Hk)]. exists D'.
  destruct (Hk (Run.id R)) as [Heq|(r0 & s0 & Hr0 & Heq)]; rewrite Heq.
  - by exists R.
  - assert (r0 = R) as -> by congruence. by eexists.
Qed.

(** What a claim of a [QUEUED] run answers when nothing runs: the lease with an open attempt, or
    the terminal refusal of an exhausted budget. *)
Lemma claim_idle now tx w k r d :
  db_wf d → db_inv limits sm d → idle d → runs d !! k = Some r → Run.execution_status r = QUEUED →
  (∃ d' r', claim lease limits sm now tx k w d = (Ok (claim_result TERMINAL k), d')
     ∧ runs d' !! k = Some r' ∧ Run.execution_status r' = FAILED)
  ∨ ∃ d' a policy p' prov,
     claim lease limits sm now tx k w d
       = (Ok {| cr_decision := CLAIMED; cr_run_id := k; cr_attempt_id := Some (RunAttempt.id a);
                cr_input_payload := Some (Run.input_payload r); cr_policy_snapshot := Some policy;
                cr_provider := Some prov |}, d')
     ∧ from_snapshot policy = Ok p'
     ∧ runs d' !! k = Some (lease_run lease now w r) ∧ attempts d' !! RunAttempt.id a = Some a
     ∧ RunAttempt.run_id a = k ∧ is_open a ∧ evaluations d' = evaluations d.
Proof.
  intros Hwf Hinv Hidle Hk Hs. destruct (di_runs _ _ _ Hinv _ _ Hk).
  destruct (wf_run_drawn _ _ _ Hwf Hk) as [Hid Hdr]. destruct ri_policy as (p & [Hp _] & Hlen).
  unfold claim. rewrite Hk, Hs. change (is_terminal_execution_status QUEUED) with false. cbv iota.
  unfold claim_queued. rewrite !idle_count by (done || (intros ? ?; unfold running_of_principal,
    running_of_tenant in *; by bool_to_prop)).
  rewrite !(proj2 (Z.leb_gt _ 0)) by done. cbn [orb].
  unfold claim_policy. rewrite Hp. cbn [mbind result_bind].
  destruct (Z.leb_spec (_next_attempt_number (Run.id r) d) (Z.min (max_attempts p) sm)) as [Hle|Hgt].
  - right. cbn [raise_unless mbind result_bind].
    pose proof (post_init_inv _ (from_snapshot_valid _ _ Hp)) as (_ & _ & _ & Hne & _).
    destruct (provider_at_total p (_next_attempt_number (Run.id r) d - 1) Hne) as [prov Hprov].
    destruct (provider_at_total p (_next_attempt_number (Run.id r) d - 2) Hne) as [prev Hprev].
    destruct (from_snapshot_shorter _ _ (lease - 1) Hp) as [p' Hp']; [lia|].
    unfold start_attempt. rewrite Hprov, Hprev. cbn [mbind result_bind].
    eexists _, (new_attempt (next_id d) (Run.id r) _ prov w tx), _, p', prov.
    split; [|split; [exact Hp'|]].
    + case_match; cbn [mbind result_bind commit]; by rewrite Hid.
    + cbn. rewrite Hid, !lookup_insert_eq. by split_and!.
  - left. cbn [raise_unless mbind result_bind is_value_error].
    destruct (finalize_keeps tx (reject_run now r) (put_run (reject_run now r) d) FAILED) as (d' & r' & Hf & Hr' & Hs').
    + by apply db_wf_put_run.
    + apply lookup_insert_eq.
    + done.
    + exact ri_evaluation.
    + rewrite Hf. exists d', r'. cbn [commit mbind result_bind]. 
      change (Run.id (reject_run now r)) with (Run.id r) in Hr'. rewrite Hid in Hr' |- *. done.
Qed.

Lemma terminal_finished k s r st :
  runs (sdb s) !! k = Some r → Run.execution_status r = st → is_terminal_execution_status st = true →
  finished k s.
Proof. intros Hk <- Ht. by exists r. Qed.

Definition some_result : ExecutionResult :=
  {| er_provider := ""; er_result_payload := []; er_usage_metadata := None |}.

(** A delivery in the hands of a worker. *)
Lemma held_finishes s h1 h2 dl k r :
  sys_inv s → idle (sdb s) → runs (sdb s) !! k = Some r → Run.execution_status r = QUEUED →
  held s = h1 ++ dl :: h2 → d_claim dl = None → run_id_from_message (d_body dl) = Ok k →
  can_finish k s.
Proof.
  intros Hs Hidle Hk Hq Hh Hc Hb. pose proof (si_wf _ _ _ Hs) as Hwf.
  destruct (wf_run_drawn _ _ _ Hwf Hk) as [Hid _].
  destruct (claim_idle 0 0 (d_worker dl) k r (sdb s) Hwf (si_db _ _ _ Hs) Hidle Hk Hq)
    as [(d' & r' & Hcl & Hr' & Hs')|(d' & a & policy & p' & prov & Hcl & Hp' & Hr' & Ha & Hka & Ho & He)].
  - eapply can_finish_step.
    { eapply (step_receive _ _ _ _ _ _ 0 0 h1 h2 dl Ack d'); [done..|].
      unfold receive. rewrite Hb, Hcl. by rewrite bool_decide_false. }
    eexists. split; [done|]. by eapply terminal_finished.
  - assert (db_wf d') as Hwf' by (by eapply (claim_refines limits sm lease)).
    pose proof Hh as Hstep. eapply can_finish_step.
    { eapply (step_claimed _ _ _ _ _ _ 0 0 h1 h2 dl _ d'); [done..|].
      unfold receive. rewrite Hb, Hcl. by rewrite bool_decide_true. }
    set (R := succeed_run 0 some_result (lease_run lease 0 (d_worker dl) r)).
    assert (Run.id R = k) as HR by done.
    destruct (finalize_keeps 0 R
      (add_event 0 (Run.id (lease_run lease 0 (d_worker dl) r)) (Some (RunAttempt.id a)) "RUN_SUCCEEDED"
        [("provider", JStr (er_provider some_result))]
        (put_run R (put_attempt (succeed_attempt 0 some_result a) d'))) SUCCEEDED)
      as (d3 & r3 & Hf & Hr3 & Hs3).
    { destruct (wf_attempt_drawn _ _ _ Hwf' Ha), (wf_run_drawn _ _ _ Hwf' Hr').
      apply db_wf_add_event; [|apply stored_self..]. auto 8 with arr. }
    { cbn. apply lookup_insert_eq. }
    { done. }
    { cbn. rewrite He. apply (ri_evaluation _ _ _ _ (di_runs _ _ _ (si_db _ _ _ Hs) _ _ Hk)). }
    eapply can_finish_step.
    { eapply (step_settle _ _ _ _ _ _ (λ _ _ _ _, Ok some_result) 0 0 h1 h2 _ _ Ack d3); [reflexivity..|].
      cbn [sdb d_worker]. unfold settle, _execute_claim. cbn [cr_attempt_id cr_input_payload cr_policy_snapshot cr_provider].
      unfold attempt_outcome. rewrite Hp'. cbn [mbind result_bind persist_outcome cr_run_id].
      unfold complete_success. erewrite owned_attempt_intro; [..|done|done]; [|done|done|apply lease_run_owned|done].
      fold R. rewrite Hf. done. }
    eexists. split; [done|]. eapply (terminal_finished _ _ r3 SUCCEEDED); [|done|done]. by rewrite <- HR.
Qed.
(** ** Delivery *)

Lemma queued_finishes s b k r :
  sys_inv s → idle (sdb s) → runs (sdb s) !! k = Some r → Run.execution_status r = QUEUED →
  b ∈ queue s → run_id_from_message b = Ok k → can_finish k s.
Proof.
  intros Hs Hidle Hk Hq (q1 & q2 & Hsplit)%list_elem_of_split Hb.
  pose proof (step_deliver limits sm lease job_timeout check_schema s "worker" b q1 q2 Hsplit) as Hst.
  eapply can_finish_step; [exact Hst|]. eapply held_finishes; try done. by eapply step_inv.
Qed.

(** The broker confirms; only the row [i] is visible to the dispatcher. *)
Lemma announced_finishes s k r :
  sys_inv s → idle (sdb s) → runs (sdb s) !! k = Some r → Run.execution_status r = QUEUED →
  announced (sdb s) k → can_finish k s.
Proof.
  intros Hs Hidle Hk Hq (o & Ho & Hagg & Hty & Hpub). pose proof (si_wf _ _ _ Hs) as Hwf.
  set (vis := λ u, bool_decide (u = OutboxEvent.id o)).
  assert (next_outbox vis (sdb s) = Some o) as Hn.
  { destruct (next_outbox vis (sdb s)) as [e|] eqn:En; unfold next_outbox in En.
    - match type of En with head ?L = _ => assert (e ∈ L) as Hin
        by (destruct L; [done|]; injection En as ->; by left) end.
      rewrite sort_by_perm in Hin. apply elem_of_rows_where in Hin as (i & Hi & Hv). bool_to_prop.
      subst vis. cbv beta in *. bool_to_prop. destruct (wf_outbox _ Hwf _ _ Hi) as [Hie _]. congruence.
    - apply head_None in En. assert (o ∈ rows_where (λ e, unpublished e && vis (OutboxEvent.id e)) (outbox (sdb s))) as Hin.
      { apply elem_of_rows_where. exists (OutboxEvent.id o). split; [done|]. unfold unpublished, vis.
        by rewrite !bool_decide_true. }
      rewrite <- (sort_by_perm (λ a b, OutboxEvent.created_at a <? OutboxEvent.created_at b)), En in Hin.
      by apply not_elem_of_nil in Hin. }
  destruct (_dispatch_one 0 0 vis (λ _, Ok tt) (sdb s)) as [res d'] eqn:Ed.
  pose proof (step_dispatch limits sm lease job_timeout check_schema s 0 0 vis (λ _, Ok tt) res d' o true
    Hn Ed (λ _, eq_refl)) as Hst. cbv iota in Hst.
  destruct (dispatch_one_some _ _ _ _ _ _ _ _ Hwf Hn Ed) as (_ & Hr & _).
  assert (Some (JObj (message_payload o)) ∈ queue (enqueue o s)) as Hmsg by (by eapply enqueue_queue).
  eapply can_finish_step; [exact Hst|].
  eapply (queued_finishes _ (Some (JObj (message_payload o))) k r); cbn [sdb with_db queue].
  - by eapply step_inv.
  - intros k' r'. rewrite Hr. apply Hidle.
  - by rewrite Hr.
  - done.
  - exact Hmsg.
  - by rewrite message_run_id, Hagg.
Qed.

Lemma pending_finishes s k r :
  sys_inv s → idle (sdb s) → runs (sdb s) !! k = Some r → Run.execution_status r = QUEUED → can_finish k s.
Proof.
  intros Hs Hidle Hk Hq.
  destruct (si_delivery _ _ _ Hs _ _ Hk Hq) as [Ha|[(b & Hin & Hb)|(dl & Hin & Hc & Hb)]].
  - by eapply announced_finishes.
  - by eapply queued_finishes.
  - apply list_elem_of_split in Hin as (h1 & h2 & Hh). by eapply held_finishes.
Qed.

(** ** Scheduling and recovery *)

Lemma idle_finishes s k r :
  sys_inv s → idle (sdb s) → runs (sdb s) !! k = Some r → can_finish k s.
Proof.
  intros Hs Hidle Hk. pose proof (si_wf _ _ _ Hs) as Hwf.
  destruct (Run.execution_status r) eqn:Hst; try (exists s; split; [done|by eapply terminal_finished]).
  - by eapply pending_finishes.
  - by destruct (Hidle k r Hk).
  - destruct (di_runs _ _ _ (si_db _ _ _ Hs) _ _ Hk). destruct (proj2 ri_next Hst) as [t Ht].
    destruct (schedule_pass limits sm lease t 0 (count_runs (retry_due t) (sdb s)) (sdb s) Hwf) as (d' & c & Hd & Hall & Hnew);
      [done|].
    pose proof (step_schedule limits sm lease job_timeout check_schema s _ _ _ _ _ _ Hd) as Hstep.
    pose proof (Hall k r Hk) as Hdue. unfold retry_due in Hdue at 1. rewrite Hst, Ht in Hdue.
    rewrite bool_decide_true, (proj2 (Z.leb_le t t)) in Hdue by (done || lia). destruct Hdue as (Hr' & Hq' & _).
    eapply can_finish_step; [exact Hstep|]. eapply pending_finishes; [by eapply step_inv| |exact Hr'|exact Hq'].
    intros k1 r1 H1. cbn in H1. destruct (runs (sdb s) !! k1) as [r0|] eqn:E; [|by rewrite Hnew in H1].
    specialize (Hall _ _ E). destruct (retry_due t r0).
    + destruct Hall as (Hr1 & Hs1 & _). assert (r1 = requeue_run r0) as -> by congruence. by rewrite Hs1.
    + assert (r1 = r0) as -> by congruence. by eapply Hidle.
Qed.

(** (C6) Every run can finish: from every reachable state, after any crashes, lost messages and
    redeliveries, there is a continuation of the system (the services' own transactions, a broker
    that confirms and delivers, a worker whose execution succeeds) in which the run has reached a
    terminal status.  What this needs, all of it the hypotheses of the section and the theorem:
    the running limits of a principal and of a tenant are positive (with a limit of zero [claim]
    defers every run for ever), the lease is between two seconds and a day, the job timeout
    between one second and an hour as Settings enforces, and the leases of the stored running
    runs all end by a time [T] that is at least a day before the end of the calendar. *)
Theorem every_run_can_finish s k r T :
  reachable s → clock_ok T →
  (∀ k' r' e, runs (sdb s) !! k' = Some r' → Run.execution_status r' = RUNNING →
     Run.execution_lease_expires_at r' = Some e → e ≤ T) →
  runs (sdb s) !! k = Some r →
  ∃ s' r', rtc step s s' ∧ runs (sdb s') !! k = Some r'
    ∧ is_terminal_execution_status (Run.execution_status r') = true.
Proof.
  intros Hs%reachable_inv Hc HT Hk; [|done]. pose proof (si_wf _ _ _ Hs) as Hwf.
  destruct (recover_pass limits sm lease T 0 (count_runs (lease_expired T) (sdb s)) (sdb s) Hwf (si_db _ _ _ Hs) Hc)
    as (d' & c & Hd & Hclear & Hkept & Hnew); [done|].
  pose proof (step_recover limits sm lease job_timeout check_schema s _ _ _ _ _ _ Hd) as Hstep.
  destruct (Hkept k r Hk) as (r' & Hr' & _).
  assert (can_finish k (with_db d' s)) as (s' & Hrtc & r2 & Hr2 & Ht2).
  { eapply idle_finishes; [by eapply step_inv| |exact Hr'].
    intros k1 r1 H1 Hs1. cbn in H1. destruct (runs (sdb s) !! k1) as [r0|] eqn:E; [|by rewrite Hnew in H1].
    destruct (Hkept k1 r0 E) as (r1' & Hr1' & Hcase). assert (r1' = r1) as -> by congruence.
    destruct (lease_expired T r0) eqn:He; [done|].
    pose proof (f_equal Run.execution_status Hcase : Run.execution_status r0 = Run.execution_status r1) as Hs0.
    rewrite Hs1 in Hs0. destruct (di_runs _ _ _ (si_db _ _ _ Hs) _ _ E).
    unfold lease_inv in ri_lease. rewrite Hs0 in ri_lease. destruct ri_lease as (w & e & a & _ & Hexp & _).
    specialize (HT _ _ _ E Hs0 Hexp). unfold lease_expired in He. rewrite Hs0, Hexp in He.
    rewrite bool_decide_true, (proj2 (Z.leb_le e T)) in He by (done || lia). done. }
  exists s', r2. split_and!; [by eapply rtc_l|done..].
Qed.
End Progress.

(** The run a worker holds when it crashes. *)
Lemma every_run_can_finish_witness :
  ∃ s' r', rtc (@step demo_host demo_limits 5 60 (NInt 60) (λ _, true)) demo_running s'
    ∧ runs (sdb s') !! 0%N = Some r' ∧ is_terminal_execution_status (Run.execution_status r') = true.
Proof.
  assert (map_Forall (λ _ r, default 0 (Run.execution_lease_expires_at r) ≤ seconds 1000) (runs (sdb demo_running)))
    as HT by (apply (bool_decide_eq_true_1 _); vm_compute; reflexivity).
  destruct (runs (sdb demo_running) !! 0%N) as [r|] eqn:Hr; [|exfalso; revert Hr; vm_compute; discriminate].
  apply (@every_run_can_finish demo_host demo_limits 5 60 (NInt 60) (λ _, true) demo_job_timeout
           ltac:(lia) ltac:(done) ltac:(done) demo_running 0%N r (seconds 1000)).
  - exact demo_running_reachable.
  - unfold clock_ok. vm_compute. discriminate.
  - intros k' r' e Hk' _ He. specialize (HT k' r' Hk'). cbv beta in HT. by rewrite He in HT.
  - exact Hr.
Defined.
