(* ===== verification/Settlement.v ===== *)
(** * How a delivery ends

    The second half of a delivery, from the executor's outcome to the answer to the broker.
    A worker that holds a claim can carry it out, whatever the executor does: every
    exception becomes the durable record of a failed attempt and the decision of the
    retry policy, and nothing escapes to the broker. *)

From S2P Require Import Prelude Float64 PyValue States Retry Models Quotas Canonical RunService.
From S2P Require Import ExecutionService Lifecycle Refinement Messaging System Guarantees ExecutionTheorems.
From S2P Require Import Progress Simulator.
Local Open Scope Z_scope.

(** A claim with everything [_execute_claim] reads, and a policy that can be read back. *)
Definition claim_ready (c : ClaimResult) (i : uuid) (input policy : dict) (provider : string) (p : RetryPolicy)
    : Prop :=
  cr_attempt_id c = Some i ∧ cr_input_payload c = Some input ∧ cr_policy_snapshot c = Some policy
  ∧ cr_provider c = Some provider ∧ from_snapshot policy = Ok p.

(** What [d'] records of the outcome of attempt [a] of run [r]. *)
Definition outcome_recorded (now : time) (r : Run.t) (a : RunAttempt.t) (outcome : result ExecutionResult)
    (d d' : db) : Prop :=
  ∃ r', runs d' !! Run.id r = Some r'
  ∧ match outcome with
    | Ok x => attempts d' = <[RunAttempt.id a := succeed_attempt now x a]> (attempts d)
              ∧ same_outcome (succeed_run now x r) r'
    | Err e =>
        let code := error_code_value (classify_exception e) in
        attempts d' = <[RunAttempt.id a := _finish_failed_attempt a now code]> (attempts d)
        ∧ ∃ p, from_snapshot (Run.policy_snapshot r) = Ok p
        ∧ if is_retryable_error code && (RunAttempt.attempt_number a <? max_attempts p)
          then ∃ delay next, delay_after_attempt p (RunAttempt.attempt_number a) = Ok delay
                 ∧ add_seconds now delay = Ok next ∧ same_outcome (retry_run code next r) r'
          else same_outcome
                 (finish_run (if is_retryable_error code then DEAD_LETTERED else FAILED) code now r) r'
               ∧ (is_retryable_error code = true →
                    ∃ o, outbox d' !! OutboxEvent.id o = Some o ∧ OutboxEvent.aggregate_id o = Run.id r
                      ∧ OutboxEvent.event_type o = "RUN_DEAD_LETTERED" ∧ OutboxEvent.published_at o = None)
    end.

Section Settlement.
Context `{Host} (limits : QuotaLimits) (sm lease : Z) (job_timeout : num) (check_schema : json → bool).
Context (Hjob : num_in 1 3600 job_timeout) (Hlease : 2 ≤ lease ≤ 86400).
Abbreviation step := (step limits sm lease job_timeout check_schema).
Abbreviation reachable := (reachable limits sm lease job_timeout check_schema).

(** A claim that was handed out is ready. *)
Lemma receive_ready w now tx b d c d' :
  db_wf d → receive lease limits sm w now tx b d = (inr c, d') → ∃ i input policy prov p, claim_ready c i input policy prov p.
Proof.
  intros Hwf Hr. unfold receive in Hr. destruct (run_id_from_message b) as [k|]; [|done].
  destruct (claim _ _ _ _ _ _ _ _) as [[c0|e] d1] eqn:Ec; [|done].
  case_bool_decide as Hd; [|done]. injection Hr as <- <-.
  destruct (claim_claimed_inv _ _ _ _ _ _ _ _ _ _ Hwf Ec Hd) as (r & p & _ & _ & _ & _ & _ & Hpol & Hst).
  unfold claim_policy in Hpol. inv_result.
  unfold start_attempt in Hst. apply result_bind_ok in Hst as (prov & _ & Hst).
  apply result_bind_ok in Hst as ([] & _ & Hst). injection Hst as <- _.
  destruct (from_snapshot_shorter (Run.policy_snapshot r) p (lease - 1)) as [p' Hp']; [done|lia|].
  by eexists _, _, _, _, p'.
Qed.

Lemma held_rest s h1 h2 dl dl0 : held s = h1 ++ dl :: h2 → dl0 ∈ h1 ++ h2 → dl0 ∈ held s.
Proof. intros ->. rewrite !elem_of_app, elem_of_cons. tauto. Qed.

Definition held_ready (s : sys) : Prop :=
  ∀ dl c, dl ∈ held s → d_claim dl = Some c → ∃ i input policy prov p, claim_ready c i input policy prov p.

Lemma step_held_ready s s' : sys_inv limits sm s → step s s' → held_ready s → held_ready s'.
Proof.
  intros Hs Hst Hr. destruct Hst; try exact Hr; intros dl0 c0 Hin Hc.
  - destruct delivered; [|by eapply Hr]. destruct (enqueue_queue job_timeout Hjob e s) as [Hh _].
    cbn in Hin. rewrite Hh in Hin. by eapply Hr.
  - destruct (enqueue_queue job_timeout Hjob e s) as [Hh _]. rewrite Hh in Hin. by eapply Hr.
  - cbn in Hin. apply elem_of_app in Hin as [Hin| ->%list_elem_of_singleton]; [by eapply Hr|done].
  - eapply Hr; [|done]. destruct disp; eauto using held_rest.
  - eapply Hr; [|done]. eauto using held_rest.
  - cbn in Hin. apply elem_of_app in Hin as [Hin|[->|Hin]%elem_of_cons]; [eapply Hr; [|done]|idtac|].
    + match goal with E : held s = _ |- _ => rewrite E end. set_solver.
    + cbn in Hc. injection Hc as <-. eapply receive_ready; [apply Hs|done].
    + eapply Hr; [|done]. match goal with E : held s = _ |- _ => rewrite E end. set_solver.
  - eapply Hr; [|done]. destruct disp; eauto using held_rest.
  - eapply Hr; [|done]. eauto using held_rest.
  - eapply Hr; [|done]. eauto using held_rest.
Qed.

Lemma reachable_held_ready s : reachable s → held_ready s.
Proof.
  intros Hr. enough (∀ s0 s1, rtc step s0 s1 → sys_inv limits sm s0 → held_ready s0 → held_ready s1) as Hall.
  { eapply Hall; [exact Hr|by apply (reachable_inv limits sm lease job_timeout check_schema Hjob), rtc_refl|].
    intros dl c Hin. by apply not_elem_of_nil in Hin. }
  induction 1 as [|s0 s1 s2 H1 _ IH]; [done|]. intros Hs Hh. apply IH; [by eapply step_inv|by eapply step_held_ready].
Qed.

(** The success of an owned attempt is recorded. *)
Lemma success_recorded now tx k i w x d r a :
  db_wf d → db_inv limits sm d → owned_attempt now k i w d = Some (r, a) →
  ∃ d', complete_success now tx k i w x d = (Ok true, d') ∧ outcome_recorded now r a (Ok x) d d'.
Proof.
  intros Hwf Hinv Eo. destruct (owned_attempt_some _ _ _ _ _ _ _ Hwf Eo) as (Hr & _ & Ha & _).
  destruct (wf_run_drawn _ _ _ Hwf Hr) as [_ Hrd], (wf_attempt_drawn _ _ _ Hwf Ha) as [_ Had].
  unfold complete_success. rewrite Eo.
  match goal with |- context [_finalize_evaluation_job tx ?R ?D] =>
    destruct (finalize_total tx R D) as [d' Hd']; [exact (ri_evaluation _ _ _ _ (di_runs _ _ _ Hinv _ _ Hr))|];
    rewrite Hd';
    destruct (finalize_tables limits sm lease tx R D d') as (Hat & _ & r' & Hr' & Hout);
      [auto 8 with arr|exact Hd'|cbn; apply lookup_insert_eq|]
  end.
  exists d'. split; [done|]. exists r'. split; [exact Hr'|]. split; [exact Hat|exact Hout].
Qed.

(** The failure of an owned attempt is recorded. *)
Lemma failure_recorded now tx k i w e d r a :
  db_wf d → db_inv limits sm d → owned_attempt now k i w d = Some (r, a) → clock_ok now →
  ∃ d', complete_failure now tx k i w (error_code_value (classify_exception e)) d = (Ok true, d')
        ∧ outcome_recorded now r a (Err e) d d'.
Proof.
  intros Hwf Hinv Eo Hc. destruct (owned_attempt_some _ _ _ _ _ _ _ Hwf Eo) as (Hr & _ & Ha & Hrun & _).
  destruct (wf_run_drawn _ _ _ Hwf Hr) as [_ Hrd], (wf_attempt_drawn _ _ _ Hwf Ha) as [_ Had].
  set (code := error_code_value (classify_exception e)).
  destruct (fail_attempt_total limits sm now tx r a code false d) as [d' Hd']; [done..|].
  exists d'. unfold complete_failure. rewrite Eo, Hd'. split; [done|].
  destruct (fail_attempt_tables limits sm lease _ _ _ _ _ _ _ _ Hwf Hrd Had Hd') as (Hat & p & r' & Hp & Hr' & Hout).
  exists r'. split; [done|]. split; [done|]. by exists p.
Qed.

(** (C4) Every outcome of an execution is settled: a delivery a worker holds a claim for carries
    all that the execution needs, and whatever the executor then does, return or raise any
    exception, the worker answers the broker.  If the attempt is still its own, it acknowledges, and
    the database records the attempt as succeeded with the result, or as failed with the code its
    exception is classified as, and then the run as the policy decides: rescheduled after the
    backoff if the code is retryable and attempts remain, else finished without a lease,
    [DEAD_LETTERED] and announced in the outbox for a retryable code, [FAILED] for another.  If
    the attempt is no longer its own (recovered, or completed), it changes nothing and gives the
    message back. *)
Theorem worker_settles_every_outcome s h1 h2 dl c executor now tx :
  reachable s → held s = h1 ++ dl :: h2 → d_claim dl = Some c → clock_ok now →
  ∃ i input policy provider p, claim_ready c i input policy provider p
  ∧ let w := d_worker dl in
    let outcome := executor (attempt_timeout_seconds p) provider input (runtime_policy w c policy i) in
    let '(disp, d') := settle w executor now tx c (sdb s) in
    match owned_attempt now (cr_run_id c) i w (sdb s) with
    | Some (r, a) => disp = Ack ∧ outcome_recorded now r a outcome (sdb s) d'
    | None => disp = NackRequeue ∧ d' = sdb s
    end.
Proof.
  intros Hs Hh Hc Hclk.
  destruct (reachable_held_ready s Hs dl c) as (i & input & policy & prov & p & Hrdy); [rewrite Hh; set_solver|done|].
  exists i, input, policy, prov, p. split; [done|]. cbv zeta. destruct Hrdy as (Hi & Hin & Hpo & Hpr & Hp).
  apply (reachable_inv _ _ _ _ _ Hjob) in Hs. pose proof (si_wf _ _ _ Hs) as Hwf. pose proof (si_db _ _ _ Hs) as Hinv.
  unfold settle, _execute_claim, attempt_outcome. rewrite Hi, Hin, Hpo, Hpr, Hp. cbn [mbind result_bind].
  set (out := executor _ _ _ _).
  destruct (owned_attempt now (cr_run_id c) i (d_worker dl) (sdb s)) as [[r a]|] eqn:Eo.
  - destruct out as [x|e]; cbn [persist_outcome].
    + destruct (success_recorded now tx _ _ _ x _ _ _ Hwf Hinv Eo) as (d' & -> & Hrec). done.
    + destruct (failure_recorded now tx _ _ _ e _ _ _ Hwf Hinv Eo Hclk) as (d' & -> & Hrec). done.
  - destruct out as [x|e]; cbn [persist_outcome];
      [destruct (not_owned_no_completion now tx _ _ _ x "" _ Eo) as [-> _]
      |destruct (not_owned_no_completion now tx _ _ _ some_result (error_code_value (classify_exception e)) _ Eo)
         as [_ ->]]; done.
Qed.
End Settlement.

(** ** An execution that times out *)

#[local] Existing Instance demo_host.

Definition demo_delivery : delivery :=
  default {| d_worker := ""; d_body := None; d_claim := None |} (head (held demo_running)).
Definition demo_claimed : ClaimResult := default (claim_result MISSING 0%N) (d_claim demo_delivery).

Lemma worker_settles_every_outcome_witness :
  ∃ r a d', owned_attempt (seconds 4) 0%N 4%N "worker-1" (sdb demo_running) = Some (r, a)
    ∧ settle "worker-1" (λ _ _ _ _, Err TimeoutError) (seconds 4) (seconds 4) demo_claimed (sdb demo_running) = (Ack, d')
    ∧ outcome_recorded (seconds 4) r a (Err TimeoutError) (sdb demo_running) d'.
Proof.
  destruct (worker_settles_every_outcome demo_limits 5 60 (NInt 60) (λ _, true) demo_job_timeout ltac:(lia)
    demo_running [] [] demo_delivery demo_claimed (λ _ _ _ _, Err TimeoutError) (seconds 4) (seconds 4)
    demo_running_reachable) as (i & input & policy & prov & p & (Hi & _) & Hs).
  - by vm_compute.
  - by vm_compute.
  - unfold clock_ok. vm_compute. discriminate.
  - assert (i = 4%N) as -> by (apply (inj Some); rewrite <- Hi; by vm_compute).
    assert (d_worker demo_delivery = "worker-1") as Hw by (by vm_compute).
    assert (cr_run_id demo_claimed = 0%N) as Hc by (by vm_compute). cbv zeta in Hs. rewrite Hw, Hc in Hs.
    assert (bool_decide (is_Some (owned_attempt (seconds 4) 0%N 4%N "worker-1" (sdb demo_running))) = true) as Ho
      by (by vm_compute).
    apply bool_decide_eq_true in Ho as [[r a] Ho]. rewrite Ho in Hs.
    destruct (settle _ _ _ _ _ _) as [disp d'] eqn:E. destruct Hs as [-> Hrec].
    exists r, a, d'. split; [exact Ho|]. split; [reflexivity|exact Hrec].
Defined.
