(* ===== verification/Topology.v ===== *)
(** * The topology of the broker

    The exchanges, queues and bindings that [RabbitMqPublisher._get_exchanges] of
    [src/src/agent_runtime/infrastructure/messaging/publisher.py] and [RabbitMqWorker.run]
    of [worker.py] declare.  Every dispatcher and every worker declares them for itself when
    it connects, in any order and at the same time as others; the broker refuses a
    declaration that contradicts an earlier one, and a binding or a consumer of something
    undeclared. *)

From S2P Require Import Prelude Float64 PyValue States Retry Models Quotas Canonical RunService.
From S2P Require Import ExecutionService Messaging.
Local Open Scope Z_scope.

Definition LEGACY_QUEUE_NAME : string := "agent_runtime.execution".

(** The calls on a channel: [declare_exchange], [declare_queue], [bind] and [consume]. *)
Inductive declaration :=
| DeclareExchange (name type : string) (durable : bool)
| DeclareQueue (name : string) (durable : bool) (arguments : list (string * string))
| Bind (queue exchange routing_key : string)
| Consume (queue : string).

#[export] Instance declaration_eq_dec : EqDecision declaration.
Proof. solve_decision. Defined.

Definition queue_arguments : list (string * string) :=
  [("x-dead-letter-exchange", DEAD_LETTER_EXCHANGE_NAME); ("x-dead-letter-routing-key", POISON_ROUTING_KEY)].

(** The declarations of [_get_exchanges], in order. *)
Definition publisher_topology : list declaration :=
  [DeclareExchange EXCHANGE_NAME "direct" true;
   DeclareExchange DEAD_LETTER_EXCHANGE_NAME "direct" true;
   DeclareQueue QUEUE_NAME true queue_arguments;
   DeclareQueue DEAD_LETTER_QUEUE_NAME true [];
   Bind QUEUE_NAME EXCHANGE_NAME ROUTING_KEY;
   Bind DEAD_LETTER_QUEUE_NAME DEAD_LETTER_EXCHANGE_NAME DEAD_LETTER_ROUTING_KEY;
   Bind DEAD_LETTER_QUEUE_NAME DEAD_LETTER_EXCHANGE_NAME POISON_ROUTING_KEY].

(** The declarations of [RabbitMqWorker.run], in order. *)
Definition worker_topology : list declaration :=
  [DeclareExchange EXCHANGE_NAME "direct" true;
   DeclareExchange DEAD_LETTER_EXCHANGE_NAME "direct" true;
   DeclareQueue QUEUE_NAME true queue_arguments;
   DeclareQueue LEGACY_QUEUE_NAME true [];
   DeclareQueue DEAD_LETTER_QUEUE_NAME true [];
   Bind QUEUE_NAME EXCHANGE_NAME ROUTING_KEY;
   Bind DEAD_LETTER_QUEUE_NAME DEAD_LETTER_EXCHANGE_NAME DEAD_LETTER_ROUTING_KEY;
   Bind DEAD_LETTER_QUEUE_NAME DEAD_LETTER_EXCHANGE_NAME POISON_ROUTING_KEY;
   Consume QUEUE_NAME;
   Consume LEGACY_QUEUE_NAME].

(** ** The broker *)

Record broker := {
  exchanges : gmap string (string * bool);
  queues : gmap string (bool * list (string * string));
  bindings : gset (string * string * string);
}.
Definition fresh_broker : broker := {| exchanges := ∅; queues := ∅; bindings := ∅ |}.

(** A repeated declaration succeeds when it is the same. *)
Definition declare_as {A} `{EqDecision A} (name : string) (attributes : A) (m : gmap string A) : option (gmap string A) :=
  match m !! name with
  | None => Some (<[name := attributes]> m)
  | Some a => if decide (a = attributes) then Some m else None
  end.

Definition declare (d : declaration) (b : broker) : option broker :=
  match d with
  | DeclareExchange name type durable =>
      m ← declare_as name (type, durable) (exchanges b);
      Some {| exchanges := m; queues := queues b; bindings := bindings b |}
  | DeclareQueue name durable arguments =>
      m ← declare_as name (durable, arguments) (queues b);
      Some {| exchanges := exchanges b; queues := m; bindings := bindings b |}
  | Bind q x k =>
      _ ← queues b !! q; _ ← exchanges b !! x;
      Some {| exchanges := exchanges b; queues := queues b; bindings := {[ (q, x, k) ]} ∪ bindings b |}
  | Consume q => _ ← queues b !! q; Some b
  end.

(** The processes that connect, each with the declarations it has still to make; one of them
    makes its next one. *)
Inductive connecting : broker * list (list declaration) → broker * list (list declaration) → Prop :=
| connecting_one b b' d rest l1 l2 :
    declare d b = Some b' → connecting (b, l1 ++ (d :: rest) :: l2) (b', l1 ++ rest :: l2).

(** Where a queue with these arguments sends a rejected message. *)
Definition dead_letter_target (arguments : list (string * string)) : option (string * string) :=
  x ← snd <$> head (filter (λ a, a.1 = "x-dead-letter-exchange") arguments);
  k ← snd <$> head (filter (λ a, a.1 = "x-dead-letter-routing-key") arguments);
  Some (x, k).

(** ** Lemmas *)

(** The declaration is in force. *)
Definition in_force (b : broker) (d : declaration) : Prop :=
  match d with
  | DeclareExchange name type durable => exchanges b !! name = Some (type, durable)
  | DeclareQueue name durable arguments => queues b !! name = Some (durable, arguments)
  | Bind q x k => (q, x, k) ∈ bindings b
  | Consume q => is_Some (queues b !! q)
  end.

Definition sub_broker (b b' : broker) : Prop :=
  exchanges b ⊆ exchanges b' ∧ queues b ⊆ queues b' ∧ bindings b ⊆ bindings b'.
#[export] Instance sub_broker_preorder : PreOrder sub_broker.
Proof. split; [by intros b|intros b b1 b2 (?&?&?) (?&?&?); split_and!; by etrans]. Qed.

(** Everything declared by anyone. *)
Definition full : broker :=
  default fresh_broker (foldl (λ b d, b ≫= declare d) (Some fresh_broker) (publisher_topology ++ worker_topology)).

#[export] Instance in_force_dec b d : Decision (in_force b d).
Proof. destruct d; cbn; apply _. Defined.

(** Everything the two kinds of process declare is consistent. *)
Lemma full_in_force : Forall (in_force full) (publisher_topology ++ worker_topology).
Proof. apply (bool_decide_eq_true_1 _). vm_compute. reflexivity. Qed.
#[local] Opaque full.

Definition role (p : list declaration) : Prop := p = publisher_topology ∨ p = worker_topology.

Lemma declare_as_ok {A} `{EqDecision A} name (a : A) m mf :
  m ⊆ mf → mf !! name = Some a → ∃ m', declare_as name a m = Some m' ∧ m' ⊆ mf ∧ m ⊆ m' ∧ m' !! name = Some a.
Proof.
  intros Hs Hf. unfold declare_as. destruct (m !! name) as [a'|] eqn:E.
  - assert (a' = a) as -> by (eapply lookup_weaken in Hs; [|done]; congruence). rewrite decide_True by done. eauto.
  - eexists. split_and!; [done|by apply insert_subseteq_l|by apply insert_subseteq|apply lookup_insert_eq].
Qed.

(** What a declaration needs to be there first. *)
Definition needs (d : declaration) (b : broker) : Prop :=
  match d with
  | Bind q x _ => is_Some (queues b !! q) ∧ is_Some (exchanges b !! x)
  | Consume q => is_Some (queues b !! q)
  | _ => True
  end.

Lemma declare_ok d b limit : sub_broker b limit → in_force limit d → needs d b →
  ∃ b', declare d b = Some b' ∧ sub_broker b b' ∧ sub_broker b' limit ∧ in_force b' d.
Proof.
  intros (Hx & Hq & Hb) Hf Hn. destruct d as [name ty du|name du args|q x k|q]; cbn in *.
  - destruct (declare_as_ok name (ty, du) _ _ Hx Hf) as (m & -> & Hm & Hm' & Hl). eexists. by split_and!.
  - destruct (declare_as_ok name (du, args) _ _ Hq Hf) as (m & -> & Hm & Hm' & Hl). eexists. by split_and!.
  - destruct Hn as [[? ->] [? ->]]. cbn. eexists. split_and!; [done|split_and!; [done..|set_solver]|split_and!; [done..|set_solver]|set_solver].
  - destruct Hn as [? Hs]. rewrite Hs. cbn. exists b. split_and!; [done..|]. by eexists.
Qed.

Lemma in_force_mono b b' d : sub_broker b b' → in_force b d → in_force b' d.
Proof.
  intros (Hx & Hq & Hb). destruct d; cbn; [intros Hl; by eapply lookup_weaken..|set_solver|].
  intros [? Hs]. eexists. by eapply lookup_weaken.
Qed.

(** Each process declares what its later declarations need. *)
Definition needs_met (made : list declaration) (d : declaration) : bool :=
  let has_queue q := existsb (λ d', match d' with DeclareQueue q' _ _ => bool_decide (q' = q) | _ => false end) made in
  let has_exchange x := existsb (λ d', match d' with DeclareExchange x' _ _ => bool_decide (x' = x) | _ => false end) made in
  match d with
  | Bind q x _ => has_queue q && has_exchange x
  | Consume q => has_queue q
  | _ => true
  end.
Fixpoint well_ordered (made todo : list declaration) : bool :=
  match todo with [] => true | d :: rest => needs_met made d && well_ordered (made ++ [d]) rest end.

Lemma well_ordered_split made0 todo made d rest :
  well_ordered made0 todo = true → todo = made ++ d :: rest → needs_met (made0 ++ made) d = true.
Proof.
  revert made0 todo. induction made as [|x made IH]; intros made0 todo Hw ->; cbn in Hw; bool_to_prop.
  - by rewrite app_nil_r.
  - replace (made0 ++ x :: made) with ((made0 ++ [x]) ++ made) by (by rewrite <- app_assoc). eauto.
Qed.

Lemma role_well_ordered p : role p → well_ordered [] p = true.
Proof. by intros [->| ->]. Qed.

Lemma needs_met_ok made d b : needs_met made d = true → Forall (in_force b) made → needs d b.
Proof.
  rewrite Forall_forall. intros Hn Hm.
  assert (∀ q, existsb (λ d', match d' with DeclareQueue q' _ _ => bool_decide (q' = q) | _ => false end) made = true →
    is_Some (queues b !! q)) as Hq.
  { intros q (d' & Hd'%list_elem_of_In & Hd)%existsb_exists. destruct d'; try done. bool_to_prop. subst.
    apply Hm in Hd'. cbn in Hd'. eauto. }
  assert (∀ x, existsb (λ d', match d' with DeclareExchange x' _ _ => bool_decide (x' = x) | _ => false end) made = true →
    is_Some (exchanges b !! x)) as Hx.
  { intros x (d' & Hd'%list_elem_of_In & Hd)%existsb_exists. destruct d'; try done. bool_to_prop. subst.
    apply Hm in Hd'. cbn in Hd'. eauto. }
  destruct d; cbn in *; bool_to_prop; auto.
Qed.

(** What holds while the processes connect. *)
Definition connecting_inv (s : broker * list (list declaration)) : Prop :=
  sub_broker s.1 full ∧
  ∀ todo, todo ∈ s.2 → ∃ p made, role p ∧ p = made ++ todo ∧ Forall (in_force s.1) made.

Lemma role_in_full p d : role p → d ∈ p → in_force full d.
Proof.
  intros Hp Hd. pose proof full_in_force as Hf. rewrite Forall_forall in Hf. apply Hf, elem_of_app.
  destruct Hp as [->| ->]; auto.
Qed.

Lemma next_declaration b ps d rest :
  connecting_inv (b, ps) → d :: rest ∈ ps →
  ∃ b', declare d b = Some b' ∧ sub_broker b b' ∧ sub_broker b' full ∧ in_force b' d.
Proof.
  intros [Hb Hp] Hin. destruct (Hp _ Hin) as (p & made & Hr & Heq & Hm). apply declare_ok; [done|..].
  - apply (role_in_full p); [done|]. rewrite Heq. set_solver.
  - eapply needs_met_ok; [|exact Hm]. apply (well_ordered_split [] p made d rest); [by apply role_well_ordered|done].
Qed.

Lemma connecting_step s s' : connecting_inv s → connecting s s' → connecting_inv s'.
Proof.
  intros Hi Hc. destruct Hc as [b b' d rest l1 l2 Hd]. destruct (next_declaration b _ d rest Hi) as (b1 & Hd1 & Hs & Hf & Hd'); [set_solver|].
  assert (b1 = b') as -> by congruence. destruct Hi as [_ Hp]. split; [done|]. cbn in *.
  assert (∀ made, Forall (in_force b) made → Forall (in_force b') made) as Hmono
    by (intros made Hm; eapply Forall_impl; [exact Hm|]; intros; by eapply in_force_mono).
  intros todo [Hin|[->|Hin]%elem_of_cons]%elem_of_app.
  - destruct (Hp todo) as (p & made & ? & ? & ?); [set_solver|]. exists p, made. auto.
  - destruct (Hp (d :: rest)) as (p & made & ? & -> & ?); [set_solver|]. eexists _, (made ++ [d]).
    split_and!; [done|by rewrite <- app_assoc|]. apply Forall_app. auto.
  - destruct (Hp todo) as (p & made & ? & ? & ?); [set_solver|]. exists p, made. auto.
Qed.

Lemma connecting_steps s s' : connecting_inv s → rtc connecting s s' → connecting_inv s'.
Proof. intros Hi. induction 1; eauto using connecting_step. Qed.

(** The complete bindings, in the terms of [bound_queue]. *)
Lemma full_bindings q x k : (q, x, k) ∈ bindings full ↔ bound_queue x k = Some q.
Proof.
  Transparent full.
  assert (bindings full = {[ (QUEUE_NAME, EXCHANGE_NAME, ROUTING_KEY);
    (DEAD_LETTER_QUEUE_NAME, DEAD_LETTER_EXCHANGE_NAME, DEAD_LETTER_ROUTING_KEY);
    (DEAD_LETTER_QUEUE_NAME, DEAD_LETTER_EXCHANGE_NAME, POISON_ROUTING_KEY) ]}) as ->
    by (apply (bool_decide_eq_true_1 _); vm_compute; reflexivity).
  Opaque full.
  unfold bound_queue. rewrite !elem_of_union, !elem_of_singleton. split.
  - intros [[[= -> -> ->]|[= -> -> ->]]|[= -> -> ->]]; done.
  - repeat case_bool_decide; intros [= <-]; destruct_and?; subst; [auto|].
    match goal with Hk : _ ∈ [_; _] |- _ => rewrite elem_of_cons, list_elem_of_singleton in Hk; destruct Hk as [->| ->] end; auto.
Qed.

(** A process that has made all its declarations leaves the complete bindings. *)
Lemma role_binds p b q x k : role p → Forall (in_force b) p → bound_queue x k = Some q → (q, x, k) ∈ bindings b.
Proof.
  intros Hp Hf. rewrite Forall_forall in Hf. unfold bound_queue.
  repeat case_bool_decide; intros [= <-]; destruct_and?; subst.
  - apply (Hf (Bind QUEUE_NAME EXCHANGE_NAME ROUTING_KEY)). destruct Hp as [->| ->]; by apply (bool_decide_eq_true_1 _).
  - match goal with Hk : _ ∈ [_; _] |- _ => rewrite elem_of_cons, list_elem_of_singleton in Hk; destruct Hk as [->| ->] end.
    + apply (Hf (Bind DEAD_LETTER_QUEUE_NAME DEAD_LETTER_EXCHANGE_NAME DEAD_LETTER_ROUTING_KEY)).
      destruct Hp as [->| ->]; by apply (bool_decide_eq_true_1 _).
    + apply (Hf (Bind DEAD_LETTER_QUEUE_NAME DEAD_LETTER_EXCHANGE_NAME POISON_ROUTING_KEY)).
      destruct Hp as [->| ->]; by apply (bool_decide_eq_true_1 _).
Qed.

(** (C19) The processes agree on the topology: starting from an empty broker, whatever dispatchers
    and workers connect and however their declarations interleave, the broker refuses none of
    them, so no process is ever locked out; and as soon as one of them is connected, every
    message a publisher may send is routed to exactly one queue, the one [bound_queue] names
    (so a mandatory publication is never returned), and a message a worker rejects goes to
    exactly the dead-letter queue. *)
Theorem topology_agrees ps b ps' :
  Forall role ps → rtc connecting (fresh_broker, ps) (b, ps') →
  (∀ d rest, d :: rest ∈ ps' → is_Some (declare d b))
  ∧ ([] ∈ ps' →
     (∀ e x k, _destination_for e = Ok (x, k) →
        ∃ q, bound_queue x k = Some q ∧ ∀ q', (q', x, k) ∈ bindings b ↔ q' = q)
     ∧ ∃ arguments x k, queues b !! QUEUE_NAME = Some (true, arguments)
         ∧ dead_letter_target arguments = Some (x, k)
         ∧ ∀ q', (q', x, k) ∈ bindings b ↔ q' = DEAD_LETTER_QUEUE_NAME).
Proof.
  intros Hps Hst.
  assert (connecting_inv (b, ps')) as Hi.
  { eapply connecting_steps; [|exact Hst]. split.
    - split_and!; [apply map_empty_subseteq..|apply empty_subseteq].
    - intros todo Hin. rewrite Forall_forall in Hps. exists todo, []. auto. }
  split; [intros d rest Hin; destruct (next_declaration _ _ _ _ Hi Hin) as (b' & -> & _); eauto|].
  intros Hin. destruct Hi as [Hb Hp]. destruct (Hp _ Hin) as (p & made & Hr & -> & Hm).
  rewrite app_nil_r in Hr. cbn in Hb, Hm.
  assert (∀ x k q, bound_queue x k = Some q → ∀ q', (q', x, k) ∈ bindings b ↔ q' = q) as Hone.
  { intros x k q Hq q'. split.
    - intros Hin'. assert ((q', x, k) ∈ bindings full) as Hf by (by apply Hb). apply full_bindings in Hf. congruence.
    - intros ->. by eapply role_binds. }
  split.
  - intros e x k. unfold _destination_for. repeat case_bool_decide; try done; intros [= <- <-]; eauto.
  - exists queue_arguments, DEAD_LETTER_EXCHANGE_NAME, POISON_ROUTING_KEY. split_and!; [|done|by apply Hone].
    rewrite Forall_forall in Hm. apply (Hm (DeclareQueue QUEUE_NAME true queue_arguments)).
    destruct Hr as [->| ->]; cbn; set_solver.
Qed.

(** One process connects while the others wait. *)
Fixpoint declare_all (p : list declaration) (b : broker) : option broker :=
  match p with [] => Some b | d :: p => b' ← declare d b; declare_all p b' end.

Lemma declare_all_steps p b b' ps : declare_all p b = Some b' → rtc connecting (b, p :: ps) (b', [] :: ps).
Proof.
  revert b. induction p as [|d p IH]; cbn; intros b Hd; [by simplify_eq|].
  destruct (declare d b) as [b1|] eqn:E; [|done].
  eapply rtc_l; [by apply (connecting_one b b1 d p [] ps)|by apply IH].
Qed.

Lemma topology_agrees_witness :
  ∃ b, declare_all publisher_topology fresh_broker = Some b
    ∧ is_Some (declare (DeclareExchange EXCHANGE_NAME "direct" true) b)
    ∧ ∃ arguments x k, queues b !! QUEUE_NAME = Some (true, arguments)
        ∧ dead_letter_target arguments = Some (x, k)
        ∧ ∀ q', (q', x, k) ∈ bindings b ↔ q' = DEAD_LETTER_QUEUE_NAME.
Proof.
  destruct (declare_all publisher_topology fresh_broker) as [b|] eqn:E; [|by vm_compute in E].
  exists b. split; [done|].
  destruct (topology_agrees [publisher_topology; worker_topology] b [[]; worker_topology]) as [Hnext Hdone].
  - constructor; [by left|]. constructor; [by right|constructor].
  - by apply declare_all_steps.
  - split; [apply (Hnext _ (drop 1 worker_topology)); right; by left|].
    destruct Hdone as [_ Hd]; [by left|]. exact Hd.
Defined.
