(* ===== verification/Processes.v ===== *)
(** * The processes

    [src/src/agent_runtime/processes.py]: the loops that drive the dispatcher, the scheduler and
    the worker, with the connections of
    [src/src/agent_runtime/infrastructure/messaging/publisher.py] and [worker.py] they hold, and
    the heartbeats they write.  The dispatcher and scheduler loops are functions of the database;
    what other processes do between two passes is in [System]. *)

From S2P Require Import Prelude Float64 PyValue States Retry Models Quotas Canonical RunService.
From S2P Require Import ExecutionService Lifecycle Refinement Messaging System Guarantees ExecutionTheorems.
From S2P Require Import Telemetry Settings Observability Simulator.
Local Open Scope Z_scope.

(** ** The dispatcher *)

Section Dispatcher.
Context `{Host} (broker : OutboxEvent.t → result unit) (clock : nat → time * time) (batch_size : Z).

(** One pass of [_run_dispatcher] with no other dispatcher at work: a batch, a heartbeat, then
    the next pass at once if something was published ([true]) or after a pause ([false]). *)
Definition dispatcher_pass (d : db) : Z * bool * db :=
  let '(published_count, d') :=
    dispatch_once broker (λ n, (fst (clock n), snd (clock n), λ _, true)) batch_size d in
  (published_count, bool_decide (published_count ≠ 0), d').

(** The loop until it pauses, with the counts of its passes; [None] when the fuel is spent. *)
Fixpoint until_pause (fuel : nat) (d : db) : option (list Z * db) :=
  match fuel with
  | O => None
  | S fuel =>
      let '(n, again, d') := dispatcher_pass d in
      if again then '(ns, d'') ← until_pause fuel d'; Some (n :: ns, d'') else Some ([n], d')
  end.

Definition backlog (d : db) : nat := count_where unpublished (outbox d).

(** What publishing makes of the outbox: no row is lost or added, a row that was published is as
    it was, and another either is as it was or is now marked published. *)
Definition outbox_progress (d d' : db) : Prop :=
  (∀ k, is_Some (outbox d' !! k) ↔ is_Some (outbox d !! k))
  ∧ ∀ k e e', outbox d !! k = Some e → outbox d' !! k = Some e' →
      e' = e ∨ (unpublished e = true ∧ ∃ now, e' = mark_published now e).

Lemma marked_published now e : unpublished (mark_published now e) = false.
Proof. done. Qed.

Lemma outbox_progress_refl d : outbox_progress d d.
Proof. split; [done|]. intros k e e' H1 H2. left. congruence. Qed.

Lemma outbox_progress_trans d1 d2 d3 :
  outbox_progress d1 d2 → outbox_progress d2 d3 → outbox_progress d1 d3.
Proof.
  intros [Hd1 Hp1] [Hd2 Hp2]. split; [intros k; by rewrite Hd2|]. intros k e e3 H1 H3.
  destruct (proj1 (Hd2 k)) as [e2 H2]; [by eexists|].
  destruct (Hp1 _ _ _ H1 H2) as [->|(Hu & now & ->)]; [by eapply Hp2|].
  destruct (Hp2 _ _ _ H2 H3) as [->|[Hn _]]; [right; eauto|by rewrite marked_published in Hn].
Qed.

(** The broker confirms every message. *)
Definition confirming (d : db) : Prop :=
  ∀ k e, outbox d !! k = Some e → unpublished e = true → publish broker e = Ok tt.

Lemma confirming_progress d d' : outbox_progress d d' → confirming d → confirming d'.
Proof.
  intros [Hd Hp] Hc k e' He' Hu. destruct (proj1 (Hd k)) as [e He]; [by eexists|].
  destruct (Hp _ _ _ He He') as [->|(_ & now & ->)]; [by eapply Hc|done].
Qed.

Lemma next_outbox_none d : next_outbox (λ _, true) d = None → backlog d = 0%nat.
Proof.
  intros Hn. destruct (backlog d) as [|n] eqn:Hb; [done|exfalso].
  unfold backlog, count_where in Hb.
  destruct (map_choose (filter (λ kv : uuid * OutboxEvent.t, unpublished kv.2 = true) (outbox d)))
    as (k & e & Hk); [by intros Hz; rewrite Hz, map_size_empty in Hb|].
  apply map_lookup_filter_Some in Hk as [Hk Hu]. cbn in Hu. unfold next_outbox in Hn.
  assert (e ∈ rows_where (λ e, unpublished e && true) (outbox d)) as Hin.
  { apply elem_of_rows_where. exists k. by rewrite Hu. }
  rewrite <- (sort_by_perm (λ a b, OutboxEvent.created_at a <? OutboxEvent.created_at b)) in Hin.
  destruct (sort_by _ _); [by apply not_elem_of_nil in Hin|done].
Qed.

(** One dispatch with a confirming broker. *)
Lemma dispatch_one_confirmed now tx d res d' :
  db_wf d → confirming d → _dispatch_one now tx (λ _, true) broker d = (res, d') →
  db_wf d' ∧ outbox_progress d d'
  ∧ if found_event res then published res = true ∧ backlog d = S (backlog d') else d' = d ∧ backlog d = 0%nat.
Proof.
  intros Hwf Hc Hd. unfold _dispatch_one in Hd.
  destruct (next_outbox (λ _, true) d) as [e|] eqn:Hn.
  - destruct (next_outbox_some _ _ _ Hwf Hn) as (Hk & Hp & Hdr).
    assert (unpublished e = true) as Hu by (by apply bool_decide_eq_true).
    rewrite (Hc _ _ Hk Hu) in Hd. injection Hd as <- <-. cbn.
    split; [pose proof (wf_outbox_refs _ Hwf _ _ Hk); auto 8 with arr|]. split; [split|].
    + intros k. cbn. rewrite lookup_insert_is_Some. destruct (decide (OutboxEvent.id e = k)) as [<-|?]; [|tauto].
      rewrite Hk. split; eauto.
    + intros k e0 e1 H0 H1. cbn in H1. apply lookup_insert_Some in H1 as [[<- <-]|[_ H1]].
      * right. cbn in H0. assert (e0 = e) as -> by congruence. eauto.
      * left. congruence.
    + split; [done|]. unfold backlog. cbn.
      pose proof (count_where_update unpublished (outbox d) _ _ (mark_published now e) Hk) as Hcnt.
      rewrite Hu, marked_published in Hcnt. lia.
  - injection Hd as <- <-. split; [done|]. split; [apply outbox_progress_refl|]. split; [done|].
    by apply next_outbox_none.
Qed.

Lemma dispatch_loop_drains env n : ∀ count d c d',
  (∀ i, ∃ now tx, env i = (now, tx, λ _ : uuid, true)) → db_wf d → confirming d →
  dispatch_loop broker env n count d = (c, d') →
  db_wf d' ∧ outbox_progress d d' ∧ c = count + Z.of_nat (Nat.min n (backlog d))
  ∧ backlog d' = (backlog d - n)%nat.
Proof.
  induction n as [|n IH]; intros count d c d' He Hwf Hc Hl; cbn in Hl.
  { injection Hl as <- <-. split_and!; [done|apply outbox_progress_refl|lia|lia]. }
  destruct (He n) as (now & tx & Hn). rewrite Hn in Hl.
  destruct (_dispatch_one now tx (λ _, true) broker d) as [res d1] eqn:E.
  destruct (dispatch_one_confirmed _ _ _ _ _ Hwf Hc E) as (Hwf1 & Hp1 & Hres).
  destruct (found_event res) eqn:Ef; cbn in Hl.
  - destruct Hres as [Hpub Hb]. rewrite Hpub in Hl. cbn in Hl.
    destruct (IH _ _ _ _ He Hwf1 (confirming_progress _ _ Hp1 Hc) Hl) as (Hwf' & Hp' & Hcnt & Hb').
    split_and!; [done|by eapply outbox_progress_trans|lia|lia].
  - destruct Hres as [-> Hb]. injection Hl as <- <-. split_and!; [done|apply outbox_progress_refl|lia|lia].
Qed.

Lemma dispatcher_pass_drains d n again d' :
  db_wf d → confirming d → dispatcher_pass d = (n, again, d') →
  db_wf d' ∧ outbox_progress d d' ∧ confirming d' ∧ n = Z.of_nat (Nat.min (Z.to_nat batch_size) (backlog d))
  ∧ backlog d' = (backlog d - Z.to_nat batch_size)%nat ∧ again = bool_decide (n ≠ 0).
Proof.
  intros Hwf Hc Hp. unfold dispatcher_pass, dispatch_once in Hp.
  destruct (dispatch_loop _ _ _ _ _) as [c d1] eqn:E. injection Hp as <- <- <-.
  destruct (dispatch_loop_drains _ _ _ _ _ _ (λ i, ex_intro _ _ (ex_intro _ _ eq_refl)) Hwf Hc E)
    as (Hwf' & Hp' & -> & Hb).
  split_and!; [done|done|by eapply confirming_progress|lia|done|done].
Qed.

(** (C18) The dispatcher drains the outbox: with a positive batch size and a broker that confirms, the
    loop pauses after at most one pass per unpublished row and one more; by then every unpublished
    row has been published exactly once (the counts of the passes add up to the backlog), no row is
    unpublished, and no other column of the outbox has changed. *)
Theorem dispatcher_drains_outbox d :
  db_wf d → confirming d → 0 < batch_size →
  ∃ ns d', until_pause (S (backlog d)) d = Some (ns, d')
    ∧ foldr Z.add 0 ns = Z.of_nat (backlog d) ∧ last ns = Some 0
    ∧ (∀ k e, outbox d' !! k = Some e → unpublished e = false) ∧ outbox_progress d d'.
Proof.
  intros Hwf Hc Hb.
  assert (∀ n d, (backlog d ≤ n)%nat → db_wf d → confirming d →
    ∃ ns d', until_pause (S n) d = Some (ns, d') ∧ foldr Z.add 0 ns = Z.of_nat (backlog d)
      ∧ last ns = Some 0 ∧ backlog d' = 0%nat ∧ outbox_progress d d') as Hall.
  { clear d Hwf Hc. induction n as [|n IH]; intros d Hle Hwf Hc;
      destruct (dispatcher_pass d) as [[c again] d1] eqn:E;
      destruct (dispatcher_pass_drains _ _ _ _ Hwf Hc E) as (Hwf1 & Hp1 & Hc1 & Hcnt & Hb1 & Hagain).
    - cbn [until_pause]. rewrite E, Hagain, bool_decide_false by lia.
      exists [c], d1. cbn. split_and!; [done|lia|f_equal; lia|lia|done].
    - cbn [until_pause]. rewrite E, Hagain. case_bool_decide as Hne.
      + destruct (IH d1) as (ns & d' & Hu & Hs & Hl & Hz & Hp'); [lia|done..|].
        cbn [until_pause] in Hu. rewrite Hu. exists (c :: ns), d'. cbn.
        split_and!; [done|lia|by destruct ns|done|by eapply outbox_progress_trans].
      + exists [c], d1. cbn. split_and!; [done|lia|f_equal; lia|lia|done]. }
  destruct (Hall (backlog d) d) as (ns & d' & Hu & Hs & Hl & Hz & Hp); [lia|done..|].
  exists ns, d'. split_and!; try done. intros k e Hk. destruct (unpublished e) eqn:Hu'; [|done].
  pose proof (count_where_pos unpublished (outbox d') k e Hk Hu'). unfold backlog in Hz. lia.
Qed.
End Dispatcher.

(** ** The scheduler *)

(** The default [batch_size] of both methods. *)
Definition scheduler_batch : Z := 100.

Section Scheduler.
Context `{Host}.

(** One pass of [_run_recovery]; an exception ends the process. *)
Definition scheduler_pass (now1 tx1 now2 tx2 : time) (d : db) : result (Z * Z) * db :=
  match recover_expired_leases now1 tx1 (λ _, true) scheduler_batch d with
  | (Err e, d) => (Err e, d)
  | (Ok recovered_count, d) =>
      match schedule_due_retries now2 tx2 (λ _, true) scheduler_batch d with
      | (Err e, d) => (Err e, d)
      | (Ok queued_count, d) => (Ok (recovered_count, queued_count), d)
      end
  end.

(** The pause between two passes. *)
Definition scheduler_pause (s : Settings) : f64 :=
  f64_min (lease_recovery_poll_interval_seconds s) (retry_scheduler_poll_interval_seconds s).

Context (limits : QuotaLimits) (sm lease : Z) (job_timeout : num) (check_schema : json → bool).
Context (Hjob : num_in 1 3600 job_timeout).
Abbreviation reachable := (reachable limits sm lease job_timeout check_schema).

(** Runs that hold a lease or wait for a retry. *)
Definition waiting (r : Run.t) : bool := bool_decide (Run.execution_status r ∈ [RUNNING; RETRY_SCHEDULED]).

Lemma count_where_le {A} (P Q : A → bool) (m m' : gmap uuid A) :
  (∀ k x, m !! k = Some x → P x = true → ∃ y, m' !! k = Some y ∧ Q y = true) →
  (count_where P m ≤ count_where Q m')%nat.
Proof.
  intros Himp. unfold count_where. rewrite <- !size_dom. apply subseteq_size. intros k.
  rewrite !elem_of_dom. intros [x [Hx HP]%map_lookup_filter_Some].
  destruct (Himp _ _ Hx HP) as (y & Hy & HQ). exists y. by apply map_lookup_filter_Some.
Qed.

Lemma retry_due_waiting now r : retry_due now r = true → waiting r = true.
Proof. unfold retry_due, waiting. intros Hd. bool_to_prop. apply bool_decide_eq_true. set_solver. Qed.
Lemma lease_expired_waiting now r : lease_expired now r = true → waiting r = true.
Proof. unfold lease_expired, waiting. intros Hd. bool_to_prop. apply bool_decide_eq_true. set_solver. Qed.

Lemma same_outcome_status r r' : same_outcome r r' → Run.execution_status r = Run.execution_status r'.
Proof. intros Ho. exact (f_equal Run.execution_status Ho). Qed.

(** (C20) A pass of the scheduler clears what is due: in a reachable state where at most a batch of runs
    hold a lease or wait, the pass succeeds; afterwards no lease has expired at the time of the
    recovery and no retry is due at the time of the scheduling, and every run whose retry was due
    before the pass is [QUEUED] with an unpublished outbox row. *)
Theorem scheduler_pass_clears_due s now1 tx1 now2 tx2 :
  reachable s → clock_ok now1 → count_runs waiting (sdb s) ≤ scheduler_batch →
  ∃ counts d', scheduler_pass now1 tx1 now2 tx2 (sdb s) = (Ok counts, d')
    ∧ (∀ k r, runs d' !! k = Some r → lease_expired now1 r = false ∧ retry_due now2 r = false)
    ∧ ∀ k r, runs (sdb s) !! k = Some r → retry_due now2 r = true →
        announced d' k ∧ Run.execution_status <$> runs d' !! k = Some QUEUED.
Proof.
  intros Hs%reachable_inv Hc Hn; [|done]. pose proof (si_wf _ _ _ Hs) as Hwf. unfold count_runs in Hn.
  destruct (recover_pass limits sm lease now1 tx1 scheduler_batch (sdb s) Hwf (si_db _ _ _ Hs) Hc)
    as (d1 & c1 & Hrec & Hclear & Hkept & Hnew).
  { etrans; [|exact Hn]. apply Nat2Z.inj_le, count_where_le. eauto using lease_expired_waiting. }
  assert (db_wf d1) as Hwf1 by (by eapply (recover_refines limits sm lease)).
  destruct (schedule_pass limits sm lease now2 tx2 scheduler_batch d1 Hwf1) as (d2 & c2 & Hsch & Hall & Hnew2).
  { etrans; [|exact Hn]. apply Nat2Z.inj_le, count_where_le. intros k r1 H1 Hdue.
    destruct (runs (sdb s) !! k) as [r0|] eqn:E; [|by rewrite Hnew in H1]. exists r0. split; [done|].
    destruct (Hkept k r0 E) as (r1' & H1' & Hcase). assert (r1' = r1) as -> by congruence.
    destruct (lease_expired now1 r0) eqn:He; [by eapply lease_expired_waiting|].
    unfold waiting. rewrite (same_outcome_status _ _ Hcase). by eapply retry_due_waiting. }
  exists (c1, c2), d2. unfold scheduler_pass. rewrite Hrec, Hsch. split_and!; [done| |].
  - intros k r2 H2. destruct (runs d1 !! k) as [r1|] eqn:E; [|by rewrite Hnew2 in H2].
    specialize (Hall _ _ E). destruct (retry_due now2 r1) eqn:Hdue.
    + destruct Hall as (Hr & _). assert (r2 = requeue_run r1) as -> by congruence. done.
    + assert (r2 = r1) as -> by congruence. by split; [eapply Hclear|].
  - intros k r Hk Hdue. destruct (Hkept k r Hk) as (r1 & Hr1 & Hcase).
    assert (Run.execution_status r = RETRY_SCHEDULED) as Hst by (unfold retry_due in Hdue; by bool_to_prop).
    replace (lease_expired now1 r) with false in Hcase by (unfold lease_expired; by rewrite Hst).
    assert (retry_due now2 r1 = true) as Hdue1.
    { unfold retry_due in *. rewrite <- (same_outcome_status _ _ Hcase).
      by rewrite <- (f_equal Run.next_attempt_at Hcase : Run.next_attempt_at r = Run.next_attempt_at r1). }
    specialize (Hall _ _ Hr1). rewrite Hdue1 in Hall. destruct Hall as (Hr2 & Hq & Ha).
    split; [done|]. by rewrite Hr2.
Qed.
End Scheduler.

(** ** The publisher's connection *)

(** [_connection] and whether [_exchanges] is filled; [pc_open] are the connections the broker
    sees as open, of which [connect_robust] numbers the next one [pc_next]. *)
Record PublisherConn := {
  pc_connection : option nat;
  pc_ready : bool;
  pc_open : gset nat;
  pc_next : nat;
}.
Definition publisher_start : PublisherConn :=
  {| pc_connection := None; pc_ready := false; pc_open := ∅; pc_next := 0 |}.

(** What the broker does to a call: refuse the connection, fail while the channel, exchanges, queues
    and bindings are declared, fail while publishing, or answer with a frame ([None] without
    confirmations, [Some true] for [Basic.Ack]). *)
Inductive broker_answer :=
| ConnectFails (e : exn)
| DeclareFails (e : exn)
| PublishFails (e : exn)
| Confirmation (ack : option bool).

Definition _get_exchanges (b : broker_answer) (c : PublisherConn) : result unit * PublisherConn :=
  if pc_ready c then (Ok tt, c)
  else
    match b with
    | ConnectFails e => (Err e, c)
    | _ =>
        let c1 := {| pc_connection := Some (pc_next c); pc_ready := false;
                     pc_open := {[pc_next c]} ∪ pc_open c; pc_next := S (pc_next c) |} in
        match b with
        | DeclareFails e => (Err e, c1)
        | _ => (Ok tt, {| pc_connection := pc_connection c1; pc_ready := true; pc_open := pc_open c1;
                          pc_next := pc_next c1 |})
        end
    end.

Definition publisher_close (c : PublisherConn) : PublisherConn :=
  {| pc_connection := None; pc_ready := false;
     pc_open := match pc_connection c with Some n => pc_open c ∖ {[n]} | None => pc_open c end;
     pc_next := pc_next c |}.

(** [RabbitMqPublisher.publish]; the message itself is [message_payload]. *)
Definition publisher_publish (b : broker_answer) (e : OutboxEvent.t) (c : PublisherConn)
    : result unit * PublisherConn :=
  match _get_exchanges b c with
  | (Err x, c) => (Err x, c)
  | (Ok _, c) =>
      match _destination_for e with
      | Err x => (Err x, c)
      | Ok _ =>
          match b with
          | Confirmation (Some false) => (Err PublishNotConfirmedError, c)
          | Confirmation _ => (Ok tt, c)
          | ConnectFails x | DeclareFails x | PublishFails x => (Err x, publisher_close c)
          end
      end
  end.

(** A sequence of publications. *)
Fixpoint publications (l : list (broker_answer * OutboxEvent.t)) (c : PublisherConn) : PublisherConn :=
  match l with
  | [] => c
  | (b, e) :: l => publications l (snd (publisher_publish b e c))
  end.

Definition declaration_fails (x : broker_answer * OutboxEvent.t) : bool :=
  match x.1 with DeclareFails _ => true | _ => false end.

(** How the broker treats one message, in the terms of [Messaging.publish]. *)
Definition answer_of (b : broker_answer) (ready : bool) : result unit :=
  match b with
  | Confirmation (Some false) => Err PublishNotConfirmedError
  | Confirmation _ => Ok tt
  | PublishFails e | ConnectFails e | DeclareFails e => Err e
  end.

(** The detailed publisher succeeds exactly when [Messaging.publish] does. *)
Lemma publisher_publish_refines b e c :
  is_ok (fst (publisher_publish b e c)) = is_ok (publish (λ _, answer_of b (pc_ready c)) e).
Proof.
  unfold publisher_publish, _get_exchanges, publish.
  destruct (pc_ready c), b as [x|x|x|[[]|]], (_destination_for e); done.
Qed.

(** The open connections are the one in use and those of failed declarations. *)
Record conn_ok (failed : nat) (c : PublisherConn) : Prop := {
  co_size : (size (pc_open c) ≤ failed + (if pc_ready c then 1 else 0))%nat;
  co_next : ∀ n, n ∈ pc_open c → (n < pc_next c)%nat;
  co_ready : pc_ready c = true → ∃ n, pc_connection c = Some n ∧ n ∈ pc_open c;
}.

Lemma publish_conn_ok failed b e c :
  conn_ok failed c →
  conn_ok (failed + (if declaration_fails (b, e) then 1 else 0)) (snd (publisher_publish b e c)).
Proof.
  intros [Hs Hn Hr].
  assert (∀ k, conn_ok (failed + k) c) as Hmono by (intros k; split; [lia|done..]).
  assert (pc_ready c = true → conn_ok failed (publisher_close c)) as Hclose.
  { intros Hready. destruct (Hr Hready) as (n & Hc & Hin). rewrite Hready in Hs.
    split; cbn; rewrite ?Hc; [|set_solver|done].
    rewrite size_difference, size_singleton by set_solver. lia. }
  unfold publisher_publish, _get_exchanges. destruct (pc_ready c) eqn:Hready.
  - assert (∀ k, conn_ok (failed + k) (publisher_close c)) as Hclose'.
    { intros k. destruct (Hclose eq_refl). split; [lia|done..]. }
    destruct (_destination_for e), b as [x|x|x|[[]|]]; cbn [snd]; auto.
  - assert (size (pc_open c) ≤ failed)%nat as Hs' by lia.
    assert (∀ k ready, (ready = true ∨ k = 1)%nat →
      conn_ok (failed + k) {| pc_connection := Some (pc_next c); pc_ready := ready;
        pc_open := {[pc_next c]} ∪ pc_open c; pc_next := S (pc_next c) |}) as Hnew.
    { intros k ready Hk. split; cbn; [|set_solver by lia|set_solver].
      rewrite size_union, size_singleton by (intros ? ->%elem_of_singleton Hin%Hn; lia).
      destruct ready, Hk; lia || discriminate. }
    destruct b as [x|x|x|[[]|]], (_destination_for e); cbn [snd declaration_fails fst]; auto.
    split; cbn; [|set_solver|done].
    assert (({[pc_next c]} ∪ pc_open c) ∖ {[pc_next c]} ⊆ pc_open c) as Hsub by set_solver.
    apply subseteq_size in Hsub. lia.
Qed.

(** The connections of the publisher are bounded by the failures that leak them: after any sequence
    of publications, at most one connection is open besides one for every declaration that failed
    after its connection had been made. *)
Theorem publisher_connections_bounded l :
  (size (pc_open (publications l publisher_start)) ≤ S (length (filter (λ x, declaration_fails x = true) l)))%nat.
Proof.
  assert (∀ l failed c, conn_ok failed c →
    conn_ok (failed + length (filter (λ x, declaration_fails x = true) l)) (publications l c)) as Hall.
  { clear l. induction l as [|[b e] l IH]; intros failed c Hc; cbn [publications].
    - by rewrite filter_nil, Nat.add_0_r.
    - apply (publish_conn_ok _ b e), IH in Hc. rewrite filter_cons.
      destruct (declaration_fails (b, e)); cbn in *;
        [rewrite decide_True by done|rewrite decide_False by done]; cbn; [|by rewrite Nat.add_0_r in Hc].
      by replace (failed + S _)%nat with (failed + 1 + length (filter (λ x, declaration_fails x = true) l))%nat by lia. }
  destruct (Hall l 0%nat publisher_start) as [Hs _ _]; [split; cbn; [by rewrite size_empty|set_solver|done]|].
  case_match; lia.
Qed.

(** Every one of those connections does stay open: [n] failed declarations leave [n] open. *)
Lemma publisher_leaks_connections n x e c :
  pc_ready c = false → (∀ i, i ∈ pc_open c → (i < pc_next c)%nat) →
  size (pc_open (publications (repeat (DeclareFails x, e) n) c)) = (n + size (pc_open c))%nat.
Proof.
  revert c. induction n as [|n IH]; intros c Hr Hn; [done|].
  cbn [repeat publications]. unfold publisher_publish, _get_exchanges. rewrite Hr. cbn [snd].
  rewrite IH; cbn; [|done|set_solver by lia].
  rewrite size_union, size_singleton by (intros ? ->%elem_of_singleton Hin%Hn; lia). lia.
Qed.

(** ** The worker's heartbeat *)

(** [RabbitMqWorker._connection]: none, or a connection that is open or closed. *)
Abbreviation worker_conn := (option bool).
Definition is_connected (c : worker_conn) : bool := match c with Some is_closed => negb is_closed | None => false end.
Definition worker_close (c : worker_conn) : worker_conn := None.

(** A tick of [_beat_while_connected]: the time, the connection, and how writing goes. *)
Record tick := { tk_now : f64; tk_conn : worker_conn; tk_tmp : string; tk_fault : option fault }.

Definition monitor_tick (h : Heartbeat) (fs : files) (t : tick) : files :=
  if is_connected (tk_conn t) then default fs (last (beat h (tk_now t) (tk_tmp t) (tk_fault t) fs)) else fs.

Definition _beat_while_connected (h : Heartbeat) (ticks : list tick) (fs : files) : files :=
  if enabled h then foldl (monitor_tick h) fs ticks else fs.

(** The API, the dispatcher and the scheduler beat on every pass. *)
Definition _emit_heartbeat (h : Heartbeat) (ticks : list tick) (fs : files) : files :=
  foldl (λ fs t, default fs (last (beat h (tk_now t) (tk_tmp t) (tk_fault t) fs))) fs ticks.

(** The probe looks at the file of the heartbeat. *)
Lemma disconnected_ticks h ticks fs :
  Forall (λ t, is_connected (tk_conn t) = false) ticks → foldl (monitor_tick h) fs ticks = fs.
Proof.
  intros Ht. revert fs. induction Ht as [|t ticks Hc _ IH]; intros fs; [done|]. cbn. rewrite IH.
  unfold monitor_tick. by rewrite Hc.
Qed.

(** The probe of a worker sees a lost connection: with the heartbeat configured, after any ticks of
    which the last one with a usable connection (and a working file system) was at [t], the probe
    succeeds exactly while [t] is not older than the limit; the process being alive is not enough. *)
Theorem worker_probe_sees_connection h path before t after fs max_age now :
  hb_path h = Some path → path ≠ "" →
  is_connected (tk_conn t) = true → tk_fault t = None →
  Forall (λ t', is_connected (tk_conn t') = false) after →
  healthcheck None (Some path) max_age now (_beat_while_connected h (before ++ t :: after) fs) = Exits0 ↔
  num_le (NInt 0) (NFloat (f64_sub now (tk_now t))) = true
  ∧ num_le (NFloat (f64_sub now (tk_now t))) (NFloat max_age) = true.
Proof.
  intros Hp Hne Hc Hf Hafter. unfold _beat_while_connected, enabled. rewrite Hp.
  rewrite foldl_app. cbn [foldl]. rewrite disconnected_ticks by done.
  set (fs1 := foldl _ fs before). unfold monitor_tick. rewrite Hc. unfold beat. rewrite Hp, Hf. cbn [_write_atomically fst last].
  cbn [from_option id]. unfold healthcheck. cbn [mbind option_bind]. rewrite bool_decide_false by done.
  set (fs2 := <[path := _]> _).
  assert (read_heartbeat path now fs2
          = Ok (Some {| hs_component := hb_component h; hs_age_seconds := f64_sub now (tk_now t) |})) as ->
    by (unfold read_heartbeat, fs2; by rewrite lookup_insert_eq).
  unfold is_fresh. cbn [hs_age_seconds].
  destruct (num_le (NInt 0) _), (num_le _ (NFloat max_age)); cbn; split; (done || by intros []).
Qed.

(** ** The theorems on concrete states *)

Lemma dispatcher_drains_outbox_witness :
  ∃ ns d', @until_pause demo_host (λ _, Ok tt) (λ _, (0, 0)) 10 2 (sdb demo_queued) = Some (ns, d')
    ∧ foldr Z.add 0 ns = 1 ∧ last ns = Some 0
    ∧ (∀ k e, outbox d' !! k = Some e → unpublished e = false) ∧ outbox_progress (sdb demo_queued) d'.
Proof.
  assert (db_wf (sdb demo_queued)) as Hwf
    by (exact (si_wf _ _ _ (reachable_inv _ _ _ _ _ demo_job_timeout _ demo_queued_reachable))).
  assert (@confirming (λ _, Ok tt) (sdb demo_queued)) as Hc.
  { intros k e Hk _.
    assert (map_Forall (λ _ e, publish (λ _, Ok tt) e = Ok tt) (outbox (sdb demo_queued))) as Hall
      by (apply (bool_decide_eq_true_1 _); vm_compute; reflexivity).
    exact (Hall k e Hk). }
  assert (backlog (sdb demo_queued) = 1%nat) as Hb by (vm_compute; reflexivity).
  destruct (@dispatcher_drains_outbox demo_host (λ _, Ok tt) (λ _, (0, 0)) 10 (sdb demo_queued) Hwf Hc ltac:(lia))
    as (ns & d' & H1 & H2 & H3).
  rewrite Hb in H1, H2. exists ns, d'. split; [exact H1|]. split; [exact H2|exact H3].
Defined.

Lemma scheduler_pass_clears_due_witness :
  ∃ counts d', @scheduler_pass demo_host (seconds 100) (seconds 100) (seconds 100) (seconds 100) (sdb demo_retry)
                 = (Ok counts, d')
    ∧ (∀ k r, runs d' !! k = Some r → lease_expired (seconds 100) r = false ∧ retry_due (seconds 100) r = false)
    ∧ ∀ k r, runs (sdb demo_retry) !! k = Some r → retry_due (seconds 100) r = true →
        announced d' k ∧ Run.execution_status <$> runs d' !! k = Some QUEUED.
Proof.
  apply (@scheduler_pass_clears_due demo_host demo_limits 5 60 (NInt 60) (λ _, true) demo_job_timeout demo_retry
           (seconds 100) (seconds 100) (seconds 100) (seconds 100)).
  - exact demo_retry_reachable.
  - unfold clock_ok. vm_compute. discriminate.
  - vm_compute. discriminate.
Defined.

Lemma worker_probe_sees_connection_witness :
  let t c n := {| tk_now := Fin (n * unit64); tk_conn := Some c; tk_tmp := "/tmp/x"; tk_fault := None |} in
  healthcheck None (Some "/tmp/hb") (Fin (60 * unit64)) (Fin (100 * unit64))
    (_beat_while_connected demo_heartbeat ([t false 10] ++ t false 20 :: [t true 90]) ∅) ≠ Exits0.
Proof.
  cbv zeta. intros He.
  apply (worker_probe_sees_connection demo_heartbeat "/tmp/hb" _ _ _ ∅ (Fin (60 * unit64)) (Fin (100 * unit64))) in He;
    [|reflexivity|discriminate|reflexivity|reflexivity|repeat constructor].
  destruct He as [_ He]. revert He. vm_compute. discriminate.
Defined.
