(* ===== verification/Tracing.v ===== *)
(** * Tracing across processes

    [src/src/agent_runtime/observability/telemetry.py] ([inject_trace_context],
    [extract_trace_context], [safe_span]), the [trace_http_request] middleware and
    [_record_http_duration] of [api/main.py], [_timed] of
    [infrastructure/database/run_service.py], and the spans the dispatcher and the worker
    open: which trace context reaches which process, and what is recorded about a call
    whatever its outcome.

    OpenTelemetry's propagator is a parameter: [inject] writes the headers of a context,
    [extract] reads one back, [start] is the context inside a span opened in another. *)

From S2P Require Import Prelude Float64 PyValue States Retry Models Quotas Canonical Telemetry Observability RunService.
From S2P Require Import ExecutionService Lifecycle Refinement Messaging System Simulator Guarantees.
Local Open Scope Z_scope.

(** ** Spans *)

(** What a span and the code inside it leave behind. *)
Inductive effect {Ctx : Type} :=
| SpanStarted (name : string) (parent : Ctx)
| AttributeSet (key : string) (value : json)
| Measured (m : metric_call)
| FailureRecorded (event : string)
| SpanEnded.
Arguments effect : clear implicits.

(** A call with the effects it has, in order; the result is the value returned or the
    exception raised. *)
Definition traced (Ctx A : Type) : Type := list (effect Ctx) * result A.
Definition traced_bind {Ctx A B} (m : traced Ctx A) (f : A → traced Ctx B) : traced Ctx B :=
  match m with
  | (l, Ok a) => let '(l', r) := f a in (l ++ l', r)
  | (l, Err e) => (l, Err e)
  end.
Definition tell {Ctx} (l : list (effect Ctx)) : traced Ctx unit := (l, Ok tt).

Section Spans.
Context {Ctx : Type} (inject : Ctx → dict) (extract : dict → Ctx) (start : string → Ctx → Ctx).

Definition inject_trace_context (current : Ctx) : dict := sanitize_trace_context (inject current).
Definition extract_trace_context (carrier : dict) : Ctx := extract (sanitize_trace_context carrier).

Definition safe_span {A} (name : string) (context : Ctx) (body : Ctx → traced Ctx A) : traced Ctx A :=
  let '(l, r) := body (start name context) in
  (SpanStarted name context :: l ++ (if is_ok r then [] else [FailureRecorded "SPAN_FAILURE"]) ++ [SpanEnded], r).

(** [_timed]: the measurement is taken in a [finally]. *)
Definition _timed {A} (operation : string) (seconds : f64) (func : traced Ctx A) : traced Ctx A :=
  let '(l, r) := func in (l ++ [Measured (db_operation operation seconds)], r).

(** ** The HTTP middleware *)

(** The headers of a request, names in lower case, in the order received. *)
Definition header_list := list (string * string).
Definition getlist (h : string) (hs : header_list) : list string := snd <$> filter (λ kv, kv.1 = h) hs.
Definition trace_headers : list string := ["traceparent"; "tracestate"].

Definition inbound_carrier (hs : header_list) : dict :=
  omap (λ h, v ← head (getlist h hs); Some (h, JStr v)) trace_headers.

Definition repeated (hs : header_list) : bool := existsb (λ h, 1 <? len (getlist h hs)) trace_headers.

(** What of the client's trace context the application continues. *)
Definition inbound_context (trust_inbound_trace_context : bool) (hs : header_list) : dict :=
  if negb trust_inbound_trace_context || repeated hs then [] else sanitize_trace_context (inbound_carrier hs).

Definition _record_http_duration (route : option string) (method : string) (status_code : Z) (seconds : f64)
    : effect Ctx := Measured (http_request route method status_code seconds).

(** [call_next] is the rest of the application, run in the span's context; it answers with a
    status code or raises.  [route] is the template the router has matched by then, and
    [seconds] the elapsed time. *)
Definition trace_http_request (trust_inbound_trace_context : bool) (method : string) (hs : header_list)
    (route : option string) (seconds : f64) (call_next : Ctx → traced Ctx Z) : traced Ctx Z :=
  let valid := inbound_context trust_inbound_trace_context hs in
  traced_bind
    (tell (if bool_decide (inbound_carrier hs = valid) then []
           else [Measured (security_event "trace_context" "dropped")])) (λ _,
  safe_span ("HTTP " +:+ method) (extract_trace_context valid) (λ span,
    traced_bind (tell [AttributeSet "http.request.method" (JStr method)]) (λ _,
    let '(l, r) := call_next span in
    match r with
    | Err e => (l ++ [_record_http_duration route method 500 seconds; FailureRecorded "API_REQUEST_FAILED"], Err e)
    | Ok status =>
        (l ++ [AttributeSet "http.response.status_code" (JNum (NInt status));
               _record_http_duration route method status seconds], Ok status)
    end))).

(** ** The dispatcher and the worker *)

(** The parent of the span [arr.outbox.dispatch]. *)
Definition dispatch_context (e : OutboxEvent.t) : Ctx :=
  extract_trace_context
    match dget_or "trace_context" (JObj []) (OutboxEvent.payload e) with JObj carrier => carrier | _ => [] end.

(** The parent of the span [arr.worker.process]. *)
Definition process_context (b : body) : Ctx := extract_trace_context (trace_context_from_message b).
End Spans.

Lemma inbound_context_rule trust hs :
  inbound_context trust hs
  = if trust && negb (repeated hs) then sanitize_trace_context (inbound_carrier hs) else [].
Proof. unfold inbound_context. by destruct trust, (repeated hs). Qed.

(** ** The middleware *)

Section MiddlewareTheorems.
Context {Ctx : Type} (extract : dict → Ctx) (start : string → Ctx → Ctx).

(** What the middleware adds to the measurements of the rest of the application. *)
Definition http_sample (e : effect Ctx) : option (option string * string * Z) :=
  match e with Measured (http_request route method status _) => Some (route, method, status) | _ => None end.

Definition trace_events (e : effect Ctx) : option (string * string) :=
  match e with Measured (security_event category outcome) => Some (category, outcome) | _ => None end.

(** Every request is sampled once and traced within the trust rule: whatever the rest of the
    application does, the caller gets its answer or exception unchanged, exactly one latency
    sample is added, with the status answered or 500 when an exception leaves the application,
    and the span is closed on both paths.  The span continues the client's context only when
    inbound contexts are trusted and neither header is repeated, and then only its sanitized
    part; a request whose context is not taken over entirely leaves one
    [trace_context]/[dropped] event, and a request without trace headers none. *)
Theorem request_traced_once trust method hs route seconds call_next :
  let '(l, r) := trace_http_request extract start trust method hs route seconds call_next in
  let carrier := if trust && negb (repeated hs) then sanitize_trace_context (inbound_carrier hs) else [] in
  let parent := extract_trace_context extract carrier in
  let '(l0, r0) := call_next (start ("HTTP " +:+ method) parent) in
  r = r0
  ∧ omap http_sample l = omap http_sample l0 ++ [(route, method, match r0 with Ok status => status | Err _ => 500 end)]
  ∧ omap trace_events l
    = (if bool_decide (inbound_carrier hs = carrier) then [] else [("trace_context", "dropped")]) ++ omap trace_events l0
  ∧ (∃ l1 l2, l = l1 ++ SpanStarted ("HTTP " +:+ method) parent :: l2
       ∧ (l1 = [] ∨ l1 = [Measured (security_event "trace_context" "dropped")])
       ∧ last l2 = Some SpanEnded)
  ∧ (is_ok r0 = true → ∀ ev, FailureRecorded ev ∈ l → FailureRecorded ev ∈ l0)
  ∧ (is_ok r0 = false → FailureRecorded "API_REQUEST_FAILED" ∈ l).
Proof.
  unfold trace_http_request. rewrite inbound_context_rule.
  set (carrier := if trust && _ then _ else _). cbv zeta.
  set (parent := extract_trace_context extract carrier).
  set (dropped := if bool_decide _ then [] else [Measured _]).
  unfold safe_span, tell. cbn [traced_bind].
  destruct (call_next _) as [l0 r0] eqn:Ec. cbv zeta.
  assert (omap http_sample dropped = [] ∧ (dropped = [] ∨ dropped = [Measured (security_event "trace_context" "dropped")])
    ∧ omap trace_events dropped = (if bool_decide (inbound_carrier hs = carrier) then [] else [("trace_context", "dropped")])
    ∧ ∀ ev, FailureRecorded ev ∉ dropped)
    as (Hh & Hd & He & Hf) by (unfold dropped; case_bool_decide; split_and!; set_solver).
  set (tags := if bool_decide _ then [] else [(_, _)]) in He |- *. clearbody tags dropped.
  destruct r0 as [status|e]; cbn [is_ok]; rewrite !omap_app, Hh, He; cbn -[app]; rewrite !omap_app; cbn;
    (split_and!; [done|by rewrite app_nil_r|by rewrite ?app_nil_r| | |]); try done.
  - eexists dropped, _. split_and!; [done|done|]. by rewrite last_cons, last_app_cons.
  - intros _ ev Hin. specialize (Hf ev). set_solver.
  - eexists dropped, _. split_and!; [done|done|]. by rewrite last_cons, last_app_cons.
  - intros _. set_solver.
Qed.
End MiddlewareTheorems.

(** ** Trace contexts in flight *)

(** Everything the broker and the workers hold. *)
Definition messages (s : sys) : list body := queue s ++ (d_body <$> held s) ++ dead_letters s.

Lemma sanitize_idempotent c : sanitize_trace_context (sanitize_trace_context c) = sanitize_trace_context c.
Proof. apply sanitize_trace_context_stable. Qed.

(** The worker's filter keeps the entries [sanitize_trace_context] leaves. *)
Lemma filter_trace_entries c :
  filter (λ kv, is_trace_entry kv = true) (sanitize_trace_context c) = sanitize_trace_context c.
Proof. by destruct (sanitize_shape c) as [->|(parent & _ & [->|(state & -> & _)])]. Qed.

Section Flight.
Context `{Host} (limits : QuotaLimits) (sm lease : Z) (job_timeout : num) (check_schema : json → bool).
Context (Hjob : num_in 1 3600 job_timeout).
Abbreviation step := (step limits sm lease job_timeout check_schema).
Abbreviation reachable := (reachable limits sm lease job_timeout check_schema).
Abbreviation sys_inv := (sys_inv limits sm).

Lemma message_trace e :
  trace_context_from_message (Some (JObj (message_payload e)))
  = sanitize_trace_context (json_obj (dget_or "trace_context" (JObj []) (OutboxEvent.payload e))).
Proof.
  set (t := sanitize_trace_context _).
  change (sanitize_trace_context (filter (λ kv, is_trace_entry kv = true) t) = t).
  unfold t. by rewrite filter_trace_entries, sanitize_idempotent.
Qed.

Record traced_inv (s : sys) : Prop := {
  ti_outbox : ∀ o e, outbox (sdb s) !! o = Some e → about_run (runs (sdb s)) e;
  ti_messages : ∀ b, b ∈ messages s →
    ∃ e, b = Some (JObj (message_payload e)) ∧ about_run (runs (sdb s)) e;
}.

Lemma about_run_evolves d d' e :
  (∀ k, run_evolves d d' k) → about_run (runs d) e → about_run (runs d') e.
Proof.
  intros He (r & Hr & Hp). destruct (He _ _ Hr) as (r' & Hr' & Hid & _). exists r'. split; [done|].
  unfold run_identity in Hid. congruence.
Qed.

(** A sequence of lifecycle changes adds only rows about runs. *)
Lemma rtc_life_about d d' :
  rtc (life limits sm lease) d d' → (∀ o e, outbox d !! o = Some e → about_run (runs d) e) →
  ∀ o e, outbox d' !! o = Some e → about_run (runs d') e.
Proof.
  induction 1 as [|d d1 d2 Hl _ IH]; [done|]. intros Hd. apply IH. intros o e He.
  destruct (proj2 (life_grows _ _ _ _ _ Hl) o e He) as [Ho|?]; [|done].
  eapply about_run_evolves; [|by eapply Hd]. intros k. by eapply life_evolves.
Qed.

Lemma enqueue_messages e s b :
  b ∈ messages (enqueue e s) → b ∈ messages s ∨ b = Some (JObj (message_payload e)).
Proof.
  unfold messages, enqueue. intros Hb.
  destruct (_destination_for e) as [[x key]|]; [|by left]. destruct (bound_queue x key); [|by left].
  case_bool_decide; cbn in Hb; rewrite ?elem_of_app, ?list_elem_of_singleton in Hb; rewrite ?elem_of_app; naive_solver.
Qed.

(** A step moves messages, or adds the one of the outbox row it dispatches. *)
Lemma step_messages s s' b :
  step s s' → b ∈ messages s' →
  b ∈ messages s ∨ ∃ vis e, next_outbox vis (sdb s) = Some e ∧ b = Some (JObj (message_payload e)).
Proof.
  intros Hst. assert (∀ h1 h2 dl disp d', held s = h1 ++ dl :: h2 →
    b ∈ messages (settle_body disp (d_body dl) d' (h1 ++ h2) s) → b ∈ messages s) as Hset.
  { unfold messages. intros h1 h2 dl disp d' -> Hb. rewrite fmap_app, fmap_cons.
    destruct disp; cbn in Hb; rewrite fmap_app in Hb; set_solver. }
  destruct Hst; intros Hb; try (by left); try (left; by eapply Hset).
  - destruct delivered; [|by left]. destruct (enqueue_messages e s b Hb) as [?| ->]; [by left|right; eauto].
  - destruct (enqueue_messages e s b Hb) as [?| ->]; [by left|right; eauto].
  - left. unfold messages in *. cbn in Hb. rewrite H0. rewrite fmap_app in Hb. cbn in Hb. set_solver.
  - left. unfold messages in *. rewrite H0. cbn in Hb. rewrite !fmap_app, !fmap_cons in *. set_solver.
Qed.

Lemma traced_step s s' : sys_inv s → traced_inv s → step s s' → traced_inv s'.
Proof.
  intros Hs [Ho Hm] Hst.
  assert (∀ e, about_run (runs (sdb s)) e → about_run (runs (sdb s')) e) as Hrun
    by (intros e; apply about_run_evolves; intros k; by eapply step_evolves).
  split.
  - destruct (step_life limits sm lease job_timeout check_schema Hjob _ _ Hs Hst) as [Hl|(Hr & _ & Hrows)];
      [by eapply rtc_life_about|].
    intros o e' He'. destruct (Hrows _ _ He') as (e & He & Hagg & Hp). apply Ho, Hrun in He.
    unfold about_run in *. by rewrite <- Hagg, <- Hp.
  - intros b Hb. destruct (step_messages _ _ _ Hst Hb) as [Hb'|(vis & e & Hn & ->)].
    + destruct (Hm _ Hb') as (e & -> & He). eauto.
    + exists e. split; [done|]. apply Hrun. eapply Ho. by apply (next_outbox_some vis _ _ (si_wf _ _ _ Hs)).
Qed.

Lemma traced_steps s s' : sys_inv s → traced_inv s → rtc step s s' → traced_inv s'.
Proof. intros Hs Ht Hst. induction Hst; [done|]. eauto using step_inv, traced_step. Qed.

(** A new run records the context its transaction injected. *)
Lemma submit_traced tx c key input policy p kind d s d' :
  submit limits tx c key input policy p kind d = (Ok (s, false), d') →
  ∃ r, runs d' !! rs_id s = Some r ∧ Run.trace_context r = tx_trace tx.
Proof.
  intros [(? & _ & _ & _ & ? & _)|(r & _ & Hc & -> & _)]%submit_inv; [done|].
  apply create_run_ok in Hc as (-> & _ & Hr & _). eexists. rewrite Hr. cbn. by rewrite lookup_insert_eq.
Qed.

Lemma reachable_traced s : reachable s → traced_inv s.
Proof.
  intros Hr. eapply (traced_steps boot); [by apply (reachable_inv limits sm lease job_timeout check_schema Hjob), rtc_refl| |exact Hr].
  split; [intros o e He; by destruct (lookup_empty_Some _ _ He)|].
  intros b Hb. by destruct (not_elem_of_nil b).
Qed.
End Flight.

(** ** Theorems *)

Section TracingTheorems.
Context `{Host} (limits : QuotaLimits) (sm lease : Z) (job_timeout : num) (check_schema : json → bool).
Context (Hjob : num_in 1 3600 job_timeout).
Context {Ctx : Type} (inject : Ctx → dict) (extract : dict → Ctx) (start : string → Ctx → Ctx).

(** (C16) A trace context follows its run through every process: when a new run is submitted in
    a context [current], then after any further activity of the system every message about
    that run - queued, held by a worker or dead-lettered, of the first attempt or of a retry -
    carries exactly the context that was injected, and both the dispatcher's and the worker's
    spans continue it; every message names a run the database still has. *)
Theorem trace_follows_run current s tx c key input policy pol p kind s0 d1 s2 :
  reachable limits sm lease job_timeout check_schema s → c ≠ "" → kind ≠ wk_evaluation → policy_ok policy pol →
  tx_trace tx = inject_trace_context inject current →
  submit limits tx c key input policy p kind (sdb s) = (Ok (s0, false), d1) →
  rtc (step limits sm lease job_timeout check_schema) (with_db d1 s) s2 →
  let continued := extract_trace_context extract (inject_trace_context inject current) in
  (∀ b, b ∈ messages s2 → ∃ k r, run_id_from_message b = Ok k ∧ runs (sdb s2) !! k = Some r
     ∧ (k = rs_id s0 → trace_context_from_message b = inject_trace_context inject current
                       ∧ process_context extract b = continued))
  ∧ ∀ o e, outbox (sdb s2) !! o = Some e → OutboxEvent.aggregate_id e = rs_id s0 →
      dispatch_context extract e = continued.
Proof.
  intros Hreach Hc Hkind Hpol Htx Hsub Hst continued.
  pose proof (reachable_traced limits sm lease job_timeout check_schema Hjob s Hreach) as Ht.
  pose proof (reachable_inv limits sm lease job_timeout check_schema Hjob s Hreach) as Hs.
  assert (step limits sm lease job_timeout check_schema s (with_db d1 s)) as H1 by (by eapply step_submit).
  pose proof (step_inv limits sm lease job_timeout check_schema Hjob _ _ Hs H1) as Hs1.
  pose proof (traced_step limits sm lease job_timeout check_schema Hjob _ _ Hs Ht H1) as Ht1.
  destruct (traced_steps limits sm lease job_timeout check_schema Hjob _ _ Hs1 Ht1 Hst) as [Ho Hm].
  destruct (submit_traced _ _ _ _ _ _ _ _ _ _ _ Hsub) as (r0 & Hr0 & Htr0).
  destruct (steps_evolve limits sm lease job_timeout check_schema Hjob _ _ (rs_id s0) Hs1 Hst) as [_ He].
  destruct (He r0 Hr0) as (r2 & Hr2 & Hid & _).
  assert (Run.trace_context r2 = inject_trace_context inject current) as Htr.
  { unfold run_identity in Hid. congruence. }
  split.
  - intros b Hb. destruct (Hm b Hb) as (e & -> & r & Hr & Hp). exists (OutboxEvent.aggregate_id e), r.
    rewrite message_run_id. split_and!; [done..|]. intros Hk.
    assert (r = r2) as -> by congruence.
    unfold process_context. rewrite message_trace. unfold dget_or. rewrite Hp, Htr. cbn.
    unfold inject_trace_context. by rewrite !sanitize_idempotent.
  - intros o e He' Hk. destruct (Ho _ _ He') as (r & Hr & Hp). assert (r = r2) as -> by congruence.
    unfold dispatch_context, dget_or. by rewrite Hp, Htr.
Qed.
End TracingTheorems.

(** ** The theorems at work *)

Definition demo_trace : dict :=
  [("traceparent", JStr "00-4bf92f3577b34da6a3ce929d0e0e4736-00f067aa0ba902b7-01"); ("tracestate", JStr "vendor=1")].
Definition demo_traced_tx : Tx := {| tx_now := seconds 1; tx_epoch := 1; tx_trace := demo_trace |}.

(** A submission in a trace, a first attempt that times out, and the message of its retry. *)
Definition retry_message_schedule : list action :=
  [ADispatch (seconds 2); ADeliver "worker-1"; AReceive (seconds 3); ASettle (Err TimeoutError) (seconds 4);
   ASchedule (seconds 100) 10; ADispatch (seconds 101)].

Section TracingWitness.
#[local] Existing Instance demo_host.

Lemma trace_follows_run_witness :
  ∃ s0 d1 b, submit demo_limits demo_traced_tx "acme" "key-1" demo_input demo_policy None wk_execution (sdb boot)
      = (Ok (s0, false), d1)
    ∧ messages (after demo_limits 5 60 retry_message_schedule (with_db d1 boot)) = [b]
    ∧ process_context (λ c, c) b = demo_trace.
Proof.
  set (X := submit demo_limits demo_traced_tx "acme" "key-1" demo_input demo_policy None wk_execution (sdb boot)).
  destruct X as [[[s0 [|]]|e] d1] eqn:HX; [exfalso; vm_compute in HX; done| |exfalso; vm_compute in HX; done].
  set (s2 := after demo_limits 5 60 retry_message_schedule (with_db d1 boot)).
  assert (d1 = X.2) as Hd1 by (by rewrite HX).
  assert (rs_id s0 = 0%N) as Hs0.
  { assert ((match X.1 with Ok (s, _) => rs_id s | Err _ => 1%N end) = 0%N) as Hi by (by vm_compute). by rewrite HX in Hi. }
  destruct (trace_follows_run demo_limits 5 60 (NInt 60) (λ _, true) demo_job_timeout (λ c : dict, c) (λ c, c)
    demo_trace boot demo_traced_tx "acme" "key-1" demo_input demo_policy sample_policy None wk_execution s0 d1 s2)
    as [Hm _].
  - apply rtc_refl.
  - done.
  - done.
  - split; by vm_compute.
  - by vm_compute.
  - exact HX.
  - apply after_steps. rewrite Hd1. apply (bool_decide_eq_true_1 _). by vm_compute.
  - assert (∃ b, messages s2 = [b] ∧ run_id_from_message b = Ok 0%N) as (b & Hb & Hrun).
    { assert (match messages s2 with [b] => bool_decide (run_id_from_message b = Ok 0%N) | _ => false end = true) as Hone
        by (unfold s2; rewrite Hd1; vm_compute; reflexivity).
      destruct (messages s2) as [|b [|]]; try discriminate Hone. apply bool_decide_eq_true in Hone. by exists b. }
    exists s0, d1, b. split_and!; [done..|].
    destruct (Hm b) as (k & r & Hk & _ & Hc); [rewrite Hb; by left|].
    destruct Hc as [_ Hp]; [congruence|]. rewrite Hp. by vm_compute.
Defined.
End TracingWitness.
