(* ===== verification/ApiTracing.v ===== *)
(** * What an API request records

    The measurements, spans and failures the code inside the tracing middleware records:
    [write_security_audit] and [enforce_security_boundary] of
    [src/src/agent_runtime/api/main.py], [_timed] and the spans of
    [infrastructure/database/run_service.py], the quota measurement of
    [infrastructure/database/quotas.py] and that of [quota_error_handler].  The results and the
    database of the same calls are those of [Boundary], [Api] and [RunService]; this file follows
    their branches.  [database_seconds] is the time [_timed] reads off the clock. *)

From S2P Require Import Prelude Float64 PyValue States Retry Models Quotas Canonical Safety Telemetry Observability Engine.
From S2P Require Import Credentials Settings RateLimiter Boundary RunService RunPort Regression ResourceExecutor Schemas Api Tracing.
Local Open Scope Z_scope.

Definition quota_denied {Ctx} : effect Ctx := Measured (security_event "quota" "denied").

(** ** The run service *)

Section Service.
Context `{Host} (limits : QuotaLimits) (job_timeout : num) (check_schema : json → bool).
Context {Ctx : Type} (start : string → Ctx → Ctx) (database_seconds : f64).

(** [check_provider_budget] measures the refusal it raises; the refusals of the active-work
    limits are not measured there. *)
Definition admission_records (d : db) (epoch : Z) (principal tenant : string) : list (effect Ctx) :=
  match check_admission d epoch principal tenant limits with
  | Err e => if bool_decide (e = quota_exceeded) then [quota_denied] else []
  | Ok _ => []
  end.

Definition run_attribute (r : Run.t) : effect Ctx := AttributeSet "arr.run_id" (JStr (uuid_str (Run.id r))).
Definition replay_attributes (r : Run.t) : list (effect Ctx) :=
  [run_attribute r; AttributeSet "arr.idempotency_replay" (JBool true)].

(** The first provider of a policy, as [run_submitted] is told it. *)
Definition provider_label (policy : dict) : string :=
  match dget_or "provider_order" (JArr [JStr "deterministic"]) policy with
  | JArr (JStr p :: _) => p
  | JStr (String c _) => String c ""
  | _ => "other"
  end.

(** Inside the span of [submit]. *)
Definition submit_attributes (tx : Tx) (c key : string) (input policy : dict) (principal_id : option string)
    (kind : WorkKind) (d : db) : list (effect Ctx) :=
  let principal := principal_or principal_id c in
  match _find_by_idempotency_key c key d with
  | Some existing => replay_attributes existing
  | None =>
      match check_admission d (tx_epoch tx) principal c limits with
      | Err _ => admission_records d (tx_epoch tx) principal c
      | Ok _ =>
          let run := new_run (next_id d) c principal kind key (submit_hash input policy kind) input policy
                       (tx_trace tx) None (tx_now tx) in
          run_attribute run
          :: if is_ok (first_provider policy) then [Measured (run_submitted (provider_label policy))] else []
      end
  end.

Definition submit_records (tx : Tx) (c key : string) (input policy : dict) (principal_id : option string)
    (kind : WorkKind) (d : db) (current : Ctx) : list (effect Ctx) :=
  fst (_timed "submit" database_seconds
         (safe_span start "arr.db.run.submit" current (λ _,
            (submit_attributes tx c key input policy principal_id kind d,
             fst (submit limits tx c key input policy principal_id kind d))))).

(** Inside the span of [replay]. *)
Definition replay_attributes_of (tx : Tx) (c : string) (run_id : uuid) (key : string) (principal_id : option string)
    (d : db) : list (effect Ctx) :=
  let principal := principal_or principal_id c in
  match _get_run_for_client c run_id d with
  | Ok source =>
      if negb (bool_decide (Run.work_kind source = wk_execution)) then [] else
      match _find_by_idempotency_key c key d with
      | Some _ => []
      | None =>
          match check_admission d (tx_epoch tx) principal c limits with
          | Err _ => admission_records d (tx_epoch tx) principal c
          | Ok _ => [AttributeSet "arr.run_id" (JStr (uuid_str (next_id d)));
                     AttributeSet "arr.replay_of_run_id" (JStr (uuid_str (Run.id source)))]
          end
      end
  | Err _ => []
  end.

Definition replay_records (tx : Tx) (c : string) (run_id : uuid) (key : string) (principal_id : option string)
    (d : db) (current : Ctx) : list (effect Ctx) :=
  fst (_timed "replay" database_seconds
         (safe_span start "arr.db.run.replay" current (λ _,
            (replay_attributes_of tx c run_id key principal_id d,
             fst (replay limits tx c run_id key principal_id d))))).

Definition evaluate_records (tx : Tx) (c : string) (run_id : uuid) (rules : list dict) (principal_id : option string)
    (d : db) : list (effect Ctx) :=
  let reached := (validate_rules check_schema rules;;
                  run ← _get_run_for_client c run_id d;
                  raise_unless (evaluable run) RunNotSucceededError) in
  fst (_timed "evaluate" database_seconds
         (if is_ok reached then admission_records d (tx_epoch tx) (principal_or principal_id c) c else [],
          fst (evaluate limits job_timeout check_schema tx c run_id rules principal_id d))).

Definition read_records {A} (operation : string) (r : result A) : list (effect Ctx) :=
  fst (_timed operation database_seconds ([], r)).
End Service.

(** ** The routes *)

Section Routes.
Context `{Host} `{Pydantic} (settings : Settings) (check_schema : json → bool).
Context {Ctx : Type} (start : string → Ctx → Ctx) (database_seconds : f64).
Context (tx : Tx) (id : Identity) (client_id : option string).
Let limits := from_settings settings.
Let timeout := attempt_timeout settings.

(** What the call of the service records, when the handler of [e] gets that far. *)
Definition handler_records (e : endpoint) (d : db) (current : Ctx) : list (effect Ctx) :=
  let reading (operation : string) (limit : Z) (read : string → result unit) :=
    match query_limit limit, _required_client_id settings id client_id with
    | inl _, inl tenant => read_records database_seconds operation (read tenant)
    | _, _ => []
    end in
  let ignoring {A} (r : result A) : result unit := r;; Ok tt in
  match e with
  | Healthz => []
  | CreateRun body key =>
      match create_run_args settings id client_id body key with
      | inl (payload, tenant, policy, principal, key) =>
          submit_records limits start database_seconds tx tenant key (crr_input payload) policy (Some principal)
            wk_execution d current
      | inr _ => []
      end
  | GetRun run_id | GetJob run_id => reading "get_run" 1 (λ t, ignoring (get_run t run_id d))
  | GetAttempts run_id limit cursor =>
      reading "get_attempts" limit (λ t, ignoring (get_attempts t run_id limit cursor d))
  | GetEvents run_id limit cursor =>
      reading "get_events" limit (λ t, ignoring (get_events t run_id limit cursor d))
  | GetEvaluations run_id limit cursor =>
      reading "get_evaluations" limit (λ t, ignoring (get_evaluations t run_id limit cursor d))
  | EvaluateRun run_id body =>
      match evaluate_run_args settings check_schema id client_id body with
      | inl (rules, tenant, principal) =>
          evaluate_records limits timeout check_schema database_seconds tx tenant run_id rules (Some principal) d
      | inr _ => []
      end
  | RunEvaluationRegression body key =>
      match regression_args settings check_schema id body key with
      | inl (payload, tenant, principal, key) =>
          submit_records limits start database_seconds tx tenant key (request_dump payload) (job_policy timeout)
            (Some principal) wk_regression d current
      | inr _ => []
      end
  | ReplayRun run_id key =>
      match replay_run_args settings id client_id key with
      | inl (tenant, principal, key) =>
          replay_records limits start database_seconds tx tenant run_id key (Some principal) d current
      | inr _ => []
      end
  end.

(** [quota_error_handler] measures every refusal it answers. *)
Definition exception_records (e : endpoint) (d : db) : list (effect Ctx) :=
  match fst (route settings check_schema (svc := sql_service settings check_schema) tx id client_id e d) with
  | inr (Raised (QuotaExceededError _)) => [quota_denied]
  | _ => []
  end.

Definition route_records (e : endpoint) (d : db) (current : Ctx) : list (effect Ctx) :=
  handler_records e d current ++ exception_records e d.
End Routes.

(** ** The boundary *)

Section BoundaryRecords.
Context `{Crypto} `{Host} (settings : Settings) (credentials : list CredentialRecord.t).
Context (limiter : string → option RateLimitDecision) (sink : SecurityAuditRecord → bool)
        (call_next : Identity → result Response).
Context {Ctx : Type} (routes : Identity → list (effect Ctx)).

Definition audit_records (entry : SecurityAuditRecord) : list (effect Ctx) :=
  if sink entry then [Measured (security_event "audit_write" "success")]
  else [Measured (security_event "audit_write" "error"); FailureRecorded "AUDIT_WRITE_FAILED"].

(** [outcome.lower()] in [audit_read]. *)
Definition read_outcome_label (status : Z) : string :=
  if status <? 400 then "allowed" else if 500 <=? status then "error" else "denied".

(** [audit_read]. *)
Definition audit_read_records (target : option (uuid * string)) (id : Identity) (a : AuthenticationResult)
    (status : Z) : list (effect Ctx) :=
  match read_entry target id a status with
  | None => []
  | Some entry => Measured (security_event "sensitive_read" (read_outcome_label status)) :: audit_records entry
  end.

Definition serve_records (target : option (uuid * string)) (a : AuthenticationResult) (id : Identity)
    : list (effect Ctx) :=
  routes id ++ audit_read_records target id a match call_next id with Ok r => status_code r | Err _ => 500 end.

Definition let_through_records (req : Request) (a : AuthenticationResult) : list (effect Ctx) :=
  let id := {| id_tenant := auth_tenant_id a; id_principal := auth_principal_id a |} in
  let target := _sensitive_read_target req in
  Measured (security_event "auth" "allowed") ::
  match auth_mode settings with
  | auth_disabled => serve_records target a id
  | auth_api_key =>
      match auth_principal_id a, auth_tenant_id a with
      | Some principal, Some tenant =>
          match limiter principal with
          | None =>
              Measured (security_event "rate_limit" "error")
              :: audit_records (audit_entry "RATE_LIMIT" "ERROR" "RATE_LIMIT_UNAVAILABLE" (Some tenant) a None)
          | Some d =>
              if negb (allowed d) then
                Measured (security_event "rate_limit" "denied")
                :: audit_records (audit_entry "RATE_LIMIT" "DENIED" "RATE_LIMIT_EXCEEDED" (Some tenant) a None)
              else
                match target with
                | Some _ => serve_records target a id
                | None =>
                    let entry := audit_entry "AUTHENTICATION" "ALLOWED" "AUTHENTICATED" (Some tenant) a
                                   (Some principal) in
                    audit_records entry
                    ++ if write_security_audit settings sink entry then serve_records target a id else []
                end
          end
      | _, _ => []
      end
  end.

Definition boundary_records (now : time) (req : Request) : list (effect Ctx) :=
  if is_public req then routes {| id_tenant := None; id_principal := None |}
  else if negb (client_id_headers_ok req) then []
  else
    match authenticate_api_key settings credentials now (req_x_api_key req) (req_authorization req) with
    | Err _ => []
    | Ok a =>
        if authenticated a then let_through_records req a
        else
          Measured (security_event "auth" "denied")
          :: audit_records (audit_entry "AUTHENTICATION" "DENIED" (default "INVALID_CREDENTIAL" (failure_code a)) None a None)
    end.
End BoundaryRecords.

(** ** What the records contain *)

(** The outcome of an audit write, as measured. *)
Definition audit_result {Ctx} (e : effect Ctx) : option bool :=
  match e with
  | Measured (security_event category outcome) =>
      if bool_decide (category = "audit_write") then Some (bool_decide (outcome = "success")) else None
  | _ => None
  end.

(** Neither a latency sample nor an audit write. *)
Definition unaccounted {Ctx} (e : effect Ctx) : Prop := http_sample e = None ∧ audit_result e = None.

Lemma unaccounted_omap {Ctx} (l : list (effect Ctx)) :
  Forall unaccounted l → omap http_sample l = [] ∧ omap audit_result l = [].
Proof. induction 1 as [|e l [Hh Ha] _ [IH1 IH2]]; [done|]. cbn. by rewrite Hh, Ha. Qed.

Create HintDb records.
#[export] Hint Extern 1 (unaccounted _) => (split; reflexivity) : records.
#[export] Hint Resolve Forall_nil_2 Forall_cons_2 Forall_app_2 : records.

Section RecordLemmas.
Context {Ctx : Type} (start : string → Ctx → Ctx).

Lemma timed_unaccounted {A} operation seconds (l : list (effect Ctx)) (r : result A) :
  Forall unaccounted l → Forall unaccounted (fst (_timed operation seconds (l, r))).
Proof. cbn. auto with records. Qed.

Lemma span_unaccounted {A} name current (l : list (effect Ctx)) (r : result A) :
  Forall unaccounted l → Forall unaccounted (fst (safe_span start name current (λ _, (l, r)))).
Proof. cbn. intros Hl. destruct (is_ok r); cbn; auto 8 with records. Qed.

Lemma timed_span_unaccounted {A} operation seconds name current (l : list (effect Ctx)) (r : result A) :
  Forall unaccounted l →
  Forall unaccounted (fst (_timed operation seconds (safe_span start name current (λ _, (l, r))))).
Proof.
  intros Hl. pose proof (span_unaccounted name current l r Hl) as Hs.
  destruct (safe_span _ _ _ _) as [l' r']. by apply timed_unaccounted.
Qed.

Context `{Host} `{Pydantic} (settings : Settings) (check_schema : json → bool) (database_seconds : f64).

Lemma admission_unaccounted limits d epoch p t : Forall (unaccounted (Ctx := Ctx)) (admission_records limits d epoch p t).
Proof. unfold admission_records. repeat case_match; auto with records. Qed.

Lemma submit_unaccounted limits tx c key input policy p kind d current :
  Forall unaccounted (submit_records limits start database_seconds tx c key input policy p kind d current).
Proof.
  apply timed_span_unaccounted. unfold submit_attributes, replay_attributes, run_attribute.
  pose proof admission_unaccounted. repeat case_match; auto with records.
Qed.

Lemma replay_unaccounted limits tx c k key p d current :
  Forall unaccounted (replay_records limits start database_seconds tx c k key p d current).
Proof.
  apply timed_span_unaccounted. unfold replay_attributes_of.
  pose proof admission_unaccounted. repeat case_match; auto with records.
Qed.

(** What the routes record is neither. *)
Lemma route_unaccounted tx id client_id e d current :
  Forall unaccounted (route_records settings check_schema start database_seconds tx id client_id e d current).
Proof.
  apply Forall_app_2.
  - pose proof admission_unaccounted. unfold handler_records. repeat case_match;
      first [ apply submit_unaccounted | apply replay_unaccounted
            | apply timed_unaccounted; case_match; auto with records
            | apply timed_unaccounted; auto with records | auto with records ].
  - unfold exception_records. repeat case_match; auto with records.
Qed.
End RecordLemmas.

(** The tracing middleware writes no audit record itself. *)
Lemma trace_audit_results {Ctx} (extract : dict → Ctx) start trust method hs route seconds call_next :
  let parent := extract_trace_context extract (inbound_context trust hs) in
  omap audit_result (fst (trace_http_request extract start trust method hs route seconds call_next))
  = omap audit_result (fst (call_next (start ("HTTP " +:+ method) parent))).
Proof.
  cbv zeta. unfold trace_http_request, safe_span, tell. cbn [traced_bind].
  set (dropped := if bool_decide _ then [] else [Measured _]).
  assert (omap (audit_result (Ctx := Ctx)) dropped = []) as Hd by (unfold dropped; by case_bool_decide).
  destruct (call_next _) as [l0 [status|e]]; cbn -[dropped app];
    rewrite omap_app, Hd; cbn; rewrite ?omap_app; cbn; by rewrite ?omap_app, ?app_nil_r.
Qed.

Section BoundaryLemmas.
Context `{Crypto} `{Host} (settings : Settings) (credentials : list CredentialRecord.t).
Context (limiter : string → option RateLimitDecision) (sink : SecurityAuditRecord → bool)
        (call_next : Identity → result Response).
Context {Ctx : Type} (routes : Identity → list (effect Ctx)).
Context (Hroutes : ∀ id, Forall unaccounted (routes id)).
Abbreviation records := (boundary_records settings credentials limiter sink call_next routes).
Abbreviation boundary := (enforce_security_boundary settings credentials limiter sink call_next).

Lemma audit_records_results entry :
  omap http_sample (audit_records (Ctx := Ctx) sink entry) = []
  ∧ omap audit_result (audit_records (Ctx := Ctx) sink entry) = [sink entry].
Proof. unfold audit_records. by destruct (sink entry). Qed.

Lemma serve_results target a before id :
  omap http_sample (serve_records sink call_next routes target a id) = []
  ∧ sink <$> audited (serve settings sink call_next target a before id)
    = (sink <$> before) ++ omap audit_result (serve_records sink call_next routes target a id).
Proof.
  unfold serve_records, serve, audit_read_records. rewrite !omap_app.
  destruct (unaccounted_omap _ (Hroutes id)) as [-> ->].
  destruct (call_next id) as [r|e]; destruct (read_entry target id a _) as [entry|];
    cbn -[audit_records]; rewrite ?fmap_app, ?app_nil_r; try done;
    by destruct (audit_records_results entry) as [-> ->].
Qed.

(** The boundary and what it lets through take no latency sample, and measure exactly the audit
    records written, each with its outcome. *)
Lemma boundary_results now req :
  omap http_sample (records now req) = []
  ∧ omap audit_result (records now req) = sink <$> audited (boundary now req).
Proof.
  unfold boundary_records, enforce_security_boundary.
  destruct (is_public req); [by destruct (unaccounted_omap _ (Hroutes {| id_tenant := None; id_principal := None |}))|].
  destruct (negb (client_id_headers_ok req)); [done|].
  destruct (authenticate_api_key _ _ _ _ _) as [a|]; [|done].
  destruct (authenticated a).
  2:{ cbn -[audit_records]. by destruct (audit_records_results (audit_entry "AUTHENTICATION" "DENIED"
        (default "INVALID_CREDENTIAL" (failure_code a)) None a None)) as [-> ->]. }
  unfold let_through_records, let_through.
  set (target := _sensitive_read_target req). set (id := {| id_tenant := _; id_principal := _ |}).
  destruct (auth_mode settings).
  { destruct (serve_results target a [] id) as [H1 H2]. cbn -[serve_records]. by rewrite H1, H2. }
  destruct (auth_principal_id a) as [p|]; [|done]. destruct (auth_tenant_id a) as [t|]; [|done].
  destruct (limiter p) as [dec|].
  2:{ cbn -[audit_records]. by destruct (audit_records_results
        (audit_entry "RATE_LIMIT" "ERROR" "RATE_LIMIT_UNAVAILABLE" (Some t) a None)) as [-> ->]. }
  destruct (negb (allowed dec)).
  { cbn -[audit_records]. by destruct (audit_records_results
        (audit_entry "RATE_LIMIT" "DENIED" "RATE_LIMIT_EXCEEDED" (Some t) a None)) as [-> ->]. }
  destruct target as [tg|].
  { destruct (serve_results (Some tg) a [] id) as [H1 H2]. cbn -[serve_records]. by rewrite H1, H2. }
  set (entry := audit_entry _ _ _ _ _ _). cbn -[serve_records audit_records write_security_audit].
  rewrite !omap_app. destruct (audit_records_results entry) as [-> ->].
  destruct (write_security_audit settings sink entry); [|done].
  destruct (serve_results None a [entry] id) as [H1 H2]. by rewrite H1, H2.
Qed.
End BoundaryLemmas.
