(* ===== verification/Application.v ===== *)
(** * The assembled API process

    [create_app] of [src/src/agent_runtime/api/main.py]: what it builds from the settings, the
    stack of middlewares it registers, what the lifespan starts and closes, and a request that
    goes through the whole stack: body limit, tracing, security boundary, routes.

    [GZipMiddleware] re-encodes bodies inside the boundary and changes no status; FastAPI's
    routing, which turns a method, a path and a body into an [endpoint] or a validation error,
    is a parameter ([endpoint_of]), as is the template of the route it matches
    ([route_template]); the stack is the production one, with [SqlAlchemyRunService]. *)

From S2P Require Import Prelude Float64 PyValue States Retry Models Quotas Canonical Telemetry Observability Engine.
From S2P Require Import Credentials Settings RateLimiter Boundary BodyLimit RunService RunPort Schemas Api ApiTheorems Tracing ApiTracing.
Local Open Scope Z_scope.

(** ** Assembly *)

Inductive service_choice := SqlService (quotas : QuotaLimits) (job_timeout_seconds : num) | GivenService.
Inductive sink_choice := SqlSink | NoopSink | GivenSink.
Inductive limiter_choice := RedisLimiter (limit window_seconds : Z) | NoopLimiter | GivenLimiter.
Inductive middleware :=
| GZip (minimum_size level : Z)
| SecurityBoundary
| TraceRequest
| BodyLimit (max_bytes timeout_seconds : Z).
(** What the lifespan closes when the process stops. *)
Inductive resource := RateLimiterClient | DatabaseEngine.

Record application := {
  app_service : service_choice;
  app_sink : sink_choice;
  app_limiter : limiter_choice;
  app_docs : bool;
  app_middlewares : list middleware;
  app_heartbeat : Heartbeat;
  app_closes : list resource;
}.

(** [app.add_middleware] and [@app.middleware]: the one registered last is the outermost. *)
Definition add_middleware (stack : list middleware) (m : middleware) : list middleware := m :: stack.

(** [GET /docs], [/redoc] and [/openapi.json] exist in local mode only. *)
Definition local_docs (s : Settings) : bool := bool_decide (auth_mode s = auth_disabled).

(** Each optional argument of [create_app] replaces a component when it is given. *)
Definition create_app (s : Settings) (run_service rate_limiter audit_sink : bool)
    : application :=
  let registered :=
    (if bool_decide (response_compression_min_bytes s = 0) then []
     else [GZip (response_compression_min_bytes s) (response_compression_level s)])
    ++ [SecurityBoundary; TraceRequest; BodyLimit (max_request_bytes s) (request_body_timeout_seconds s)] in
  {| app_service := if run_service then GivenService
                    else SqlService (from_settings s) (attempt_timeout s);
     app_sink := if audit_sink then GivenSink else if run_service then NoopSink else SqlSink;
     app_limiter := if rate_limiter then GivenLimiter
                    else if bool_decide (auth_mode s = auth_api_key)
                    then RedisLimiter (rate_limit_requests s) (rate_limit_window_seconds s)
                    else NoopLimiter;
     app_docs := local_docs s;
     app_middlewares := foldl add_middleware [] registered;
     app_heartbeat := {| hb_path := heartbeat_path s; hb_component := "api" |};
     app_closes := (if rate_limiter then [] else [RateLimiterClient])
                   ++ (if run_service then [] else [DatabaseEngine]) |}.

(** ** A request through the stack *)

Record http_request := {
  h_raw_headers : list header;
  h_headers : header_list;
  h_messages : list message;
  h_request : Request;
}.

(** What a request leaves behind; no answer when the client has gone. *)
Record outcome_of {Ctx : Type} := {
  o_answer : option Response;
  o_audited : list SecurityAuditRecord;
  o_effects : list (effect Ctx);
  o_db : db;
}.
Arguments outcome_of : clear implicits.

Section Stack.
Context `{Host} `{Pydantic} `{Crypto} (settings : Settings) (check_schema : json → bool)
        (credentials : list CredentialRecord.t) (limiter : string → option RateLimitDecision)
        (sink : SecurityAuditRecord → bool).
Context {Ctx : Type} (inject : Ctx → dict) (extract : dict → Ctx) (start : string → Ctx → Ctx).
Context (endpoint_of : Request → chars → endpoint) (route_template : Request → option string).

(** The context the transaction of an endpoint injects: [submit] and [replay] open a span. *)
Definition database_span (e : endpoint) (current : Ctx) : Ctx :=
  match e with
  | CreateRun _ _ | RunEvaluationRegression _ _ => start "arr.db.run.submit" current
  | ReplayRun _ _ => start "arr.db.run.replay" current
  | _ => current
  end.
Definition transaction_in (now : time) (epoch : Z) (e : endpoint) (current : Ctx) : Tx :=
  {| tx_now := now; tx_epoch := epoch; tx_trace := inject_trace_context inject (database_span e current) |}.

(** The boundary and the routes behind it, in the context of the request's span. *)
Definition behind_trace (now : time) (epoch : Z) (req : Request) (body : chars) (d : db) (current : Ctx)
    : Exchange * db :=
  let e := endpoint_of req body in
  http_exchange settings check_schema (svc := sql_service settings check_schema) credentials limiter sink now
    (transaction_in now epoch e current) req e d.

(** What they record. *)
Definition behind_records (now : time) (epoch : Z) (database_seconds : f64) (req : Request) (body : chars) (d : db)
    (current : Ctx) : list (effect Ctx) :=
  let e := endpoint_of req body in
  let tx := transaction_in now epoch e current in
  let client_id := head (req_client_ids req) in
  boundary_records settings credentials limiter sink
    (λ id, to_response <$> fst (call_app settings check_schema (svc := sql_service settings check_schema) tx id client_id e d))
    (λ id, route_records settings check_schema start database_seconds tx id client_id e d current) now req.

(** [request.scope["route"]] once the request has been answered: the router sets it, when the
    boundary has called the application behind it. *)
Definition matched_route (req : Request) (x : Exchange) : option string :=
  match handled x with Some _ => route_template req | None => None end.

Definition serve_http (now : time) (epoch : Z) (seconds database_seconds : f64) (r : http_request) (d : db)
    : outcome_of Ctx :=
  match limit_body (max_request_bytes settings) (h_raw_headers r) (h_messages r) with
  | Rejected status reason =>
      {| o_answer := Some (_security_error status reason); o_audited := []; o_effects := []; o_db := d |}
  | Abandoned => {| o_answer := None; o_audited := []; o_effects := []; o_db := d |}
  | Forwarded body =>
      let req := h_request r in
      let parent := extract_trace_context extract (inbound_context (trust_inbound_trace_context settings) (h_headers r)) in
      let '(x, d') := behind_trace now epoch req body d (start ("HTTP " +:+ req_method req) parent) in
      let call_next current :=
        (behind_records now epoch database_seconds req body d current,
         status_code <$> answer (fst (behind_trace now epoch req body d current))) in
      {| o_answer := Some (internal_error_handler (answer x));
         o_audited := audited x;
         o_effects := fst (trace_http_request extract start (trust_inbound_trace_context settings) (req_method req)
                             (h_headers r) (matched_route req x) seconds call_next)
                      ++ (if is_ok (answer x) then [] else [FailureRecorded "API_UNHANDLED_ERROR"]);
         o_db := d' |}
  end.
End Stack.

(** ** Theorems *)

(** The deployed API is guarded: from settings that load outside a local environment, the
    process is assembled with the durable service under positive quotas and a job timeout of one
    second to an hour, audit records that go to the database, a Redis rate limiter with a positive
    limit and window, and without the documentation routes; a request meets the body limit first,
    then tracing, then the security boundary, and nothing but compression lies between the
    boundary and the routes; both connections are closed at the end. *)
Theorem production_app_is_guarded `{RegistryReader} now s creds :
  load now s = Ok creds → environment s ≠ env_local →
  let app := create_app s false false false in
  (∃ j, app_service app = SqlService (from_settings s) j ∧ num_in 1 3600 j)
  ∧ 0 < principal_active (from_settings s) ∧ 0 < tenant_active (from_settings s)
  ∧ 0 < principal_calls (from_settings s) ∧ 0 < tenant_calls (from_settings s)
  ∧ app_sink app = SqlSink ∧ app_docs app = false
  ∧ (∃ l w, app_limiter app = RedisLimiter l w ∧ 0 < l ∧ 0 < w)
  ∧ (∃ routes, app_middlewares app
       = BodyLimit (max_request_bytes s) (request_body_timeout_seconds s) :: TraceRequest :: SecurityBoundary :: routes
     ∧ ∀ m, m ∈ routes → ∃ z level, m = GZip z level)
  ∧ 0 < max_request_bytes s ∧ 0 < request_body_timeout_seconds s
  ∧ app_closes app = [RateLimiterClient; DatabaseEngine].
Proof.
  intros Hload Henv app.
  destruct (loaded_settings_meet_assumptions _ _ _ Hload)
    as (_ & Hj & _ & _ & (Hpa & Hta & Hpc & Htc & _) & Hl & Hw & _).
  destruct (loaded_registry_is_sound _ _ _ Hload Henv) as (Hm & _).
  assert (fields_valid s = true) as Hf by (by apply load_inv in Hload as [? _]).
  assert (0 < max_request_bytes s ∧ 0 < request_body_timeout_seconds s) as [Hmax Htime].
  { unfold fields_valid in Hf. cbn [forallb id] in Hf. bool_to_prop.
    repeat match goal with Hx : int_field _ _ _ = true |- _ => apply int_field_in in Hx end. lia. }
  split_and!; try done; cbn.
  - by exists (attempt_timeout s).
  - unfold local_docs. by rewrite Hm.
  - rewrite Hm. by eexists _, _.
  - case_bool_decide; cbn; eexists; (split; [reflexivity|]); intros m Hin; set_solver.
Qed.

Section StackTheorems.
Context `{Host} `{Pydantic} `{Crypto} (settings : Settings) (check_schema : json → bool)
        (credentials : list CredentialRecord.t) (limiter : string → option RateLimitDecision)
        (sink : SecurityAuditRecord → bool).
Context {Ctx : Type} (inject : Ctx → dict) (extract : dict → Ctx) (start : string → Ctx → Ctx).
Context (endpoint_of : Request → chars → endpoint) (route_template : Request → option string).
Abbreviation serve_http := (serve_http settings check_schema credentials limiter sink inject extract start
                              endpoint_of route_template).

Lemma behind_records_results now epoch database_seconds req body d current :
  let l := behind_records settings check_schema credentials limiter sink inject start endpoint_of now epoch
             database_seconds req body d current in
  omap http_sample l = []
  ∧ omap audit_result l = sink <$> audited (fst (behind_trace settings check_schema credentials limiter sink inject
      start endpoint_of now epoch req body d current)).
Proof. apply boundary_results. intros id. apply route_unaccounted. Qed.

(** (C26) Every request is accounted for by what its client saw: a body the limit rejects is answered
    with its error, and leaves no audit record, no measurement and no change, like a request whose
    client has gone; a forwarded one is answered, with exactly one latency sample under its method,
    whose status is that of the answer, also when an exception left the application and the generic
    error 500 was sent; every audit record written is measured once, with the sink's answer; and the
    span of the request is closed before a failure of the whole application is recorded.  If the
    boundary let the request through to a handler the sample is taken under the route template;
    otherwise (the 401, 403, 422, 429 and 503 of the boundary) it has no route and the database is
    unchanged. *)
Theorem every_request_is_accounted now epoch seconds database_seconds r d :
  let out := serve_http now epoch seconds database_seconds r d in
  let req := h_request r in
  match limit_body (max_request_bytes settings) (h_raw_headers r) (h_messages r) with
  | Rejected status reason =>
      o_answer out = Some (_security_error status reason) ∧ o_audited out = [] ∧ o_effects out = [] ∧ o_db out = d
  | Abandoned => o_answer out = None ∧ o_audited out = [] ∧ o_effects out = [] ∧ o_db out = d
  | Forwarded body => ∃ resp route l l',
      o_answer out = Some resp
      ∧ omap http_sample (o_effects out) = [(route, req_method req, status_code resp)]
      ∧ omap audit_result (o_effects out) = sink <$> o_audited out
      ∧ o_effects out = l ++ SpanEnded :: l'
      ∧ (l' = [] ∨ l' = [FailureRecorded "API_UNHANDLED_ERROR"] ∧ status_code resp = 500)
      ∧ match handled (fst (behind_trace settings check_schema credentials limiter sink inject start
            endpoint_of now epoch req body d
            (start ("HTTP " +:+ req_method req) (extract_trace_context extract
               (inbound_context (trust_inbound_trace_context settings) (h_headers r)))))) with
        | Some _ => route = route_template req
        | None => route = None ∧ o_db out = d
        end
  end.
Proof.
  cbv zeta. unfold Application.serve_http.
  destruct (limit_body _ _ _) as [status reason| |body]; [by split_and!..|].
  set (req := h_request r). set (parent := extract_trace_context extract _).
  set (current := start ("HTTP " +:+ req_method req) parent).
  set (B := behind_trace settings _ _ _ _ _ _ _ now epoch req body d current).
  pose proof (behind_records_results now epoch database_seconds req body d current) as Hrec. cbv zeta in Hrec.
  fold B in Hrec. destruct Hrec as [Hr1 Hr2].
  destruct B as [x d'] eqn:Eb. cbn [fst] in Hr2 |- *. cbv zeta.
  match goal with |- context [trace_http_request _ _ _ _ _ _ _ ?f] => set (call_next := f) end.
  set (route := matched_route route_template req x).
  pose proof (request_traced_once extract start (trust_inbound_trace_context settings) (req_method req) (h_headers r)
    route seconds call_next) as Ht.
  pose proof (trace_audit_results extract start (trust_inbound_trace_context settings) (req_method req) (h_headers r)
    route seconds call_next) as Hta.
  rewrite <- inbound_context_rule in Ht. fold parent in Ht, Hta. fold current in Ht, Hta.
  destruct (trace_http_request _ _ _ _ _ _ _ _) as [l res] eqn:El.
  unfold call_next in Ht, Hta. cbv beta zeta in Ht, Hta.
  match type of Ht with context [answer (fst ?X)] => replace X with (x, d') in Ht by (symmetry; exact Eb) end.
  cbn [fst] in Ht, Hta. fold parent in Ht, Hta. fold current in Ht, Hta.
  destruct Ht as (_ & Hs & _ & (l1 & l2 & -> & _ & Hlast) & _).
  apply last_Some in Hlast as [l3 ->]. cbn [o_answer o_effects o_db o_audited fst].
  exists (internal_error_handler (answer x)), route, (l1 ++ SpanStarted ("HTTP " +:+ req_method req) parent :: l3),
    (if is_ok (answer x) then [] else [FailureRecorded "API_UNHANDLED_ERROR"]).
  split_and!; [done|..].
  - rewrite omap_app, Hs, Hr1. cbn. by destruct (answer x).
  - rewrite omap_app, Hta, Hr2. cbn. destruct (answer x); cbn; by rewrite app_nil_r.
  - rewrite <- !app_assoc. cbn. by rewrite <- app_assoc.
  - destruct (answer x); [by left|by right].
  - subst route. unfold matched_route. unfold B, behind_trace, http_exchange in Eb. injection Eb as Hx Hd.
    rewrite Hx in Hd. by destruct (handled x).
Qed.
End StackTheorems.

(** ** A production process, and a request to it *)

Lemma production_app_is_guarded_witness :
  ∃ l w, app_limiter (create_app sample_settings false false false) = RedisLimiter l w ∧ 0 < l ∧ 0 < w.
Proof.
  by apply (production_app_is_guarded 0 sample_settings sample_registry sample_loads).
Defined.

Section ApplicationWitness.
#[local] Existing Instance demo_host.
#[local] Existing Instance demo_pydantic.
#[local] Existing Instance demo_service.

(** A request without a key, with a body of two bytes in two parts. *)
Definition anonymous_post : http_request :=
  {| h_raw_headers := []; h_headers := [("traceparent", "not a trace")];
     h_messages := [RequestPart (Text.to_list "{") true; RequestPart (Text.to_list "}") false];
     h_request := {| req_method := "POST"; req_path := "/v1/runs"; req_client_ids := []; req_x_api_key := None;
                     req_authorization := None |} |}.

Lemma every_request_is_accounted_witness :
  let out := serve_http sample_settings (λ _, true) demo_registry open_limiter (λ _, true) (λ c : dict, c) (λ c, c)
               (λ _ c, c) (λ _ _, Healthz) (λ _, Some "/v1/runs") (seconds 50) 50 (Fin 0) (Fin 0) anonymous_post empty_db in
  (∃ resp, o_answer out = Some resp ∧ status_code resp = 401
     ∧ omap http_sample (o_effects out) = [(None, "POST", 401)]) ∧ o_db out = empty_db
  ∧ omap audit_result (o_effects out) = [true].
Proof.
  intros out.
  pose proof (every_request_is_accounted sample_settings (λ _, true) demo_registry open_limiter (λ _, true) (λ c : dict, c)
    (λ c, c) (λ _ c, c) (λ _ _, Healthz) (λ _, Some "/v1/runs") (seconds 50) 50 (Fin 0) (Fin 0)
    anonymous_post empty_db) as Hacc.
  cbv zeta in Hacc. fold out in Hacc.
  assert (limit_body (max_request_bytes sample_settings) (h_raw_headers anonymous_post) (h_messages anonymous_post)
    = Forwarded (Text.to_list "{}")) as Hb by (by vm_compute).
  rewrite Hb in Hacc. destruct Hacc as (resp & route & l & l' & Ha & Hs & Hw & _ & _ & Hd).
  match type of Hd with match ?h with _ => _ end => assert (h = None) as Hh by (by vm_compute); rewrite Hh in Hd end.
  destruct Hd as [-> Hd].
  assert (status_code <$> o_answer out = Some 401) as Hst by (vm_compute; reflexivity).
  rewrite Ha in Hst. injection Hst as Hst. split_and!; [exists resp; split_and!; [done..|by rewrite Hs, Hst]|done|].
  rewrite Hw. by vm_compute.
Defined.
End ApplicationWitness.
