(* ===== verification/Entrypoints.v ===== *)
(** * The process entry points

    What [src/src/agent_runtime/processes.py] builds from the settings for each process, in which
    order it takes and releases what the process holds, and the set-up of telemetry, logging and
    the database pool in [observability/telemetry.py], [observability/logging.py] and
    [infrastructure/database/session.py].

    A process is a computation: the list of what it does and how it ends.  Taking and releasing
    may raise ([opening], [closing] decide), and so may the work in between ([work]): the loops
    of [Processes], the consumer, or the server of uvicorn. *)

From S2P Require Import Prelude Float64 PyValue States Retry Models Quotas Canonical Credentials Settings Observability.
From S2P Require Import Application.
Local Open Scope Z_scope.

(** ** Configurations *)

(** [create_database_engine] and the constructors of the components. *)
Record EngineConfig := { engine_url : string; pool_size : Z; max_overflow : Z; pool_timeout : f64; pool_pre_ping : bool }.
Record ServiceConfig := { sc_lease_seconds : Z; sc_quotas : QuotaLimits; sc_max_attempts : Z }.
Record DispatcherConfig := { dc_batch_size : Z; dc_publish_timeout_seconds : f64; dc_heartbeat : Heartbeat }.
Record WorkerConfig := {
  wc_prefetch_count : Z;
  wc_service : ServiceConfig;
  wc_echo_input : bool;
  wc_openai_api_key : option string;
  wc_openai_default_model : string;
  wc_provider_timeout_seconds : Z;
  wc_heartbeat : Heartbeat;
}.
Record RecoveryConfig := { rc_service : ServiceConfig; rc_heartbeat : Heartbeat }.

Definition create_database_engine (s : Settings) : EngineConfig :=
  {| engine_url := database_url s; pool_size := db_pool_size s; max_overflow := db_max_overflow s;
     pool_timeout := db_pool_timeout_seconds s; pool_pre_ping := true |}.

(** [security/audit_retention.py], [create_owner_engine]: one connection as the owner of the tables,
    which may open the purge gate; 30 seconds is the default of SQLAlchemy's pool. *)
Definition create_owner_engine (s : Settings) : EngineConfig :=
  {| engine_url := effective_migration_database_url s; pool_size := 1; max_overflow := 0;
     pool_timeout := Fin (30 * unit64); pool_pre_ping := true |}.

(** [ExecutionPersistenceService.__init__] with its defaults. *)
Definition execution_service (lease_seconds : Z) (quotas : option QuotaLimits) (max_attempts : option Z) : ServiceConfig :=
  {| sc_lease_seconds := lease_seconds; sc_quotas := default default_limits quotas;
     sc_max_attempts := default 3 max_attempts |}.

Definition dispatcher_config (s : Settings) : DispatcherConfig :=
  {| dc_batch_size := outbox_batch_size s; dc_publish_timeout_seconds := outbox_publish_timeout_seconds s;
     dc_heartbeat := {| hb_path := heartbeat_path s; hb_component := "dispatcher" |} |}.

Definition worker_config (s : Settings) : WorkerConfig :=
  {| wc_prefetch_count := worker_concurrency s;
     wc_service := execution_service (execution_lease_seconds s) (Some (from_settings s)) (Some (retry_max_attempts s));
     wc_echo_input := deterministic_echo_input s; wc_openai_api_key := openai_api_key s;
     wc_openai_default_model := openai_default_model s; wc_provider_timeout_seconds := provider_timeout_seconds s;
     wc_heartbeat := {| hb_path := heartbeat_path s; hb_component := "worker" |} |}.

(** The scheduler's service keeps the default quotas and attempt maximum: it claims nothing. *)
Definition recovery_config (s : Settings) : RecoveryConfig :=
  {| rc_service := execution_service (execution_lease_seconds s) None None;
     rc_heartbeat := {| hb_path := heartbeat_path s; hb_component := "scheduler" |} |}.

(** ** Logging *)

Inductive formatter := Json | OtherFormatter (name : string).
Record root_logger := { rl_handlers : list formatter; rl_level : LogLevel }.

Definition is_json (f : formatter) : bool := match f with Json => true | OtherFormatter _ => false end.

Definition configure_structured_logging (level : LogLevel) (root : root_logger) : root_logger :=
  if existsb is_json (rl_handlers root) then root else {| rl_handlers := [Json]; rl_level := level |}.

(** What a handler writes of a record: the line of [JsonFormatter], or what another formatter
    makes of the whole record. *)
Definition written `{FloatRepr} (other : string → LogRecord → chars) (root : root_logger) (span : option SpanContext)
    (r : LogRecord) : list chars :=
  (λ f, match f with Json => log_line span r | OtherFormatter name => other name r end) <$> rl_handlers root.

(** ** Telemetry *)

Record TelemetryRuntime := {
  tr_service_name : string;
  tr_traces_endpoint : string;
  tr_metrics_endpoint : string;
  tr_export_interval_millis : Z;
}.

(** [endpoint] is [str(settings.otel_endpoint)]. *)
Definition configure_telemetry (s : Settings) (endpoint service_name : string) : option TelemetryRuntime :=
  if otel_enabled s then
    Some {| tr_service_name := service_name; tr_traces_endpoint := rstrip_slash endpoint +:+ "/v1/traces";
            tr_metrics_endpoint := rstrip_slash endpoint +:+ "/v1/metrics"; tr_export_interval_millis := 5000 |}
  else None.

(** ** Computations that hold resources *)

Inductive holding := TracerProvider | MeterProvider | Engine | Publisher | WorkerConnection | Monitor.
#[export] Instance holding_eq_dec : EqDecision holding.
Proof. solve_decision. Defined.

Inductive action := Open (h : holding) | Work | Close (h : holding).
Definition computation : Type := list action * result unit.

Definition and_then (m k : computation) : computation :=
  match m.2 with Ok _ => (m.1 ++ k.1, k.2) | Err e => (m.1, Err e) end.
(** [try: m finally: c]: the exception of [c] replaces that of [m]. *)
Definition try_finally (m c : computation) : computation :=
  (m.1 ++ c.1, match c.2 with Ok _ => m.2 | Err e => Err e end).

Section Processes.
Context (opening closing : holding → result unit) (work : result unit).

(** A constructor that raises leaves nothing to release; a release that raises was attempted. *)
Definition take (h : holding) : computation :=
  match opening h with Ok _ => ([Open h], Ok tt) | Err e => ([], Err e) end.
Definition release (h : holding) : computation := ([Close h], closing h).
(** Cancelling the monitor and gathering it with [return_exceptions] does not raise. *)
Definition cancel_monitor : computation := ([Close Monitor], Ok tt).
Definition hold (h : holding) : computation := ([Open h], Ok tt).
Definition working : computation := ([Work], work).

(** [_shutdown_telemetry] and [TelemetryRuntime.shutdown]. *)
Definition shutdown_telemetry (telemetry : option TelemetryRuntime) : computation :=
  match telemetry with
  | Some _ => and_then (release MeterProvider) (release TracerProvider)
  | None => ([], Ok tt)
  end.

(** The part [run_api], [run_dispatcher], [run_worker] and [run_recovery] share: telemetry is
    configured, the body runs, and telemetry is shut down whatever happened. *)
Definition run_process (s : Settings) (endpoint name : string) (body : computation) : computation :=
  let telemetry := configure_telemetry s endpoint name in
  let configured :=
    match telemetry with
    | Some _ => and_then (take TracerProvider) (take MeterProvider)
    | None => ([], Ok tt)
    end in
  and_then configured (try_finally body (shutdown_telemetry telemetry)).

Definition _run_dispatcher : computation :=
  and_then (and_then (take Engine) (hold Publisher))
    (try_finally working (and_then (release Publisher) (release Engine))).
Definition _run_worker : computation :=
  and_then (and_then (take Engine) (and_then (hold WorkerConnection) (hold Monitor)))
    (try_finally working (and_then cancel_monitor (and_then (release WorkerConnection) (release Engine)))).
Definition _run_recovery : computation :=
  and_then (take Engine) (try_finally working (release Engine)).

Definition run_api (s : Settings) (endpoint : string) : computation :=
  run_process s endpoint "agent-runtime-api" working.
Definition run_dispatcher (s : Settings) (endpoint : string) : computation :=
  run_process s endpoint "agent-runtime-dispatcher" _run_dispatcher.
Definition run_worker (s : Settings) (endpoint : string) : computation :=
  run_process s endpoint "agent-runtime-worker" _run_worker.
Definition run_recovery (s : Settings) (endpoint : string) : computation :=
  run_process s endpoint "agent-runtime-scheduler" _run_recovery.
Definition processes (s : Settings) (endpoint : string) : list computation :=
  [run_api s endpoint; run_dispatcher s endpoint; run_worker s endpoint; run_recovery s endpoint].
End Processes.

(** ** Theorems *)

(** What is still held after some actions, innermost first; [None] when something is released
    that is not the innermost resource held. *)
Fixpoint unwind (l : list action) (held : list holding) : option (list holding) :=
  match l with
  | [] => Some held
  | Open h :: l => unwind l (h :: held)
  | Work :: l => unwind l held
  | Close h :: l =>
      match held with
      | h' :: held => if bool_decide (h' = h) then unwind l held else None
      | [] => None
      end
  end.

Section ProcessTheorems.
Context (opening closing : holding → result unit) (work : result unit) (s : Settings) (endpoint : string).
Abbreviation processes := (processes opening closing work s endpoint).

(** Case analysis on everything that may raise. *)
Ltac run_all :=
  unfold Entrypoints.processes, run_api, run_dispatcher, run_worker, run_recovery, run_process, configure_telemetry,
    _run_dispatcher, _run_worker, _run_recovery, shutdown_telemetry, and_then, try_finally, take, release, hold,
    cancel_monitor, working; cbn.

(** Every process releases what it holds: when the releases do not raise, then however the work
    ends and whichever constructor raised, the resources taken have been released in reverse
    order, nothing is released that was not held, and a process that got to its work ends as the
    work did.  Only a failure of the meter provider, after the tracer provider was built, is not
    covered. *)
Theorem processes_release_everything p :
  p ∈ processes → (∀ h, closing h = Ok tt) → opening MeterProvider = Ok tt →
  unwind p.1 [] = Some [] ∧ (Work ∈ p.1 → p.2 = work) ∧ (Work ∉ p.1 → is_ok p.2 = false).
Proof.
  intros Hp Hc Hm. revert Hp. run_all. rewrite Hm, !Hc.
  assert (∀ l : list action, Work ∈ l ↔ existsb (λ a, match a with Work => true | _ => false end) l = true) as Hin.
  { intros l. rewrite existsb_exists. split.
    - intros Hl. exists Work. by rewrite <- list_elem_of_In.
    - intros ([] & Hl & ?); try done. by rewrite list_elem_of_In. }
  setoid_rewrite Hin. rewrite !elem_of_cons.
  destruct (otel_enabled s), (opening TracerProvider) as [[]|], (opening Engine) as [[]|], work as [[]|]; cbn;
    intros [-> | [-> | [-> | [-> | []%elem_of_nil]]]]; by split_and!.
Qed.

(** Telemetry that was configured is shut down last, also when the work, or the clean-up of the
    process, raises: the spans and measurements of a failing process are exported. *)
Theorem telemetry_shut_down_last p :
  p ∈ processes → otel_enabled s = true → opening TracerProvider = Ok tt → opening MeterProvider = Ok tt →
  ∃ l, p.1 = [Open TracerProvider; Open MeterProvider] ++ l ++ [Close MeterProvider]
               ++ (if is_ok (closing MeterProvider) then [Close TracerProvider] else [])
       ∧ Forall (λ a, a ≠ Close MeterProvider ∧ a ≠ Close TracerProvider) l.
Proof.
  intros Hp He Ht Hm. revert Hp. run_all. rewrite He, Ht, Hm. cbn. rewrite !elem_of_cons.
  destruct (closing MeterProvider) as [[]|], (opening Engine) as [[]|], (closing Publisher) as [[]|],
    (closing WorkerConnection) as [[]|]; cbn;
    intros [-> | [-> | [-> | [-> | []%elem_of_nil]]]]; cbn;
    match goal with |- ∃ l, _ :: _ :: ?k = _ ∧ _ =>
      first [exists (firstn (length k - 1) k); split; [reflexivity|by repeat constructor]
            |exists (firstn (length k - 2) k); split; [reflexivity|by repeat constructor]] end.
Qed.
End ProcessTheorems.

(** A process writes nothing but the lines of [JsonFormatter]: once configured from a logger
    without it, further calls, of any level, change neither the handlers nor the level. *)
Theorem only_json_lines `{FloatRepr} other level levels root span r :
  existsb is_json (rl_handlers root) = false →
  let root' := foldl (λ root level, configure_structured_logging level root) root (level :: levels) in
  rl_level root' = level ∧ written other root' span r = [log_line span r].
Proof.
  intros Hno. cbn.
  assert (configure_structured_logging level root = {| rl_handlers := [Json]; rl_level := level |}) as ->
    by (unfold configure_structured_logging; by rewrite Hno).
  induction levels as [|l ls IH]; [by split|exact IH].
Qed.

(** The processes of one deployment fit together: when the settings load, worker and scheduler
    grant the same lease, between two seconds and a day; the worker enforces the quotas the API
    admits under; a job the API creates times out before the lease of the worker does; and the
    limits, batches and pools that bound the loops are positive.  These are the assumptions of the
    theorems on the system. *)
Theorem deployment_fits_together `{RegistryReader} now s creds :
  load now s = Ok creds →
  let worker := wc_service (worker_config s) in
  sc_lease_seconds worker = sc_lease_seconds (rc_service (recovery_config s))
  ∧ 2 ≤ sc_lease_seconds worker ≤ 86400
  ∧ (∃ job_timeout, app_service (create_app s false false false) = SqlService (sc_quotas worker) job_timeout
       ∧ num_in 1 3600 job_timeout ∧ num_lt job_timeout (NInt (sc_lease_seconds worker)) = true)
  ∧ 0 < principal_running (sc_quotas worker) ∧ 0 < tenant_running (sc_quotas worker)
  ∧ 1 ≤ sc_max_attempts worker
  ∧ 0 < dc_batch_size (dispatcher_config s) ∧ 0 < wc_prefetch_count (worker_config s)
  ∧ 0 < pool_size (create_database_engine s) ∧ 0 ≤ max_overflow (create_database_engine s).
Proof.
  intros Hload worker.
  destruct (loaded_settings_meet_assumptions _ _ _ Hload) as (_ & Hj & Hlt & Hm & (_ & _ & _ & _ & _ & Hp & Ht) & _ & _ & Hb & _).
  assert (fields_valid s = true) as Hf by (by apply load_inv in Hload as [? _]).
  unfold fields_valid in Hf. cbn [forallb id] in Hf. bool_to_prop.
  repeat match goal with Hx : int_field _ _ _ = true |- _ => apply int_field_in in Hx end.
  cbn. split_and!; try done; try lia. by exists (attempt_timeout s).
Qed.
