(* ===== verification/Integrity.v ===== *)
(** * Rows and catalogue

    The tables of [Models], written as rows of cells, satisfy in every reachable state of
    the system the catalogue the migrations leave ([Migrations.head_schema]): columns,
    kinds of values, [NOT NULL], primary keys, unique constraints, checks and foreign keys.
    No statement of the services is therefore refused by a constraint.  The two tables of
    the security boundary, [security_audit_events] and [tenant_keys], are written outside
    the step relation and are not encoded.  The width of the [INTEGER] column of the quota
    windows is a theorem of its own. *)

From S2P Require Import Prelude Float64 PyValue States Retry Models Quotas Canonical RunService.
From S2P Require Import ExecutionService Lifecycle Refinement Messaging System Ddl Migrations Simulator.
Local Open Scope Z_scope.

(** ** Rows as lists of named cells *)

Fixpoint assoc {A} (n : string) (l : list (string * A)) : option A :=
  match l with
  | [] => None
  | (k, x) :: l => if String.eqb n k then Some x else assoc n l
  end.

Lemma lookup_assoc {A} n (l : list (string * A)) : (list_to_map l : gmap string A) !! n = assoc n l.
Proof.
  induction l as [|[k x] l IH]; [apply lookup_empty|]. cbn.
  destruct (String.eqb_spec n k) as [->|Hn]; [apply lookup_insert_eq|by rewrite lookup_insert_ne].
Qed.

(** A cell a column takes; the length of strings and the width of integers are not looked at. *)
Definition cell_fits (c : column_def) (x : cell) : bool :=
  match x, c_type c with
  | VNull, _ => c_nullable c
  | VText _, (TUuid | TString _ | TText) | VInt _, TInteger
  | VOther _, (TJsonb | TBoolean | TFloat | TTimestamptz | TBytea) => true
  | _, _ => false
  end.

(** The row has the columns of its table, each with a value the column takes. *)
Definition row_fits (td : table_def) (r : row) : Prop :=
  dom r = dom (t_columns td) ∧ map_Forall (λ n c, cell_fits c (cell_of r n) = true) (t_columns td).

(** A row written in the order of the columns. *)
Lemma row_fits_pairs td (cols : list (string * column_def)) (cells : list (string * cell)) :
  t_columns td = list_to_map cols → NoDup cols.*1 → cells.*1 = cols.*1 →
  Forall2 (λ c x, cell_fits c.2 x.2 = true) cols cells →
  row_fits td (list_to_map cells).
Proof.
  intros Ht Hn Hk Hf. split; [by rewrite Ht, !dom_list_to_map_L, Hk|]. rewrite Ht.
  intros n c Hc%elem_of_list_to_map_2. apply list_elem_of_lookup in Hc as [i Hi].
  destruct (Forall2_lookup_l _ _ _ _ _ Hf Hi) as ([n' x] & Hx & Hfit).
  assert (n' = n) as ->.
  { pose proof (f_equal (.!! i) Hk) as He. rewrite !list_lookup_fmap, Hi, Hx in He. by injection He. }
  unfold cell_of. erewrite elem_of_list_to_map_1; [exact Hfit|by rewrite Hk|by eapply list_elem_of_lookup_2].
Qed.

(** Keys of rows that are encoded one by one: equal keys come from the same source. *)
Lemma unique_key {A} (f : A → row) (l : list string) (xs : list A) :
  NoDup xs →
  (∀ x y k, x ∈ xs → y ∈ xs → key_of l (f x) = Some k → key_of l (f y) = Some k → x = y) →
  NoDup (omap (key_of l) (f <$> xs)).
Proof.
  induction 1 as [|x xs Hx _ IH]; intros Hinj; [constructor|]. cbn.
  assert (NoDup (omap (key_of l) (f <$> xs))) as Hxs.
  { apply IH. intros y z k Hy Hz. apply Hinj; by right. }
  destruct (key_of l (f x)) as [k|] eqn:Ek; [|done]. constructor; [|done].
  intros (r & Hr & Hk)%list_elem_of_omap. apply list_elem_of_fmap in Hr as (y & -> & Hy).
  rewrite (Hinj x y k) in Hx; [done|by left|by right|done..].
Qed.

Lemma fmap_nodup_inj {A B} (f : A → B) (l : list A) x y :
  NoDup (f <$> l) → x ∈ l → y ∈ l → f x = f y → x = y.
Proof.
  induction l as [|z l IH]; [by intros _ ?%not_elem_of_nil|]. cbn.
  intros [Hz Hl]%NoDup_cons Hx Hy Heq.
  apply elem_of_cons in Hx as [->|Hx], Hy as [->|Hy]; [done| | |by apply IH];
    destruct Hz; [rewrite Heq|rewrite <- Heq]; by apply list_elem_of_fmap_2.
Qed.

(** A foreign key whose values are keys of the table it points to. *)
Lemma foreign_key {A B} (f : A → row) (g : B → row) c rt (xs : list A) (ys : list B) t del d :
  rows_in t d = f <$> xs → rows_in rt d = g <$> ys →
  (∀ x k, x ∈ xs → key_of [c] (f x) = Some k → ∃ y, y ∈ ys ∧ key_of ["id"] (g y) = Some k) →
  constr_holds t (CForeignKey [c] rt ["id"] del) d = true.
Proof.
  intros Ht Hrt Hk. cbn [constr_holds]. rewrite Ht, Hrt. apply forallb_all, Forall_forall.
  intros r (x & -> & Hx)%list_elem_of_fmap. destruct (key_of [c] (f x)) as [k|] eqn:E; [|done].
  apply bool_decide_eq_true. destruct (Hk x k Hx E) as (y & Hy & <-).
  rewrite <- list_fmap_compose. apply list_elem_of_fmap. by exists y.
Qed.

Lemma primary_key {A} (f : A → row) (l : list string) (xs : list A) t d :
  rows_in t d = f <$> xs → NoDup xs → (∀ x, x ∈ xs → is_Some (key_of l (f x))) →
  (∀ x y k, x ∈ xs → y ∈ xs → key_of l (f x) = Some k → key_of l (f y) = Some k → x = y) →
  constr_holds t (CPrimaryKey l) d = true.
Proof.
  intros Ht Hn Hs Hi. cbn [constr_holds]. rewrite Ht. apply andb_true_intro.
  split; [|by apply bool_decide_eq_true, unique_key].
  apply forallb_all, Forall_forall. intros r (x & -> & Hx)%list_elem_of_fmap.
  by apply bool_decide_eq_true, Hs.
Qed.

Lemma checked {A} (f : A → row) e (xs : list A) t d :
  rows_in t d = f <$> xs → (∀ x, x ∈ xs → check_row e (f x) = true) → constr_holds t (CCheck e) d = true.
Proof.
  intros Ht Hc. cbn [constr_holds]. rewrite Ht. apply forallb_all, Forall_forall.
  by intros r (x & -> & Hx)%list_elem_of_fmap; apply Hc.
Qed.

(** ** The tables as rows *)

Section Rows.
Context `{Host}.

Definition uuid_cell (u : uuid) : cell := VText (uuid_str u).
Definition json_cell (d : dict) : cell := VOther (Text.of_list (utf8 (dumps (JObj d)))).
Definition time_cell (t : time) : cell := VOther (isoformat t).
Definition float_cell (f : f64) : cell := VOther (repr_float f).
Definition bool_cell (b : bool) : cell := VOther (if b then "true" else "false").
Definition nullable {A} (f : A → cell) (o : option A) : cell := from_option f VNull o.

(** [version] is the optimistic counter, which the records do not keep. *)
Definition run_cells (version : Z) (r : Run.t) : list (string * cell) :=
  [ ("id", uuid_cell (Run.id r)); ("client_id", VText (Run.client_id r));
    ("principal_id", nullable VText (Run.principal_id r));
    ("work_kind", VText (work_kind_value (Run.work_kind r)));
    ("idempotency_key", VText (Run.idempotency_key r)); ("request_hash", VText (Run.request_hash r));
    ("input_payload", json_cell (Run.input_payload r));
    ("policy_snapshot", json_cell (Run.policy_snapshot r));
    ("trace_context", json_cell (Run.trace_context r));
    ("execution_status", VText (status_value (Run.execution_status r)));
    ("evaluation_status", VText (evaluation_value (Run.evaluation_status r)));
    ("result_payload", nullable json_cell (Run.result_payload r));
    ("error_code", nullable VText (Run.error_code r)); ("created_at", time_cell (Run.created_at r));
    ("started_at", nullable time_cell (Run.started_at r));
    ("completed_at", nullable time_cell (Run.completed_at r));
    ("execution_lease_owner", nullable VText (Run.execution_lease_owner r));
    ("execution_lease_expires_at", nullable time_cell (Run.execution_lease_expires_at r));
    ("next_attempt_at", nullable time_cell (Run.next_attempt_at r));
    ("replay_of_run_id", nullable uuid_cell (Run.replay_of_run_id r)); ("version", VInt version) ].
Definition run_row (version : Z) (r : Run.t) : row := list_to_map (run_cells version r).

Definition run_attempt_cells (a : RunAttempt.t) : list (string * cell) :=
  [ ("id", uuid_cell (RunAttempt.id a)); ("run_id", uuid_cell (RunAttempt.run_id a));
    ("attempt_number", VInt (RunAttempt.attempt_number a)); ("provider", VText (RunAttempt.provider a));
    ("worker_id", VText (RunAttempt.worker_id a)); ("started_at", time_cell (RunAttempt.started_at a));
    ("finished_at", nullable time_cell (RunAttempt.finished_at a));
    ("outcome", nullable VText (RunAttempt.outcome a));
    ("error_code", nullable VText (RunAttempt.error_code a));
    ("retryable", nullable bool_cell (RunAttempt.retryable a));
    ("latency_ms", nullable VInt (RunAttempt.latency_ms a));
    ("usage_metadata", nullable json_cell (RunAttempt.usage_metadata a)) ].
Definition run_attempt_row (a : RunAttempt.t) : row := list_to_map (run_attempt_cells a).

Definition run_event_cells (e : RunEvent.t) : list (string * cell) :=
  [ ("id", uuid_cell (RunEvent.id e)); ("run_id", uuid_cell (RunEvent.run_id e));
    ("attempt_id", nullable uuid_cell (RunEvent.attempt_id e));
    ("event_type", VText (RunEvent.event_type e));
    ("metadata", nullable json_cell (RunEvent.metadata e)); ("created_at", time_cell (RunEvent.created_at e)) ].
Definition run_event_row (e : RunEvent.t) : row := list_to_map (run_event_cells e).

Definition outbox_event_cells (o : OutboxEvent.t) : list (string * cell) :=
  [ ("id", uuid_cell (OutboxEvent.id o)); ("aggregate_id", uuid_cell (OutboxEvent.aggregate_id o));
    ("event_type", VText (OutboxEvent.event_type o)); ("payload", json_cell (OutboxEvent.payload o));
    ("created_at", time_cell (OutboxEvent.created_at o));
    ("published_at", nullable time_cell (OutboxEvent.published_at o));
    ("publish_attempts", VInt (OutboxEvent.publish_attempts o));
    ("last_error", nullable VText (OutboxEvent.last_error o)) ].
Definition outbox_event_row (o : OutboxEvent.t) : row := list_to_map (outbox_event_cells o).

Definition evaluation_cells (e : Evaluation.t) : list (string * cell) :=
  [ ("id", uuid_cell (Evaluation.id e)); ("run_id", uuid_cell (Evaluation.run_id e));
    ("evaluator", VText (Evaluation.evaluator e));
    ("job_run_id", nullable uuid_cell (Evaluation.job_run_id e));
    ("status", VText (evaluation_value (Evaluation.status e)));
    ("score", nullable float_cell (Evaluation.score e));
    ("result", nullable json_cell (Evaluation.result e));
    ("details", nullable json_cell (Evaluation.details e));
    ("created_at", time_cell (Evaluation.created_at e));
    ("completed_at", nullable time_cell (Evaluation.completed_at e)) ].
Definition evaluation_row (e : Evaluation.t) : row := list_to_map (evaluation_cells e).

Definition provider_quota_cells (q : ProviderQuota.t) : list (string * cell) :=
  [ ("scope", VText (ProviderQuota.scope q)); ("window_start", VInt (ProviderQuota.window_start q));
    ("used", VInt (ProviderQuota.used q)) ].
Definition provider_quota_row (q : ProviderQuota.t) : row := list_to_map (provider_quota_cells q).

(** The rows of a table, and of the database. *)
Definition table_rows {K} `{Countable K} {A} (m : gmap K A) : list A := rows_where (λ _, true) m.

Definition rows_of_db (version : uuid → Z) (d : db) : rows_of :=
  list_to_map
    [ ("runs", (λ r, run_row (version (Run.id r)) r) <$> table_rows (runs d));
      ("run_attempts", run_attempt_row <$> table_rows (attempts d));
      ("run_events", run_event_row <$> events d);
      ("outbox_events", outbox_event_row <$> table_rows (outbox d));
      ("evaluations", evaluation_row <$> table_rows (evaluations d));
      ("provider_quotas", provider_quota_row <$> table_rows (quotas d)) ].

(** The tables of the step relation. *)
Definition runtime_models : list model :=
  [ Run_model; RunAttempt_model; RunEvent_model; OutboxEvent_model; Evaluation_model; ProviderQuota_model ].

Lemma uuid_cell_inj u v : uuid_cell u = uuid_cell v → u = v.
Proof. intros [= Heq]. apply (f_equal uuid_parse) in Heq. rewrite !uuid_parse_str in Heq. by injection Heq. Qed.

Lemma elem_of_table_rows {K} `{Countable K} {A} (m : gmap K A) x : x ∈ table_rows m ↔ ∃ k, m !! k = Some x.
Proof. unfold table_rows. rewrite elem_of_rows_where. naive_solver. Qed.

Lemma table_rows_nodup d {A} (id : A → uuid) m : table_ok d id m → NoDup (table_rows m).
Proof. intros Hm. eapply NoDup_fmap_1, table_ids, Hm. Qed.

Lemma stored_row {A} (m : gmap uuid A) k x : m !! k = Some x → x ∈ table_rows m.
Proof. intros. apply elem_of_table_rows. eauto. Qed.

(** Cells of encoded rows are looked up by computation. *)
Lemma cell_of_pairs l n : cell_of (list_to_map l) n = default VNull (assoc n l).
Proof. unfold cell_of. by rewrite lookup_assoc. Qed.

Lemma key_one c l x : assoc c l = Some x → x ≠ VNull → key_of [c] (list_to_map l) = Some [x].
Proof.
  intros Hx Hn. unfold key_of. cbn. rewrite cell_of_pairs, Hx. cbn.
  rewrite bool_decide_false; [done|]. intros ?%list_elem_of_singleton. congruence.
Qed.
Lemma key_two c c' l x x' :
  assoc c l = Some x → assoc c' l = Some x' → x ≠ VNull → x' ≠ VNull →
  key_of [c; c'] (list_to_map l) = Some [x; x'].
Proof.
  intros Hx Hx' Hn Hn'. unfold key_of. cbn. rewrite !cell_of_pairs, Hx, Hx'. cbn.
  rewrite bool_decide_false; [done|]. intros [?|[?|[]%not_elem_of_nil]%elem_of_cons]%elem_of_cons; congruence.
Qed.
(** The key of a column that may be null. *)
Lemma key_nullable {A} (f : A → cell) c l o k :
  assoc c l = Some (nullable f o) → key_of [c] (list_to_map l) = Some k → ∃ x, o = Some x ∧ k = [f x].
Proof.
  intros Hx. unfold key_of. cbn. rewrite cell_of_pairs, Hx. cbn. case_bool_decide as Hn; [done|].
  intros [= <-]. destruct o as [x|]; [by exists x|]. destruct Hn. by left.
Qed.
End Rows.

(** ** The catalogue of the head revision *)

(** A column of a model as the scripts leave it: two have a server default more. *)
Definition head_column (t : string) (x : string * column_def) : string * column_def :=
  let d v := (x.1, Column (c_type x.2) (c_nullable x.2) (Some (DLit (VInt v)))) in
  if bool_decide ((t, x.1) = ("runs", "version")) then d 1
  else if bool_decide ((t, x.1) = ("outbox_events", "publish_attempts")) then d 0
  else x.

Definition head_table (m : model) : table_def :=
  {| t_columns := list_to_map (head_column (m_name m) <$> m_columns m);
     t_constraints := t_constraints (model_table m).2 |}.

Lemma head_tables : Forall (λ m, s_tables head_schema !! m_name m = Some (head_table m)) runtime_models.
Proof. apply (bool_decide_unpack _). vm_compute. exact I. Qed.

Lemma model_columns_nodup : Forall (λ m, NoDup (head_column (m_name m) <$> m_columns m).*1) runtime_models.
Proof. apply (bool_decide_unpack _). vm_compute. exact I. Qed.

Lemma constraints_hold m d :
  Forall (λ x, constr_holds (m_name m) x.2 d = true) (m_constraints m) →
  map_Forall (λ _ c, constr_holds (m_name m) c d = true) (t_constraints (head_table m)).
Proof.
  intros Hc n c Hn%elem_of_list_to_map_2. apply list_elem_of_fmap in Hn as ([o c'] & [= -> ->] & Hx).
  rewrite Forall_forall in Hc. by apply (Hc (o, c')).
Qed.

(** What the catalogue asks of a table. *)
Definition table_satisfied (t : string) (td : table_def) (d : rows_of) : Prop :=
  Forall (row_fits td) (rows_in t d) ∧ map_Forall (λ _ c, constr_holds t c d = true) (t_constraints td).

(** An encoding lists the columns of its model, in order. *)
Lemma encoded {A} (m : model) (cells : A → list (string * cell)) (xs : list A) d :
  m ∈ runtime_models → rows_in (m_name m) d = (λ x, list_to_map (cells x)) <$> xs →
  (∀ x, (cells x).*1 = (head_column (m_name m) <$> m_columns m).*1) →
  (∀ x, Forall2 (λ c x, cell_fits c.2 x.2 = true) (head_column (m_name m) <$> m_columns m) (cells x)) →
  Forall (λ x, constr_holds (m_name m) x.2 d = true) (m_constraints m) →
  table_satisfied (m_name m) (head_table m) d.
Proof.
  intros Hm Hr Hk Hf Hc. split; [|by apply constraints_hold]. rewrite Hr. apply Forall_fmap, Forall_forall.
  intros x _. cbn. eapply row_fits_pairs; [done| |apply Hk|apply Hf].
  pose proof model_columns_nodup as Hn. rewrite Forall_forall in Hn. by apply Hn.
Qed.

Lemma fits_nullable {A} (f : A → cell) c o :
  c_nullable c = true → (∀ x, cell_fits c (f x) = true) → cell_fits c (nullable f o) = true.
Proof. intros Hc Hf. destruct o as [x|]; [apply Hf|exact Hc]. Qed.

(** The cells of an encoding, one by one. *)
Ltac cells_fit :=
  intros ?;
  match goal with |- Forall2 _ ?l _ => let cols := eval vm_compute in l in change l with cols end;
  repeat (apply Forall2_cons_2; [first [reflexivity|by apply fits_nullable]|]); apply Forall2_nil_2.

Section Integrity.
Context `{Host} (limits : QuotaLimits) (sm : Z) (version : uuid → Z) (d : db).
Context (Hwf : db_wf d) (Hinv : db_inv limits sm d).
Abbreviation rows := (rows_of_db version d).

Lemma runs_in : rows_in "runs" rows = (λ r, run_row (version (Run.id r)) r) <$> table_rows (runs d).
Proof. unfold rows_in, rows_of_db. by rewrite lookup_assoc. Qed.
Lemma attempts_in : rows_in "run_attempts" rows = run_attempt_row <$> table_rows (attempts d).
Proof. unfold rows_in, rows_of_db. by rewrite lookup_assoc. Qed.
Lemma events_in : rows_in "run_events" rows = run_event_row <$> events d.
Proof. unfold rows_in, rows_of_db. by rewrite lookup_assoc. Qed.
Lemma outbox_in : rows_in "outbox_events" rows = outbox_event_row <$> table_rows (outbox d).
Proof. unfold rows_in, rows_of_db. by rewrite lookup_assoc. Qed.
Lemma evaluations_in : rows_in "evaluations" rows = evaluation_row <$> table_rows (evaluations d).
Proof. unfold rows_in, rows_of_db. by rewrite lookup_assoc. Qed.
Lemma quotas_in : rows_in "provider_quotas" rows = provider_quota_row <$> table_rows (quotas d).
Proof. unfold rows_in, rows_of_db. by rewrite lookup_assoc. Qed.

Lemma id_key {A} (id : A → uuid) (cells : A → list (string * cell)) (xs : list A) t :
  rows_in t rows = (λ x, list_to_map (cells x)) <$> xs → NoDup (id <$> xs) →
  (∀ x, assoc "id" (cells x) = Some (uuid_cell (id x))) →
  constr_holds t (CPrimaryKey ["id"]) rows = true.
Proof.
  intros Ht Hn Hc. eapply primary_key; [exact Ht|by eapply NoDup_fmap_1| |].
  - intros x _. cbn beta. erewrite key_one; [eauto|apply Hc|done].
  - intros x y k Hx Hy. cbn beta. erewrite !key_one; [|apply Hc|done..]. intros [= <-] [= Hxy].
    eapply fmap_nodup_inj; [done..|]. apply uuid_cell_inj. unfold uuid_cell. congruence.
Qed.

(** A column that names stored runs. *)
Lemma references_runs {A} (f : A → row) c (xs : list A) t del :
  rows_in t rows = f <$> xs →
  (∀ x k, x ∈ xs → key_of [c] (f x) = Some k → ∃ u, k = [uuid_cell u] ∧ is_Some (runs d !! u)) →
  constr_holds t (CForeignKey [c] "runs" ["id"] del) rows = true.
Proof.
  intros Ht Hk. eapply foreign_key; [exact Ht|apply runs_in|]. intros x k Hx Hf.
  destruct (Hk x k Hx Hf) as (u & -> & r & Hr). exists r. split; [by eapply stored_row|].
  rewrite <- (table_ok_id _ _ _ _ _ (wf_runs _ Hwf) Hr). by apply key_one.
Qed.

Lemma run_cell v r c : cell_of (run_row v r) c = default VNull (assoc c (run_cells v r)).
Proof. apply cell_of_pairs. Qed.

Lemma runs_satisfied : table_satisfied "runs" (head_table Run_model) rows.
Proof.
  eapply (encoded Run_model (λ r, run_cells (version (Run.id r)) r)); [by left|apply runs_in|done|cells_fit|].
  repeat (apply Forall_cons; split); [..|constructor]; cbn [fst snd pk fk m_name Run_model].
  - cbn [constr_holds]. rewrite runs_in. apply bool_decide_eq_true, unique_key; [eapply table_rows_nodup, Hwf|].
    intros r r' k (i & Hi)%elem_of_table_rows (j & Hj)%elem_of_table_rows Hk Hk'.
    unfold run_row in Hk, Hk'. erewrite key_two in Hk, Hk' by done. injection Hk as <-. injection Hk' as Hc Hik.
    assert (i = j) as -> by (by eapply (di_keys _ _ _ Hinv)). congruence.
  - eapply checked; [apply runs_in|]. intros r _. unfold check_row. rewrite run_cell. cbn. by destruct (Run.work_kind r).
  - eapply checked; [apply runs_in|]. intros r _. unfold check_row. rewrite run_cell. cbn. by destruct (Run.execution_status r).
  - eapply checked; [apply runs_in|]. intros r _. unfold check_row. rewrite run_cell. cbn. by destruct (Run.evaluation_status r).
  - eapply id_key; [apply runs_in|by eapply table_ids, wf_runs|done].
  - eapply references_runs; [apply runs_in|]. intros r k (i & Hi)%elem_of_table_rows Hk.
    eapply key_nullable in Hk as (u & Hu & ->); [|done]. exists u. split; [done|].
    by eapply (di_replays _ _ _ Hinv).
Qed.

Lemma attempts_satisfied : table_satisfied "run_attempts" (head_table RunAttempt_model) rows.
Proof.
  eapply (encoded RunAttempt_model run_attempt_cells); [set_solver|apply attempts_in|done|cells_fit|].
  repeat (apply Forall_cons; split); [..|constructor]; cbn [fst snd pk fk m_name RunAttempt_model].
  - cbn [constr_holds]. rewrite attempts_in. apply bool_decide_eq_true, unique_key; [eapply table_rows_nodup, Hwf|].
    intros a b k (i & Hi)%elem_of_table_rows (j & Hj)%elem_of_table_rows Hk Hk'.
    unfold run_attempt_row in Hk, Hk'. erewrite key_two in Hk, Hk' by done. injection Hk as <-.
    injection Hk' as Hr Hn.
    assert (RunAttempt.run_id b = RunAttempt.run_id a) as Hab by (apply uuid_cell_inj; unfold uuid_cell; congruence).
    destruct (di_attempts _ _ _ Hinv _ _ Hi) as [r Hrun].
    pose proof (ri_numbers _ _ _ _ (di_runs _ _ _ Hinv _ _ Hrun)) as Hp.
    eapply (fmap_nodup_inj RunAttempt.attempt_number (attempts_of (RunAttempt.run_id a) d)).
    + rewrite Hp. apply NoDup_seqZ.
    + apply elem_of_rows_where. exists i. by rewrite bool_decide_true.
    + apply elem_of_rows_where. exists j. by rewrite bool_decide_true.
    + done.
  - eapply id_key; [apply attempts_in|by eapply table_ids, wf_attempts|done].
  - eapply references_runs; [apply attempts_in|]. intros a k (i & Hi)%elem_of_table_rows Hk.
    unfold run_attempt_row in Hk. erewrite key_one in Hk by done. injection Hk as <-.
    exists (RunAttempt.run_id a). split; [done|]. by eapply di_attempts.
Qed.

Lemma events_satisfied : table_satisfied "run_events" (head_table RunEvent_model) rows.
Proof.
  eapply (encoded RunEvent_model run_event_cells); [set_solver|apply events_in|done|cells_fit|].
  pose proof (wf_event_refs _ Hwf) as Hrefs. rewrite Forall_forall in Hrefs.
  repeat (apply Forall_cons; split); [..|constructor]; cbn [fst snd pk fk m_name RunEvent_model].
  - eapply id_key; [apply events_in|apply Hwf|done].
  - eapply references_runs; [apply events_in|]. intros e k He Hk.
    unfold run_event_row in Hk. erewrite key_one in Hk by done. injection Hk as <-.
    exists (RunEvent.run_id e). split; [done|]. apply (Hrefs e He).
  - eapply foreign_key; [apply events_in|apply attempts_in|]. intros e k He Hk.
    eapply key_nullable in Hk as (u & Hu & ->); [|done].
    destruct (proj2 (Hrefs e He) u Hu) as [a Ha]. exists a. split; [by eapply stored_row|].
    rewrite <- (table_ok_id _ _ _ _ _ (wf_attempts _ Hwf) Ha). by apply key_one.
Qed.

Lemma outbox_satisfied : table_satisfied "outbox_events" (head_table OutboxEvent_model) rows.
Proof.
  eapply (encoded OutboxEvent_model outbox_event_cells); [set_solver|apply outbox_in|done|cells_fit|].
  apply Forall_singleton. eapply id_key; [apply outbox_in|by eapply table_ids, wf_outbox|done].
Qed.

Lemma evaluation_cell e c : cell_of (evaluation_row e) c = default VNull (assoc c (evaluation_cells e)).
Proof. apply cell_of_pairs. Qed.

Lemma evaluations_satisfied : table_satisfied "evaluations" (head_table Evaluation_model) rows.
Proof.
  eapply (encoded Evaluation_model evaluation_cells); [set_solver|apply evaluations_in|done|cells_fit|].
  repeat (apply Forall_cons; split); [..|constructor]; cbn [fst snd pk fk m_name Evaluation_model].
  - cbn [constr_holds]. rewrite evaluations_in. apply bool_decide_eq_true, unique_key; [eapply table_rows_nodup, Hwf|].
    intros e e' k (i & Hi)%elem_of_table_rows (j & Hj)%elem_of_table_rows Hk Hk'.
    eapply key_nullable in Hk as (u & Hu & Hku); [|done]. eapply key_nullable in Hk' as (v & Hv & Huv); [|done].
    rewrite Hku in Huv. injection Huv as Huv. assert (u = v) as <- by (apply uuid_cell_inj; unfold uuid_cell; congruence).
    assert (i = j) as -> by (by eapply (proj2 (di_jobs _ _ _ Hinv))). congruence.
  - eapply checked; [apply evaluations_in|]. intros e _. unfold check_row. rewrite evaluation_cell. cbn.
    by destruct (Evaluation.status e).
  - eapply id_key; [apply evaluations_in|by eapply table_ids, wf_evaluations|done].
  - eapply references_runs; [apply evaluations_in|]. intros e k (i & Hi)%elem_of_table_rows Hk.
    unfold evaluation_row in Hk. erewrite key_one in Hk by done. injection Hk as <-.
    exists (Evaluation.run_id e). split; [done|]. by eapply wf_evaluation_refs.
  - eapply references_runs; [apply evaluations_in|]. intros e k (i & Hi)%elem_of_table_rows Hk.
    eapply key_nullable in Hk as (u & Hu & ->); [|done]. exists u. split; [done|].
    by eapply (proj1 (di_jobs _ _ _ Hinv)).
Qed.

Lemma quotas_satisfied : table_satisfied "provider_quotas" (head_table ProviderQuota_model) rows.
Proof.
  eapply (encoded ProviderQuota_model provider_quota_cells); [set_solver|apply quotas_in|done|cells_fit|].
  pose proof (wf_quotas _ Hwf) as Hq.
  repeat (apply Forall_cons; split); [..|constructor]; cbn [fst snd pk fk m_name ProviderQuota_model].
  - eapply checked; [apply quotas_in|]. intros q (i & Hi)%elem_of_table_rows. unfold check_row, provider_quota_row.
    rewrite cell_of_pairs. cbn. apply Z.leb_le, (Hq _ _ Hi).
  - assert (∀ i q, quotas d !! i = Some q → ProviderQuota.scope q = i) as Hid by (intros i q Hi; apply (Hq _ _ Hi)).
    eapply primary_key; [apply quotas_in| | |].
    + apply (NoDup_fmap_1 ProviderQuota.scope). unfold table_rows, rows_where. rewrite <- list_fmap_compose.
      rewrite (list_fmap_ext _ fst); [apply NoDup_fst_map_to_list|].
      intros n [k q] Hk. apply list_elem_of_lookup_2, elem_of_map_to_list, map_lookup_filter_Some in Hk as [Hk _].
      by apply Hid.
    + intros q _. unfold provider_quota_row. erewrite key_one by done. eauto.
    + intros q q' k (i & Hi)%elem_of_table_rows (j & Hj)%elem_of_table_rows Hk Hk'.
      unfold provider_quota_row in Hk, Hk'. erewrite key_one in Hk, Hk' by done.
      injection Hk as <-. injection Hk' as Hs. apply Hid in Hi as Hi', Hj as Hj'. congruence.
Qed.

Lemma database_satisfied :
  Forall (λ m, table_satisfied (m_name m) (head_table m) rows) runtime_models.
Proof.
  repeat (apply Forall_cons; split); [apply runs_satisfied|apply attempts_satisfied|apply events_satisfied
    |apply outbox_satisfied|apply evaluations_satisfied|apply quotas_satisfied|constructor].
Qed.
End Integrity.

(** (C11) The services never leave the catalogue: in every state the system reaches, the rows of
    each of its tables have exactly the columns that the head of the migration chain gives the
    table, every cell is of its column's kind and null only where the column allows it, and every
    constraint of the table holds: primary keys and unique constraints (one run per client and
    idempotency key, one attempt per run and number, one evaluation per job), checks (the status
    and work-kind lists, no negative quota) and foreign keys (replays, attempts, events,
    evaluations and their jobs name stored rows).  So no statement of the services is refused with
    an integrity error, whatever the order in which they act. *)
Theorem reachable_rows_satisfy_catalogue `{Host} limits sm lease job_timeout check_schema s version m :
  num_in 1 3600 job_timeout →
  reachable limits sm lease job_timeout check_schema s → m ∈ runtime_models →
  ∃ td, s_tables head_schema !! m_name m = Some td
    ∧ table_satisfied (m_name m) td (rows_of_db version (sdb s)).
Proof.
  intros Hjob Hs Hm. exists (head_table m).
  pose proof head_tables as Ht. rewrite Forall_forall in Ht. split; [by apply Ht|].
  apply (reachable_inv _ _ _ _ _ Hjob) in Hs.
  pose proof (database_satisfied limits sm version (sdb s) (si_wf _ _ _ Hs) (si_db _ _ _ Hs)) as Hd.
  rewrite Forall_forall in Hd. by apply Hd.
Qed.

#[local] Existing Instance demo_host.

Lemma reachable_rows_satisfy_catalogue_witness :
  (∃ td, s_tables head_schema !! "run_events" = Some td
    ∧ table_satisfied "run_events" td (rows_of_db (λ _, 1) (sdb demo_done)))
  ∧ length (rows_in "run_events" (rows_of_db (λ _, 1) (sdb demo_done))) = length (events (sdb demo_done))
  ∧ bool_decide (events (sdb demo_done) = []) = false.
Proof.
  split_and!; [|by rewrite events_in, length_fmap|by vm_compute].
  apply (reachable_rows_satisfy_catalogue demo_limits 5 60 (NInt 60) (λ _, true) demo_done (λ _, 1) RunEvent_model
           demo_job_timeout demo_done_reachable).
  by right; right; left.
Defined.

(** ** Width of the quota window *)

(** The largest value of an [INTEGER] column. *)
Definition int4_max : Z := 2147483647.

(** The window a charge records is a Unix time in an [INTEGER] column: both rows get the
    window of the charge, which the column holds exactly until the first window that starts after
    [int4_max]; with windows of an hour, until 2038-01-19T04:00:00Z. *)
Theorem quota_window_fits_column q epoch p t limits q' :
  0 < window_seconds limits → charge_provider_call q epoch p t limits = Ok q' →
  ∃ prow trow, q' !! p_scope p = Some prow ∧ q' !! t_scope t = Some trow
    ∧ ProviderQuota.window_start prow = ProviderQuota.window_start trow
    ∧ (ProviderQuota.window_start prow ≤ int4_max
       ↔ epoch < (int4_max / window_seconds limits + 1) * window_seconds limits).
Proof.
  unfold charge_provider_call, _current_window. intros Hw Hc.
  apply result_bind_ok in Hc as (prow & Hp & Hc). apply result_bind_ok in Hc as (trow & Ht & [= <-]).
  apply open_scope_row_ok in Hp as (Hp & _), Ht as (Ht & _).
  exists (charge_row prow), (charge_row trow). cbn.
  rewrite lookup_insert_eq, lookup_insert_ne, lookup_insert_eq by (apply not_eq_sym, scopes_differ).
  split_and!; [done..|congruence|]. rewrite Hp. unfold int4_max. set (w := window_seconds limits) in *.
  pose proof (Z.div_mod epoch w ltac:(lia)). pose proof (Z.mod_pos_bound epoch w Hw).
  pose proof (Z.div_mod 2147483647 w ltac:(lia)). pose proof (Z.mod_pos_bound 2147483647 w Hw).
  set (a := epoch / w) in *. set (b := 2147483647 / w) in *.
  split; intros; (assert (a ≤ b) by (apply Z.lt_succ_r, (Z.mul_lt_mono_pos_r w); lia)); nia.
Qed.

Lemma quota_window_fits_column_witness :
  ∃ q' prow, charge_provider_call ∅ 2147486400 "alice" "acme" default_limits = Ok q'
    ∧ q' !! p_scope "alice" = Some prow ∧ ¬ ProviderQuota.window_start prow ≤ int4_max.
Proof.
  destruct (charge_provider_call ∅ 2147486400 "alice" "acme" default_limits) as [q'|] eqn:E; [|by vm_compute in E].
  destruct (quota_window_fits_column ∅ 2147486400 "alice" "acme" default_limits q' ltac:(done) E)
    as (prow & _ & Hp & _ & _ & Hfit).
  exists q', prow. split_and!; [done..|]. rewrite Hfit. vm_compute. done.
Defined.
