(* ===== verification/Witnesses.v ===== *)
(** * The theorems at work

    Each theorem with hypotheses applied to a concrete run of the system: the scenarios of
    [Simulator], on the demonstration host, satisfy the hypotheses and the conclusion is
    read off them. *)

From S2P Require Import Prelude Float64 PyValue States Routing Retry Models Quotas Canonical RunService.
From S2P Require Import ExecutionService Lifecycle Refinement Messaging System Simulator.
From S2P Require Import Guarantees ExecutionTheorems Moves.
Local Open Scope Z_scope.

Section Witnesses.
#[local] Existing Instance demo_host.
Abbreviation demo_step := (step demo_limits 5 60 (NInt 60) (λ _, true)).

(** The run the scenarios are about, in a state. *)
Definition demo_run (s : sys) : Run.t :=
  default (new_run 0 "" "" wk_execution "" "" [] [] [] None 0) (runs (sdb s) !! 0%N).

Lemma demo_queued_wf : db_wf (sdb demo_queued).
Proof. eapply si_wf, reachable_inv, demo_queued_reachable. apply demo_job_timeout. Qed.
Lemma demo_running_wf : db_wf (sdb demo_running).
Proof. eapply si_wf, reachable_inv, demo_running_reachable. apply demo_job_timeout. Qed.

Lemma demo_policy_ok : policy_ok demo_policy sample_policy.
Proof. split; by vm_compute. Qed.

Lemma no_run_is_lost_witness : pending demo_queued 0%N.
Proof.
  apply (no_run_is_lost demo_limits 5 60 (NInt 60) (λ _, true) demo_job_timeout demo_queued 0%N
           (demo_run demo_queued) demo_queued_reachable).
  by vm_compute.
Defined.

Lemma one_worker_at_a_time_witness :
  ∃ w a, Run.execution_lease_owner (demo_run demo_running) = Some w
    ∧ filter is_open (attempts_of 0 (sdb demo_running)) = [a] ∧ RunAttempt.worker_id a = w
    ∧ (∀ b, b ∈ attempts_of 0 (sdb demo_running) → RunAttempt.attempt_number b ≤ RunAttempt.attempt_number a).
Proof.
  apply (one_worker_at_a_time demo_limits 5 60 (NInt 60) (λ _, true) demo_job_timeout demo_running 0%N
           (demo_run demo_running) demo_running_reachable).
  by vm_compute.
Defined.

Lemma attempts_numbered_within_budget_witness :
  ∃ p, from_snapshot (Run.policy_snapshot (demo_run demo_done)) = Ok p
    ∧ RunAttempt.attempt_number <$> attempts_of 0 (sdb demo_done) ≡ₚ seqZ 1 (len (attempts_of 0 (sdb demo_done)))
    ∧ len (attempts_of 0 (sdb demo_done)) ≤ Z.min (max_attempts p) 5.
Proof.
  apply (attempts_numbered_within_budget demo_limits 5 60 (NInt 60) (λ _, true) demo_job_timeout demo_done 0%N
           (demo_run demo_done)); [lia|apply demo_done_reachable|by vm_compute].
Defined.

Lemma concurrency_quotas_hold_witness :
  count_runs (active_of_principal "acme") (sdb demo_running) ≤ 2
  ∧ count_runs (active_of_tenant "acme") (sdb demo_running) ≤ 3
  ∧ count_runs (running_of_principal "acme") (sdb demo_running) ≤ 1
  ∧ count_runs (running_of_tenant "acme") (sdb demo_running) ≤ 2.
Proof.
  apply (concurrency_quotas_hold demo_limits 5 60 (NInt 60) (λ _, true) demo_job_timeout demo_running "acme");
    [done..|apply demo_running_reachable].
Defined.

(** Nothing a crash, a retry pass or a recovery pass does changes the finished run. *)
Definition later : list action := [ASchedule (seconds 200) 10; ARecover (seconds 300) 10; demo_submit].

Lemma later_steps s : bool_decide (is_Some (simulate demo_limits 5 60 later s)) = true →
  rtc demo_step s (after demo_limits 5 60 later s).
Proof. intros Hs%bool_decide_eq_true. by apply after_steps. Qed.

Lemma finished_run_is_final_witness :
  ∃ r', runs (sdb (after demo_limits 5 60 later demo_done)) !! 0%N = Some r'
    ∧ same_outcome (demo_run demo_done) r'
    ∧ attempts_of 0 (sdb (after demo_limits 5 60 later demo_done)) ≡ₚ attempts_of 0 (sdb demo_done).
Proof.
  apply (finished_run_is_final demo_limits 5 60 (NInt 60) (λ _, true) demo_job_timeout demo_done
           (after demo_limits 5 60 later demo_done) 0%N (demo_run demo_done));
    [apply demo_done_reachable|apply later_steps; by vm_compute|by vm_compute..].
Defined.

(** The claim of the queued run is one step, and one move. *)
Lemma runs_follow_lifecycle_witness :
  ∃ s s' r r1 r', demo_step s s' ∧ runs (sdb s) !! 0%N = Some r ∧ Run.execution_status r = QUEUED
    ∧ runs (sdb s') !! 0%N = Some r' ∧ Run.execution_status r' = RUNNING
    ∧ lifecycle_move demo_limits 5 60 (sdb s) r r1 ∧ same_outcome r1 r'.
Proof.
  set (l := take 3 running_schedule).
  set (s := after demo_limits 5 60 l boot). set (s' := after demo_limits 5 60 [AReceive (seconds 3)] s).
  assert (reachable demo_limits 5 60 (NInt 60) (λ _, true) s) as Hs.
  { apply after_steps. apply (bool_decide_eq_true_1 _). by vm_compute. }
  assert (demo_step s s') as Hst.
  { apply (run_action_step demo_limits 5 60 (NInt 60) (λ _, true) (AReceive (seconds 3))). by vm_compute. }
  pose proof (runs_follow_lifecycle demo_limits 5 60 (NInt 60) (λ _, true) demo_job_timeout s s' 0%N Hs Hst) as Hm.
  assert (Run.execution_status <$> runs (sdb s) !! 0%N = Some QUEUED) as Hq by (by vm_compute).
  assert (Run.execution_status <$> runs (sdb s') !! 0%N = Some RUNNING) as Hr by (by vm_compute).
  destruct (runs (sdb s) !! 0%N) as [r|] eqn:E; [|done]. destruct Hm as (r1 & r' & Hr' & _ & Hmv & Heq & _).
  rewrite Hr' in Hr. injection Hq as Hq. injection Hr as Hr. exists s, s', r, r1, r'. split_and!; done.
Defined.

(** The same request under the same key after the run has finished, and another one. *)
Lemma submit_idempotent_forever_witness :
  (∃ s', submit demo_limits demo_tx "acme" "key-1" demo_input demo_policy (Some "alice") wk_execution
           (sdb demo_done) = (Ok (s', true), sdb demo_done) ∧ rs_id s' = 0%N)
  ∧ ∃ d, (submit demo_limits demo_tx "acme" "key-1" demo_input demo_policy None wk_execution (sdb boot)).2 = d
     ∧ submit demo_limits demo_tx "acme" "key-1" [] demo_policy None wk_execution d
       = (Err IdempotencyConflictError, d).
Proof.
  set (X := submit demo_limits demo_tx "acme" "key-1" demo_input demo_policy None wk_execution (sdb boot)).
  assert (X = (Ok (_to_run_snapshot (demo_run demo_queued), false), X.2)) as HX
    by (rewrite (surjective_pairing X) at 1; f_equal; by vm_compute).
  pose proof (submit_idempotent_forever demo_limits 5 60 (NInt 60) (λ _, true) demo_job_timeout boot demo_tx "acme"
    "key-1" demo_input demo_policy sample_policy None wk_execution (_to_run_snapshot (demo_run demo_queued)) false X.2)
    as Hf.
  split.
  - assert (rtc demo_step (with_db X.2 boot) demo_done) as Hst.
    { apply (simulate_steps demo_limits 5 60 (NInt 60) (λ _, true) (drop 1 done_schedule)). by vm_compute. }
    apply (Hf demo_done demo_tx demo_input demo_policy (Some "alice") wk_execution);
      [apply rtc_refl|done|done|apply demo_policy_ok|exact HX|exact Hst].
  - exists X.2. split; [done|].
    apply (Hf (with_db X.2 boot) demo_tx [] demo_policy None wk_execution);
      [apply rtc_refl|done|done|apply demo_policy_ok|exact HX|apply rtc_refl].
Defined.

(** ** Transactions *)

Abbreviation demo_claim := (claim 60 demo_limits 5 (seconds 3) (seconds 3) 0%N "worker-1" (sdb demo_queued)).

Lemma claim_takes_exclusive_lease_witness :
  ∃ c d', demo_claim = (Ok c, d') ∧ cr_decision c = CLAIMED
    ∧ claim 60 demo_limits 5 (seconds 62) (seconds 62) 0%N "worker-2" d' = (Ok (claim_result ACTIVE_LEASE 0%N), d').
Proof.
  destruct demo_claim as [[c|e] d'] eqn:E; [|by vm_compute in E]. exists c, d'.
  assert (cr_decision c = CLAIMED) as Hc by (assert (demo_claim.1 = Ok c) as Hx by (by rewrite E); vm_compute in Hx; by injection Hx as <-).
  split_and!; [done|done|].
  pose proof (claim_takes_exclusive_lease demo_limits 5 60 (seconds 3) (seconds 3) 0%N "worker-1" (sdb demo_queued) c d'
    demo_queued_wf E Hc) as (r & p & a & _ & _ & _ & _ & _ & _ & _ & _ & _ & _ & _ & _ & _ & _ & Hex).
  by apply Hex.
Defined.

(** Two runs of the same principal: one is running, the other waits. *)
Definition two_runs : sys :=
  after demo_limits 5 60
    (demo_submit :: ASubmit demo_tx "acme" "key-2" demo_input demo_policy wk_execution :: drop 1 running_schedule) boot.

Lemma two_runs_wf : db_wf (sdb two_runs).
Proof.
  eapply si_wf, reachable_inv; [apply demo_job_timeout|].
  eapply played. by vm_compute.
Qed.

Lemma claim_defers_against_table_witness :
  claim 60 demo_limits 5 (seconds 5) (seconds 5) 0%N "worker-2" (sdb two_runs)
  = (Ok (claim_result NOT_READY 0%N), put_run (defer_run (seconds 5) (demo_run two_runs)) (sdb two_runs))
  ∧ ensure_execution_transition QUEUED RETRY_SCHEDULED = Err InvalidExecutionTransition.
Proof.
  destruct (claim_defers_against_table demo_limits 5 60 (seconds 5) (seconds 5) 0%N "worker-2" (sdb two_runs)
    (demo_run two_runs) two_runs_wf) as (Hc & _ & _ & He); [by vm_compute..|]. by split.
Defined.

(** The attempt of the running scenario. *)
Definition demo_attempt : uuid := 4%N.

Lemma failure_retries_or_finishes_witness :
  ∃ r', runs (complete_failure (seconds 4) (seconds 4) 0%N demo_attempt "worker-1" "PROVIDER_TIMEOUT"
                (sdb demo_running)).2 !! 0%N = Some r'
    ∧ ∃ delay next, delay_after_attempt sample_policy 1 = Ok delay ∧ add_seconds (seconds 4) delay = Ok next
        ∧ same_outcome (retry_run "PROVIDER_TIMEOUT" next (demo_run demo_running)) r'.
Proof.
  set (X := complete_failure (seconds 4) (seconds 4) 0%N demo_attempt "worker-1" "PROVIDER_TIMEOUT"
              (sdb demo_running)).
  destruct (failure_retries_or_finishes demo_limits 5 60 (seconds 4) (seconds 4) 0%N demo_attempt "worker-1"
    "PROVIDER_TIMEOUT" (sdb demo_running) X.2 demo_running_wf) as (r & a & p & r' & Hr & Ha & Hp & _ & Hr' & Hout).
  { fold X. rewrite (surjective_pairing X) at 1. by vm_compute. }
  exists r'. split; [done|].
  assert (r = demo_run demo_running) as -> by (apply (inj Some); rewrite <- Hr; by vm_compute).
  assert (@Ok RetryPolicy p = Ok sample_policy) as [= ->] by (rewrite <- Hp; by vm_compute).
  assert (RunAttempt.attempt_number a = 1) as Hn
    by (apply (inj Some); change (RunAttempt.attempt_number <$> Some a = Some 1); rewrite <- Ha; by vm_compute).
  rewrite Hn in Hout. exact Hout.
Defined.

Lemma attempt_completed_at_most_once_witness :
  let d1 := (complete_success (seconds 4) (seconds 4) 0%N demo_attempt "worker-1" demo_result
               (sdb demo_running)).2 in
  complete_success (seconds 5) (seconds 5) 0%N demo_attempt "worker-1" demo_result d1 = (Ok false, d1)
  ∧ complete_failure (seconds 5) (seconds 5) 0%N demo_attempt "worker-1" "EXECUTION_ERROR" d1 = (Ok false, d1).
Proof.
  set (X := complete_success (seconds 4) (seconds 4) 0%N demo_attempt "worker-1" demo_result (sdb demo_running)).
  apply (attempt_completed_at_most_once demo_limits 5 60 (NInt 60) (λ _, true) demo_job_timeout demo_running
    (seconds 4) (seconds 4) 0%N demo_attempt "worker-1" demo_result "" X.2 (with_db X.2 demo_running));
    [apply demo_running_reachable| |apply rtc_refl].
  left. fold X. rewrite (surjective_pairing X) at 1. by vm_compute.
Defined.

(** The worker has died: its lease, taken at second 3 for a minute, has expired. *)
Lemma recovery_frees_expired_leases_witness :
  lease_expired (seconds 100) (demo_run demo_running) = true
  ∧ ∃ d' c, recover_expired_leases (seconds 100) (seconds 100) (λ _, true) 10 (sdb demo_running) = (Ok c, d')
      ∧ ∀ k r, runs d' !! k = Some r → lease_expired (seconds 100) r = false.
Proof.
  split; [by vm_compute|].
  apply (recovery_frees_expired_leases demo_limits 5 60 (NInt 60) (λ _, true) demo_job_timeout demo_running
    (seconds 100) (seconds 100) 10 demo_running_reachable); by vm_compute.
Defined.

Lemma due_retries_are_queued_witness :
  retry_due (seconds 100) (demo_run demo_retry) = true
  ∧ ∃ d' c, schedule_due_retries (seconds 100) (seconds 100) (λ _, true) 10 (sdb demo_retry) = (Ok c, d')
      ∧ announced d' 0%N.
Proof.
  assert (retry_due (seconds 100) (demo_run demo_retry) = true) as Hdue by (by vm_compute).
  split; [done|]. destruct (due_retries_are_queued demo_limits 5 60 (NInt 60) (λ _, true) demo_job_timeout demo_retry
    (seconds 100) (seconds 100) 10 demo_retry_reachable) as (d' & c & Hd & Hall); [by vm_compute|].
  exists d', c. split; [done|]. specialize (Hall 0%N (demo_run demo_retry)). rewrite Hdue in Hall.
  destruct Hall as (_ & _ & Ha); [by vm_compute|done].
Defined.

(** ** Run service *)

Lemma history_pagination_complete_witness :
  read_all es_id (λ cur, get_events "acme" 0%N 2 cur (sdb demo_done)) 2 20 None
  = Ok (map _to_event_snapshot
          (sort_by (row_lt RunEvent.created_at RunEvent.id) (event_rows 0%N (sdb demo_done)))).
Proof.
  apply (history_pagination_complete "acme" 0%N (sdb demo_done) 2 20);
    [|by vm_compute|lia|by apply Nat.ltb_lt; vm_compute..].
  eapply si_wf, reachable_inv, demo_done_reachable. apply demo_job_timeout.
Defined.

Lemma other_tenant_sees_nothing_witness :
  get_run "rival" 0%N (sdb demo_done) = Err RunNotFoundError
  ∧ replay demo_limits demo_tx "rival" 0%N "key-9" None (sdb demo_done) = (Err RunNotFoundError, sdb demo_done).
Proof.
  destruct (other_tenant_sees_nothing demo_limits (NInt 60) (λ _, true) demo_tx "rival" 0%N (demo_run demo_done)
    (sdb demo_done) 10 None "key-9" None []) as (Hg & _ & _ & _ & Hr & _); [by vm_compute..|]. by split.
Defined.

Lemma submit_creates_one_run_witness :
  ∃ r, runs (sdb demo_queued) = <[0%N := r]> ∅ ∧ Run.execution_status r = QUEUED.
Proof.
  set (X := submit demo_limits demo_tx "acme" "key-1" demo_input demo_policy None wk_execution (sdb boot)).
  destruct (submit_creates_one_run demo_limits demo_tx "acme" "key-1" demo_input demo_policy None wk_execution
    (sdb boot) (_to_run_snapshot (demo_run demo_queued)) X.2) as (_ & (r & Hr & Hs & _) & _).
  - apply db_wf_empty.
  - fold X. rewrite (surjective_pairing X) at 1. by vm_compute.
  - exists r. split; [|done]. etrans; [|exact Hr]. by vm_compute.
Defined.

Lemma submit_race_resolved_witness :
  submit_seeing demo_limits empty_db demo_tx "acme" "key-1" demo_input demo_policy None wk_execution (sdb demo_queued)
  = submit demo_limits demo_tx "acme" "key-1" demo_input demo_policy None wk_execution (sdb demo_queued).
Proof.
  apply (submit_race_resolved demo_limits empty_db demo_tx "acme" "key-1" demo_input demo_policy None wk_execution
    (sdb demo_queued) (demo_run demo_queued)); by vm_compute.
Defined.

(** ** Routing *)

Definition routing_request (candidates : list string) : dict :=
  [("routing", JObj [("strategy", JStr "lowest_cost");
                     ("candidates", JArr (JStr <$> candidates))])].
Abbreviation decide_route l := (resolve_routing_decision (routing_request l) None DEFAULT_PROVIDER_CATALOG).

Lemma routing_decision_order_witness :
  ∃ rd, decide_route ["openai"; "deterministic"] = Ok rd
    ∧ rd_provider_order rd ≡ₚ ["openai"; "deterministic"] ∧ NoDup (rd_provider_order rd).
Proof.
  destruct (decide_route ["openai"; "deterministic"]) as [rd|] eqn:E; [|by vm_compute in E].
  exists rd. split; [done|].
  destruct (routing_decision_order _ _ _ E) as (rt & c & Hrt & Hc & Hp & Hnd & _).
  cbn in Hrt. injection Hrt as <-. vm_compute in Hc. injection Hc as <-. split; [|done].
  etrans; [exact Hp|]. by vm_compute.
Defined.

Lemma routing_order_insensitive_witness :
  ∃ rd1 rd2, decide_route ["openai"; "deterministic"] = Ok rd1
    ∧ decide_route ["deterministic"; "openai"] = Ok rd2 ∧ rd_provider_order rd1 = rd_provider_order rd2.
Proof.
  destruct (decide_route ["openai"; "deterministic"]) as [rd1|] eqn:E1; [|by vm_compute in E1].
  destruct (decide_route ["deterministic"; "openai"]) as [rd2|] eqn:E2; [|by vm_compute in E2].
  exists rd1, rd2. split_and!; [done|done|].
  apply (routing_order_insensitive (routing_request ["openai"; "deterministic"])
    (routing_request ["deterministic"; "openai"]) None
    [("strategy", JStr "lowest_cost"); ("candidates", JArr (JStr <$> ["openai"; "deterministic"]))]
    [("strategy", JStr "lowest_cost"); ("candidates", JArr (JStr <$> ["deterministic"; "openai"]))]
    ["openai"; "deterministic"] ["deterministic"; "openai"] rd1 rd2);
    [reflexivity|reflexivity|by vm_compute|by vm_compute|apply Permutation_swap|exact E1|exact E2|].
  vm_compute in E1, E2. by injection E1 as <-; injection E2 as <-.
Defined.
End Witnesses.
